(* ===== verification/_CoqProject ===== *)
-Q . S2P
Prelude.v
Go.v
WireErrors.v
Header.v
ReadWrite.v
ServerCodec.v
Memory.v
Session.v
Server.v
Lifecycle.v
Serve.v
Codec.v
Userdata.v
Inspect.v
Client.v
ClientRW.v
ClientSZL.v
ClientBlocks.v
Locking.v
RWLock.v
Concurrent.v
Snapshot.v
ServerShared.v
RangeScan.v
Triple.v
Safety.v
Trace.v
Pool.v
Probe.v
ProbeSeen.v
ProbeProps.v
Compare.v
Discover.v
Workers.v
ScanProps.v
Capture.v
Reassembly.v
Recording.v
CaptureProps.v
Cpu.v
Peer.v
Loopback.v
EndToEnd.v
Refine.v
ConcurrentProps.v
Trees.v
Interop.v
Sharing.v
InteropProps.v
Harness.v
HarnessProps.v
ServerProps.v
WireProps.v
ClientProps.v
BlockProps.v
