(* ===== verification/Prelude.v ===== *)
(** * Verification of go-s7comm

    go-s7comm speaks Siemens S7comm, a request/answer protocol carried over
    COTP.  A client sends a job with a reference; the server answers with the
    same reference.  This library models the Go packages of the repository
    as executable functions and proves what makes them correct.

    ** The program and its model

    - [Prelude]: notation, tactics, the hint database [go] and the generic lemmas on
      bytes, big-endian integers and lists.
    - [Go]: what the sources use of Go and its standard library: errors as
      data (wrapping, errors.Is), results [res] with the third outcome
      "panic" (index or slice out of range), slicing, fixed-width integers,
      formatting of numbers in messages.
    - [WireErrors]: wire/errors.go and wire/param_error.go.
    - [Header]: wire/s7.go, wire/pdu_setup.go, wire/cotp.go.
    - [ReadWrite]: wire/pdu_rw.go, requests and strict answer parsing.
    - [ServerCodec]: wire/pdu_server.go, job decoding, DBREAD, answers.
    - [Memory]: server/memory.go.  The registered areas are a [gmap] from
      area key to region; each operation is one step here, its lock is the
      subject of [ServerShared].
    - [Session]: server/session.go.  [handle] maps a session, a memory and a
      request to an answer and the state after it; [read_spec],
      [writeItem_spec] and [client_step] are the abstract side.
    - [Server]: server/server.go, configuration and the request loop, with
      host-side changes interleaved between requests.
    - [Lifecycle]: the rest of server/server.go.  Serve, the goroutine of each
      connection and Close are threads of a step relation on the listeners,
      connections, slots and wait group.  [Serve] adds the contexts of the
      calls of Serve and what they return.
    - [Codec]: model/codec/codec.go.  A float is its IEEE bit pattern.
    - [Userdata]: wire/pdu_szl.go, wire/pdu_blocks.go.
    - [Inspect]: wire/inspect.go, the summary of one TPDU of a capture.
    - [Client]: client/options.go, client/client.go, client/handshake.go.
      The state monad [M] carries the client and the network; the COTP
      connection is the class [Transport] (go-cotp, net and context are not
      part of the repository), whose instances are given by [Loopback] and by
      the scripted network of [ClientProps].
    - [ClientRW]: client/readwrite.go, bit.go, result.go, the address part of
      client/validation.go, and the records of model/areas.go.
    - [ClientSZL]: client/szl.go and model/device.go, the user data exchange
      with follow-ups and what is read with it.
    - [ClientBlocks]: client/blocks.go and model/blocks.go, block functions
      and the upload with retries and its deferred end request.
    - [Locking]: goroutines that call the operations of one object behind a
      mutex, each operation cut into atomic steps; histories, the atomic object
      and linearizability.  [RWLock]: the same for sync.RWMutex, with state of
      the goroutines' own.  Three parts of the program are instances:
    - [Concurrent]: the operations of a client behind [reqMu], with the checks
      before it, and their finest cut into steps.
    - [Snapshot]: the fields of the connection behind [mu], assigned by Connect
      and Close and copied by ConnectionInfo, PDUSize and sendReceive.
    - [ServerShared]: the requests of all connections of a server and the calls
      of its host on the shared memory, item by item under its lock.
    - [RangeScan]: client/rangescan.go.
    - [Triple], [Safety]: a program logic for client operations, and that none
      of them panics.
    - [Trace]: the environment with a log of the requests written to it, and
      what each operation appends to that log over any network.
    - [Pool]: the bounded pool of goroutines that client/probe.go and
      client/compare.go start, as a step relation over any outcomes of a job.
    - [Probe]: client/probe.go; [ProbeRackSlots] relates a request to the
      results of all runs of its pool.  [ProbeSeen] watches the calls a probe
      makes of the network and says which candidate they must give.
    - [Compare]: client/compare.go, in the same way.
    - [Discover], [Workers]: client/discover.go, the enumeration of a network
      and the probe of a host, then feeder, workers and collector as
      interleaved threads.
    - [Capture]: internal/capture/capture.go, from a pcap or pcapng file to
      the S7 PDUs of its conversations.  [Reassembly] says what a recording of
      a direction is and what comes out of it, [Recording] writes the frames
      and the file of a whole connection.
    - [Cpu]: what a CPU answers to user data and upload requests, as relations
      on the environment, with a concrete one for the witnesses.
    - [Peer]: the contract between client and server.  The classes [S7Reader]
      and [S7Peer] say that each valid job is answered as an abstract memory
      would; the client's reads and writes are verified against them.
    - [Loopback]: a network whose peer is the model of the server.  Its
      instance [net_peer] discharges [S7Peer] from the theorems on [handle].
    - [Trees]: operations of a client as trees of network calls, and groups of
      goroutines with clients of their own that make their calls over one
      network in the order of a schedule.
    - [Interop]: interop/fixture.go and interop/runner.go, the loading of the
      interoperability fixtures and the runner that drives a client through
      the steps of one.
    - [Sharing]: the network as one goroutine of a group sees it, with calls of
      the others in between.  Its instance [noisy_reader] discharges
      [S7Reader], so that what is proved of reading alone holds in the group.
    - [Harness]: interop/harness.go, the containers of the servers under test;
      docker and the clock are the class [Docker].

    ** What the theorems show

    - [Refine] (C1): a client connected to the server refines an abstract
      memory service, for every sequence of reads, writes and bit operations.
    - [ConcurrentProps] (C2 to C5): goroutines that share a client refine the
      same service; the connections of a server and its host refine an atomic
      server whose steps are [handle]; concurrent calls on a client over any
      network are linearizable, and nothing but a network call that blocks can
      hold them up; snapshots of a connection are never torn.
    - [EndToEnd] (C6 to C8): client and server together.  Chunked reads
      return the memory, chunked writes are read back, refusals surface with
      their code; Connect negotiates the PDU size.
    - [ServerProps] (C9 to C17): the handler never panics, the answers of a
      connection are those of its requests in order, they fit the PDU, writes change exactly what they address, protected areas survive
      whatever happens on a connection, registration and host access are exact;
      connections stay within their limit, a closed server drains without
      the help of its peers, and what Serve returns.
    - [WireProps] (C18 to C20): encoders and parsers are inverse, parsers
      do not panic, conversions are inverse; fields are never truncated.
    - [ClientProps] (C22, C23): results are consistent over any network; failed
      connects change nothing, bad addresses never reach the network; and the
      exact conditions of two defects.
    - [BlockProps] (C21, C24 to C26): no sequence of client operations panics;
      the packets of a response and the segments of an upload are put together
      in order; a CPU cannot hold the client with "more data follows"; an
      upload that begins is ended; SZL records, identification, block lists.
    - [ProbeProps] (C27 to C30): a probe reports what happened on the network,
      it only reads, what a scan reports for every interleaving, and that it
      ends.
    - [ScanProps] (C31 to C34): the spans of a range scan, the verdict of a
      comparison, the hosts of a network, the results of discovery and that
      every interleaving of its threads comes to them.
    - [CaptureProps] (C35 to C37): the capture reader is total and
      deterministic, reassembles exactly what was recorded, and reads back the
      PDUs of a recorded connection.
    - [InteropProps] (C38, C39): a fixture run against the server gets the
      verdict of the abstract memory service, whatever the schedule of its
      goroutines, and a directory of fixtures is loaded back.
    - [HarnessProps] (C40): over any docker, every restart of the harness
      returns, and it asks for the removal of every container it was told of,
      once, and of no other.

    ** Bounds and fuel

    [pduRefLoop] (nextPDURef) has fuel 2, enough by [nextPDURef_ok], since the
    counter cannot be zero twice in a row.  [planLoop] has the total length as
    fuel, enough since every chunk is positive ([planReadChunks_spec]).  The
    chunk loops of ReadArea and WriteArea recurse on a list bounded by the
    requested length; the request loop of the server recurses on the requests.
    The follow-up, retry and segment loops recurse on the source's own limits
    (256, 3, 4096); [blockCounts] and [blockEntries] have the payload's length
    as fuel, four times the number of entries.  [spanLoop] of the range scan has the
    number of observations, each pass taking at least one.  Loops that count
    in [int] wrap around as the source does: [offsetLoop] of the range scan and
    [hostLoop] of discovery answer [None] without fuel, which does not happen
    for limits that [int] can count beyond ([offsetLoop_spec],
    [gives_hostLoop]); [scanOffsets_endless] and [hostLoop_endless] are limits
    for which it does whatever the fuel, and the source does not end either.
    The loops over a capture file and over a stream
    ([pcapLoop], [pcapngLoop], [pdusLoop]) panic when they run out of fuel, so
    that C35, which excludes panics, also shows their fuel, one more than the
    bytes they read, to be enough.  [expandLoop] answers [None] without fuel:
    it is enough for every network but the whole address space, where the
    source does not end either ([expandNet_all]).  [readyLoop] of the harness
    has a pass for every pause that fits the timeout, and two more: enough
    since the clock advances by the pause ([readyLoop_logged]).  Programs of
    [Locking] are trees without loops, so a call has finitely many steps in
    every schedule ([quiet_terminates], [rw_quiet_terminates]); the threads of
    pools, crews and a closed server have decreasing measures.

    A call of the environment is a function that answers.  Where an open
    session may block for good, in concurrent calls of a client, each call of
    the network may or may not be [ready] to answer (C4); elsewhere a theorem
    that says an operation returns means: as far as its network calls do.

    ** What is not modelled

    Logging and the adapter of client/logger.go; the unused records of
    model/fingerprint.go; model/types.go, which forwards to package codec;
    opening files and sockets (ReadFile, ListenAndServe, isPortOpen); the
    memory model of Go below the locks (the steps of the goroutines are
    atomic).  Outside the repository, and so parameters: go-cotp, net, context
    and crypto/rand (the classes [Transport] and [Entropy]), net.ParseCIDR for
    IPv6 text, cotp.Decode in [Inspect], the schedule of the runner's
    goroutines, the file system, json.Unmarshal, int of a float64 out of range,
    the largest capacity of a channel, and docker with the clock. *)

From stdpp Require Export base list gmap strings.
From Stdlib Require Export ZArith Lia ZifyBool Strings.Byte.
From Stdlib Require Import DecimalString.
From Corelib Require Export Init.Byte.

#[global] Open Scope Z_scope.
#[global] Set Default Goal Selector "!".

(** ** Notations *)

Declare Scope go_scope.
Delimit Scope go_scope with go.

(** Go's [[]byte]; a nil slice is the empty list unless a definition says
    otherwise. *)
Abbreviation bytes := (list byte).

(** Go's [len]. *)
Abbreviation len l := (Z.of_nat (length l)).

Notation "a =b b" := (Byte.eqb a b) (at level 70, no associativity) : go_scope.
Notation "a ≠b b" := (negb (Byte.eqb a b)) (at level 70, no associativity) : go_scope.

(** The test of a Go [case] list: [t] is one of [l]. *)
Definition one_of (t : byte) (l : list byte) : bool := existsb (Byte.eqb t) l.
Notation "t ∈b l" := (one_of t l) (at level 70, no associativity) : go_scope.

#[global] Open Scope go_scope.

(** ** Tactics *)

Create HintDb go discriminated.

(** Turn the boolean tests of the source into propositions. *)
Ltac b2p :=
  repeat match goal with
  | H : (_ && _) = true |- _ => apply andb_prop in H as [? ?]
  | H : (_ || _) = false |- _ => apply orb_false_elim in H as [? ?]
  | H : negb _ = true |- _ => apply negb_true_iff in H
  | H : negb _ = false |- _ => apply negb_false_iff in H
  | H : (_ <? _) = true |- _ => apply Z.ltb_lt in H
  | H : (_ <? _) = false |- _ => apply Z.ltb_ge in H
  | H : (_ <=? _) = true |- _ => apply Z.leb_le in H
  | H : (_ <=? _) = false |- _ => apply Z.leb_gt in H
  | H : (_ >? _) = true |- _ => rewrite Z.gtb_ltb in H
  | H : (_ >? _) = false |- _ => rewrite Z.gtb_ltb in H
  | H : (_ >=? _) = true |- _ => rewrite Z.geb_leb in H
  | H : (_ >=? _) = false |- _ => rewrite Z.geb_leb in H
  | H : (_ =? _) = true |- _ => apply Z.eqb_eq in H
  | H : (_ =? _) = false |- _ => apply Z.eqb_neq in H
  | H : (_ =b _) = true |- _ => apply Byte.byte_dec_bl in H
  | H : (_ =b _) = false |- _ => apply Byte.eqb_false in H
  | H : bool_decide _ = true |- _ => apply bool_decide_eq_true_1 in H
  | H : bool_decide _ = false |- _ => apply bool_decide_eq_false_1 in H
  end.

(** Case analysis on the next [if] of the goal. *)
Ltac case_if :=
  match goal with
  | |- context [if ?c then _ else _] => destruct c eqn:?
  end.

(** Case analysis on the next [if] or [match] of a hypothesis. *)
Ltac case_if_in H :=
  match type of H with
  | context [if ?c then _ else _] => destruct c eqn:?
  end.

(** A closed decidable proposition, by evaluation. *)
Ltac by_decision := apply (bool_decide_unpack _); vm_compute; exact I.

(** Split an [||] hypothesis equal to [true]. *)
Ltac split_or :=
  repeat match goal with
  | H : (_ || _) = true |- _ => apply orb_prop in H as [H|H]
  end.

Ltac zsolve := b2p; split_or; b2p; simpl length in *; simplify_eq/=; lia.

(** Decide an [if] of the goal whose test follows by arithmetic. *)
Ltac if_false c := replace c with false by lia.
Ltac if_true c := replace c with true by lia.
Ltac if_arith :=
  match goal with
  | |- context [if ?c then _ else _] => first [ if_true c | if_false c ]
  end; cbv beta iota.

(** ** Bytes *)

#[export] Instance byte_eq_decision : EqDecision byte := Byte.byte_eq_dec.

Lemma beq_refl (b : byte) : (b =b b) = true.
Proof. by apply Byte.byte_dec_lb. Qed.

Lemma beq_ne (a b : byte) : a <> b -> (a =b b) = false.
Proof. intros H. destruct (a =b b) eqn:E; [b2p; congruence | done]. Qed.

Lemma beq_true (a b : byte) : (a =b b) = true <-> a = b.
Proof. split; [apply Byte.byte_dec_bl | apply Byte.byte_dec_lb]. Qed.

Lemma one_of_true t l : (t ∈b l) = true <-> t ∈ l.
Proof.
  unfold one_of. rewrite existsb_exists. split.
  - intros (x & Hx & E). apply beq_true in E as ->. by apply list_elem_of_In.
  - intros H. exists t. split; [by apply list_elem_of_In | apply beq_refl].
Qed.

(** The unsigned value of a byte, and Go's truncating conversion [byte(z)]. *)
Definition b2z (b : byte) : Z := Z.of_N (Byte.to_N b).
Definition z2b (z : Z) : byte := default x00 (Byte.of_N (Z.to_N (z mod 256))).

Lemma b2z_range b : 0 <= b2z b < 256.
Proof. unfold b2z. pose proof (Byte.to_N_bounded b). lia. Qed.

Lemma b2z_z2b z : b2z (z2b z) = z mod 256.
Proof.
  unfold b2z, z2b. pose proof (Z.mod_pos_bound z 256 ltac:(lia)).
  destruct (Byte.of_N (Z.to_N (z mod 256))) eqn:E; simpl.
  - apply Byte.to_of_N in E. rewrite E. lia.
  - apply Byte.of_N_None_iff in E. lia.
Qed.

Lemma b2z_z2b_small z : 0 <= z < 256 -> b2z (z2b z) = z.
Proof. intros. by rewrite b2z_z2b, Z.mod_small. Qed.

Lemma b2z_inj a b : b2z a = b2z b -> a = b.
Proof.
  unfold b2z. intros H. apply N2Z.inj in H.
  pose proof (Byte.of_to_N a). pose proof (Byte.of_to_N b). congruence.
Qed.

Lemma z2b_b2z b : z2b (b2z b) = b.
Proof. apply b2z_inj. rewrite b2z_z2b. apply Z.mod_small, b2z_range. Qed.

Lemma z2b_mod z : z2b (z mod 256) = z2b z.
Proof. apply b2z_inj. rewrite !b2z_z2b. by rewrite Z.mod_mod. Qed.

(** Put the range of every byte of the context at lia's disposal. *)
Ltac byte_ranges :=
  repeat match goal with
  | |- context [b2z ?b] =>
      lazymatch goal with
      | H : 0 <= b2z b < 256 |- _ => fail
      | _ => pose proof (b2z_range b)
      end
  | _ : context [b2z ?b] |- _ =>
      lazymatch goal with
      | H : 0 <= b2z b < 256 |- _ => fail
      | _ => pose proof (b2z_range b)
      end
  end.

(** ** Machine integers *)

Definition u16 (z : Z) : Z := z mod 65536.
Definition u32 (z : Z) : Z := z mod 4294967296.
Definition is_u8 (z : Z) : Prop := 0 <= z < 256.
Definition is_u16 (z : Z) : Prop := 0 <= z < 65536.
Definition is_u32 (z : Z) : Prop := 0 <= z < 4294967296.

(** The signed reading of the low [w] bits. *)
Definition sint (w z : Z) : Z :=
  let m := z mod 2 ^ w in if m <? 2 ^ (w - 1) then m else m - 2 ^ w.

(** Go's [int] on a 64-bit machine. *)
Definition MaxInt64 : Z := 9223372036854775807.
Definition MinInt64 : Z := -9223372036854775808.
Definition i64 (z : Z) : Z := (z + 2 ^ 63) mod 2 ^ 64 - 2 ^ 63.
Definition is_i64 (z : Z) : Prop := MinInt64 <= z <= MaxInt64.

Lemma i64_small z : is_i64 z -> i64 z = z.
Proof. unfold is_i64, i64, MinInt64, MaxInt64. intros. rewrite Z.mod_small; lia. Qed.

Lemma i64_range z : is_i64 (i64 z).
Proof. unfold is_i64, i64, MinInt64, MaxInt64. pose proof (Z.mod_pos_bound (z + 2 ^ 63) (2 ^ 64)). lia. Qed.

Lemma u16_small z : is_u16 z -> u16 z = z.
Proof. unfold is_u16, u16. intros. by apply Z.mod_small. Qed.

Lemma u32_small z : is_u32 z -> u32 z = z.
Proof. unfold is_u32, u32. intros. by apply Z.mod_small. Qed.

Lemma shiftl_lor_add a n b :
  0 <= n -> 0 <= b < 2 ^ n -> Z.lor (Z.shiftl a n) b = a * 2 ^ n + b.
Proof.
  intros Hn Hb. rewrite <- Z.shiftl_mul_pow2 by lia.
  symmetry. rewrite <- Z.lxor_lor.
  - rewrite <- Z.add_nocarry_lxor; [done|].
    apply Z.bits_inj'. intros i Hi. rewrite Z.land_spec, Z.bits_0.
    destruct (Z.ltb_spec i n).
    + rewrite Z.shiftl_spec_low by lia. done.
    + rewrite <- (Z.mod_small b (2 ^ n)) by lia.
      rewrite Z.mod_pow2_bits_high by lia. apply andb_false_r.
  - apply Z.bits_inj'. intros i Hi. rewrite Z.land_spec, Z.bits_0.
    destruct (Z.ltb_spec i n).
    + rewrite Z.shiftl_spec_low by lia. done.
    + rewrite <- (Z.mod_small b (2 ^ n)) by lia.
      rewrite Z.mod_pow2_bits_high by lia. apply andb_false_r.
Qed.

#[global] Arguments Z.shiftl : simpl never.
#[global] Arguments Z.shiftr : simpl never.
#[global] Arguments Z.land : simpl never.
#[global] Arguments Z.lor : simpl never.
#[global] Arguments Z.modulo : simpl never.
#[global] Arguments Z.div : simpl never.
#[global] Arguments b2z : simpl never.
#[global] Arguments z2b : simpl never.

(** ** Decimal and hexadecimal text (fmt's [%d], [%02X], [%04X]) *)

Definition dec (z : Z) : string := NilZero.string_of_int (Z.to_int z).

Definition hex_digit (d : Z) : Ascii.ascii :=
  Ascii.ascii_of_N (Z.to_N (if d <? 10 then 48 + d else 55 + d)).

Definition hex_byte_string (b : byte) : string :=
  String (hex_digit (Z.shiftr (b2z b) 4)) (String (hex_digit (Z.land (b2z b) 15)) EmptyString).

Definition fmt_02X (b : byte) : string := hex_byte_string b.
Definition fmt_04X (z : Z) : string :=
  String.append (hex_byte_string (z2b (Z.shiftr z 8))) (hex_byte_string (z2b z)).

(** ** Lists *)

Section Lists.
Context {A : Type}.
Implicit Types l : list A.

Lemma take_app_exact l1 l2 n : n = length l1 -> take n (l1 ++ l2) = l1.
Proof. intros ->. by rewrite take_app_length. Qed.

Lemma drop_app_exact l1 l2 n : n = length l1 -> drop n (l1 ++ l2) = l2.
Proof. intros ->. by rewrite drop_app_length. Qed.

Lemma take_all_ge l n : (length l <= n)%nat -> take n l = l.
Proof. apply take_ge. Qed.

Lemma list_split_at l n :
  (n <= length l)%nat -> exists l1 l2, l = l1 ++ l2 /\ length l1 = n.
Proof.
  intros H. exists (take n l), (drop n l).
  split; [by rewrite take_drop | by rewrite length_take_le].
Qed.
End Lists.

(** ** Maps whose values step down *)

Section MapShrinks.
Context {K A : Type} `{Countable K}.
Variable R : A -> A -> Prop.

(** One value steps, or its key goes. *)
Inductive map_shrinks (m : gmap K A) : gmap K A -> Prop :=
  | shrinks_at k a a' : m !! k = Some a -> R a a' -> map_shrinks m (<[k := a']> m)
  | shrinks_off k a : m !! k = Some a -> map_shrinks m (delete k m).

Lemma map_shrinks_insert k a (m : gmap K A) :
  sn map_shrinks m -> sn R a -> m !! k = None -> sn map_shrinks (<[k := a]> m).
Proof.
  intros Hm. revert a. induction Hm as [m Hacc IHm]. intros a Ha. induction Ha as [a Ha IHa]. intros Hk.
  apply Acc_intro. intros m' Hst. unfold flip in *.
  destruct Hst as [k' b b' Hb Hs|k' b Hb]; (destruct (decide (k' = k)) as [->|Hne];
    [rewrite lookup_insert_eq in Hb; injection Hb as <- | rewrite lookup_insert_ne in Hb by done]).
  - rewrite insert_insert_eq. by apply IHa.
  - rewrite insert_insert_ne by done. apply IHm; [by eapply shrinks_at | by apply Acc_intro | by rewrite lookup_insert_ne].
  - rewrite delete_insert_id by done. by apply Acc_intro.
  - rewrite delete_insert_ne by done. apply IHm; [by eapply shrinks_off | by apply Acc_intro | by rewrite lookup_delete_ne].
Qed.

Lemma map_shrinks_sn (m : gmap K A) : (forall a, sn R a) -> sn map_shrinks m.
Proof.
  intros HR. induction m as [|k a m Hk IH] using map_ind; [|by apply map_shrinks_insert].
  apply Acc_intro. intros m' Hst. unfold flip in *. destruct Hst as [k a a' Hk _|k a Hk]; by rewrite lookup_empty in Hk.
Qed.
End MapShrinks.

(** ** Sums over finite maps *)

Section MapTotal.
Context {K A : Type} `{Countable K}.

(** The sum of the weights of the values of a map. *)
Definition map_total (w : A -> Z) (m : gmap K A) : Z := map_fold (fun _ a n => w a + n) 0 m.

Lemma map_total_fresh (w : A -> Z) (m : gmap K A) k a : m !! k = None -> map_total w (<[k := a]> m) = map_total w m + w a.
Proof. intros Hk. unfold map_total. rewrite map_fold_insert_L; [lia | intros; lia | done]. Qed.

Lemma map_total_update (w : A -> Z) (m : gmap K A) k a a' :
  m !! k = Some a -> map_total w (<[k := a']> m) = map_total w m - w a + w a'.
Proof.
  intros Hk. rewrite <- (insert_delete_eq m k a'), map_total_fresh by apply lookup_delete_eq.
  rewrite <- (insert_delete_id m k a) at 2 by done. rewrite map_total_fresh by apply lookup_delete_eq. lia.
Qed.

Lemma map_total_delete (w : A -> Z) (m : gmap K A) k a : m !! k = Some a -> map_total w (delete k m) = map_total w m - w a.
Proof.
  intros Hk. rewrite <- (insert_delete_id m k a) at 2 by done. rewrite map_total_fresh by apply lookup_delete_eq. lia.
Qed.

Lemma map_total_le (w w' : A -> Z) (m : gmap K A) : (forall a, w a <= w' a) -> map_total w m <= map_total w' m.
Proof.
  intros Hw. induction m as [|k a m Hk IH] using map_ind; [done|]. rewrite !map_total_fresh by done. specialize (Hw a). lia.
Qed.

Lemma map_total_none (w : A -> Z) (m : gmap K A) : map_Forall (fun _ a => w a = 0) m -> map_total w m = 0.
Proof.
  induction m as [|k a m Hk IH] using map_ind; [done|]. rewrite map_Forall_insert by done.
  intros [Ha Hm]. rewrite map_total_fresh, Ha, IH; auto.
Qed.

Lemma map_total_nonneg (w : A -> Z) (m : gmap K A) : (forall a, 0 <= w a) -> 0 <= map_total w m.
Proof. intros Hw. rewrite <- (map_total_none (fun _ => 0) m) by done. by apply map_total_le. Qed.
End MapTotal.
