(* ===== verification/Go.v ===== *)
(** * Go semantics used by the sources: errors, panics, slices, big-endian words

    A Go function with results [(T, error)] is modelled by the [res] monad:
    [Ok v] (error nil), [Err e] (error non-nil, the value is the zero value and
    never used by the callers), [Panic] (a run-time panic: index or slice out
    of range).  Every index and slice expression of the source goes through
    [idx] and [slice], so "does not panic" is a theorem about the source's
    guards and not an assumption.

    Errors are the values the packages build: sentinels, the typed errors,
    [fmt.Errorf] with [%w] ([Wrapf]) or without ([Plain]), [errors.Join], and
    the errors of code outside the repository ([External]: package net and
    go-cotp, of which the sources only ask whether they are a net timeout). *)

From S2P Require Import Prelude.

Local Open Scope string_scope.

(** ** Errors *)

Inductive sentinel :=
  (* wire/errors.go *)
  | ErrShortS7Header | ErrInvalidS7ProtocolID | ErrShortS7AckHeader | ErrS7PayloadLength
  | ErrTruncatedItemHeader | ErrTruncatedItemPayload | ErrInvalidParamLength
  | ErrInvalidDataLength | ErrUnknownBlockType | ErrOutOfRange
  (* wire/pdu_server.go *)
  | ErrMalformedRequest
  (* client/client.go, client/result.go *)
  | ErrNotConnected | ErrProtocolFailure | ErrRequestExceedsPDU | ErrNilReadResult
  (* server/memory.go, server/server.go *)
  | ErrUnknownArea | ErrAreaExists | ErrSpanOutOfRange | ErrServerClosed
  (* package context and go-cotp *)
  | ContextCanceled | ContextDeadlineExceeded | CotpErrClosed.

#[export] Instance sentinel_eq_dec : EqDecision sentinel.
Proof. solve_decision. Defined.

Inductive error :=
  | Sentinel (s : sentinel)
  | S7Error (Class Code : byte) (Message : string)
  | UnsupportedSyntaxError (RawSyntaxID : byte)
  | ValidationError (Message : string)
  | PDURefMismatchError (Expected Got : Z)
  | Plain (Message : string)
  | Wrapf (Message : string) (wrapped : list error)
  | Join (errs : list error)
  | External (NetTimeout : bool) (Message : string).

Definition sentinel_text (s : sentinel) : string :=
  match s with
  | ErrShortS7Header => "data too short for S7 header"
  | ErrInvalidS7ProtocolID => "invalid S7 protocol ID"
  | ErrShortS7AckHeader => "data too short for S7 ack header"
  | ErrS7PayloadLength => "S7 payload shorter than parameter/data lengths"
  | ErrTruncatedItemHeader => "read response item header truncated"
  | ErrTruncatedItemPayload => "read response item payload truncated or overrun"
  | ErrInvalidParamLength => "invalid parameter section length"
  | ErrInvalidDataLength => "invalid data section length"
  | ErrUnknownBlockType => "unknown block type"
  | ErrOutOfRange => "value out of range for its wire field"
  | ErrMalformedRequest => "malformed S7 request"
  | ErrNotConnected => "not connected"
  | ErrProtocolFailure => "protocol failure"
  | ErrRequestExceedsPDU => "request exceeds negotiated PDU size"
  | ErrNilReadResult => "read result is nil"
  | ErrUnknownArea => "s7 server: area not registered"
  | ErrAreaExists => "s7 server: area already registered"
  | ErrSpanOutOfRange => "s7 server: span outside the area"
  | ErrServerClosed => "s7 server: closed"
  | ContextCanceled => "context canceled"
  | ContextDeadlineExceeded => "context deadline exceeded"
  | CotpErrClosed => "cotp: connection closed"
  end.

(** [Error()] of [wire.S7Error]. *)
Definition S7Error_Error (Class Code : byte) (Message : string) : string :=
  if String.eqb Message "" then
    "S7 error: class=0x" +:+ fmt_02X Class +:+ ", code=0x" +:+ fmt_02X Code
  else Message.

(** The line-separated text [errors.Join] gives. *)
Definition newline : string := String (Ascii.ascii_of_nat 10) "".

Section ErrorText.
Variable f : error -> string.
Fixpoint join_text (es : list error) : string :=
  match es with
  | [] => ""
  | [e] => f e
  | e :: es => f e +:+ newline +:+ join_text es
  end.
End ErrorText.

Fixpoint Error (e : error) : string :=
  match e with
  | Sentinel s => sentinel_text s
  | S7Error c k m => S7Error_Error c k m
  | UnsupportedSyntaxError b => "unsupported syntax ID 0x" +:+ hex_byte_string b
  | ValidationError m => m
  | PDURefMismatchError x g =>
      "S7 response PDU ref mismatch: expected " +:+ dec x +:+ ", got " +:+ dec g
  | Plain m => m
  | Wrapf m _ => m
  | Join es => join_text Error es
  | External _ m => m
  end.

(** [fmt.Errorf] with one [%w]: text before it, the error, text after it. *)
Definition errorf1 (pre : string) (e : error) (post : string) : error :=
  Wrapf (pre +:+ Error e +:+ post) [e].

(** [errors.Is] against a sentinel. *)
Fixpoint errors_Is (e : error) (t : sentinel) : bool :=
  match e with
  | Sentinel s => bool_decide (s = t)
  | Wrapf _ es => existsb (fun e => errors_Is e t) es
  | Join es => existsb (fun e => errors_Is e t) es
  | _ => false
  end.

(** [errors.As] for [*wire.S7Error]: class, code and message of the first one
    in the tree. *)
Fixpoint errors_As_S7Error (e : error) : option (byte * byte * string) :=
  match e with
  | S7Error c k m => Some (c, k, m)
  | Wrapf _ es | Join es =>
      foldr (fun e o => match errors_As_S7Error e with Some x => Some x | None => o end) None es
  | _ => None
  end.

(** [errors.As] for [net.Error], with its [Timeout()].
    [context.DeadlineExceeded] is a net error that times out. *)
Fixpoint errors_net_Timeout (e : error) : bool :=
  match e with
  | Sentinel ContextDeadlineExceeded => true
  | External t _ => t
  | Wrapf _ es | Join es => existsb errors_net_Timeout es
  | _ => false
  end.

(** [errors.As] for [*ValidationError]. *)
Fixpoint errors_As_ValidationError (e : error) : bool :=
  match e with
  | ValidationError _ => true
  | Wrapf _ es | Join es => existsb errors_As_ValidationError es
  | _ => false
  end.

Local Close Scope string_scope.

(** ** Results *)

Inductive res (A : Type) : Type :=
  | Ok (a : A)
  | Err (e : error)
  | Panic.
Arguments Ok {A} a.
Arguments Err {A} e.
Arguments Panic {A}.

#[export] Instance res_ret : MRet res := fun A a => Ok a.
#[export] Instance res_bind : MBind res := fun A B k m =>
  match m with Ok a => k a | Err e => Err e | Panic => Panic end.
#[export] Instance res_fmap : FMap res := fun A B f m =>
  match m with Ok a => Ok (f a) | Err e => Err e | Panic => Panic end.

(** A Go function of result type [error] only. *)
Notation "'nil_error'" := (Ok tt).

Definition no_panic {A} (m : res A) : Prop := m <> Panic.

Lemma bind_Ok {A B} (a : A) (k : A -> res B) : (Ok a ≫= k) = k a.
Proof. done. Qed.
Lemma bind_Err {A B} e (k : A -> res B) : (Err e ≫= k) = Err e.
Proof. done. Qed.

Lemma Ok_inj {A} (a b : A) : Ok a = Ok b -> a = b.
Proof. by intros [= ->]. Qed.

Lemma bind_Ok_inv {A B} (m : res A) (k : A -> res B) b :
  (m ≫= k) = Ok b -> exists a, m = Ok a /\ k a = Ok b.
Proof. destruct m; simpl; [eauto | discriminate..]. Qed.

Lemma no_panic_bind {A B} (m : res A) (k : A -> res B) :
  no_panic m -> (forall a, m = Ok a -> no_panic (k a)) -> no_panic (m ≫= k).
Proof. destruct m; simpl; [eauto | by intros | done]. Qed.

Lemma no_panic_Ok {A} (a : A) : no_panic (Ok a).
Proof. discriminate. Qed.
Lemma no_panic_Err {A} e : no_panic (@Err A e).
Proof. discriminate. Qed.
#[export] Hint Resolve no_panic_Ok no_panic_Err : go.

(** Close a branch that has reached a result. *)
Ltac np := simpl; first [ apply no_panic_Ok | apply no_panic_Err | solve [auto with go] ].

(** ** Index and slice expressions *)

Section Slices.
Context {A : Type}.
Implicit Types l : list A.

(** [l[i]] *)
Definition idx l (i : Z) : res A :=
  if i <? 0 then Panic
  else match l !! Z.to_nat i with Some a => Ok a | None => Panic end.

(** [l[lo:hi]].  Go bounds [hi] by the capacity, the model by the length:
    an expression that does not panic here selects only elements of [l]. *)
Definition slice l (lo hi : Z) : res (list A) :=
  if (0 <=? lo) && (lo <=? hi) && (hi <=? len l)
  then Ok (take (Z.to_nat (hi - lo)) (drop (Z.to_nat lo) l))
  else Panic.

(** [l[lo:]] *)
Definition slice_from l (lo : Z) : res (list A) := slice l lo (len l).

Lemma idx_lookup l i a :
  idx l i = Ok a <-> 0 <= i /\ l !! Z.to_nat i = Some a.
Proof.
  unfold idx. case_if; b2p.
  - split; [discriminate | lia].
  - destruct (l !! Z.to_nat i); split; [by intros [= ->]|by intros [_ [= ->]]|done|].
    by intros [_ ?].
Qed.

Lemma idx_ok l i : 0 <= i < len l -> exists a, idx l i = Ok a.
Proof.
  intros H. destruct (lookup_lt_is_Some_2 l (Z.to_nat i)) as [a Ha]; [lia|].
  exists a. apply idx_lookup. split; [lia | done].
Qed.

Lemma idx_app_l l1 l2 i : 0 <= i < len l1 -> idx (l1 ++ l2) i = idx l1 i.
Proof.
  intros H. unfold idx. case_if; [done|].
  rewrite lookup_app_l; [done | lia].
Qed.

Lemma idx_app_r l1 l2 i : len l1 <= i -> idx (l1 ++ l2) i = idx l2 (i - len l1).
Proof.
  intros H. unfold idx. if_arith. if_arith.
  rewrite lookup_app_r by lia.
  by replace (Z.to_nat i - length l1)%nat with (Z.to_nat (i - len l1)) by lia.
Qed.

Lemma idx_drop l i k :
  0 <= i -> 0 <= k -> idx l (i + k) = idx (drop (Z.to_nat i) l) k.
Proof.
  intros. unfold idx. if_arith. if_arith. rewrite lookup_drop.
  by replace (Z.to_nat (i + k)) with (Z.to_nat i + Z.to_nat k)%nat by lia.
Qed.

Lemma idx_out l i : len l <= i -> idx l i = Panic.
Proof. intros. unfold idx. case_if; [done|]. by rewrite lookup_ge_None_2 by lia. Qed.

Lemma idx_not_Err l i e : idx l i <> Err e.
Proof. unfold idx. case_if; [done|]. by destruct (l !! _). Qed.

Lemma slice_ok l lo hi :
  0 <= lo <= hi -> hi <= len l ->
  slice l lo hi = Ok (take (Z.to_nat (hi - lo)) (drop (Z.to_nat lo) l)).
Proof. intros. unfold slice. by if_arith. Qed.

Lemma slice_Ok_inv l lo hi r :
  slice l lo hi = Ok r ->
  0 <= lo <= hi /\ hi <= len l /\ len r = hi - lo /\
  r = take (Z.to_nat (hi - lo)) (drop (Z.to_nat lo) l).
Proof.
  unfold slice. case_if; [|discriminate]. intros [= <-]. b2p.
  rewrite length_take, length_drop. split_and!; [lia.. | done].
Qed.

Lemma slice_app_mid l1 l2 l3 lo hi :
  lo = len l1 -> hi = len l1 + len l2 -> slice (l1 ++ l2 ++ l3) lo hi = Ok l2.
Proof.
  intros -> ->. rewrite slice_ok; [|lia|rewrite !length_app; lia].
  f_equal. rewrite drop_app_exact by lia. apply take_app_exact. lia.
Qed.

Lemma slice_app_r l1 l2 lo hi :
  len l1 <= lo -> slice (l1 ++ l2) lo hi = slice l2 (lo - len l1) (hi - len l1).
Proof.
  intros H. unfold slice. rewrite length_app.
  replace ((0 <=? lo) && (lo <=? hi) && (hi <=? Z.of_nat (length l1 + length l2)))
    with ((0 <=? lo - len l1) && (lo - len l1 <=? hi - len l1) && (hi - len l1 <=? len l2)) by lia.
  case_if; [|done]. b2p. rewrite drop_app_ge by lia.
  do 2 f_equal; [lia|]. f_equal. lia.
Qed.

Lemma slice_all l : slice l 0 (len l) = Ok l.
Proof. rewrite slice_ok by lia. rewrite drop_0. by rewrite take_ge by lia. Qed.

Lemma slice_from_ok l lo : 0 <= lo <= len l -> slice_from l lo = Ok (drop (Z.to_nat lo) l).
Proof.
  intros. unfold slice_from. rewrite slice_ok by lia.
  f_equal. apply take_ge. rewrite length_drop. lia.
Qed.

Lemma slice_from_app l1 l2 lo : lo = len l1 -> slice_from (l1 ++ l2) lo = Ok l2.
Proof.
  intros ->. rewrite slice_from_ok by (rewrite length_app; lia).
  f_equal. apply drop_app_exact. lia.
Qed.

Lemma slice_to_app l1 l2 hi : hi = len l1 -> slice (l1 ++ l2) 0 hi = Ok l1.
Proof. intros ->. apply (slice_app_mid [] l1 l2); simpl; lia. Qed.

Lemma idx_app_off l1 l2 k : 0 <= k -> idx (l1 ++ l2) (len l1 + k) = idx l2 k.
Proof. intros. rewrite idx_app_r by lia. f_equal. lia. Qed.

Lemma slice_app_off l1 l2 j k :
  0 <= j -> slice (l1 ++ l2) (len l1 + j) (len l1 + k) = slice l2 j k.
Proof. intros. rewrite slice_app_r by lia. f_equal; lia. Qed.

Lemma no_panic_idx l i : 0 <= i < len l -> no_panic (idx l i).
Proof. intros H. destruct (idx_ok l i H) as [a ->]. apply no_panic_Ok. Qed.
Lemma no_panic_slice l lo hi : 0 <= lo <= hi -> hi <= len l -> no_panic (slice l lo hi).
Proof. intros. rewrite slice_ok by lia. apply no_panic_Ok. Qed.
End Slices.

(** ** encoding/binary *)

(** [binary.BigEndian.Uint16] and [Uint32]. *)
Definition be16 (a b : byte) : Z := Z.lor (Z.shiftl (b2z a) 8) (b2z b).
Definition be32 (a b c d : byte) : Z :=
  Z.lor (Z.shiftl (b2z a) 24)
    (Z.lor (Z.shiftl (b2z b) 16) (Z.lor (Z.shiftl (b2z c) 8) (b2z d))).

#[global] Arguments be16 : simpl never.
#[global] Arguments be32 : simpl never.

Definition Uint16 (l : bytes) : res Z :=
  b1 ← idx l 1; b0 ← idx l 0; mret (be16 b0 b1).
Definition Uint32 (l : bytes) : res Z :=
  b3 ← idx l 3; b2 ← idx l 2; b1 ← idx l 1; b0 ← idx l 0; mret (be32 b0 b1 b2 b3).

(** The bytes [binary.BigEndian.PutUint16] and [PutUint32] write. *)
Definition put16 (v : Z) : bytes := [z2b (Z.shiftr v 8); z2b v].
Definition put32 (v : Z) : bytes :=
  [z2b (Z.shiftr v 24); z2b (Z.shiftr v 16); z2b (Z.shiftr v 8); z2b v].

Lemma be16_arith a b : be16 a b = b2z a * 256 + b2z b.
Proof.
  unfold be16. rewrite shiftl_lor_add; [done | lia |].
  pose proof (b2z_range b). simpl. lia.
Qed.

Lemma be16_range a b : is_u16 (be16 a b).
Proof. rewrite be16_arith. unfold is_u16. byte_ranges. lia. Qed.

Lemma be32_arith a b c d :
  be32 a b c d = b2z a * 16777216 + b2z b * 65536 + b2z c * 256 + b2z d.
Proof.
  unfold be32. byte_ranges.
  rewrite (shiftl_lor_add (b2z c) 8) by lia.
  rewrite (shiftl_lor_add (b2z b) 16) by lia.
  rewrite (shiftl_lor_add (b2z a) 24) by lia. lia.
Qed.

Lemma be32_range a b c d : is_u32 (be32 a b c d).
Proof. rewrite be32_arith. unfold is_u32. byte_ranges. lia. Qed.

Lemma div_256_65536 v : (v / 256) mod 256 * 256 + v mod 256 = v mod 65536.
Proof. Z.div_mod_to_equations. lia. Qed.

Lemma be16_put16 v : be16 (z2b (Z.shiftr v 8)) (z2b v) = v mod 65536.
Proof.
  rewrite be16_arith, !b2z_z2b, Z.shiftr_div_pow2 by lia.
  apply div_256_65536.
Qed.

Lemma be32_put32 v :
  be32 (z2b (Z.shiftr v 24)) (z2b (Z.shiftr v 16)) (z2b (Z.shiftr v 8)) (z2b v) = u32 v.
Proof.
  rewrite be32_arith, !b2z_z2b, !Z.shiftr_div_pow2 by lia. unfold u32.
  change (2 ^ 24) with 16777216. change (2 ^ 16) with 65536. change (2 ^ 8) with 256.
  Z.div_mod_to_equations. lia.
Qed.

Lemma z2b_be16_hi a b : z2b (Z.shiftr (be16 a b) 8) = a.
Proof.
  rewrite be16_arith, Z.shiftr_div_pow2 by lia. apply b2z_inj. rewrite b2z_z2b.
  change (2 ^ 8) with 256. byte_ranges. Z.div_mod_to_equations. lia.
Qed.

Lemma z2b_be16_lo a b : z2b (be16 a b) = b.
Proof.
  rewrite be16_arith. apply b2z_inj. rewrite b2z_z2b. byte_ranges. Z.div_mod_to_equations. lia.
Qed.

Lemma put16_be16 a b : put16 (be16 a b) = [a; b].
Proof. unfold put16. by rewrite z2b_be16_hi, z2b_be16_lo. Qed.

Lemma length_put16 v : length (put16 v) = 2%nat.
Proof. done. Qed.
Lemma length_put32 v : length (put32 v) = 4%nat.
Proof. done. Qed.

Lemma Uint16_put16 v rest : Uint16 (put16 v ++ rest) = Ok (v mod 65536).
Proof. unfold Uint16, put16. simpl. by rewrite be16_put16. Qed.

Lemma Uint32_put32 v rest : Uint32 (put32 v ++ rest) = Ok (u32 v).
Proof. unfold Uint32, put32. simpl. by rewrite be32_put32. Qed.

(** Reading a word out of a slice expression, panics included. *)
Lemma slice_Uint16 (l : bytes) i j :
  0 <= i -> j = i + 2 ->
  (slice l i j ≫= Uint16) = (a ← idx l i; b ← idx l (i + 1); mret (be16 a b)).
Proof.
  intros Hi ->. unfold slice. case_if; b2p; simpl.
  - replace (Z.to_nat (i + 2 - i)) with 2%nat by lia.
    replace (idx l i) with (idx l (i + 0)) by (f_equal; lia). rewrite !idx_drop by lia.
    assert (Hd : (2 <= length (drop (Z.to_nat i) l))%nat) by (rewrite length_drop; lia).
    by destruct (drop (Z.to_nat i) l) as [|a [|b r]]; simpl in *; [lia..|].
  - rewrite (idx_out l (i + 1)) by lia.
    destruct (idx l i) eqn:E; simpl; [done | by apply idx_not_Err in E | done].
Qed.

Lemma slice_Uint32 (l : bytes) i j :
  0 <= i -> j = i + 4 ->
  (slice l i j ≫= Uint32) =
  (a ← idx l i; b ← idx l (i + 1); c ← idx l (i + 2); d ← idx l (i + 3); mret (be32 a b c d)).
Proof.
  intros Hi ->. unfold slice. case_if; b2p; simpl.
  - replace (Z.to_nat (i + 4 - i)) with 4%nat by lia.
    replace (idx l i) with (idx l (i + 0)) by (f_equal; lia). rewrite !idx_drop by lia.
    assert (Hd : (4 <= length (drop (Z.to_nat i) l))%nat) by (rewrite length_drop; lia).
    by destruct (drop (Z.to_nat i) l) as [|a [|b [|c [|d r]]]]; simpl in *; [lia..|].
  - rewrite (idx_out l (i + 3)) by lia.
    destruct (idx l i) eqn:?, (idx l (i + 1)) eqn:?, (idx l (i + 2)) eqn:?; simpl; try done;
      exfalso; eapply idx_not_Err; eassumption.
Qed.

(** Reading a word out of a buffer that is long enough. *)
Lemma Uint16_slice_ok (l : bytes) i j :
  0 <= i -> j = i + 2 -> j <= len l ->
  exists v, (slice l i j ≫= Uint16) = Ok v /\ is_u16 v.
Proof.
  intros Hi -> Hl. rewrite slice_ok by lia. simpl.
  replace (Z.to_nat (i + 2 - i)) with 2%nat by lia.
  assert (Hd : (2 <= length (drop (Z.to_nat i) l))%nat) by (rewrite length_drop; lia).
  destruct (drop (Z.to_nat i) l) as [|a [|b r]]; simpl in *; [lia..|].
  eexists; split; [done | apply be16_range].
Qed.

Lemma Uint32_slice_ok (l : bytes) i j :
  0 <= i -> j = i + 4 -> j <= len l ->
  exists v, (slice l i j ≫= Uint32) = Ok v /\ is_u32 v.
Proof.
  intros Hi -> Hl. rewrite slice_ok by lia. simpl.
  replace (Z.to_nat (i + 4 - i)) with 4%nat by lia.
  assert (Hd : (4 <= length (drop (Z.to_nat i) l))%nat) by (rewrite length_drop; lia).
  destruct (drop (Z.to_nat i) l) as [|a [|b [|c [|d r]]]]; simpl in *; [lia..|].
  eexists; split; [done | apply be32_range].
Qed.

Lemma slice_Uint16_range (l : bytes) i j v : (slice l i j ≫= Uint16) = Ok v -> is_u16 v.
Proof.
  intros H. apply bind_Ok_inv in H as (s & _ & H). unfold Uint16 in H.
  apply bind_Ok_inv in H as (b1 & _ & H). apply bind_Ok_inv in H as (b0 & _ & [= <-]).
  apply be16_range.
Qed.

Lemma no_panic_slice_Uint16 (l : bytes) i j :
  0 <= i -> j = i + 2 -> j <= len l -> no_panic (slice l i j ≫= Uint16).
Proof. intros. destruct (Uint16_slice_ok l i j) as (v & -> & _); [done..|np]. Qed.

(** One step of a proof that a parser does not panic: its guards bound every
    index and slice expression that follows them. *)
Ltac np_step :=
  match goal with
  | |- no_panic (if _ then _ else _) => case_if
  | |- no_panic (slice _ _ _ ≫= Uint16) => apply no_panic_slice_Uint16; b2p; lia
  | |- no_panic (_ ≫= _) =>
      apply no_panic_bind; [ | let H := fresh "Hbind" in intros ? H;
        first [ apply slice_Uint16_range in H; unfold is_u16 in H
              | apply slice_Ok_inv in H as (? & ? & ? & _) | idtac ] ]
  | |- no_panic (idx _ _) => apply no_panic_idx; b2p; lia
  | |- no_panic (slice _ _ _) => apply no_panic_slice; b2p; lia
  | |- no_panic (match ?x with pair _ _ => _ end) => destruct x
  | |- no_panic (mret _) => apply no_panic_Ok
  | |- no_panic _ => np
  end.
