(* ===== verification/WireErrors.v ===== *)
(** * Error codes and their texts (wire/errors.go, wire/param_error.go)

    The S7 error classes, the item return codes, [S7Error] and its
    constructors, and the catalogue of parameter error codes.  A Go map
    literal is an association list; [name_lookup] is the [s, ok := m[k]]
    lookup. *)

From S2P Require Import Prelude Go.

Local Open Scope string_scope.

Section Tables.
Context {K : Type} `{EqDecision K}.
(** [m[k]] with its [ok]. *)
Fixpoint name_lookup (m : list (K * string)) (k : K) : option string :=
  match m with
  | [] => None
  | (k', s) :: m => if decide (k = k') then Some s else name_lookup m k
  end.

(** A map literal with two equal keys is rejected by the Go compiler. *)
Definition literal_ok (m : list (K * string)) : Prop := NoDup (m.*1).

Lemma name_lookup_elem (m : list (K * string)) k s :
  literal_ok m -> (k, s) ∈ m -> name_lookup m k = Some s.
Proof.
  unfold literal_ok. induction m as [|[k' s'] m IH]; simpl; intros Hnd Hin.
  - by apply elem_of_nil in Hin.
  - apply NoDup_cons in Hnd as [Hn Hnd]. apply elem_of_cons in Hin as [[= -> ->]|Hin].
    + by rewrite decide_True.
    + rewrite decide_False; [by apply IH|]. intros ->. apply Hn.
      apply list_elem_of_fmap. by exists (k', s).
Qed.
End Tables.

(** ** Error classes and item return codes *)

Definition ErrClassNoError : byte := x00.
Definition ErrClassApp : byte := x81.
Definition ErrClassObject : byte := x82.
Definition ErrClassResource : byte := x83.
Definition ErrClassService : byte := x84.
Definition ErrClassSupplies : byte := x85.
Definition ErrClassAccess : byte := x87.

Definition errClassNames : list (byte * string) :=
  [ (ErrClassNoError, "No error"); (ErrClassApp, "Application relationship")
  ; (ErrClassObject, "Object definition"); (ErrClassResource, "No resources available")
  ; (ErrClassService, "Error on service processing"); (ErrClassSupplies, "Error on supplies")
  ; (ErrClassAccess, "Access error") ].

Definition ErrClassString (class : byte) : string :=
  match name_lookup errClassNames class with
  | Some s => s
  | None => "class 0x" +:+ fmt_02X class
  end.

Definition RetCodeSuccess : byte := xff.
Definition RetCodeHWFault : byte := x01.
Definition RetCodeAccessFault : byte := x03.
Definition RetCodeAddressFault : byte := x05.
Definition RetCodeDataTypeFault : byte := x06.
Definition RetCodeDataSizeFault : byte := x07.
Definition RetCodeBusy : byte := x09.
Definition RetCodeNotAvailable : byte := x0a.

Definition HeaderErrorString (class code : byte) : string :=
  if class =b ErrClassNoError then
    if code =b x00 then ""
    else "header error class=0x" +:+ fmt_02X class +:+ " code=0x" +:+ fmt_02X code
  else if class =b ErrClassAccess then
    if code =b x00 then "no access rights"
    else if code =b x01 then "invalid address"
    else if code =b x04 then "invalid data type"
    else "access error code=0x" +:+ fmt_02X code
  else if class =b ErrClassObject then "object does not exist"
  else if class =b ErrClassResource then "resource busy"
  else "S7 error class=0x" +:+ fmt_02X class +:+ " code=0x" +:+ fmt_02X code.

Definition ItemReturnCodeString (code : byte) : string :=
  if code =b RetCodeSuccess then "success"
  else if code =b RetCodeHWFault then "hardware fault"
  else if code =b RetCodeAccessFault then "access denied"
  else if code =b RetCodeAddressFault then "invalid address"
  else if code =b RetCodeDataTypeFault then "data type not supported"
  else if code =b RetCodeDataSizeFault then "data size mismatch"
  else if code =b RetCodeBusy then "object busy"
  else if code =b RetCodeNotAvailable then "object not available"
  else "return code 0x" +:+ fmt_02X code.

(** [ReturnCodeError]: nil for success, the item's [S7Error] otherwise. *)
Definition ReturnCodeError (code : byte) : res unit :=
  if code =b RetCodeSuccess then nil_error
  else Err (S7Error x00 code (ItemReturnCodeString code)).

(** ** Parameter error codes *)

Definition paramErrorCodeNames : list (Z * string) :=
  [ (0x0000, "no error")
  ; (0x0110, "invalid block number")
  ; (0x0111, "invalid request length")
  ; (0x0112, "invalid parameter")
  ; (0x0113, "invalid block type")
  ; (0x0114, "block not found")
  ; (0x0115, "block already exists")
  ; (0x0116, "block is write-protected")
  ; (0x0117, "block/OS update too large")
  ; (0x0118, "invalid block number")
  ; (0x0119, "incorrect password")
  ; (0x011A, "PG resource error")
  ; (0x011B, "PLC resource error")
  ; (0x011C, "protocol error")
  ; (0x011D, "too many blocks (module restriction)")
  ; (0x011E, "no connection to database or invalid S7DOS handle")
  ; (0x011F, "result buffer too small")
  ; (0x0120, "end of block list")
  ; (0x0140, "insufficient memory")
  ; (0x0141, "job cannot be processed (lack of resources)")
  ; (0x8001, "service cannot be performed while block is in current status")
  ; (0x8003, "S7 protocol error: error while transferring block")
  ; (0x8100, "application error: service unknown to remote module")
  ; (0x8104, "service not implemented or frame error")
  ; (0x8204, "type specification for object inconsistent")
  ; (0x8205, "copied block already exists and is not linked")
  ; (0x8301, "insufficient memory or storage medium not accessible")
  ; (0x8302, "too few resources or processor resources not available")
  ; (0x8304, "no further parallel upload possible (resource bottleneck)")
  ; (0x8305, "function not available")
  ; (0x8306, "insufficient work memory")
  ; (0x8307, "not enough retentive work memory")
  ; (0x8401, "S7 protocol error: invalid service sequence")
  ; (0x8402, "service cannot execute (status of addressed object)")
  ; (0x8404, "S7 protocol: function cannot be performed")
  ; (0x8405, "remote block in DISABLE state (CFB)")
  ; (0x8500, "S7 protocol error: wrong frames")
  ; (0x8503, "alarm from module: service canceled prematurely")
  ; (0x8701, "error addressing object (e.g. area length error)")
  ; (0x8702, "requested service not supported by module")
  ; (0x8703, "access to object refused")
  ; (0x8704, "access error: object damaged")
  ; (0xD001, "protocol error: illegal job number")
  ; (0xD002, "parameter error: illegal job variant")
  ; (0xD003, "parameter error: debugging function not supported by module")
  ; (0xD004, "parameter error: illegal job status")
  ; (0xD005, "parameter error: illegal job termination")
  ; (0xD006, "parameter error: illegal link disconnection ID")
  ; (0xD007, "parameter error: illegal number of buffer elements")
  ; (0xD008, "parameter error: illegal scan rate")
  ; (0xD009, "parameter error: illegal number of executions")
  ; (0xD00A, "parameter error: illegal trigger event")
  ; (0xD00B, "parameter error: illegal trigger condition")
  ; (0xD011, "parameter error: block does not exist")
  ; (0xD012, "parameter error: wrong address in block")
  ; (0xD014, "parameter error: block being deleted/overwritten")
  ; (0xD015, "parameter error: illegal tag address")
  ; (0xD016, "parameter error: test jobs not possible (errors in user program)")
  ; (0xD017, "parameter error: illegal trigger number")
  ; (0xD025, "parameter error: invalid path")
  ; (0xD031, "internal protocol error")
  ; (0xD032, "parameter error: wrong result buffer length")
  ; (0xD033, "protocol error: wrong job length")
  ; (0xD03F, "coding error in parameter section")
  ; (0xD041, "data error: illegal status list ID")
  ; (0xD042, "data error: illegal tag address")
  ; (0xD043, "data error: referenced job not found")
  ; (0xD044, "data error: illegal tag value")
  ; (0xD045, "data error: exiting ODIS control not allowed in HOLD")
  ; (0xD046, "data error: illegal measuring stage (run-time measurement)")
  ; (0xD047, "data error: illegal hierarchy in Read job list")
  ; (0xD048, "data error: illegal deletion ID in Delete job")
  ; (0xD049, "invalid substitute ID in Replace job")
  ; (0xD04A, "error executing program status")
  ; (0xD05F, "coding error in data section")
  ; (0xD061, "resource error: no memory space for job")
  ; (0xD062, "resource error: job list full")
  ; (0xD063, "resource error: trigger event occupied")
  ; (0xD081, "function not permitted in current mode")
  ; (0xD082, "mode error: cannot exit HOLD mode")
  ; (0xD0A1, "function not permitted in current protection level")
  ; (0xD0A2, "function not possible (function modifying memory running)")
  ; (0xD0A3, "too many modify tag jobs active on I/O")
  ; (0xD0A4, "forcing has already been established")
  ; (0xD0A5, "referenced job not found")
  ; (0xD0A6, "job cannot be disabled/enabled")
  ; (0xD0A7, "job cannot be deleted (e.g. currently being read)")
  ; (0xD0A8, "job cannot be replaced (e.g. being read or deleted)")
  ; (0xD0A9, "job cannot be read (e.g. currently being deleted)")
  ; (0xD0AA, "time limit exceeded in processing operation")
  ; (0xD0AB, "invalid job parameters in process operation")
  ; (0xD0AC, "invalid job data in process operation")
  ; (0xD0AD, "operating mode already set")
  ; (0xD0AE, "job set up over different connection")
  ; (0xD0C1, "at least one error while accessing tag(s)")
  ; (0xD0C2, "change to STOP/HOLD mode")
  ; (0xD201, "syntax error in block name")
  ; (0xD202, "syntax error in function parameters")
  ; (0xD209, "one of the given blocks not found on module")
  ; (0xD20E, "no (further) block available")
  ; (0xD210, "invalid block number")
  ; (0xD216, "invalid user program - reset module")
  ; (0xD231, "loaded OB cannot be copied (priority class does not exist)")
  ; (0xD232, "block number of loaded block illegal")
  ; (0xD234, "block exists twice")
  ; (0xD235, "block contains incorrect checksum")
  ; (0xD241, "function not permitted in current protection level")
  ; (0xD250, "update and module ID or version do not match")
  ; (0xD251, "incorrect sequence of operating system components")
  ; (0xD252, "checksum error")
  ; (0xD2A1, "another block function or trigger on block active")
  ; (0xD2A2, "trigger active on block; complete debugging first")
  ; (0xD2A3, "block not active (linked), occupied, or marked for deletion")
  ; (0xD2A4, "block already being processed by another block function")
  ; (0xD401, "information function unavailable")
  ; (0xD402, "information function unavailable")
  ; (0xD601, "syntax error in function parameter")
  ; (0xD602, "incorrect password entered")
  ; (0xD801, "at least one tag address invalid")
  ; (0xD802, "specified job does not exist")
  ; (0xDC01, "date and/or time invalid") ].

Definition ParamErrorCodeString (code : Z) : string :=
  match name_lookup paramErrorCodeNames code with
  | Some s => s
  | None => "parameter error 0x" +:+ fmt_04X code
  end.

(** [ParamErrorFromParam]: the code and [ok]. *)
Definition ParamErrorFromParam (param : bytes) : res (Z * bool) :=
  if (len param <? 4)%Z then mret (0, false)
  else s ← slice param 2 4; code ← Uint16 s; mret (code, true).

Definition NewS7Error (class code : byte) : error :=
  S7Error class code (HeaderErrorString class code).

Definition NewS7ErrorWithParam (class code : byte) (param : bytes) : res error :=
  '(paramCode, ok) ← ParamErrorFromParam param;
  mret (if ok && negb (paramCode =? 0)%Z
        then S7Error class code (ParamErrorCodeString paramCode)
        else NewS7Error class code).

Local Close Scope string_scope.

(** ** Properties *)

Lemma ReturnCodeError_nil code : ReturnCodeError code = nil_error <-> code = RetCodeSuccess.
Proof.
  unfold ReturnCodeError. case_if; b2p; [done|]. split; [done | congruence].
Qed.

Lemma ReturnCodeError_err code :
  code <> RetCodeSuccess ->
  ReturnCodeError code = Err (S7Error x00 code (ItemReturnCodeString code)).
Proof. intros H. unfold ReturnCodeError. by rewrite beq_ne. Qed.

(** An error built from a header is never silent: its text is empty only for
    class 0 and code 0, for which [S7Error_Error] falls back on the codes. *)
Lemma HeaderErrorString_empty class code :
  HeaderErrorString class code = EmptyString <-> class = x00 /\ code = x00.
Proof.
  unfold HeaderErrorString. split.
  - repeat case_if; b2p; subst; simpl; try done.
  - by intros [-> ->].
Qed.

Lemma NewS7ErrorWithParam_ok class code param :
  exists msg, NewS7ErrorWithParam class code param = Ok (S7Error class code msg).
Proof.
  unfold NewS7ErrorWithParam, ParamErrorFromParam. case_if; b2p; simpl; [by eexists|].
  destruct (Uint16_slice_ok param 2 4) as (v & Hv & _); [lia..|].
  destruct (slice param 2 4) as [s| |]; simpl in *; [|done..].
  rewrite Hv. simpl. case_if; by eexists.
Qed.

Lemma paramErrorCodeNames_literal : literal_ok paramErrorCodeNames.
Proof. unfold literal_ok. apply (bool_decide_unpack _). by vm_compute. Qed.

Lemma paramErrorCodeNames_u16 : Forall (fun p => is_u16 p.1) paramErrorCodeNames.
Proof. unfold is_u16. repeat (constructor; [simpl; lia|]). constructor. Qed.

(** The text of an item's error is the text of its code. *)
Lemma ItemReturnCodeString_text code :
  Error (S7Error x00 code (ItemReturnCodeString code)) = ItemReturnCodeString code.
Proof.
  simpl. unfold S7Error_Error, ItemReturnCodeString.
  repeat case_if; done.
Qed.
