(* ===== verification/Header.v ===== *)
(** * S7 header, Setup Communication and TSAPs (wire/s7.go, wire/pdu_setup.go, wire/cotp.go)

    Encoder and parser of the 10-byte (12-byte for acknowledgements) S7
    header, the message encoder every request goes through, the client half
    of Setup Communication and the rack/slot TSAPs. *)

From S2P Require Import Prelude Go WireErrors.

Local Open Scope string_scope.

(** ** ROSCTR and function codes *)

Definition ROSCTRJob : byte := x01.
Definition ROSCTRAck : byte := x02.
Definition ROSCTRAckData : byte := x03.
Definition ROSCTRUserdata : byte := x07.

Definition IsAck (r : byte) : bool := r =b ROSCTRAck.
Definition IsAckData (r : byte) : bool := r =b ROSCTRAckData.
Definition IsJob (r : byte) : bool := r =b ROSCTRJob.
Definition IsUserdata (r : byte) : bool := r =b ROSCTRUserdata.

Definition FuncSetupComm : byte := xf0.
Definition FuncReadVar : byte := x04.
Definition FuncWriteVar : byte := x05.
Definition FuncDownloadStart : byte := x1a.
Definition FuncDownload : byte := x1b.
Definition FuncDownloadEnd : byte := x1c.
Definition FuncUploadStart : byte := x1d.
Definition FuncUpload : byte := x1e.
Definition FuncUploadEnd : byte := x1f.
Definition FuncPIService : byte := x28.
Definition FuncPLCStop : byte := x29.
Definition FuncPLCControl : byte := x28.

Definition functionCodeNames : list (byte * string) :=
  [ (x00, "CPU services"); (x01, "Mode transition")
  ; (FuncSetupComm, "Setup communication"); (FuncReadVar, "Read Var"); (FuncWriteVar, "Write Var")
  ; (FuncDownloadStart, "Request download"); (FuncDownload, "Download block")
  ; (FuncDownloadEnd, "Download ended")
  ; (FuncUploadStart, "Start upload"); (FuncUpload, "Upload"); (FuncUploadEnd, "End upload")
  ; (FuncPIService, "PI-Service"); (FuncPLCStop, "PLC Stop") ].

Definition FunctionCodeString (code : byte) : string :=
  match name_lookup functionCodeNames code with
  | Some s => s
  | None => "0x" +:+ fmt_02X code
  end.

Local Close Scope string_scope.

(** ** The header *)

Record S7Header := mkS7Header {
  ProtocolID : byte;
  ROSCTR : byte;
  RedundancyID : Z;
  PDURef : Z;
  ParamLength : Z;
  DataLength : Z;
  ErrorClass : byte;
  ErrorCode : byte;
}.

Definition S7HeaderSize : Z := 10.
Definition MaxUint16 : Z := 65535.

Definition checkedUint16 (name : string) (v : Z) : res Z :=
  if (v <? 0) || (v >? MaxUint16) then
    Err (errorf1 "" (Sentinel ErrOutOfRange)
           (": " +:+ name +:+ " " +:+ dec v +:+ " not in 0.." +:+ dec MaxUint16))
  else mret (u16 v).

Definition s7Header (rosctr : byte) (pduRef paramLen dataLen : Z) : bytes :=
  [x32; rosctr] ++ put16 0 ++ put16 pduRef ++ put16 paramLen ++ put16 dataLen.

Definition EncodeS7Header (rosctr : byte) (pduRef paramLen dataLen : Z) : res bytes :=
  p ← checkedUint16 "parameter length" paramLen;
  d ← checkedUint16 "data length" dataLen;
  mret (s7Header rosctr pduRef p d).

Definition encodeMessage (rosctr : byte) (pduRef : Z) (param data : bytes) : res bytes :=
  header ← EncodeS7Header rosctr pduRef (len param) (len data);
  mret (header ++ param ++ data).

Definition ParseS7Header (data : bytes) : res (S7Header * bytes) :=
  if len data <? S7HeaderSize then Err (Sentinel ErrShortS7Header) else
  b0 ← idx data 0;
  if b0 ≠b x32 then
    Err (errorf1 "" (Sentinel ErrInvalidS7ProtocolID) (": got 0x" +:+ fmt_02X b0))
  else
  b1 ← idx data 1;
  redundancy ← slice data 2 4 ≫= Uint16;
  pduRef ← slice data 4 6 ≫= Uint16;
  paramLength ← slice data 6 8 ≫= Uint16;
  dataLength ← slice data 8 10 ≫= Uint16;
  '(errorClass, errorCode, offset) ←
    (if IsAckData b1 || IsAck b1 then
       if len data <? S7HeaderSize + 2 then Err (Sentinel ErrShortS7AckHeader)
       else c ← idx data 10; k ← idx data 11; mret (c, k, 12)
     else mret (x00, x00, S7HeaderSize));
  let need := paramLength + dataLength in
  rest ← slice_from data offset;
  if len rest <? need then
    Err (errorf1 "" (Sentinel ErrS7PayloadLength)
           (": need " +:+ dec need +:+ ", got " +:+ dec (len rest)))
  else
  mret (mkS7Header b0 b1 redundancy pduRef paramLength dataLength errorClass errorCode, rest).

(** ** Setup Communication, client side *)

Definition EncodeSetupCommRequest (pduRef maxAmqCalling maxAmqCalled pduSize : Z) : res bytes :=
  calling ← checkedUint16 "max AmQ calling" maxAmqCalling;
  called ← checkedUint16 "max AmQ called" maxAmqCalled;
  size ← checkedUint16 "PDU size" pduSize;
  let param := [FuncSetupComm; x00] ++ put16 calling ++ put16 called ++ put16 size in
  encodeMessage ROSCTRJob pduRef param [].

Record SetupCommResponse := mkSetupCommResponse {
  MaxAmqCalling : Z;
  MaxAmqCalled : Z;
  PDUSize : Z;
}.

Definition ParseSetupCommResponse (data : bytes) : res SetupCommResponse :=
  if len data <? 8 then Err (S7Error x00 x00 "setup comm response too short") else
  b0 ← idx data 0;
  if b0 ≠b FuncSetupComm then Err (S7Error x00 x00 "not a setup comm response") else
  calling ← slice data 2 4 ≫= Uint16;
  called ← slice data 4 6 ≫= Uint16;
  size ← slice data 6 8 ≫= Uint16;
  mret (mkSetupCommResponse calling called size).

(** ** TSAPs *)

Definition EncodeRackSlotTSAP (rack slot : byte) : byte :=
  z2b (Z.lor (b2z (z2b (Z.shiftl (Z.land (b2z rack) 7) 5))) (Z.land (b2z slot) 31)).

Definition ValidateRackSlot (rack slot : Z) : res unit :=
  if (rack <? 0) || (rack >? 7) then Err (Plain ("rack must be 0..7, got " +:+ dec rack))
  else if (slot <? 0) || (slot >? 31) then Err (Plain ("slot must be 0..31, got " +:+ dec slot))
  else nil_error.

Definition BuildTSAP (connType rack slot : Z) : res Z :=
  _ ← ValidateRackSlot rack slot;
  if (connType <? 0) || (connType >? 255) then
    Err (Plain ("connection type must be 0..255, got " +:+ dec connType))
  else
    let low := EncodeRackSlotTSAP (z2b (Z.land rack 7)) (z2b (Z.land slot 31)) in
    mret (Z.lor (u16 (Z.shiftl (u16 connType) 8)) (b2z low)).

(** ** Lemmas *)

Lemma checkedUint16_ok name v : is_u16 v -> checkedUint16 name v = Ok v.
Proof.
  unfold is_u16, checkedUint16, MaxUint16. intros. if_arith.
  simpl. by rewrite u16_small.
Qed.

Lemma checkedUint16_err name v :
  ~ is_u16 v -> exists e, checkedUint16 name v = Err e /\ errors_Is e ErrOutOfRange = true.
Proof. unfold is_u16, checkedUint16, MaxUint16. intros. if_arith. by eexists. Qed.

Lemma checkedUint16_inv name v w : checkedUint16 name v = Ok w -> w = v /\ is_u16 v.
Proof.
  intros H. destruct (decide (is_u16 v)) as [Hv|Hv].
  - rewrite checkedUint16_ok in H by done. by injection H.
  - destruct (checkedUint16_err name v Hv) as (e & He & _). congruence.
Qed.

Lemma length_s7Header r f p d : length (s7Header r f p d) = 10%nat.
Proof. done. Qed.

(** A message is emitted exactly when both sections fit their length field. *)
Lemma encodeMessage_ok r f param data :
  len param <= MaxUint16 -> len data <= MaxUint16 ->
  encodeMessage r f param data = Ok (s7Header r f (len param) (len data) ++ param ++ data).
Proof.
  unfold MaxUint16. intros. unfold encodeMessage, EncodeS7Header.
  rewrite !checkedUint16_ok by (unfold is_u16; lia). done.
Qed.

Lemma encodeMessage_inv r f param data msg :
  encodeMessage r f param data = Ok msg ->
  len param <= MaxUint16 /\ len data <= MaxUint16 /\
  msg = s7Header r f (len param) (len data) ++ param ++ data.
Proof.
  unfold encodeMessage, EncodeS7Header. intros H.
  apply bind_Ok_inv in H as (h & H & [= <-]).
  apply bind_Ok_inv in H as (p & Hp & H). apply bind_Ok_inv in H as (d & Hd & [= <-]).
  apply checkedUint16_inv in Hp as [-> Hp]. apply checkedUint16_inv in Hd as [-> Hd].
  unfold is_u16, MaxUint16 in *. split_and!; [lia.. | done].
Qed.

Lemma no_panic_checkedUint16 name v : no_panic (checkedUint16 name v).
Proof. unfold checkedUint16. case_if; auto with go. Qed.
#[export] Hint Resolve no_panic_checkedUint16 : go.

Lemma no_panic_encodeMessage r f param data : no_panic (encodeMessage r f param data).
Proof.
  unfold encodeMessage, EncodeS7Header.
  repeat (apply no_panic_bind; [|intros; auto with go]); auto with go.
Qed.
#[export] Hint Resolve no_panic_encodeMessage : go.

(** What the parser does with a message built from a header: the
    acknowledgement types read two more bytes. *)
Lemma ParseS7Header_plain r f p d body :
  IsAckData r || IsAck r = false ->
  is_u16 f -> is_u16 p -> is_u16 d -> p + d <= len body ->
  ParseS7Header (s7Header r f p d ++ body) =
    Ok (mkS7Header x32 r 0 f p d x00 x00, body).
Proof.
  intros Hr Hf Hp Hd Hb. unfold ParseS7Header, s7Header, put16, S7HeaderSize.
  unfold is_u16 in *. simpl length. if_arith.
  rewrite !slice_Uint16 by lia. simpl. rewrite Hr.
  rewrite !be16_put16, !Z.mod_small by lia. simpl.
  rewrite slice_from_ok by (simpl length; lia). simpl. rewrite drop_0. by if_arith.
Qed.

Lemma ParseS7Header_ack r f p d c k body :
  IsAckData r || IsAck r = true ->
  is_u16 f -> is_u16 p -> is_u16 d -> p + d <= len body ->
  ParseS7Header (s7Header r f p d ++ [c; k] ++ body) =
    Ok (mkS7Header x32 r 0 f p d c k, body).
Proof.
  intros Hr Hf Hp Hd Hb. unfold ParseS7Header, s7Header, put16, S7HeaderSize.
  unfold is_u16 in *. simpl length. if_arith.
  rewrite !slice_Uint16 by lia. simpl. rewrite Hr.
  rewrite !be16_put16, !Z.mod_small by lia. simpl.
  if_arith. simpl.
  rewrite slice_from_ok by (simpl length; lia). simpl. rewrite drop_0. by if_arith.
Qed.

#[local] Ltac finish_parse :=
  cbn [ROSCTR PDURef ParamLength DataLength ErrorClass ErrorCode RedundancyID];
  match goal with H : _ || _ = _ |- _ => rewrite H end;
  eexists _, _; simpl; rewrite !z2b_be16_hi, !z2b_be16_lo; split_and!; try done; try apply be16_range; lia.

(** The parser accepts a buffer exactly when it is a header of its own
    encoder followed by at least the bytes the header declares. *)
Lemma ParseS7Header_sound data h rest :
  ParseS7Header data = Ok (h, rest) ->
  exists r0 r1,
    data = [x32; ROSCTR h; r0; r1] ++ put16 (PDURef h) ++ put16 (ParamLength h)
             ++ put16 (DataLength h)
             ++ (if IsAckData (ROSCTR h) || IsAck (ROSCTR h)
                 then [ErrorClass h; ErrorCode h] else [])
             ++ rest /\
    RedundancyID h = be16 r0 r1 /\
    is_u16 (PDURef h) /\ is_u16 (ParamLength h) /\ is_u16 (DataLength h) /\
    ParamLength h + DataLength h <= len rest /\
    (IsAckData (ROSCTR h) || IsAck (ROSCTR h) = false -> ErrorClass h = x00 /\ ErrorCode h = x00).
Proof.
  unfold ParseS7Header, S7HeaderSize. case_if; [done|]. b2p.
  do 10 (destruct data as [|? data]; [simpl length in *; lia|]).
  rewrite !slice_Uint16 by lia. simpl.
  case_if; [done|]. b2p. subst. case_if; simpl.
  - case_if; [done|]. b2p.
    do 2 (destruct data as [|? data]; [simpl length in *; lia|]). simpl.
    rewrite slice_from_ok by (simpl length; lia). simpl. rewrite drop_0.
    case_if; [done|]. intros [= <- <-]. finish_parse.
  - rewrite slice_from_ok by (simpl length; lia). simpl. rewrite drop_0.
    case_if; [done|]. intros [= <- <-]. finish_parse.
Qed.

Lemma ParseS7Header_no_panic data : no_panic (ParseS7Header data).
Proof.
  unfold ParseS7Header, S7HeaderSize. case_if; [np|]. b2p.
  do 10 (destruct data as [|? data]; [simpl length in *; lia|]).
  rewrite !slice_Uint16 by lia. simpl.
  case_if; [np|]. case_if; simpl.
  - case_if; [np|]. b2p.
    do 2 (destruct data as [|? data]; [simpl length in *; lia|]). simpl.
    rewrite slice_from_ok by (simpl length; lia). simpl. case_if; np.
  - rewrite slice_from_ok by (simpl length; lia). simpl. case_if; np.
Qed.
#[export] Hint Resolve ParseS7Header_no_panic : go.

Lemma ParseSetupCommResponse_no_panic data : no_panic (ParseSetupCommResponse data).
Proof.
  unfold ParseSetupCommResponse. case_if; [np|]. b2p.
  do 8 (destruct data as [|? data]; [simpl length in *; lia|]).
  rewrite !slice_Uint16 by lia. simpl. case_if; np.
Qed.
#[export] Hint Resolve ParseSetupCommResponse_no_panic : go.

(** ** TSAP lemmas *)

Lemma land_mod z n : 0 <= n -> Z.land z (Z.ones n) = z mod 2 ^ n.
Proof. apply Z.land_ones. Qed.

Lemma EncodeRackSlotTSAP_value rack slot :
  0 <= rack <= 7 -> 0 <= slot <= 31 ->
  b2z (EncodeRackSlotTSAP (z2b rack) (z2b slot)) = rack * 32 + slot.
Proof.
  intros Hr Hs. unfold EncodeRackSlotTSAP.
  change 7 with (Z.ones 3). change 31 with (Z.ones 5). rewrite !land_mod by lia.
  change (2 ^ 3) with 8. change (2 ^ 5) with 32.
  rewrite (b2z_z2b_small rack), (b2z_z2b_small slot), !Z.mod_small by lia.
  rewrite (b2z_z2b_small (Z.shiftl rack 5)) by (rewrite Z.shiftl_mul_pow2; lia).
  rewrite shiftl_lor_add by lia. rewrite b2z_z2b_small by lia. lia.
Qed.

Lemma BuildTSAP_value connType rack slot :
  0 <= connType <= 255 -> 0 <= rack <= 7 -> 0 <= slot <= 31 ->
  BuildTSAP connType rack slot = Ok (connType * 256 + rack * 32 + slot).
Proof.
  intros Hc Hr Hs. unfold BuildTSAP, ValidateRackSlot. if_arith. if_arith. simpl. if_arith.
  change 7 with (Z.ones 3). change 31 with (Z.ones 5). rewrite !land_mod by lia.
  change (2 ^ 3) with 8. change (2 ^ 5) with 32. rewrite (Z.mod_small rack), (Z.mod_small slot) by lia.
  rewrite EncodeRackSlotTSAP_value by lia. simpl. f_equal.
  rewrite (u16_small connType) by (unfold is_u16; lia).
  rewrite u16_small by (rewrite Z.shiftl_mul_pow2; unfold is_u16; lia).
  rewrite shiftl_lor_add by lia. lia.
Qed.

Lemma BuildTSAP_inv connType rack slot t :
  BuildTSAP connType rack slot = Ok t ->
  0 <= connType <= 255 /\ 0 <= rack <= 7 /\ 0 <= slot <= 31.
Proof.
  unfold BuildTSAP, ValidateRackSlot. repeat (case_if; simpl; try done). intros _. b2p. lia.
Qed.
