(* ===== verification/ReadWrite.v ===== *)
(** * Read Var and Write Var, client side (wire/pdu_rw.go)

    S7ANY addresses, the Read Var and Write Var request encoders, the strict
    parser of Read Var answers with its fill bytes, the Write Var answer
    parser and the typed decoders of an item. *)

From S2P Require Import Prelude Go WireErrors Header.

(** ** Area codes and syntax IDs *)

Definition AreaDataRecord : byte := x01.
Definition AreaSysInfo : byte := x03.
Definition AreaSysFlags : byte := x05.
Definition AreaS7200AN : byte := x06.
Definition AreaS7200AO : byte := x07.
Definition AreaInputs : byte := x81.
Definition AreaOutputs : byte := x82.
Definition AreaMerkers : byte := x83.
Definition AreaDB : byte := x84.
Definition AreaDI : byte := x85.
Definition AreaLocal : byte := x86.
Definition AreaV : byte := x87.
Definition AreaCounter : byte := x1c.
Definition AreaTimer : byte := x1d.
Definition AreaIECCounter200 : byte := x1e.
Definition AreaIECTimer200 : byte := x1f.
Definition AreaPeripheral : byte := x80.

Definition SyntaxIDS7Any : byte := x10.
Definition SyntaxIDDBRead : byte := xb0.
Definition SyntaxID1200Symbolic : byte := xb2.
Definition SyntaxIDNCK : byte := x82.
Definition SyntaxIDDriveES : byte := xa2.

Local Open Scope string_scope.

(** The hex table of [hexByte]. *)
Definition hexByte (b : byte) : string :=
  let hex := "0123456789ABCDEF" in
  String.append (String.substring (Z.to_nat (Z.shiftr (b2z b) 4)) 1 hex)
                (String.substring (Z.to_nat (Z.land (b2z b) 15)) 1 hex).

Definition ValidateRequestSyntax (syntax : byte) : res unit :=
  if syntax =b SyntaxIDS7Any then nil_error
  else if syntax ∈b [SyntaxIDDBRead; SyntaxID1200Symbolic; SyntaxIDDriveES; x82; x83; x84]
  then Err (UnsupportedSyntaxError syntax)
  else Err (UnsupportedSyntaxError syntax).

Definition ValidateArea (area : byte) : res unit :=
  if area ∈b [AreaDataRecord; AreaInputs; AreaOutputs; AreaMerkers; AreaDB; AreaDI; AreaLocal;
              AreaV; AreaCounter; AreaTimer; AreaIECCounter200; AreaIECTimer200; AreaPeripheral;
              AreaSysInfo; AreaSysFlags; AreaS7200AN; AreaS7200AO]
  then nil_error
  else Err (S7Error x00 x00 ("unsupported area code 0x" +:+ hexByte area)).

Definition areaNames : list (byte * string) :=
  [ (AreaDataRecord, "RECORD"); (AreaSysInfo, "SI200"); (AreaSysFlags, "SF200")
  ; (AreaS7200AN, "AI200"); (AreaS7200AO, "AO200")
  ; (AreaPeripheral, "P"); (AreaInputs, "I"); (AreaOutputs, "Q"); (AreaMerkers, "M")
  ; (AreaDB, "DB"); (AreaDI, "DI"); (AreaLocal, "L"); (AreaV, "V")
  ; (AreaCounter, "C"); (AreaTimer, "T"); (x1e, "C200"); (x1f, "T200") ].

Definition AreaString (area : byte) : string :=
  match name_lookup areaNames area with Some s => s | None => "0x" +:+ fmt_02X area end.

Definition syntaxIDNames : list (byte * string) :=
  [ (SyntaxIDS7Any, "S7ANY"); (x11, "ParameterShort"); (x12, "ParameterExtended")
  ; (x13, "PBC-R_ID"); (x15, "ALARM_LOCKFREE"); (x16, "ALARM_IND"); (x19, "ALARM_ACK")
  ; (x1a, "ALARM_QUERYREQ"); (x1c, "NOTIFY_IND")
  ; (x82, "NCK"); (x83, "NCK_M"); (x84, "NCK_I")
  ; (SyntaxIDDriveES, "DRIVEESANY"); (SyntaxID1200Symbolic, "1200SYM"); (SyntaxIDDBRead, "DBREAD") ].

Definition SyntaxIDString (syntax : byte) : string :=
  match name_lookup syntaxIDNames syntax with Some s => s | None => "0x" +:+ fmt_02X syntax end.

(** ** Transport sizes *)

Definition TransportSizeBit : byte := x01.
Definition TransportSizeByte : byte := x02.
Definition TransportSizeChar : byte := x03.
Definition TransportSizeWord : byte := x04.
Definition TransportSizeInt : byte := x05.
Definition TransportSizeDWord : byte := x06.
Definition TransportSizeDInt : byte := x07.
Definition TransportSizeReal : byte := x08.

Definition DataTransportSizeNull : byte := x00.
Definition DataTransportSizeBit : byte := x03.
Definition DataTransportSizeByte : byte := x04.
Definition DataTransportSizeInt : byte := x05.
Definition DataTransportSizeDInt : byte := x06.
Definition DataTransportSizeReal : byte := x07.
Definition DataTransportSizeOctet : byte := x09.

Definition responseTransportSizeNames : list (byte * string) :=
  [ (DataTransportSizeNull, "NULL"); (DataTransportSizeBit, "BIT")
  ; (DataTransportSizeByte, "BYTE/WORD/DWORD"); (DataTransportSizeInt, "INTEGER")
  ; (DataTransportSizeDInt, "DINTEGER"); (DataTransportSizeReal, "REAL")
  ; (DataTransportSizeOctet, "OCTET STRING") ].

Definition ResponseTransportSize_String (r : byte) : string :=
  match name_lookup responseTransportSizeNames r with Some s => s | None => "0x" +:+ fmt_02X r end.

Local Close Scope string_scope.

(** ** S7ANY addresses *)

Record S7AnyAddress := mkS7AnyAddress {
  Area : byte;
  DBNumber : Z;
  Start : Z;
  Size : Z;
}.

Record S7AnyBitAddress := mkS7AnyBitAddress {
  BitArea : byte;
  BitDBNumber : Z;
  ByteOffset : Z;
  BitOffset : Z;
}.

Definition MaxS7AnyDBNumber : Z := 65535.
Definition MaxS7AnyByteOffset : Z := Z.shiftr 0xFFFFFF 3.
Definition MaxS7AnyCount : Z := 65535.
Definition MaxReadVarItems : Z := 255.
Definition MaxWriteVarBytes : Z := Z.shiftr 65535 3.

Definition putS7Any (transport : byte) (count dbNumber : Z) (area : byte) (startBit : Z) : bytes :=
  [x12; x0a; SyntaxIDS7Any; transport] ++ put16 count ++ put16 dbNumber ++
  [area; z2b (Z.land (Z.shiftr startBit 16) 255);
         z2b (Z.land (Z.shiftr startBit 8) 255); z2b (Z.land startBit 255)].

(** [ErrOutOfRange] naming a field, its value and its limit. *)
Definition out_of_range (what : string) (v limit : Z) : error :=
  errorf1 "" (Sentinel ErrOutOfRange)
    (": " +:+ what +:+ " " +:+ dec v +:+ " not in 0.." +:+ dec limit).

Definition EncodeS7Any (addr : S7AnyAddress) : res bytes :=
  if (DBNumber addr <? 0) || (DBNumber addr >? MaxS7AnyDBNumber) then
    Err (out_of_range "DB number" (DBNumber addr) MaxS7AnyDBNumber)
  else if (Start addr <? 0) || (Start addr >? MaxS7AnyByteOffset) then
    Err (out_of_range "start" (Start addr) MaxS7AnyByteOffset)
  else if (Size addr <? 0) || (Size addr >? MaxS7AnyCount) then
    Err (out_of_range "size" (Size addr) MaxS7AnyCount)
  else mret (putS7Any TransportSizeByte (u16 (Size addr)) (u16 (DBNumber addr)) (Area addr)
               (u32 (Z.shiftl (u32 (Start addr)) 3))).

Definition EncodeS7AnyBit (addr : S7AnyBitAddress) : res bytes :=
  if (BitDBNumber addr <? 0) || (BitDBNumber addr >? MaxS7AnyDBNumber) then
    Err (out_of_range "DB number" (BitDBNumber addr) MaxS7AnyDBNumber)
  else if (ByteOffset addr <? 0) || (ByteOffset addr >? MaxS7AnyByteOffset) then
    Err (out_of_range "byte offset" (ByteOffset addr) MaxS7AnyByteOffset)
  else if (BitOffset addr <? 0) || (BitOffset addr >? 7) then
    Err (out_of_range "bit offset" (BitOffset addr) 7)
  else
    let startBit := Z.lor (u32 (Z.shiftl (u32 (ByteOffset addr)) 3)) (u32 (BitOffset addr)) in
    mret (putS7Any TransportSizeBit 1 (u16 (BitDBNumber addr)) (BitArea addr) startBit).

Definition ValidateS7AnyAddress (addr : S7AnyAddress) : res unit :=
  _ ← EncodeS7Any addr; nil_error.
Definition ValidateS7AnyBitAddress (addr : S7AnyBitAddress) : res unit :=
  _ ← EncodeS7AnyBit addr; nil_error.

(** ** Requests *)

Definition ReadVarRequestOverhead : Z := S7HeaderSize + 2 + 12.
Definition WriteVarRequestOverhead : Z := S7HeaderSize + 2 + 12 + 4.

Definition EncodeReadVarBitRequest (pduRef : Z) (addr : S7AnyBitAddress) : res bytes :=
  item ← EncodeS7AnyBit addr;
  encodeMessage ROSCTRJob pduRef ([FuncReadVar; x01] ++ item) [].

Definition EncodeWriteVarBitRequest (pduRef : Z) (addr : S7AnyBitAddress) (value : bool) : res bytes :=
  item ← EncodeS7AnyBit addr;
  let param := [FuncWriteVar; x01] ++ item in
  let payload := if value then x01 else x00 in
  encodeMessage ROSCTRJob pduRef param [x00; DataTransportSizeBit; x00; x01; payload; x00].

(** The item loop of [EncodeReadVarRequest]. *)
Fixpoint encodeItems (addrs : list S7AnyAddress) : res bytes :=
  match addrs with
  | [] => mret []
  | addr :: addrs => item ← EncodeS7Any addr; rest ← encodeItems addrs; mret (item ++ rest)
  end.

Definition EncodeReadVarRequest (pduRef : Z) (addrs : list S7AnyAddress) : res bytes :=
  let n := len addrs in
  if n >? MaxReadVarItems then
    Err (errorf1 "" (Sentinel ErrOutOfRange)
           (": " +:+ dec n +:+ " items, at most " +:+ dec MaxReadVarItems))
  else
  items ← encodeItems addrs;
  encodeMessage ROSCTRJob pduRef ([FuncReadVar; z2b n] ++ items) [].

Definition EncodeWriteVarRequest (pduRef : Z) (addr : S7AnyAddress) (value : bytes) : res bytes :=
  let bits := len value * 8 in
  if bits >? MaxUint16 then
    Err (errorf1 "" (Sentinel ErrOutOfRange)
           (": write of " +:+ dec (len value) +:+ " bytes, at most " +:+ dec MaxWriteVarBytes))
  else
  item ← EncodeS7Any addr;
  let param := [FuncWriteVar; x01] ++ item in
  let data := [RetCodeSuccess; x04] ++ put16 (u16 bits) ++ value in
  let data := if negb (len data mod 2 =? 0) then data ++ [x00] else data in
  encodeMessage ROSCTRJob pduRef param data.

(** ** Read Var answers *)

Record ReadVarItem := mkReadVarItem {
  ReturnCode : byte;
  RawTransportSize : byte;
  RawLength : Z;
  Data : bytes;
}.

Definition NormalizeResponseDataLength (transportSize : byte) (rawLength : Z) : res Z :=
  if transportSize ∈b [DataTransportSizeBit; DataTransportSizeByte; DataTransportSizeInt] then
    mret ((rawLength + 7) / 8)
  else if transportSize ∈b [DataTransportSizeDInt; DataTransportSizeReal; DataTransportSizeOctet] then
    mret rawLength
  else Err (S7Error x00 x00 ("unknown response transport size 0x" +:+ hexByte transportSize)).

(** The error of [decodeReadResponseItem] at an offset. *)
Definition item_error (offset : Z) (s : sentinel) : error :=
  errorf1 ("read response item at offset " +:+ dec offset +:+ ": ") (Sentinel s) "".

(** The item and the offset of the next one. *)
Definition decodeReadResponseItem (data : bytes) (offset : Z) (isLastItem : bool)
  : res (ReadVarItem * Z) :=
  if offset + 4 >? len data then Err (item_error offset ErrTruncatedItemHeader) else
  retCode ← idx data offset;
  transportSize ← idx data (offset + 1);
  rawLength ← slice data (offset + 2) (offset + 4) ≫= Uint16;
  let item := mkReadVarItem retCode transportSize rawLength [] in
  if retCode ≠b RetCodeSuccess then
    let next := offset + 4 in
    if transportSize =b x00 then mret (item, next)
    else if rawLength =? 0 then mret (item, next)
    else
    byteLen ← NormalizeResponseDataLength transportSize rawLength;
    if next + byteLen >? len data then Err (item_error offset ErrTruncatedItemPayload) else
    let next := next + byteLen in
    if negb (byteLen mod 2 =? 0) then
      if (next >=? len data) && negb isLastItem then
        Err (item_error offset ErrTruncatedItemPayload)
      else mret (item, if next <? len data then next + 1 else next)
    else mret (item, next)
  else
  byteLen ← NormalizeResponseDataLength transportSize rawLength;
  if byteLen <? 0 then Err (S7Error x00 x00 "read response item negative length") else
  if offset + 4 + byteLen >? len data then Err (item_error offset ErrTruncatedItemPayload) else
  payload ← slice data (offset + 4) (offset + 4 + byteLen);
  let item := mkReadVarItem retCode transportSize rawLength payload in
  let next := offset + 4 + byteLen in
  if negb (byteLen mod 2 =? 0) then
    if (next >=? len data) && negb isLastItem then
      Err (item_error offset ErrTruncatedItemPayload)
    else mret (item, if next <? len data then next + 1 else next)
  else mret (item, next).

(** The item loop of [ParseReadVarResponse]: [n] items are left. *)
Fixpoint parseItems (data : bytes) (n : nat) (offset : Z) : res (list ReadVarItem) :=
  match n with
  | O => mret []
  | S n' =>
      '(item, next) ← decodeReadResponseItem data offset (bool_decide (n' = O));
      items ← parseItems data n' next;
      mret (item :: items)
  end.

Definition ParseReadVarResponse (param data : bytes) : res (list ReadVarItem) :=
  if len param <? 2 then Err (S7Error x00 x00 "read response param too short") else
  fn ← idx param 0;
  if fn ≠b FuncReadVar then Err (S7Error x00 x00 "not a read var response") else
  count ← idx param 1;
  parseItems data (Z.to_nat (b2z count)) 0.

(** ** Write Var answers *)

Definition ParseWriteVarResponseCodes (param data : bytes) : res bytes :=
  if len param <? 2 then Err (S7Error x00 x00 "write response param too short") else
  fn ← idx param 0;
  if fn ≠b FuncWriteVar then Err (S7Error x00 x00 "not a write var response") else
  count ← idx param 1;
  let n := b2z count in
  if (n =? 0) || (len data <? n) then
    Err (S7Error x00 x00
           ("write response: " +:+ dec (len data) +:+ " item codes for " +:+ dec n +:+ " items"))
  else slice data 0 n.

(** The code loop of [ParseWriteVarResponse]: [i] is the index of the head
    of [codes], [total] their number. *)
Fixpoint firstCodeError (i total : Z) (codes : bytes) : res unit :=
  match codes with
  | [] => nil_error
  | c :: codes =>
      match ReturnCodeError c with
      | Err err =>
          if total =? 1 then Err err
          else Err (errorf1 ("write item " +:+ dec i +:+ " of " +:+ dec total +:+ ": ") err "")
      | _ => firstCodeError (i + 1) total codes
      end
  end.

Definition ParseWriteVarResponse (param data : bytes) : res unit :=
  codes ← ParseWriteVarResponseCodes param data;
  firstCodeError 0 (len codes) codes.

(** ** Typed decoders of an item *)

Definition decodeSuccessItem (item : ReadVarItem) (need : Z) : res bytes :=
  if ReturnCode item ≠b RetCodeSuccess then Err (S7Error x00 x00 "item not success, cannot decode")
  else if len (Data item) <? need then
    Err (S7Error x00 x00
           ("item payload too short: need " +:+ dec need +:+ ", got " +:+ dec (len (Data item))))
  else mret (Data item).

Definition DecodeAsByte (item : ReadVarItem) : res byte :=
  data ← decodeSuccessItem item 1; idx data 0.

Definition DecodeAsBit (item : ReadVarItem) : res bool :=
  if ReturnCode item ≠b RetCodeSuccess then Err (S7Error x00 x00 "item not success, cannot decode")
  else if RawTransportSize item ≠b DataTransportSizeBit then
    Err (S7Error x00 x00
           ("expected BIT response transport size, got 0x" +:+ hexByte (RawTransportSize item)))
  else
  let byteLen := (RawLength item + 7) / 8 in
  if negb (byteLen =? 1) || (len (Data item) <? 1) then
    Err (S7Error x00 x00
           ("bit response payload length invalid: normalized=" +:+ dec byteLen +:+
            " data=" +:+ dec (len (Data item))))
  else
  b ← idx (Data item) 0;
  mret (negb (Z.land (b2z b) 1 =? 0)).

Definition DecodeAsWord (item : ReadVarItem) : res Z :=
  data ← decodeSuccessItem item 2; Uint16 data.

Definition DecodeAsDWord (item : ReadVarItem) : res Z :=
  data ← decodeSuccessItem item 4; Uint32 data.

Definition DecodeAsInt (item : ReadVarItem) : res Z :=
  data ← decodeSuccessItem item 2;
  b0 ← idx data 0; b1 ← idx data 1;
  mret (sint 16 (Z.lor (sint 16 (Z.shiftl (b2z b0) 8)) (b2z b1))).

Definition DecodeAsDInt (item : ReadVarItem) : res Z :=
  data ← decodeSuccessItem item 4;
  b0 ← idx data 0; b1 ← idx data 1; b2 ← idx data 2; b3 ← idx data 3;
  mret (sint 32 (Z.lor (Z.lor (Z.lor (sint 32 (Z.shiftl (b2z b0) 24))
                                (sint 32 (Z.shiftl (b2z b1) 16)))
                         (sint 32 (Z.shiftl (b2z b2) 8))) (b2z b3))).

(** A float32 is its bit pattern: [math.Float32frombits] is the identity. *)
Definition DecodeAsReal (item : ReadVarItem) : res Z :=
  data ← decodeSuccessItem item 4; Uint32 data.

(** ** Lemmas: addresses *)

Lemma MaxS7AnyByteOffset_value : MaxS7AnyByteOffset = 2097151.
Proof. done. Qed.

Definition s7any_in_range (addr : S7AnyAddress) : Prop :=
  0 <= DBNumber addr <= MaxS7AnyDBNumber /\ 0 <= Start addr <= MaxS7AnyByteOffset /\
  0 <= Size addr <= MaxS7AnyCount.

Definition s7anybit_in_range (addr : S7AnyBitAddress) : Prop :=
  0 <= BitDBNumber addr <= MaxS7AnyDBNumber /\ 0 <= ByteOffset addr <= MaxS7AnyByteOffset /\
  0 <= BitOffset addr <= 7.

#[export] Instance s7any_in_range_dec addr : Decision (s7any_in_range addr).
Proof. unfold s7any_in_range. apply _. Defined.
#[export] Instance s7anybit_in_range_dec addr : Decision (s7anybit_in_range addr).
Proof. unfold s7anybit_in_range. apply _. Defined.

(** In range, the 24-bit start address is the byte offset times eight. *)
Lemma EncodeS7Any_ok addr :
  s7any_in_range addr ->
  EncodeS7Any addr =
    Ok (putS7Any TransportSizeByte (Size addr) (DBNumber addr) (Area addr) (Start addr * 8)).
Proof.
  unfold s7any_in_range, EncodeS7Any. rewrite MaxS7AnyByteOffset_value.
  unfold MaxS7AnyDBNumber, MaxS7AnyCount. intros. repeat if_arith. unfold mret, res_ret.
  rewrite !u16_small by (unfold is_u16; lia). rewrite (u32_small (Start addr)) by (unfold is_u32; lia).
  rewrite Z.shiftl_mul_pow2 by lia. rewrite u32_small by (unfold is_u32; lia). done.
Qed.

Lemma EncodeS7Any_err addr :
  ~ s7any_in_range addr ->
  exists e, EncodeS7Any addr = Err e /\ errors_Is e ErrOutOfRange = true.
Proof.
  unfold s7any_in_range, EncodeS7Any. intros H.
  repeat (case_if; [by eexists|]). b2p. exfalso. apply H. lia.
Qed.

Lemma EncodeS7Any_Ok_inv addr item : EncodeS7Any addr = Ok item -> s7any_in_range addr.
Proof.
  intros H. destruct (decide (s7any_in_range addr)) as [|Hn]; [done|].
  destruct (EncodeS7Any_err _ Hn) as (e & He & _). congruence.
Qed.

Lemma EncodeS7AnyBit_ok addr :
  s7anybit_in_range addr ->
  EncodeS7AnyBit addr =
    Ok (putS7Any TransportSizeBit 1 (BitDBNumber addr) (BitArea addr)
          (ByteOffset addr * 8 + BitOffset addr)).
Proof.
  unfold s7anybit_in_range, EncodeS7AnyBit. rewrite MaxS7AnyByteOffset_value.
  unfold MaxS7AnyDBNumber. intros. repeat if_arith. unfold mret, res_ret.
  rewrite !u16_small by (unfold is_u16; lia).
  rewrite (u32_small (ByteOffset addr)), (u32_small (BitOffset addr)) by (unfold is_u32; lia).
  rewrite (u32_small (Z.shiftl _ _)) by (rewrite Z.shiftl_mul_pow2; unfold is_u32; lia).
  rewrite shiftl_lor_add by lia. done.
Qed.

Lemma EncodeS7AnyBit_err addr :
  ~ s7anybit_in_range addr ->
  exists e, EncodeS7AnyBit addr = Err e /\ errors_Is e ErrOutOfRange = true.
Proof.
  unfold s7anybit_in_range, EncodeS7AnyBit. intros H.
  repeat (case_if; [by eexists|]). b2p. exfalso. apply H. lia.
Qed.

Lemma length_putS7Any t c d a s : length (putS7Any t c d a s) = 12%nat.
Proof. done. Qed.

(** The three address bytes carry the 24-bit start address. *)
Lemma startbit_bytes s :
  0 <= s < 16777216 ->
  Z.lor (Z.lor (Z.shiftl (b2z (z2b (Z.land (Z.shiftr s 16) 255))) 16)
           (Z.shiftl (b2z (z2b (Z.land (Z.shiftr s 8) 255))) 8))
    (b2z (z2b (Z.land s 255))) = s.
Proof.
  intros Hs. change 255 with (Z.ones 8). rewrite !land_mod by lia. change (2 ^ 8) with 256.
  rewrite !z2b_mod, !b2z_z2b, !Z.shiftr_div_pow2 by lia.
  change (2 ^ 16) with 65536. change (2 ^ 8) with 256.
  rewrite <- Z.lor_assoc. rewrite (shiftl_lor_add _ 8) by (change (2 ^ 8) with 256; Z.div_mod_to_equations; lia).
  rewrite (shiftl_lor_add _ 16)
    by (change (2 ^ 16) with 65536; change (2 ^ 8) with 256; Z.div_mod_to_equations; lia).
  change (2 ^ 16) with 65536. change (2 ^ 8) with 256. Z.div_mod_to_equations. lia.
Qed.

(** ** Lemmas: requests *)

Lemma EncodeReadVarRequest_one ref addr :
  s7any_in_range addr ->
  EncodeReadVarRequest ref [addr] =
    Ok (s7Header ROSCTRJob ref 14 0 ++ [FuncReadVar; x01] ++
        putS7Any TransportSizeByte (Size addr) (DBNumber addr) (Area addr) (Start addr * 8)).
Proof.
  intros H. unfold EncodeReadVarRequest, MaxReadVarItems. simpl length. if_arith. simpl encodeItems.
  rewrite (EncodeS7Any_ok _ H). unfold mbind, res_bind, mret, res_ret.
  rewrite app_nil_r. rewrite encodeMessage_ok; [by rewrite app_nil_r | done | done].
Qed.

(** A Write Var request carries the value, its length in bits and, after an
    odd value, one fill byte. *)
Lemma EncodeWriteVarRequest_ok ref addr value :
  s7any_in_range addr -> len value <= MaxWriteVarBytes ->
  EncodeWriteVarRequest ref addr value =
    Ok (s7Header ROSCTRJob ref 14 (4 + len value + len value mod 2) ++ [FuncWriteVar; x01] ++
        putS7Any TransportSizeByte (Size addr) (DBNumber addr) (Area addr) (Start addr * 8) ++
        [RetCodeSuccess; x04] ++ put16 (len value * 8) ++ value ++
        (if len value mod 2 =? 0 then [] else [x00])).
Proof.
  change MaxWriteVarBytes with 8191. intros H Hv. unfold EncodeWriteVarRequest, MaxUint16. if_arith.
  rewrite (EncodeS7Any_ok _ H). unfold mbind, res_bind.
  rewrite u16_small by (unfold is_u16; lia).
  set (p := [FuncWriteVar; x01] ++ _).
  assert (Hp : len p = 14) by done.
  set (d0 := [RetCodeSuccess; x04] ++ put16 (len value * 8) ++ value).
  assert (Hd0 : len d0 = 4 + len value) by (unfold d0; rewrite !length_app; simpl length; lia).
  rewrite Hd0. replace ((4 + len value) mod 2) with (len value mod 2) by (Z.div_mod_to_equations; lia).
  destruct (Z.eqb_spec (len value mod 2) 0) as [E|E]; cbn [negb].
  - rewrite encodeMessage_ok by (unfold MaxUint16; lia). rewrite Hp, Hd0, E.
    unfold p, d0. rewrite app_nil_r. simpl. do 3 f_equal. by rewrite Z.add_0_r.
  - assert (E1 : len value mod 2 = 1) by (Z.div_mod_to_equations; lia).
    assert (Hd1 : len (d0 ++ [x00]) = 4 + len value + 1) by (rewrite length_app; simpl length; lia).
    rewrite encodeMessage_ok by (unfold MaxUint16; lia). rewrite Hp, Hd1, E1.
    unfold p, d0. by rewrite <- !app_assoc.
Qed.

(** The request sizes the client plans its chunks with. *)
Lemma length_EncodeWriteVarRequest ref addr value req :
  EncodeWriteVarRequest ref addr value = Ok req ->
  len req = WriteVarRequestOverhead + len value + len value mod 2.
Proof.
  intros H. destruct (decide (s7any_in_range addr)) as [Ha|Ha].
  - destruct (Z.leb_spec (len value) MaxWriteVarBytes) as [Hv|Hv].
    + rewrite EncodeWriteVarRequest_ok in H by done. apply Ok_inj in H as <-.
      rewrite !length_app, length_s7Header, length_putS7Any, length_put16.
      change WriteVarRequestOverhead with 28.
      destruct (Z.eqb_spec (len value mod 2) 0); simpl length; Z.div_mod_to_equations; lia.
    + change MaxWriteVarBytes with 8191 in Hv. unfold EncodeWriteVarRequest, MaxUint16 in H.
      by case_if_in H; [|b2p; lia].
  - unfold EncodeWriteVarRequest in H. case_if_in H; [done|].
    destruct (EncodeS7Any_err _ Ha) as (e & He & _). by rewrite He in H.
Qed.

Lemma no_panic_EncodeS7Any addr : no_panic (EncodeS7Any addr).
Proof. unfold EncodeS7Any. repeat (case_if; [np|]). np. Qed.
Lemma no_panic_EncodeS7AnyBit addr : no_panic (EncodeS7AnyBit addr).
Proof. unfold EncodeS7AnyBit. repeat (case_if; [np|]). np. Qed.
#[export] Hint Resolve no_panic_EncodeS7Any no_panic_EncodeS7AnyBit : go.

Lemma no_panic_encodeItems addrs : no_panic (encodeItems addrs).
Proof.
  induction addrs; simpl; [np|].
  apply no_panic_bind; [np|]. intros. apply no_panic_bind; [done|]. np.
Qed.
#[export] Hint Resolve no_panic_encodeItems : go.

(** ** Lemmas: the Read Var answer parser *)

Lemma NormalizeResponseDataLength_range ts raw n :
  is_u16 raw -> NormalizeResponseDataLength ts raw = Ok n -> 0 <= n <= raw.
Proof.
  unfold is_u16, NormalizeResponseDataLength. intros Hr.
  repeat case_if; intros [= <-]; [|lia]. Z.div_mod_to_equations. lia.
Qed.

Lemma no_panic_Normalize ts raw : no_panic (NormalizeResponseDataLength ts raw).
Proof. unfold NormalizeResponseDataLength. repeat np_step. Qed.
#[export] Hint Resolve no_panic_Normalize : go.

Lemma no_panic_decodeReadResponseItem data offset last :
  0 <= offset -> no_panic (decodeReadResponseItem data offset last).
Proof.
  intros Ho. unfold decodeReadResponseItem. repeat np_step.
Qed.

(** Each item advances the offset and stays inside the data section. *)
Lemma decodeReadResponseItem_next data offset last item next :
  0 <= offset -> decodeReadResponseItem data offset last = Ok (item, next) ->
  offset + 4 <= next <= len data.
Proof.
  intros Ho. unfold decodeReadResponseItem. case_if; [done|]. intros H.
  apply bind_Ok_inv in H as (rc & _ & H). apply bind_Ok_inv in H as (ts & _ & H).
  apply bind_Ok_inv in H as (raw & Hraw%slice_Uint16_range & H).
  case_if_in H.
  - case_if_in H; [injection H as <- <-; b2p; lia|].
    case_if_in H; [injection H as <- <-; b2p; lia|].
    apply bind_Ok_inv in H as (n & Hn & H). apply NormalizeResponseDataLength_range in Hn; [|done].
    case_if_in H; [done|]. case_if_in H; [case_if_in H; [done|]|]; injection H as <- <-; b2p; [|lia].
    case_if; b2p; lia.
  - apply bind_Ok_inv in H as (n & Hn & H). apply NormalizeResponseDataLength_range in Hn; [|done].
    case_if_in H; [done|]. case_if_in H; [done|]. apply bind_Ok_inv in H as (pl & _ & H).
    case_if_in H; [case_if_in H; [done|]|]; injection H as <- <-; b2p; [|lia].
    case_if; b2p; lia.
Qed.

Lemma no_panic_parseItems data n offset : 0 <= offset -> no_panic (parseItems data n offset).
Proof.
  revert offset. induction n as [|n IH]; intros offset Ho; simpl; [np|].
  apply no_panic_bind; [by apply no_panic_decodeReadResponseItem|].
  intros [item next] H. apply decodeReadResponseItem_next in H; [|done].
  repeat np_step. apply IH. lia.
Qed.

Lemma ParseReadVarResponse_no_panic param data : no_panic (ParseReadVarResponse param data).
Proof. unfold ParseReadVarResponse. repeat np_step. by apply no_panic_parseItems. Qed.
#[export] Hint Resolve ParseReadVarResponse_no_panic : go.

Lemma no_panic_firstCodeError i total codes : no_panic (firstCodeError i total codes).
Proof.
  revert i. induction codes as [|c codes IH]; intros i; simpl; [np|].
  destruct (ReturnCodeError c); [apply IH | case_if; np | apply IH].
Qed.

Lemma ParseWriteVarResponse_no_panic param data : no_panic (ParseWriteVarResponse param data).
Proof.
  unfold ParseWriteVarResponse, ParseWriteVarResponseCodes. pose proof b2z_range.
  apply no_panic_bind.
  - repeat np_step. b2p. pose proof (b2z_range a0). apply no_panic_slice; lia.
  - intros. apply no_panic_firstCodeError.
Qed.
#[export] Hint Resolve ParseWriteVarResponse_no_panic : go.

(** A parsed Read Var answer has as many items as its parameter counts, and a
    successful item carries exactly the bytes its length field announces. *)
Lemma decodeReadResponseItem_payload data offset last item next :
  0 <= offset -> decodeReadResponseItem data offset last = Ok (item, next) ->
  is_u16 (RawLength item) /\
  (ReturnCode item = RetCodeSuccess ->
     NormalizeResponseDataLength (RawTransportSize item) (RawLength item) = Ok (len (Data item)) /\
     slice data (offset + 4) (offset + 4 + len (Data item)) = Ok (Data item)) /\
  (ReturnCode item <> RetCodeSuccess -> Data item = []).
Proof.
  intros Ho. unfold decodeReadResponseItem. case_if; [done|]. intros H.
  apply bind_Ok_inv in H as (rc & _ & H). apply bind_Ok_inv in H as (ts & _ & H).
  apply bind_Ok_inv in H as (raw & Hraw%slice_Uint16_range & H).
  case_if_in H; b2p.
  - assert (item = mkReadVarItem rc ts raw []) as ->.
    { case_if_in H; [by injection H|]. case_if_in H; [by injection H|].
      apply bind_Ok_inv in H as (n & Hn & H).
      case_if_in H; [done|]. case_if_in H; [case_if_in H; [done|]|]; by injection H. }
    done.
  - apply bind_Ok_inv in H as (n & Hn & H). case_if_in H; [done|]. case_if_in H; [done|].
    apply bind_Ok_inv in H as (pl & Hpl & H).
    pose proof (slice_Ok_inv _ _ _ _ Hpl) as (_ & _ & Hlen & _).
    assert (item = mkReadVarItem rc ts raw pl) as ->.
    { case_if_in H; [case_if_in H; [done|]|]; by injection H. }
    simpl. split_and!; [done | | done]. intros _. rewrite Hlen.
    replace (offset + 4 + n - (offset + 4)) with n by lia. done.
Qed.

Lemma parseItems_spec data n offset items :
  0 <= offset -> parseItems data n offset = Ok items ->
  length items = n /\
  Forall (fun item =>
    is_u16 (RawLength item) /\
    (ReturnCode item = RetCodeSuccess ->
       NormalizeResponseDataLength (RawTransportSize item) (RawLength item) = Ok (len (Data item))) /\
    (ReturnCode item <> RetCodeSuccess -> Data item = [])) items.
Proof.
  revert offset items. induction n as [|n IH]; intros offset items Ho H; simpl in H.
  { injection H as <-. done. }
  apply bind_Ok_inv in H as ([item next] & H1 & H). apply bind_Ok_inv in H as (items' & H2 & [= <-]).
  pose proof (decodeReadResponseItem_next _ _ _ _ _ Ho H1).
  pose proof (decodeReadResponseItem_payload _ _ _ _ _ Ho H1) as (? & Hs & ?).
  apply IH in H2 as [Hl HF]; [|lia]. split; [simpl; congruence|].
  constructor; [|done]. split_and!; [done | | done]. intros E. by destruct (Hs E).
Qed.
