(* ===== verification/ServerCodec.v ===== *)
(** * Server-side codec (wire/pdu_server.go)

    Decoders of the jobs a client sends (Setup Communication, Read Var,
    Write Var, DBREAD items) and encoders of the Ack-Data answers. *)

From S2P Require Import Prelude Go WireErrors Header ReadWrite.

Definition AckDataHeaderSize : Z := S7HeaderSize + 2.

(** [fmt.Errorf("%w: ...", ErrMalformedRequest)]. *)
Definition malformed (text : string) : error :=
  errorf1 "" (Sentinel ErrMalformedRequest) (": " +:+ text).

(** ** Setup Communication *)

Record SetupCommRequest := mkSetupCommRequest {
  ReqMaxAmqCalling : Z;
  ReqMaxAmqCalled : Z;
  ReqPDUSize : Z;
}.

Definition ParseSetupCommRequest (param : bytes) : res SetupCommRequest :=
  if len param <? 8 then
    Err (malformed ("setup communication parameter " +:+ dec (len param) +:+ " bytes, need 8"))
  else
  b0 ← idx param 0;
  if b0 ≠b FuncSetupComm then
    Err (malformed ("function 0x" +:+ fmt_02X b0 +:+ " is not setup communication"))
  else
  calling ← slice param 2 4 ≫= Uint16;
  called ← slice param 4 6 ≫= Uint16;
  size ← slice param 6 8 ≫= Uint16;
  mret (mkSetupCommRequest calling called size).

Definition EncodeAckData (pduRef : Z) (errClass errCode : byte) (param data : bytes) : res bytes :=
  header ← EncodeS7Header ROSCTRAckData pduRef (len param) (len data);
  mret (header ++ [errClass; errCode] ++ param ++ data).

Definition EncodeSetupCommResponse (pduRef maxAmqCalling maxAmqCalled pduSize : Z) : res bytes :=
  calling ← checkedUint16 "max AmQ calling" maxAmqCalling;
  called ← checkedUint16 "max AmQ called" maxAmqCalled;
  size ← checkedUint16 "PDU size" pduSize;
  let param := [FuncSetupComm; x00] ++ put16 calling ++ put16 called ++ put16 size in
  EncodeAckData pduRef x00 x00 param [].

(** ** Item specifications *)

Record VarSpec := mkVarSpec {
  Syntax : byte;
  TransportSize : byte;
  Count : Z;
  SpecDBNumber : Z;
  SpecArea : byte;
  StartBit : Z;
}.

Record DBReadArea := mkDBReadArea {
  RangeLength : byte;
  RangeDBNumber : Z;
  RangeStart : Z;
}.

Definition dbReadAreaSize : Z := 5.

(** The range loop of [parseDBRead]: [n] ranges are left, the next one is
    range [i]. *)
Fixpoint dbReadRanges (b : bytes) (n : nat) (i : Z) : res (list DBReadArea) :=
  match n with
  | O => mret []
  | S n' =>
      r ← slice_from b (4 + i * dbReadAreaSize);
      length ← idx r 0;
      db ← slice r 1 3 ≫= Uint16;
      start ← slice r 3 5 ≫= Uint16;
      rest ← dbReadRanges b n' (i + 1);
      mret (mkDBReadArea length db start :: rest)
  end.

Definition parseDBRead (b : bytes) : res (list DBReadArea) :=
  if len b <? 4 then Err (Plain ("DBREAD item of " +:+ dec (len b) +:+ " bytes")) else
  count ← idx b 3;
  let n := b2z count in
  if (n =? 0) || negb (len b =? 4 + n * dbReadAreaSize) then
    Err (Plain ("DBREAD item of " +:+ dec (len b) +:+ " bytes for " +:+ dec n +:+ " ranges"))
  else dbReadRanges b (Z.to_nat n) 0.

Definition varSpecSize : Z := 12.

(** One pass of the item loop of [parseVarSpecs]: the specification at [off]
    and the offset after it. *)
Definition parseVarSpec (param : bytes) (i off : Z) : res (VarSpec * Z) :=
  if off + 2 >? len param then Err (malformed ("item " +:+ dec i +:+ " truncated")) else
  b0 ← idx param off;
  if b0 ≠b x12 then
    Err (malformed ("item " +:+ dec i +:+ " specification type 0x" +:+ fmt_02X b0))
  else
  b1 ← idx param (off + 1);
  let stop := off + 2 + b2z b1 in
  if stop >? len param then
    Err (malformed ("item " +:+ dec i +:+ " length " +:+ dec (b2z b1) +:+ " overruns the parameter"))
  else
  syntax ← (if b2z b1 >=? 1 then idx param (off + 2) else mret x00);
  spec ←
    (if syntax =b SyntaxIDS7Any then
       if negb (stop - off =? varSpecSize) then
         Err (malformed ("item " +:+ dec i +:+ " S7ANY length " +:+ dec (b2z b1)))
       else
       b ← slice param off stop;
       transport ← idx b 3;
       count ← slice b 4 6 ≫= Uint16;
       db ← slice b 6 8 ≫= Uint16;
       area ← idx b 8;
       a9 ← idx b 9; a10 ← idx b 10; a11 ← idx b 11;
       mret (mkVarSpec syntax transport count db area
               (Z.lor (Z.lor (Z.shiftl (b2z a9) 16) (Z.shiftl (b2z a10) 8)) (b2z a11)))
     else mret (mkVarSpec syntax x00 0 0 x00 0));
  _ ←
    (if syntax =b SyntaxIDDBRead then
       b ← slice param off stop;
       match parseDBRead b with
       | Err err =>
           Err (Wrapf (sentinel_text ErrMalformedRequest +:+ ": item " +:+ dec i +:+ ": " +:+ Error err)
                  [Sentinel ErrMalformedRequest; err])
       | Ok _ => nil_error
       | Panic => Panic
       end
     else nil_error);
  mret (spec, stop).

(** The item loop: [n] items are left, the next one is item [i] at [off]. *)
Fixpoint parseVarSpecLoop (param : bytes) (n : nat) (i off : Z) : res (list VarSpec * Z) :=
  match n with
  | O => mret ([], off)
  | S n' =>
      '(spec, stop) ← parseVarSpec param i off;
      '(specs, off') ← parseVarSpecLoop param n' (i + 1) stop;
      mret (spec :: specs, off')
  end.

Definition parseVarSpecs (param : bytes) (fn : byte) : res (list VarSpec) :=
  if len param <? 2 then
    Err (malformed ("parameter " +:+ dec (len param) +:+ " bytes, need 2"))
  else
  b0 ← idx param 0;
  if b0 ≠b fn then
    Err (malformed ("function 0x" +:+ fmt_02X b0 +:+ ", want 0x" +:+ fmt_02X fn))
  else
  count ← idx param 1;
  let n := b2z count in
  if n =? 0 then Err (malformed "no items") else
  '(specs, off) ← parseVarSpecLoop param (Z.to_nat n) 0 2;
  if negb (off =? len param) then
    Err (malformed (dec (len param - off) +:+ " bytes after the items"))
  else mret specs.

Definition ParseReadVarRequest (param : bytes) : res (list VarSpec) :=
  parseVarSpecs param FuncReadVar.

(** The loop of [ParseReadVarDBRead]; the inner error is discarded as the
    source does ([out[i], _ = parseDBRead(...)]). *)
Fixpoint dbReadOfSpecs (param : bytes) (specs : list VarSpec) (off : Z)
  : res (list (list DBReadArea)) :=
  match specs with
  | [] => mret []
  | s :: specs =>
      b1 ← idx param (off + 1);
      let stop := off + 2 + b2z b1 in
      ranges ←
        (if Syntax s =b SyntaxIDDBRead then
           b ← slice param off stop;
           match parseDBRead b with Ok r => mret r | Err _ => mret [] | Panic => Panic end
         else mret []);
      rest ← dbReadOfSpecs param specs stop;
      mret (ranges :: rest)
  end.

Definition ParseReadVarDBRead (param : bytes) : res (list (list DBReadArea)) :=
  specs ← parseVarSpecs param FuncReadVar;
  dbReadOfSpecs param specs 2.

(** ** Write Var data items *)

Record WriteVarData := mkWriteVarData {
  WReturnCode : byte;
  WTransportSize : byte;
  WRawLength : Z;
  WData : bytes;
}.

Definition writeDataBytes (transport : byte) (raw : Z) : res Z :=
  if transport ∈b [DataTransportSizeBit; DataTransportSizeDInt; DataTransportSizeReal;
                   DataTransportSizeOctet] then mret raw
  else if transport ∈b [DataTransportSizeByte; DataTransportSizeInt] then
    if negb (raw mod 8 =? 0) then
      Err (malformed ("length " +:+ dec raw +:+ " bits is not whole bytes"))
    else mret (raw / 8)
  else Err (malformed ("data transport size 0x" +:+ fmt_02X transport)).

(** The data loop of [ParseWriteVarRequest]: [n] items are left, the next one
    is item [i] at [off]. *)
Fixpoint parseWriteData (data : bytes) (n : nat) (i off : Z) : res (list WriteVarData * Z) :=
  match n with
  | O => mret ([], off)
  | S n' =>
      if off + 4 >? len data then
        Err (malformed ("data item " +:+ dec i +:+ " header truncated"))
      else
      rc ← idx data off;
      ts ← idx data (off + 1);
      raw ← slice data (off + 2) (off + 4) ≫= Uint16;
      match writeDataBytes ts raw with
      | Err err => Err (errorf1 ("data item " +:+ dec i +:+ ": ") err "")
      | Panic => Panic
      | Ok n =>
          let start := off + 4 in
          if start + n >? len data then
            Err (malformed ("data item " +:+ dec i +:+ " payload truncated"))
          else
          payload ← slice data start (start + n);
          let off := start + n in
          let off := if negb (n mod 2 =? 0) && negb (bool_decide (n' = O)) then off + 1 else off in
          '(items, off') ← parseWriteData data n' (i + 1) off;
          mret (mkWriteVarData rc ts raw payload :: items, off')
      end
  end.

Definition ParseWriteVarRequest (param data : bytes) : res (list VarSpec * list WriteVarData) :=
  specs ← parseVarSpecs param FuncWriteVar;
  '(items, off) ← parseWriteData data (length specs) 0 0;
  if (off >? len data) || (len data - off >? 1) then
    Err (malformed (dec (len data - off) +:+ " bytes after the data items"))
  else mret (specs, items).

(** ** Answers *)

Record ReadVarResult := mkReadVarResult {
  RReturnCode : byte;
  RTransportSize : byte;
  RRawLength : Z;
  RData : bytes;
}.

Definition ReadVarResultSize (item : ReadVarResult) (last : bool) : Z :=
  let n := 4 + len (RData item) in
  if negb last && negb (len (RData item) mod 2 =? 0) then n + 1 else n.

(** The data section of a Read Var answer. *)
Fixpoint readVarData (items : list ReadVarResult) : bytes :=
  match items with
  | [] => []
  | item :: rest =>
      [RReturnCode item; RTransportSize item] ++ put16 (RRawLength item) ++ RData item ++
      (if negb (bool_decide (rest = [])) && negb (len (RData item) mod 2 =? 0) then [x00] else []) ++
      readVarData rest
  end.

Definition EncodeReadVarResponse (pduRef : Z) (items : list ReadVarResult) : res bytes :=
  let n := len items in
  if n >? 255 then
    Err (errorf1 "" (Sentinel ErrOutOfRange)
           (": " +:+ dec n +:+ " items, at most " +:+ dec MaxReadVarItems))
  else EncodeAckData pduRef x00 x00 [FuncReadVar; z2b n] (readVarData items).

Definition EncodeWriteVarResponse (pduRef : Z) (codes : bytes) : res bytes :=
  let n := len codes in
  if n >? 255 then
    Err (errorf1 "" (Sentinel ErrOutOfRange)
           (": " +:+ dec n +:+ " items, at most " +:+ dec MaxReadVarItems))
  else EncodeAckData pduRef x00 x00 [FuncWriteVar; z2b n] codes.

(** ** Lemmas: item specifications *)

Lemma parseVarSpec_S7Any pre post i t c d a s :
  is_u16 c -> is_u16 d -> 0 <= s < 16777216 ->
  parseVarSpec (pre ++ putS7Any t c d a s ++ post) i (len pre) =
    Ok (mkVarSpec SyntaxIDS7Any t c d a s, len pre + 12).
Proof.
  intros Hc Hd Hs. unfold parseVarSpec, varSpecSize.
  assert (Hl : len (pre ++ putS7Any t c d a s ++ post) = len pre + 12 + len post)
    by (rewrite !length_app, length_putS7Any; lia).
  rewrite Hl. if_arith.
  replace (idx _ (len pre)) with (idx (putS7Any t c d a s ++ post) 0)
    by (rewrite <- (idx_app_off pre) by lia; f_equal; lia).
  rewrite !(idx_app_off pre) by lia. unfold putS7Any, put16. simpl.
  change (b2z x0a) with 10. if_arith. if_arith. simpl.
  pose proof (slice_app_mid pre (putS7Any t c d a s) post (len pre) (len pre + 2 + 10) eq_refl)
    as Hsl. rewrite length_putS7Any in Hsl. unfold putS7Any, put16 in Hsl. simpl in Hsl.
  rewrite Hsl by lia. simpl.
  unfold is_u16 in *. rewrite !be16_put16, !Z.mod_small by lia. rewrite startbit_bytes by lia.
  simpl. f_equal. f_equal. lia.
Qed.

Lemma no_panic_dbReadRanges b n i :
  0 <= i -> len b = 4 + (i + Z.of_nat n) * 5 -> no_panic (dbReadRanges b n i).
Proof.
  revert i. induction n as [|n IH]; intros i Hi Hl; simpl; [np|]. unfold dbReadAreaSize.
  rewrite slice_from_ok by lia.
  assert (Hr : len (drop (Z.to_nat (4 + i * 5)) b) = (1 + Z.of_nat n) * 5)
    by (rewrite length_drop; lia).
  rewrite bind_Ok. repeat np_step. apply IH; lia.
Qed.

Lemma no_panic_parseDBRead b : no_panic (parseDBRead b).
Proof.
  unfold parseDBRead. repeat np_step.
  b2p. pose proof (b2z_range a). apply no_panic_dbReadRanges; unfold dbReadAreaSize in *; lia.
Qed.
#[export] Hint Resolve no_panic_parseDBRead : go.

Lemma no_panic_parseVarSpec param i off : 0 <= off -> no_panic (parseVarSpec param i off).
Proof.
  intros Ho. unfold parseVarSpec, varSpecSize. pose proof b2z_range as Hb.
  np_step; [np|]. np_step; [np_step|]. np_step; [np|]. np_step; [np_step|].
  specialize (Hb a0). np_step; [np|]. np_step; [repeat np_step|].
  np_step.
  - repeat np_step.
  - np_step.
    + np_step; [|np]. np_step; [np_step|]. pose proof (no_panic_parseDBRead a3).
      destruct (parseDBRead a3); [np | np | done].
    + np.
Qed.

Lemma parseVarSpec_inv param i off spec stop :
  0 <= off -> parseVarSpec param i off = Ok (spec, stop) ->
  exists b1, idx param (off + 1) = Ok b1 /\ stop = off + 2 + b2z b1 /\ stop <= len param /\
    is_u16 (Count spec) /\ is_u16 (SpecDBNumber spec) /\ 0 <= StartBit spec < 16777216 /\
    (Syntax spec = SyntaxIDDBRead ->
       exists b r, slice param off stop = Ok b /\ parseDBRead b = Ok r).
Proof.
  intros Ho. unfold parseVarSpec. case_if; [done|]. intros H.
  apply bind_Ok_inv in H as (b0 & _ & H). case_if_in H; [done|].
  apply bind_Ok_inv in H as (b1 & Hb1 & H). case_if_in H; [done|].
  apply bind_Ok_inv in H as (syn & Hsyn & H). apply bind_Ok_inv in H as (spec' & Hspec & H).
  apply bind_Ok_inv in H as ([] & Hdb & [= <- <-]).
  exists b1. split; [done|]. split; [done|]. split; [b2p; lia|].
  assert (Hs : Syntax spec' = syn /\ is_u16 (Count spec') /\ is_u16 (SpecDBNumber spec') /\
               0 <= StartBit spec' < 16777216).
  { case_if_in Hspec; [|injection Hspec as <-; unfold is_u16; simpl; split_and!; [done | lia..]].
    case_if_in Hspec; [done|].
    apply bind_Ok_inv in Hspec as (b & _ & Hspec). apply bind_Ok_inv in Hspec as (t & _ & Hspec).
    apply bind_Ok_inv in Hspec as (c & Hc%slice_Uint16_range & Hspec).
    apply bind_Ok_inv in Hspec as (d & Hd%slice_Uint16_range & Hspec).
    apply bind_Ok_inv in Hspec as (ar & _ & Hspec). apply bind_Ok_inv in Hspec as (a9 & _ & Hspec).
    apply bind_Ok_inv in Hspec as (a10 & _ & Hspec). apply bind_Ok_inv in Hspec as (a11 & _ & Hspec).
    injection Hspec as <-. simpl. split_and!; try done; rewrite <- Z.lor_assoc; byte_ranges;
      rewrite (shiftl_lor_add _ 8), (shiftl_lor_add _ 16) by lia; lia. }
  destruct Hs as (Hsyn' & Hc & Hd & Hs). split_and!; try done; try lia.
  rewrite Hsyn'. intros ->. rewrite beq_refl in Hdb.
  apply bind_Ok_inv in Hdb as (b & Hb & Hdb). exists b.
  destruct (parseDBRead b) as [r|e|] eqn:E; [|done..]. by exists r.
Qed.

Lemma no_panic_parseVarSpecLoop param n i off :
  0 <= off -> no_panic (parseVarSpecLoop param n i off).
Proof.
  revert i off. induction n as [|n IH]; intros i off Ho; simpl; [np|].
  apply no_panic_bind; [by apply no_panic_parseVarSpec|]. intros [spec stop] H.
  apply parseVarSpec_inv in H as (b1 & _ & -> & _); [|done]. pose proof (b2z_range b1).
  np_step; [apply IH; lia|]. by repeat np_step.
Qed.

Lemma no_panic_parseVarSpecs param fn : no_panic (parseVarSpecs param fn).
Proof.
  unfold parseVarSpecs. do 3 (np_step; [np_step|]). np_step; [np_step|].
  np_step; [np|]. np_step; [by apply no_panic_parseVarSpecLoop|]. repeat np_step.
Qed.
#[export] Hint Resolve no_panic_parseVarSpecs : go.

(** What the item loop delivers: as many specifications as counted, with
    16-bit counts and 24-bit addresses, and DBREAD items that decode. *)
Lemma parseVarSpecLoop_inv param n i off specs off' :
  0 <= off -> parseVarSpecLoop param n i off = Ok (specs, off') ->
  length specs = n /\
  Forall (fun s => is_u16 (Count s) /\ is_u16 (SpecDBNumber s) /\ 0 <= StartBit s < 16777216) specs.
Proof.
  revert i off specs. induction n as [|n IH]; intros i off specs Ho H; simpl in H.
  { by injection H as <- <-. }
  apply bind_Ok_inv in H as ([spec stop] & H1 & H).
  apply bind_Ok_inv in H as ([specs' off''] & H2 & [= <- <-]).
  apply parseVarSpec_inv in H1 as (b1 & _ & -> & _ & ? & ? & ? & _); [|done].
  pose proof (b2z_range b1). apply IH in H2 as [Hl HF]; [|lia].
  split; [simpl; congruence | by constructor].
Qed.

Lemma parseVarSpecs_inv param fn specs :
  parseVarSpecs param fn = Ok specs ->
  exists count off, idx param 0 = Ok fn /\ idx param 1 = Ok count /\ 0 < b2z count /\
    off = len param /\
    parseVarSpecLoop param (Z.to_nat (b2z count)) 0 2 = Ok (specs, off) /\
    len specs = b2z count /\
    Forall (fun s => is_u16 (Count s) /\ is_u16 (SpecDBNumber s) /\ 0 <= StartBit s < 16777216) specs.
Proof.
  unfold parseVarSpecs. case_if; [done|]. intros H.
  apply bind_Ok_inv in H as (b0 & H0 & H). case_if_in H; [done|].
  apply bind_Ok_inv in H as (count & Hc & H). case_if_in H; [done|].
  apply bind_Ok_inv in H as ([specs' off] & Hl & H). case_if_in H; [done|].
  injection H as <-. b2p. subst b0. pose proof (b2z_range count).
  exists count, off. pose proof Hl as Hl'. apply parseVarSpecLoop_inv in Hl' as [Hn HF]; [|lia].
  split_and!; try done; lia.
Qed.

(** Every item of a decoded job is at most 255 and at least one. *)
Lemma parseVarSpecs_count param fn specs :
  parseVarSpecs param fn = Ok specs -> 1 <= len specs <= 255.
Proof.
  intros H. apply parseVarSpecs_inv in H as (c & off & _ & _ & Hc & _ & _ & Hl & _).
  pose proof (b2z_range c). lia.
Qed.

(** ** Lemmas: DBREAD ranges *)

Definition range_ok (r : DBReadArea) : Prop := is_u16 (RangeDBNumber r) /\ is_u16 (RangeStart r).

Lemma dbReadRanges_inv b n i rs :
  dbReadRanges b n i = Ok rs -> length rs = n /\ Forall range_ok rs.
Proof.
  revert i rs. induction n as [|n IH]; intros i rs H; simpl in H.
  { by injection H as <-. }
  apply bind_Ok_inv in H as (r & _ & H). apply bind_Ok_inv in H as (l & _ & H).
  apply bind_Ok_inv in H as (db & Hdb%slice_Uint16_range & H).
  apply bind_Ok_inv in H as (st & Hst%slice_Uint16_range & H).
  apply bind_Ok_inv in H as (rs' & H & [= <-]). apply IH in H as [Hl HF].
  split; [simpl; congruence | by constructor].
Qed.

(** An accepted DBREAD item has one to fifty ranges: its length is one byte. *)
Lemma parseDBRead_inv b rs :
  parseDBRead b = Ok rs ->
  rs <> [] /\ len b = 4 + len rs * dbReadAreaSize /\ Forall range_ok rs.
Proof.
  unfold parseDBRead. case_if; [done|]. intros H.
  apply bind_Ok_inv in H as (c & _ & H). case_if_in H; [done|].
  apply dbReadRanges_inv in H as [Hl HF]. b2p. pose proof (b2z_range c).
  split_and!; [|lia|done]. intros ->. simpl in Hl. lia.
Qed.

(** [parseVarSpecs] has validated the ranges [ParseReadVarDBRead] decodes:
    the error the source discards there never occurs. *)
Definition ranges_match (s : VarSpec) (rs : list DBReadArea) : Prop :=
  if Syntax s =b SyntaxIDDBRead then rs <> [] /\ len rs <= 50 /\ Forall range_ok rs else rs = [].

Lemma dbReadOfSpecs_ok param n i off specs off' :
  0 <= off -> parseVarSpecLoop param n i off = Ok (specs, off') ->
  exists rss, dbReadOfSpecs param specs off = Ok rss /\ Forall2 ranges_match specs rss.
Proof.
  revert i off specs. induction n as [|n IH]; intros i off specs Ho H; simpl in H.
  { injection H as <- <-. by exists []. }
  apply bind_Ok_inv in H as ([spec stop] & H1 & H).
  apply bind_Ok_inv in H as ([specs' off''] & H2 & [= <- <-]).
  apply parseVarSpec_inv in H1 as (b1 & Hb1 & Hstop & Hle & _ & _ & _ & Hdb); [|done].
  pose proof (b2z_range b1). apply IH in H2 as (rss & Hrss & HF); [|lia].
  simpl. rewrite Hb1. simpl. rewrite <- Hstop. unfold ranges_match.
  destruct (Syntax spec =b SyntaxIDDBRead) eqn:E.
  - b2p. destruct (Hdb E) as (b & r & Hb & Hr). rewrite Hb. simpl. rewrite Hr. simpl.
    rewrite Hrss. simpl. exists (r :: rss). split; [done|]. constructor; [|done].
    rewrite E, beq_refl. pose proof (parseDBRead_inv _ _ Hr) as (? & Hlen & ?).
    apply slice_Ok_inv in Hb as (_ & _ & Hb & _). unfold dbReadAreaSize in *.
    split_and!; [done | lia | done].
  - simpl. rewrite Hrss. simpl. exists ([] :: rss). split; [done|]. constructor; [|done]. by rewrite E.
Qed.

Lemma ParseReadVarDBRead_ok param specs :
  ParseReadVarRequest param = Ok specs ->
  exists rss, ParseReadVarDBRead param = Ok rss /\ Forall2 ranges_match specs rss.
Proof.
  unfold ParseReadVarRequest, ParseReadVarDBRead. intros H. rewrite H. simpl.
  apply parseVarSpecs_inv in H as (c & off & _ & _ & _ & _ & Hloop & _).
  eapply dbReadOfSpecs_ok; [|done]. lia.
Qed.

(** ** Lemmas: Write Var data *)

Lemma writeDataBytes_range ts raw n : is_u16 raw -> writeDataBytes ts raw = Ok n -> 0 <= n <= raw.
Proof.
  unfold is_u16, writeDataBytes. intros Hr. repeat case_if; intros [= <-]; [lia|].
  Z.div_mod_to_equations. lia.
Qed.

Lemma no_panic_writeDataBytes ts raw : no_panic (writeDataBytes ts raw).
Proof. unfold writeDataBytes. repeat np_step. Qed.
#[export] Hint Resolve no_panic_writeDataBytes : go.

Lemma no_panic_parseWriteData data n i off : 0 <= off -> no_panic (parseWriteData data n i off).
Proof.
  revert i off. induction n as [|n IH]; intros i off Ho; simpl; [np|].
  np_step; [np|]. do 3 (np_step; [np_step|]).
  pose proof (no_panic_writeDataBytes a0 a1).
  destruct (writeDataBytes a0 a1) as [k|e|] eqn:E; [|np|done].
  apply writeDataBytes_range in E; [|done].
  repeat (np_step; [np_step|]). np_step; [apply IH; case_if; lia|]. by repeat np_step.
Qed.

Lemma parseWriteData_length data n i off items off' :
  parseWriteData data n i off = Ok (items, off') -> length items = n.
Proof.
  revert i off items. induction n as [|n IH]; intros i off items H; simpl in H.
  { by injection H as <- <-. }
  case_if_in H; [done|]. apply bind_Ok_inv in H as (rc & _ & H).
  apply bind_Ok_inv in H as (ts & _ & H). apply bind_Ok_inv in H as (raw & _ & H).
  destruct (writeDataBytes ts raw); [|done..]. case_if_in H; [done|].
  apply bind_Ok_inv in H as (pl & _ & H). apply bind_Ok_inv in H as ([items' o] & H & [= <- <-]).
  apply IH in H. simpl. congruence.
Qed.

Lemma ParseWriteVarRequest_no_panic param data : no_panic (ParseWriteVarRequest param data).
Proof.
  unfold ParseWriteVarRequest. np_step; [np|]. np_step; [by apply no_panic_parseWriteData|].
  repeat np_step.
Qed.
#[export] Hint Resolve ParseWriteVarRequest_no_panic : go.

Lemma ParseWriteVarRequest_inv param data specs items :
  ParseWriteVarRequest param data = Ok (specs, items) ->
  parseVarSpecs param FuncWriteVar = Ok specs /\ length items = length specs.
Proof.
  unfold ParseWriteVarRequest. intros H. apply bind_Ok_inv in H as (specs' & Hs & H).
  apply bind_Ok_inv in H as ([items' off] & Hi & H). case_if_in H; [done|].
  injection H as <- <-. split; [done|]. by apply parseWriteData_length in Hi.
Qed.

Lemma ParseSetupCommRequest_no_panic param : no_panic (ParseSetupCommRequest param).
Proof. unfold ParseSetupCommRequest. repeat np_step. Qed.
#[export] Hint Resolve ParseSetupCommRequest_no_panic : go.

Lemma ParseReadVarDBRead_no_panic param : no_panic (ParseReadVarDBRead param).
Proof.
  destruct (ParseReadVarRequest param) as [specs|e|] eqn:E.
  - destruct (ParseReadVarDBRead_ok _ _ E) as (rss & -> & _). np.
  - unfold ParseReadVarDBRead, ParseReadVarRequest in *. rewrite E. np.
  - exfalso. by apply (no_panic_parseVarSpecs param FuncReadVar).
Qed.
#[export] Hint Resolve ParseReadVarDBRead_no_panic : go.

(** ** Lemmas: answers *)

Lemma EncodeAckData_ok ref c k param data :
  len param <= MaxUint16 -> len data <= MaxUint16 ->
  EncodeAckData ref c k param data =
    Ok (s7Header ROSCTRAckData ref (len param) (len data) ++ [c; k] ++ param ++ data).
Proof.
  unfold MaxUint16. intros. unfold EncodeAckData, EncodeS7Header.
  rewrite !checkedUint16_ok by (unfold is_u16; lia). done.
Qed.

Lemma no_panic_EncodeAckData ref c k param data : no_panic (EncodeAckData ref c k param data).
Proof.
  unfold EncodeAckData, EncodeS7Header.
  repeat (apply no_panic_bind; [|intros; auto with go]); auto with go.
Qed.
#[export] Hint Resolve no_panic_EncodeAckData : go.

(** An Ack-Data answer parses back to its header fields and sections. *)
Lemma ParseS7Header_EncodeAckData ref c k param data out :
  is_u16 ref -> EncodeAckData ref c k param data = Ok out ->
  ParseS7Header out =
    Ok (mkS7Header x32 ROSCTRAckData 0 ref (len param) (len data) c k, param ++ data) /\
  len param <= MaxUint16 /\ len data <= MaxUint16.
Proof.
  intros Hr. unfold EncodeAckData, EncodeS7Header. intros H.
  apply bind_Ok_inv in H as (h & H & Hout).
  apply bind_Ok_inv in H as (p & Hp & H). apply bind_Ok_inv in H as (d & Hd & [= <-]).
  apply checkedUint16_inv in Hp as [-> Hp]. apply checkedUint16_inv in Hd as [-> Hd].
  apply Ok_inj in Hout as <-.
  rewrite ParseS7Header_ack; [|done..|rewrite length_app; lia].
  unfold is_u16, MaxUint16 in *. split_and!; [done | lia..].
Qed.

Lemma length_EncodeAckData ref c k param data out :
  EncodeAckData ref c k param data = Ok out -> len out = AckDataHeaderSize + len param + len data.
Proof.
  unfold EncodeAckData, EncodeS7Header. intros H. apply bind_Ok_inv in H as (h & H & Hout).
  apply bind_Ok_inv in H as (p & Hp & H). apply bind_Ok_inv in H as (d & Hd & [= <-]).
  apply Ok_inj in Hout as <-. rewrite !length_app, length_s7Header.
  change AckDataHeaderSize with 12. simpl length. lia.
Qed.

(** ** Round trips *)

(** An answer item a server may send: its length field announces its data; a
    refused item carries none. *)
Definition result_ok (r : ReadVarResult) : Prop :=
  is_u16 (RRawLength r) /\
  (RReturnCode r = RetCodeSuccess ->
     NormalizeResponseDataLength (RTransportSize r) (RRawLength r) = Ok (len (RData r))) /\
  (RReturnCode r <> RetCodeSuccess -> RTransportSize r = x00 /\ RData r = []).

(** The item the client sees for it. *)
Definition item_of (r : ReadVarResult) : ReadVarItem :=
  mkReadVarItem (RReturnCode r) (RTransportSize r) (RRawLength r) (RData r).

(** The fill byte before a following item. *)
Definition fill (more : bool) (data : bytes) : bytes :=
  if more && negb (len data mod 2 =? 0) then [x00] else [].

Lemma decode_readVarData pre r post last :
  result_ok r -> (last = false -> post <> []) ->
  decodeReadResponseItem
    (pre ++ [RReturnCode r; RTransportSize r] ++ put16 (RRawLength r) ++ RData r ++
     fill (negb last) (RData r) ++ post) (len pre) last =
  Ok (item_of r, len pre + 4 + len (RData r) +
        (if negb (len (RData r) mod 2 =? 0) && negb (bool_decide (fill (negb last) (RData r) ++ post = []))
         then 1 else 0)).
Proof.
  intros (Hraw & Hok & Hrej) Hpost. unfold decodeReadResponseItem.
  set (tail := fill (negb last) (RData r) ++ post).
  set (data := pre ++ _).
  assert (Hlen : len data = len pre + 4 + len (RData r) + len tail).
  { unfold data. rewrite !length_app, length_put16. simpl length. lia. }
  rewrite Hlen. if_arith.
  assert (H0 : idx data (len pre) = Ok (RReturnCode r)).
  { unfold data. replace (len pre) with (len pre + 0) by lia. by rewrite idx_app_off. }
  assert (H1 : idx data (len pre + 1) = Ok (RTransportSize r)).
  { unfold data. by rewrite idx_app_off. }
  assert (H2 : (slice data (len pre + 2) (len pre + 4) ≫= Uint16) = Ok (RRawLength r)).
  { rewrite slice_Uint16 by lia. rewrite <- Z.add_assoc. unfold data.
    rewrite !idx_app_off by lia. simpl. rewrite be16_put16. by rewrite Z.mod_small by apply Hraw. }
  rewrite H0, H1. cbv beta iota delta [mbind res_bind]. 
  unfold mbind, res_bind in H2. rewrite H2.
  destruct (RReturnCode r ≠b RetCodeSuccess) eqn:E; b2p.
  - destruct (Hrej E) as [Hts Hd]. rewrite Hts. simpl. unfold item_of. rewrite Hts, Hd. simpl.
    do 2 f_equal. lia.
  - rewrite (Hok E). if_arith. if_arith.
    assert (Hsl : slice data (len pre + 4) (len pre + 4 + len (RData r)) = Ok (RData r)).
    { unfold data. replace (len pre + 4 + len (RData r)) with (len pre + (4 + len (RData r))) by lia.
      rewrite slice_app_off by lia.
      rewrite (slice_app_r ([RReturnCode r; RTransportSize r] ++ put16 (RRawLength r)) (RData r ++ tail))
        by (rewrite length_app, length_put16; simpl length; lia).
      apply slice_to_app. rewrite length_app, length_put16. simpl length. lia. }
    rewrite Hsl. unfold item_of, mret, res_ret.
    destruct (negb (len (RData r) mod 2 =? 0)) eqn:Eodd; simpl; [|do 2 f_equal; lia].
    destruct tail as [|t0 tail'] eqn:Et.
    + simpl length in *. destruct last; simpl.
      * rewrite andb_false_r. if_arith. do 2 f_equal. lia.
      * exfalso. apply (Hpost eq_refl). by apply app_nil in Et as [_ ->].
    + simpl length in *. if_arith. if_arith. do 2 f_equal; lia.
Qed.

Lemma readVarData_cons r rest :
  readVarData (r :: rest) =
    [RReturnCode r; RTransportSize r] ++ put16 (RRawLength r) ++ RData r ++
    fill (negb (bool_decide (rest = []))) (RData r) ++ readVarData rest.
Proof. done. Qed.

Lemma parseItems_readVarData items pre :
  Forall result_ok items ->
  parseItems (pre ++ readVarData items) (length items) (len pre) = Ok (item_of <$> items).
Proof.
  revert pre. induction items as [|r rest IH]; intros pre HF; [done|].
  apply Forall_cons in HF as [Hr HF].
  set (last := bool_decide (length rest = O)).
  assert (Hlast : bool_decide (rest = []) = last).
  { unfold last. apply bool_decide_ext. destruct rest; simpl; split; congruence. }
  cbn [parseItems length]. fold last. rewrite readVarData_cons, Hlast.
  rewrite decode_readVarData; [|done|].
  2: { unfold last. intros Hl. b2p. destruct rest; [done | by simpl]. }
  rewrite bind_Ok. cbv beta iota.
  set (pre' := pre ++ [RReturnCode r; RTransportSize r] ++ put16 (RRawLength r) ++ RData r ++
                 fill (negb last) (RData r)).
  replace (len pre + _ + _ + _) with (len pre').
  - replace (pre ++ _ ++ _ ++ _ ++ _ ++ readVarData rest) with (pre' ++ readVarData rest)
      by (unfold pre'; rewrite <- !app_assoc; done).
    rewrite IH by done. done.
  - unfold pre', fill. rewrite !length_app, length_put16.
    destruct last eqn:El; simpl negb.
    + assert (rest = []) as ->. { by apply bool_decide_eq_true_1 in Hlast. }
      cbn [andb app readVarData length]. rewrite bool_decide_true by done. rewrite andb_false_r. simpl length. lia.
    + destruct (negb (len (RData r) mod 2 =? 0)) eqn:E; cbn [andb app];
        rewrite ?bool_decide_false by done; simpl length; cbn [negb]; lia.
Qed.

(** The sections of an Ack-Data answer as [sendReceive] cuts them. *)
Lemma ParseReadVarResponse_data items :
  Forall result_ok items -> len items <= 255 ->
  ParseReadVarResponse [FuncReadVar; z2b (len items)] (readVarData items) = Ok (item_of <$> items).
Proof.
  intros HF Hn. unfold ParseReadVarResponse. simpl.
  rewrite b2z_z2b_small by lia. rewrite Nat2Z.id.
  apply (parseItems_readVarData items [] HF).
Qed.

Lemma firstCodeError_all i total codes :
  firstCodeError i total codes = nil_error <-> Forall (fun c => c = RetCodeSuccess) codes.
Proof.
  revert i. induction codes as [|c codes IH]; intros i; simpl; [done|].
  unfold ReturnCodeError. case_if; b2p.
  - rewrite IH. split; [by constructor | by intros [_ ?]%Forall_cons].
  - split; [by case_if | by intros [? _]%Forall_cons].
Qed.

Lemma ParseWriteVarResponse_codes codes :
  1 <= len codes <= 255 ->
  ParseWriteVarResponse [FuncWriteVar; z2b (len codes)] codes = firstCodeError 0 (len codes) codes.
Proof.
  intros Hn. unfold ParseWriteVarResponse, ParseWriteVarResponseCodes. simpl.
  rewrite b2z_z2b_small by lia. if_arith. by rewrite slice_all.
Qed.

(** The specification the server decodes for a byte address. *)
Definition spec_of (addr : S7AnyAddress) : VarSpec :=
  mkVarSpec SyntaxIDS7Any TransportSizeByte (Size addr) (DBNumber addr) (Area addr) (Start addr * 8).

Definition bit_spec_of (addr : S7AnyBitAddress) : VarSpec :=
  mkVarSpec SyntaxIDS7Any TransportSizeBit 1 (BitDBNumber addr) (BitArea addr)
    (ByteOffset addr * 8 + BitOffset addr).

Lemma parseVarSpecLoop_items addrs items pre i :
  encodeItems addrs = Ok items ->
  parseVarSpecLoop (pre ++ items) (length addrs) i (len pre) =
    Ok (spec_of <$> addrs, len (pre ++ items)).
Proof.
  revert items pre i. induction addrs as [|a addrs IH]; intros items pre i H.
  { injection H as <-. rewrite app_nil_r. done. }
  cbn [encodeItems] in H. apply bind_Ok_inv in H as (item & Hi & H).
  apply bind_Ok_inv in H as (rest & Hrest & H). apply Ok_inj in H as <-.
  pose proof (EncodeS7Any_Ok_inv _ _ Hi) as Hr. rewrite (EncodeS7Any_ok _ Hr) in Hi.
  apply Ok_inj in Hi as <-. cbn [parseVarSpecLoop length].
  unfold s7any_in_range in Hr. rewrite MaxS7AnyByteOffset_value in Hr.
  unfold MaxS7AnyDBNumber, MaxS7AnyCount in Hr.
  rewrite parseVarSpec_S7Any by (unfold is_u16; lia). rewrite bind_Ok. cbv beta iota.
  set (it := putS7Any _ _ _ _ _).
  assert (Hlit : len it = 12) by done.
  replace (len pre + 12) with (len (pre ++ it)) by (rewrite length_app; lia).
  rewrite app_assoc. by rewrite IH.
Qed.

Lemma parseVarSpecs_EncodeReadVar addrs items :
  encodeItems addrs = Ok items -> 1 <= len addrs <= 255 ->
  ParseReadVarRequest ([FuncReadVar; z2b (len addrs)] ++ items) = Ok (spec_of <$> addrs).
Proof.
  intros H Hn. unfold ParseReadVarRequest, parseVarSpecs.
  rewrite length_app. simpl length. if_arith. simpl.
  rewrite b2z_z2b_small by lia. if_arith. rewrite Nat2Z.id.
  pose proof (parseVarSpecLoop_items _ _ [FuncReadVar; z2b (len addrs)] 0 H) as Hl.
  simpl in Hl. change (Z.of_nat 2) with 2 in Hl. rewrite Hl, bind_Ok. cbv beta iota. by if_arith.
Qed.

(** The request a client writes is the request the server decodes. *)
Lemma parseVarSpecs_one fn it spec :
  parseVarSpec ([fn; x01] ++ it ++ []) 0 2 = Ok (spec, 2 + 12) -> len it = 12 ->
  parseVarSpecs ([fn; x01] ++ it) fn = Ok [spec].
Proof.
  intros H Hl. rewrite app_nil_r in H. unfold parseVarSpecs.
  rewrite length_app. simpl length. if_arith. simpl. rewrite beq_refl.
  cbn [negb]. change (b2z x01) with 1. simpl. simpl in H. rewrite H. simpl. by if_arith.
Qed.

Lemma parseVarSpecs_S7Any fn t c d a s :
  is_u16 c -> is_u16 d -> 0 <= s < 16777216 ->
  parseVarSpecs ([fn; x01] ++ putS7Any t c d a s) fn = Ok [mkVarSpec SyntaxIDS7Any t c d a s].
Proof.
  intros. apply parseVarSpecs_one; [|done]. by apply (parseVarSpec_S7Any [fn; x01] []).
Qed.

(** One data item of the byte transport, with its fill byte. *)
Lemma parseWriteData_one rc value tail :
  len value * 8 < 65536 ->
  parseWriteData ([rc; x04] ++ put16 (len value * 8) ++ value ++ tail) 1 0 0 =
    Ok ([mkWriteVarData rc x04 (len value * 8) value], 4 + len value).
Proof.
  intros Hv. cbn [parseWriteData]. set (data := _ ++ put16 _ ++ _).
  assert (Hl : len data = 4 + len value + len tail)
    by (unfold data; rewrite !length_app, length_put16; simpl length; lia).
  assert (H2 : (slice data (0 + 2) (0 + 4) ≫= Uint16) = Ok (len value * 8)).
  { rewrite slice_Uint16 by lia. unfold data, put16. simpl. by rewrite be16_put16, Z.mod_small by lia. }
  assert (H4 : slice data (0 + 4) (0 + 4 + len value) = Ok value).
  { apply (slice_app_mid ([rc; x04] ++ put16 (len value * 8)) value tail);
      rewrite length_app, length_put16; simpl length; lia. }
  rewrite Hl. if_arith. change (idx data 0) with (Ok rc). change (idx data (0 + 1)) with (Ok x04).
  rewrite !bind_Ok, H2, bind_Ok.
  change (writeDataBytes x04 (len value * 8)) with
    (if negb ((len value * 8) mod 8 =? 0) then
       Err (malformed ("length " +:+ dec (len value * 8) +:+ " bits is not whole bytes"))
     else Ok (len value * 8 / 8)).
  rewrite Z_mod_mult, Z_div_mult by lia. simpl negb. cbv iota. if_arith.
  rewrite H4. simpl. by rewrite andb_false_r.
Qed.

Lemma ParseWriteVarRequest_bytes addr value :
  s7any_in_range addr -> len value <= MaxWriteVarBytes ->
  ParseWriteVarRequest
    ([FuncWriteVar; x01] ++
       putS7Any TransportSizeByte (Size addr) (DBNumber addr) (Area addr) (Start addr * 8))
    ([RetCodeSuccess; x04] ++ put16 (len value * 8) ++ value ++
       (if len value mod 2 =? 0 then [] else [x00])) =
  Ok ([spec_of addr], [mkWriteVarData RetCodeSuccess x04 (len value * 8) value]).
Proof.
  unfold s7any_in_range. rewrite MaxS7AnyByteOffset_value.
  unfold MaxS7AnyDBNumber, MaxS7AnyCount. change MaxWriteVarBytes with 8191. intros Hr Hv.
  unfold ParseWriteVarRequest. rewrite parseVarSpecs_S7Any by (unfold is_u16; lia).
  rewrite bind_Ok. cbn [length]. rewrite parseWriteData_one by lia. rewrite bind_Ok.
  cbv beta iota. rewrite !length_app, length_put16.
  destruct (len value mod 2 =? 0); simpl length; by if_arith.
Qed.

Lemma ParseWriteVarRequest_bit addr (value : bool) :
  s7anybit_in_range addr ->
  ParseWriteVarRequest
    ([FuncWriteVar; x01] ++
       putS7Any TransportSizeBit 1 (BitDBNumber addr) (BitArea addr)
         (ByteOffset addr * 8 + BitOffset addr))
    [x00; DataTransportSizeBit; x00; x01; if value then x01 else x00; x00] =
  Ok ([bit_spec_of addr], [mkWriteVarData x00 DataTransportSizeBit 1 [if value then x01 else x00]]).
Proof.
  unfold s7anybit_in_range. rewrite MaxS7AnyByteOffset_value. unfold MaxS7AnyDBNumber. intros Hr.
  unfold ParseWriteVarRequest. rewrite parseVarSpecs_S7Any by (unfold is_u16; lia).
  rewrite bind_Ok. by destruct value.
Qed.

Lemma ParseSetupCommRequest_ok calling called size :
  is_u16 calling -> is_u16 called -> is_u16 size ->
  ParseSetupCommRequest ([FuncSetupComm; x00] ++ put16 calling ++ put16 called ++ put16 size) =
    Ok (mkSetupCommRequest calling called size).
Proof.
  unfold is_u16. intros. unfold ParseSetupCommRequest, put16. simpl.
  rewrite !be16_put16, !Z.mod_small by lia. done.
Qed.

Lemma ParseSetupCommResponse_ok calling called size rest :
  is_u16 calling -> is_u16 called -> is_u16 size ->
  ParseSetupCommResponse ([FuncSetupComm; x00] ++ put16 calling ++ put16 called ++ put16 size ++ rest) =
    Ok (mkSetupCommResponse calling called size).
Proof.
  unfold is_u16. intros. unfold ParseSetupCommResponse.
  rewrite !length_app, !length_put16. simpl length. if_arith.
  rewrite !slice_Uint16 by lia. unfold put16. simpl.
  rewrite !be16_put16, !Z.mod_small by lia. done.
Qed.
