(* ===== verification/Memory.v ===== *)
(** * Server memory (server/memory.go)

    The registered areas and the host-side operations on them.  The Go map of
    region pointers is a [gmap] from area keys to regions; a [*region] that an
    operation holds is the key it was found under, and a store through it is
    an insertion at that key.  The source guards all regions by one lock and
    holds it for a whole operation, so an operation is one state change. *)

From S2P Require Import Prelude Go WireErrors Header ReadWrite.

(** ** Areas *)

(** [server.Area] is a byte; the constants are those of package wire. *)
Definition AreaTimers : byte := AreaTimer.
Definition AreaCounters : byte := AreaCounter.

Definition Area_String (a : byte) : string := AreaString a.

Definition Area_valid (a : byte) : bool :=
  a ∈b [AreaInputs; AreaOutputs; AreaMerkers; AreaDB; AreaTimers; AreaCounters].

Definition timerOrCounter (a : byte) : bool := (a =b AreaTimers) || (a =b AreaCounters).

Definition MaxAreaSize : Z := MaxS7AnyByteOffset + 1.

(** ** State *)

Record AreaOptions := mkAreaOptions { ReadOnly : bool }.

Record region := mkRegion {
  data : bytes;
  readOnly : bool;
}.

Record areaKey := mkAreaKey {
  area : byte;
  db : Z;
}.

#[export] Instance byte_countable : Countable byte.
Proof. refine (inj_countable' b2z z2b z2b_b2z). Defined.

#[export] Instance areaKey_eq_dec : EqDecision areaKey.
Proof. solve_decision. Defined.

#[export] Instance areaKey_countable : Countable areaKey.
Proof.
  refine (inj_countable' (fun k => (area k, db k)) (fun p => mkAreaKey p.1 p.2) _).
  by intros [].
Defined.

Abbreviation memory := (gmap areaKey region).

Definition newMemory : memory := ∅.

(** ** Operations *)

Definition describe (k : areaKey) : string :=
  if area k =b AreaDB then "DB" +:+ dec (db k) else Area_String (area k).

Definition keyOf (a : byte) (n : Z) : res areaKey :=
  if negb (Area_valid a) then
    Err (errorf1 "" (Sentinel ErrUnknownArea) (": area " +:+ Area_String a))
  else if a ≠b AreaDB then mret (mkAreaKey a 0)
  else if (n <? 1) || (n >? MaxS7AnyDBNumber) then
    Err (errorf1 "" (Sentinel ErrUnknownArea)
           (": DB number " +:+ dec n +:+ " not in 1.." +:+ dec MaxS7AnyDBNumber))
  else mret (mkAreaKey a (u16 n)).

Definition register (m : memory) (a : byte) (n : Z) (init : bytes) (opts : AreaOptions) : res memory :=
  key ← keyOf a n;
  if (len init =? 0) || (len init >? MaxAreaSize) then
    Err (errorf1 "" (Sentinel ErrSpanOutOfRange)
           (": size " +:+ dec (len init) +:+ " not in 1.." +:+ dec MaxAreaSize))
  else match m !! key with
  | Some _ => Err (errorf1 "" (Sentinel ErrAreaExists) (": " +:+ describe key))
  | None => mret (<[key := mkRegion init (ReadOnly opts)]> m)
  end.

Definition span (m : memory) (a : byte) (n start size : Z) : res (areaKey * region) :=
  key ← keyOf a n;
  match m !! key with
  | None => Err (errorf1 "" (Sentinel ErrUnknownArea) (": " +:+ describe key))
  | Some r =>
      if (start <? 0) || (size <? 0) || (start >? len (data r)) || (size >? len (data r) - start) then
        Err (errorf1 "" (Sentinel ErrSpanOutOfRange)
               (": " +:+ describe key +:+ " start " +:+ dec start +:+ " size " +:+ dec size +:+
                ", area size " +:+ dec (len (data r))))
      else mret (key, r)
  end.

Definition mem_read (m : memory) (a : byte) (n start size : Z) : res bytes :=
  '(_, r) ← span m a n start size;
  slice (data r) start (start + size).

(** [copy(dst[start:], src)]: as many bytes as both sides have. *)
Definition copy_at (dst : bytes) (start : Z) (src : bytes) : res bytes :=
  tail ← slice_from dst start;
  let n := Nat.min (length tail) (length src) in
  mret (take (Z.to_nat start) dst ++ take n src ++ drop n tail).

Definition mem_write (m : memory) (a : byte) (n start : Z) (src : bytes) : res memory :=
  '(key, r) ← span m a n start (len src);
  d ← copy_at (data r) start src;
  mret (<[key := mkRegion d (readOnly r)]> m).

(** The host-side API of [Server]. *)
Definition RegisterDB (m : memory) (number : Z) (init : bytes) (opts : AreaOptions) : res memory :=
  register m AreaDB number init opts.

Definition RegisterArea (m : memory) (a : byte) (init : bytes) (opts : AreaOptions) : res memory :=
  if a =b AreaDB then
    Err (errorf1 "" (Sentinel ErrUnknownArea) ": use RegisterDB for data blocks")
  else register m a 0 init opts.

Definition Server_Read (m : memory) (a : byte) (n start size : Z) : res bytes :=
  mem_read m a n start size.

Definition Server_Write (m : memory) (a : byte) (n start : Z) (src : bytes) : res memory :=
  mem_write m a n start src.

(** ** Invariant *)

(** The keys [keyOf] builds. *)
Definition key_ok (k : areaKey) : Prop :=
  Area_valid (area k) = true /\
  (if area k =b AreaDB then 1 <= db k <= MaxS7AnyDBNumber else db k = 0).

Definition region_ok (r : region) : Prop := 1 <= len (data r) <= MaxAreaSize.

(** Every registered area has a proper key and between 1 byte and the size
    a 24-bit bit address reaches. *)
Definition memory_ok (m : memory) : Prop :=
  map_Forall (fun k r => key_ok k /\ region_ok r) m.

(** Sizes and access rights: what no operation on a registered area changes. *)
Definition shape (m : memory) : gmap areaKey (nat * bool) :=
  (fun r => (length (data r), readOnly r)) <$> m.

(** The byte at an offset of an area. *)
Definition byte_at (m : memory) (k : areaKey) (i : nat) : option byte :=
  r ← m !! k; data r !! i.

(** [size] bytes of an area from [start], when they are inside it. *)
Definition bytes_at (m : memory) (k : areaKey) (start size : Z) : option bytes :=
  r ← m !! k;
  match slice (data r) start (start + size) with Ok b => Some b | _ => None end.

(** ** Lemmas *)

Lemma keyOf_ok a n :
  Area_valid a = true -> (a = AreaDB -> 1 <= n <= MaxS7AnyDBNumber) ->
  keyOf a n = Ok (mkAreaKey a (if a =b AreaDB then n else 0)).
Proof.
  intros Hv Hn. unfold keyOf. rewrite Hv. simpl. destruct (a =b AreaDB) eqn:E; simpl; [|done].
  b2p. specialize (Hn E). unfold MaxS7AnyDBNumber in *. if_arith.
  by rewrite u16_small by (unfold is_u16; lia).
Qed.

Lemma keyOf_inv a n k :
  keyOf a n = Ok k ->
  key_ok k /\ area k = a /\ db k = (if a =b AreaDB then n else 0).
Proof.
  unfold keyOf, key_ok. case_if; [done|]. b2p. destruct (a =b AreaDB) eqn:E; simpl.
  - case_if; [done|]. intros [= <-]. b2p. unfold MaxS7AnyDBNumber in *. subst. simpl.
    rewrite u16_small by (unfold is_u16; lia). split_and!; try done; lia.
  - intros [= <-]. simpl. rewrite E. done.
Qed.

Lemma keyOf_err a n e : keyOf a n = Err e -> errors_Is e ErrUnknownArea = true.
Proof. unfold keyOf. repeat case_if; by intros [= <-]. Qed.

Lemma no_panic_keyOf a n : no_panic (keyOf a n).
Proof. unfold keyOf. repeat np_step. Qed.
#[export] Hint Resolve no_panic_keyOf : go.

Lemma span_inv m a n start size k r :
  span m a n start size = Ok (k, r) ->
  keyOf a n = Ok k /\ m !! k = Some r /\ 0 <= start /\ 0 <= size /\ start + size <= len (data r).
Proof.
  unfold span. intros H. apply bind_Ok_inv in H as (key & Hk & H).
  destruct (m !! key) as [r'|] eqn:E; [|done]. case_if_in H; [done|].
  injection H as <- <-. split_and!; try done; b2p; lia.
Qed.

Lemma span_ok m a n k r start size :
  keyOf a n = Ok k -> m !! k = Some r -> 0 <= start -> 0 <= size -> start + size <= len (data r) ->
  span m a n start size = Ok (k, r).
Proof. intros Hk Hr ? ? ?. unfold span. rewrite Hk. simpl. rewrite Hr. by if_arith. Qed.

Lemma no_panic_span m a n start size : no_panic (span m a n start size).
Proof. unfold span. np_step; [np|]. destruct (m !! a0); [|np]. np_step; np. Qed.
#[export] Hint Resolve no_panic_span : go.

Lemma copy_at_ok dst start src :
  0 <= start -> start + len src <= len dst ->
  copy_at dst start src =
    Ok (take (Z.to_nat start) dst ++ src ++ drop (Z.to_nat (start + len src)) dst).
Proof.
  intros H1 H2. unfold copy_at. rewrite slice_from_ok by lia. rewrite bind_Ok.
  rewrite length_drop, Nat.min_r by lia. rewrite (take_ge src) by lia. rewrite drop_drop.
  replace (Z.to_nat (start + len src)) with (Z.to_nat start + length src)%nat by lia. done.
Qed.

Lemma length_copy (dst : bytes) start (src : bytes) :
  0 <= start -> start + len src <= len dst ->
  length (take (Z.to_nat start) dst ++ src ++ drop (Z.to_nat (start + len src)) dst) = length dst.
Proof. intros. rewrite !length_app, length_take, length_drop. lia. Qed.

(** A span read back after a copy over it. *)
Lemma slice_copy (dst : bytes) start (src : bytes) :
  0 <= start -> start + len src <= len dst ->
  slice (take (Z.to_nat start) dst ++ src ++ drop (Z.to_nat (start + len src)) dst)
    start (start + len src) = Ok src.
Proof. intros. apply slice_app_mid; rewrite length_take; lia. Qed.

(** Bytes outside the copied span keep their value. *)
Lemma lookup_copy (dst : bytes) start (src : bytes) (i : nat) :
  0 <= start -> start + len src <= len dst ->
  (Z.of_nat i < start \/ start + len src <= Z.of_nat i) ->
  (take (Z.to_nat start) dst ++ src ++ drop (Z.to_nat (start + len src)) dst) !! i = dst !! i.
Proof.
  intros H1 H2 [Hi|Hi].
  - rewrite lookup_app_l by (rewrite length_take; lia). apply lookup_take_lt. lia.
  - rewrite lookup_app_r by (rewrite length_take; lia).
    rewrite lookup_app_r by (rewrite length_take; lia).
    rewrite lookup_drop, length_take. f_equal. lia.
Qed.

Lemma shape_insert m k r r' :
  m !! k = Some r -> length (data r') = length (data r) -> readOnly r' = readOnly r ->
  shape (<[k := r']> m) = shape m.
Proof.
  intros H Hl Hr. unfold shape. rewrite fmap_insert. apply insert_id.
  rewrite lookup_fmap, H. simpl. by rewrite Hl, Hr.
Qed.

Lemma shape_lookup m m' k r :
  shape m' = shape m -> m !! k = Some r ->
  exists r', m' !! k = Some r' /\ length (data r') = length (data r) /\ readOnly r' = readOnly r.
Proof.
  intros Hs H. assert (H' : shape m' !! k = Some (length (data r), readOnly r))
    by (rewrite Hs; unfold shape; by rewrite lookup_fmap, H).
  unfold shape in H'. rewrite lookup_fmap in H'. destruct (m' !! k) as [r'|] eqn:E; [|done].
  injection H' as ? ?. by exists r'.
Qed.

(** [memory_ok] depends on the shape only. *)
Lemma memory_ok_shape m m' : shape m' = shape m -> memory_ok m -> memory_ok m'.
Proof.
  intros Hs H k r Hr. symmetry in Hs. destruct (shape_lookup m' m k r Hs Hr) as (r' & H' & Hl & _).
  destruct (H k r' H') as [? ?]. split; [done|]. unfold region_ok in *. lia.
Qed.

Lemma memory_ok_insert m k r r' :
  memory_ok m -> m !! k = Some r -> length (data r') = length (data r) ->
  memory_ok (<[k := r']> m).
Proof.
  intros H Hr Hl. apply map_Forall_insert_2; [|done]. destruct (H k r Hr) as [? ?].
  split; [done|]. unfold region_ok in *. lia.
Qed.

Lemma bytes_at_Some m k start size b :
  bytes_at m k start size = Some b <->
  exists r, m !! k = Some r /\ slice (data r) start (start + size) = Ok b.
Proof.
  unfold bytes_at. split.
  - intros H. destruct (m !! k) as [r|]; [|done]. exists r. split; [done|].
    simpl in H. destruct (slice _ _ _); [by injection H as -> | done..].
  - intros (r & -> & H). simpl. by rewrite H.
Qed.

Lemma bytes_at_len m k start size b :
  bytes_at m k start size = Some b -> len b = size /\ 0 <= start.
Proof.
  rewrite bytes_at_Some. intros (r & _ & H). apply slice_Ok_inv in H as (? & _ & ? & _). lia.
Qed.

(** The effect of replacing the bytes of an area from [start]. *)
Definition overwritten (m m' : memory) (k : areaKey) (start : Z) (src : bytes) : Prop :=
  shape m' = shape m /\
  bytes_at m' k start (len src) = Some src /\
  forall k' i, (k' <> k \/ Z.of_nat i < start \/ start + len src <= Z.of_nat i) ->
    byte_at m' k' i = byte_at m k' i.

Lemma overwrite_ok m k r start src :
  m !! k = Some r -> 0 <= start -> start + len src <= len (data r) ->
  exists d, copy_at (data r) start src = Ok d /\
    overwritten m (<[k := mkRegion d (readOnly r)]> m) k start src.
Proof.
  intros Hr H0 H1. eexists. split; [by apply copy_at_ok|]. split_and!.
  - apply shape_insert with r; simpl; [done | by apply length_copy | done].
  - apply bytes_at_Some. eexists. split; [by rewrite lookup_insert_eq|]. simpl. by apply slice_copy.
  - intros k' i Hi. unfold byte_at. destruct (decide (k' = k)) as [->|Hk].
    + rewrite lookup_insert_eq, Hr. simpl. apply lookup_copy; [done..|]. by destruct Hi.
    + by rewrite lookup_insert_ne.
Qed.

(** ** Theorems *)

(** Registering keeps the invariant, changes no other area and makes the
    initial bytes readable; a second registration of the key is refused. *)
Lemma register_spec m a n init opts m' :
  memory_ok m -> register m a n init opts = Ok m' ->
  memory_ok m' /\ m ⊆ m' /\
  mem_read m' a n 0 (len init) = Ok init /\
  (forall init' opts', exists e, register m' a n init' opts' = Err e).
Proof.
  intros Hm H. unfold register in H. apply bind_Ok_inv in H as (k & Hk & H).
  case_if_in H; [done|]. destruct (m !! k) eqn:E; [done|]. apply Ok_inj in H as <-.
  pose proof (keyOf_inv _ _ _ Hk) as (Hok & _ & _). b2p.
  split_and!.
  - apply map_Forall_insert_2; [|done]. split; [done|]. unfold region_ok. simpl. lia.
  - by apply insert_subseteq.
  - unfold mem_read. erewrite span_ok; [|done|by rewrite lookup_insert_eq|simpl; lia..].
    simpl. apply slice_all.
  - intros init' opts'. unfold register. rewrite Hk. simpl. case_if; [by eexists|].
    rewrite lookup_insert_eq. by eexists.
Qed.

(** A host-side write either fails and says why or changes exactly the
    addressed bytes. *)
Lemma mem_write_spec m a n start src m' :
  memory_ok m -> mem_write m a n start src = Ok m' ->
  exists k, keyOf a n = Ok k /\ overwritten m m' k start src /\ memory_ok m'.
Proof.
  intros Hm H. unfold mem_write in H. apply bind_Ok_inv in H as ([k r] & Hs & H).
  apply span_inv in Hs as (Hk & Hr & H0 & _ & H1).
  destruct (overwrite_ok m k r start src Hr H0 H1) as (d & Hd & Ho). rewrite Hd in H. simpl in H.
  apply Ok_inj in H as <-. exists k. split_and!; [done..|].
  by eapply memory_ok_shape; [apply Ho|].
Qed.

Lemma mem_write_succeeds m a n start src k r :
  keyOf a n = Ok k -> m !! k = Some r -> 0 <= start -> start + len src <= len (data r) ->
  exists m', mem_write m a n start src = Ok m'.
Proof.
  intros Hk Hr H0 H1. unfold mem_write. erewrite span_ok; [|done..|lia|done]. simpl.
  rewrite copy_at_ok by done. by eexists.
Qed.

(** Reading is exactly the abstract span. *)
Lemma mem_read_bytes_at m a n start size k b :
  keyOf a n = Ok k -> 0 <= size -> mem_read m a n start size = Ok b <-> bytes_at m k start size = Some b.
Proof.
  intros Hk Hsz. rewrite bytes_at_Some. unfold mem_read. split.
  - intros H. apply bind_Ok_inv in H as ([k' r] & Hs & H).
    apply span_inv in Hs as (Hk' & Hr & _). rewrite Hk in Hk'. apply Ok_inj in Hk' as <-. by exists r.
  - intros (r & Hr & H). pose proof (slice_Ok_inv _ _ _ _ H) as (? & ? & _).
    erewrite span_ok; [|done..|lia|lia|lia]. done.
Qed.

(** What the client or the host wrote is what is read next. *)
Lemma mem_write_read m a n start src m' :
  memory_ok m -> mem_write m a n start src = Ok m' -> mem_read m' a n start (len src) = Ok src.
Proof.
  intros Hm H. apply mem_write_spec in H as (k & Hk & (_ & Hb & _) & _); [|done].
  by apply (mem_read_bytes_at _ _ _ _ _ k); [|lia|].
Qed.

(** Errors name their cause. *)
Lemma mem_read_errors m a n start size e :
  mem_read m a n start size = Err e ->
  (errors_Is e ErrUnknownArea = true /\ forall k, keyOf a n = Ok k -> m !! k = None) \/
  (errors_Is e ErrSpanOutOfRange = true /\
     exists k r, keyOf a n = Ok k /\ m !! k = Some r /\
       (start < 0 \/ size < 0 \/ len (data r) < start + size)).
Proof.
  unfold mem_read, span. destruct (keyOf a n) as [k|e'|] eqn:Ek; simpl.
  - destruct (m !! k) as [r|] eqn:Er; simpl.
    + case_if; simpl.
      * intros [= <-]. right. split; [done|]. exists k, r. split_and!; [done..|]. lia.
      * rewrite slice_ok; [done | lia | lia].
    + intros [= <-]. left. split; [done|]. by intros k' [= <-].
  - intros [= <-]. left. split; [by eapply keyOf_err | done].
  - by apply no_panic_keyOf in Ek.
Qed.
