(* ===== verification/Session.v ===== *)
(** * A server session (server/session.go)

    The per-connection state and [handle], which answers one S7 PDU: the
    header checks, Setup Communication, Read Var with its DBREAD items and the
    PDU-size limit, Write Var item by item, and the error answers. *)

From S2P Require Import Prelude Go WireErrors Header ReadWrite ServerCodec Memory.

(** ** State *)

Definition errClassApp : byte := x81.
Definition errCodeNotImpl : byte := x04.
Definition errClassSupplies : byte := x85.
Definition errCodeFrames : byte := x00.
Definition maxAmQ : Z := 2.

(** [session]: [MaxPDUSize] and [regions] are [srv.cfg.MaxPDUSize] and
    [srv.mem.regions], which all sessions of a server share. *)
Record session := mkSession {
  cfgMaxPDUSize : Z;
  regions : memory;
  pduSize : Z;
}.

(** ** Setup Communication *)

(** The state is returned with the error too: the size is stored before the
    answer is encoded. *)
Definition setup (s : session) (ref : Z) (param : bytes) : session * res bytes :=
  match ParseSetupCommRequest param with
  | Err e => (s, Err e)
  | Panic => (s, Panic)
  | Ok req =>
      let size := Z.min (ReqPDUSize req) (cfgMaxPDUSize s) in
      let s := mkSession (cfgMaxPDUSize s) (regions s) size in
      (s, EncodeSetupCommResponse ref
            (Z.max 1 (Z.min (ReqMaxAmqCalling req) maxAmQ))
            (Z.max 1 (Z.min (ReqMaxAmqCalled req) maxAmQ)) size)
  end.

(** ** Items *)

Definition transportCounter : byte := x1c.
Definition transportTimer : byte := x1d.

Definition elementSize (transport : byte) : Z :=
  if transport ∈b [TransportSizeBit; TransportSizeByte; TransportSizeChar] then 1
  else if transport ∈b [TransportSizeWord; TransportSizeInt; transportCounter; transportTimer] then 2
  else if transport ∈b [TransportSizeDWord; TransportSizeDInt; TransportSizeReal] then 4
  else 0.

(** [reg] is the region pointer: its key and the region it points to. *)
Record target := mkTarget {
  regKey : areaKey;
  reg : region;
  start : Z;
  bit : Z;
  size : Z;
  isBit : bool;
  transp : byte;
  tarea : byte;
}.

(** The zero [target] of a refusal has a nil region: it is [None]. *)
Definition resolve (m : memory) (spec : VarSpec) : option target * byte :=
  if Syntax spec ≠b SyntaxIDS7Any then (None, RetCodeAddressFault) else
  let a := SpecArea spec in
  match keyOf a (SpecDBNumber spec) with
  | Ok key =>
      match m !! key with
      | None => (None, RetCodeNotAvailable)
      | Some reg =>
          let per := elementSize (TransportSize spec) in
          if per =? 0 then (None, RetCodeDataTypeFault) else
          let tc := (TransportSize spec =b transportTimer) || (TransportSize spec =b transportCounter) in
          if xorb (timerOrCounter a) tc || (tc && (TransportSize spec ≠b a))
          then (None, RetCodeAddressFault) else
          let size := per * Count spec in
          let isBit := TransportSize spec =b TransportSizeBit in
          if (size =? 0) || (isBit && (size >? 1)) then (None, RetCodeAddressFault) else
          let located (start bit : Z) :=
            if start + size >? len (data reg) then (None, RetCodeAddressFault)
            else (Some (mkTarget key reg start bit size isBit (TransportSize spec) a), RetCodeSuccess) in
          if tc then located (2 * StartBit spec) 0
          else if negb isBit && negb (StartBit spec mod 8 =? 0) then (None, RetCodeAddressFault)
          else located (Z.shiftr (StartBit spec) 3) (Z.land (StartBit spec) 7)
      end
  | _ => (None, RetCodeNotAvailable)
  end.

Definition lengthField (n : Z) : Z :=
  if (n <? 0) || (n >? MaxUint16) then MaxUint16 else u16 n.

Definition readResult (t : target) : res ReadVarResult :=
  src ← slice (data (reg t)) (start t) (start t + size t);
  if transp t =b TransportSizeBit then
    b ← idx src 0;
    mret (mkReadVarResult RetCodeSuccess DataTransportSizeBit 1
            [z2b (Z.land (Z.shiftr (b2z b) (bit t)) 1)])
  else if transp t =b TransportSizeInt then
    mret (mkReadVarResult RetCodeSuccess DataTransportSizeInt (lengthField (size t * 8)) src)
  else if transp t =b TransportSizeDInt then
    mret (mkReadVarResult RetCodeSuccess DataTransportSizeDInt (lengthField (size t)) src)
  else if transp t =b TransportSizeReal then
    mret (mkReadVarResult RetCodeSuccess DataTransportSizeReal (lengthField (size t)) src)
  else if transp t ∈b [TransportSizeChar; transportTimer; transportCounter] then
    mret (mkReadVarResult RetCodeSuccess DataTransportSizeOctet (lengthField (size t)) src)
  else
    mret (mkReadVarResult RetCodeSuccess DataTransportSizeByte (lengthField (size t * 8)) src).

(** [wire.ReadVarResult{ReturnCode: code}]. *)
Definition refused (code : byte) : ReadVarResult := mkReadVarResult code x00 0 [].

(** The range loop of [dbRead]; [acc] is the data so far. *)
Fixpoint dbReadLoop (m : memory) (ranges : list DBReadArea) (acc : bytes) : res ReadVarResult :=
  match ranges with
  | [] => mret (mkReadVarResult RetCodeSuccess DataTransportSizeOctet (lengthField (len acc)) acc)
  | r :: ranges =>
      match m !! mkAreaKey AreaDB (RangeDBNumber r) with
      | None => mret (refused RetCodeNotAvailable)
      | Some reg =>
          if RangeDBNumber r =? 0 then mret (refused RetCodeNotAvailable) else
          let start := RangeStart r in
          let n := b2z (RangeLength r) in
          if (n =? 0) || (start + n >? len (data reg)) then mret (refused RetCodeAddressFault) else
          b ← slice (data reg) start (start + n);
          dbReadLoop m ranges (acc ++ [RetCodeSuccess] ++ b)
      end
  end.

Definition dbRead (m : memory) (ranges : list DBReadArea) : res ReadVarResult :=
  dbReadLoop m ranges [].

(** ** Read Var *)

(** The item loop of [read]: item [i] of [n] is next, [used] bytes are
    taken.  [None] is the early return with header error 0x8500. *)
Fixpoint readLoop (m : memory) (pdu n : Z) (specs : list VarSpec)
  (ranges : list (list DBReadArea)) (i used : Z) : res (option (list ReadVarResult * Z)) :=
  match specs with
  | [] => mret (Some ([], used))
  | spec :: specs =>
      let continue_with (r : ReadVarResult) (used : Z) :=
        rest ← readLoop m pdu n specs ranges (i + 1) used;
        mret (match rest with Some (rs, used') => Some (r :: rs, used') | None => None end) in
      if Syntax spec =b SyntaxIDDBRead then
        rs ← idx ranges i;
        r ← dbRead m rs;
        let used := used + (4 + len (RData r)) in
        let used := if (i <? n - 1) && negb (len (RData r) mod 2 =? 0) then used + 1 else used in
        if used >? pdu then mret None
        else continue_with r used
      else
      let '(t, code) := resolve m spec in
      if code ≠b RetCodeSuccess then continue_with (refused code) (used + 4)
      else
      match t with
      | None => Panic
      | Some t =>
          let need := if isBit t then 5 else 4 + size t in
          let need := if (i <? n - 1) && negb (need mod 2 =? 0) then need + 1 else need in
          let used := used + need in
          if used >? pdu then mret None
          else r ← readResult t; continue_with r used
      end
  end.

Definition frameError (ref : Z) (param : bytes) : res bytes :=
  fn ← slice param 0 1;
  EncodeAckData ref errClassSupplies errCodeFrames fn [].

Definition read (s : session) (ref : Z) (param : bytes) : res bytes :=
  specs ← ParseReadVarRequest param;
  ranges ← ParseReadVarDBRead param;
  out ← readLoop (regions s) (pduSize s) (len specs) specs ranges 0 (AckDataHeaderSize + 2);
  match out with
  | None => frameError ref param
  | Some (results, used) =>
      if used >? pduSize s then frameError ref param
      else EncodeReadVarResponse ref results
  end.

(** ** Write Var *)

(** The memory after one item and its return code. *)
Definition writeItem (m : memory) (spec : VarSpec) (item : WriteVarData) : res (memory * byte) :=
  let '(t, code) := resolve m spec in
  if code ≠b RetCodeSuccess then mret (m, code) else
  match t with
  | None => Panic
  | Some t =>
      if negb (len (WData item) =? size t) then mret (m, RetCodeDataSizeFault) else
      if readOnly (reg t) || timerOrCounter (tarea t) then mret (m, RetCodeAccessFault) else
      if isBit t then
        let mask := Z.shiftl 1 (bit t) mod 256 in
        v ← idx (WData item) 0;
        old ← idx (data (reg t)) (start t);
        let new := if negb (Z.land (b2z v) 1 =? 0)
                   then z2b (Z.lor (b2z old) mask) else z2b (Z.ldiff (b2z old) mask) in
        mret (<[regKey t := mkRegion (<[Z.to_nat (start t) := new]> (data (reg t))) (readOnly (reg t))]> m,
              RetCodeSuccess)
      else
        d ← copy_at (data (reg t)) (start t) (WData item);
        mret (<[regKey t := mkRegion d (readOnly (reg t))]> m, RetCodeSuccess)
  end.

(** The item loop of [write]: the items and their data, in order. *)
Fixpoint writeLoop (m : memory) (specs : list VarSpec) (items : list WriteVarData) (i : Z)
  : res (memory * bytes) :=
  match specs with
  | [] => mret (m, [])
  | spec :: specs =>
      item ← idx items i;
      '(m, code) ← writeItem m spec item;
      '(m, codes) ← writeLoop m specs items (i + 1);
      mret (m, code :: codes)
  end.

Definition write (s : session) (ref : Z) (param data : bytes) : session * res bytes :=
  match ParseWriteVarRequest param data with
  | Err e => (s, Err e)
  | Panic => (s, Panic)
  | Ok (specs, items) =>
      match writeLoop (regions s) specs items 0 with
      | Ok (m, codes) => (mkSession (cfgMaxPDUSize s) m (pduSize s), EncodeWriteVarResponse ref codes)
      | Err e => (s, Err e)
      | Panic => (s, Panic)
      end
  end.

(** ** Error answers *)

(** [out, _ := f()]: the bytes, nil when there is an error. *)
Definition discard_error {A} (m : res A) : res (option A) :=
  match m with Ok a => mret (Some a) | Err _ => mret None | Panic => Panic end.

Definition notImplemented (ref : Z) (param : bytes) : res (option bytes) :=
  fn ← (if len param >? 0 then slice param 0 1 else mret []);
  discard_error (EncodeAckData ref errClassApp errCodeNotImpl fn []).

Definition userdataNotImplemented (ref : Z) (param : bytes) : res (option bytes) :=
  let answer :=
    p5 ← idx param 5; subfunc ← idx param 6; seq ← idx param 7;
    let group := Z.land (b2z p5) 0x3F in
    let resp := [x00; x01; x12; x08; x12; z2b (Z.lor 0x80 group); subfunc; seq; x00; x00;
                 errClassApp; errCodeNotImpl] in
    let data := [RetCodeNotAvailable; x00; x00; x00] in
    match EncodeS7Header ROSCTRUserdata ref (len resp) (len data) with
    | Ok hdr => mret (Some ((hdr ++ resp) ++ data))
    | Err _ => mret (Some (resp ++ data))
    | Panic => Panic
    end in
  if len param <? 8 then notImplemented ref param else
  p0 ← idx param 0; p1 ← idx param 1; p2 ← idx param 2;
  if (p0 ≠b x00) || (p1 ≠b x01) || (p2 ≠b x12) then notImplemented ref param
  else answer.

(** ** The handler *)

Definition answered (s : session) (out : res (option bytes)) : res (session * option bytes * bool) :=
  o ← out; mret (s, o, true).

(** The new state, the answer ([None] for nil) and [keep]. *)
Definition handle (s : session) (req : bytes) : res (session * option bytes * bool) :=
  if len req <? S7HeaderSize then mret (s, None, false) else
  b0 ← idx req 0;
  if b0 ≠b x32 then mret (s, None, false) else
  rosctr ← idx req 1;
  ref ← slice req 4 6 ≫= Uint16;
  paramLen ← slice req 6 8 ≫= Uint16;
  dataLen ← slice req 8 10 ≫= Uint16;
  if negb (S7HeaderSize + paramLen + dataLen =? len req) then mret (s, None, false) else
  param ← slice req S7HeaderSize (S7HeaderSize + paramLen);
  data ← slice_from req (S7HeaderSize + paramLen);
  if IsUserdata rosctr then answered s (userdataNotImplemented ref param) else
  if negb (IsJob rosctr) || (paramLen =? 0) then answered s (notImplemented ref param) else
  fn ← idx param 0;
  let finish (o : session * res bytes) :=
    match o with
    | (s, Ok out) => mret (s, Some out, true)
    | (s, Err _) => answered s (notImplemented ref param)
    | (_, Panic) => Panic
    end in
  if fn =b FuncSetupComm then finish (setup s ref param)
  else if fn =b FuncReadVar then finish (s, read s ref param)
  else if fn =b FuncWriteVar then finish (write s ref param data)
  else answered s (notImplemented ref param).

(** ** Invariant *)

Definition session_ok (s : session) : Prop :=
  memory_ok (regions s) /\ 0 <= pduSize s <= cfgMaxPDUSize s /\ 240 <= cfgMaxPDUSize s <= 4096.

(** The fields of a decoded item are within their wire widths. *)
Definition spec_ok (spec : VarSpec) : Prop :=
  is_u16 (Count spec) /\ is_u16 (SpecDBNumber spec) /\ 0 <= StartBit spec < 16777216.

(** ** Lemmas: resolving an item *)

(** A target lies inside a registered area. *)
Definition target_ok (m : memory) (t : target) : Prop :=
  m !! regKey t = Some (reg t) /\ tarea t = area (regKey t) /\
  0 <= start t /\ 1 <= size t /\ start t + size t <= len (data (reg t)) /\
  0 <= bit t < 8 /\ isBit t = (transp t =b TransportSizeBit) /\ (isBit t = true -> size t = 1).

Lemma elementSize_nonneg t : 0 <= elementSize t.
Proof. unfold elementSize. repeat case_if; lia. Qed.

Lemma land7 z : 0 <= Z.land z 7 < 8.
Proof. change 7 with (Z.ones 3). rewrite land_mod by lia. apply Z.mod_pos_bound. lia. Qed.

Lemma resolve_cases m spec :
  spec_ok spec ->
  (exists t, resolve m spec = (Some t, RetCodeSuccess) /\ target_ok m t) \/
  (exists code, resolve m spec = (None, code) /\ code <> RetCodeSuccess).
Proof.
  intros (Hc & Hd & Hs). unfold resolve.
  case_if; [right; by eexists|].
  destruct (keyOf _ _) as [key|e|] eqn:Ek; [|right; by eexists..].
  destruct (m !! key) as [rg|] eqn:Er; [|right; by eexists].
  case_if; [right; by eexists|]. case_if; [right; by eexists|]. case_if; [right; by eexists|].
  pose proof (elementSize_nonneg (TransportSize spec)) as He.
  pose proof (keyOf_inv _ _ _ Ek) as (_ & Ha & _). unfold is_u16 in *.
  set (per := elementSize (TransportSize spec)) in *.
  assert (Hsz : 1 <= per * Count spec) by (b2p; nia).
  assert (Hbit : (TransportSize spec =b TransportSizeBit) = true -> per * Count spec = 1).
  { intros E. rewrite E in *. simpl in *. b2p. lia. }
  pose proof (land7 (StartBit spec)). pose proof (Z.shiftr_nonneg (StartBit spec) 3) as Hsh.
  repeat case_if; first [right; by eexists | left; eexists; split; [done|]];
    unfold target_ok; simpl; split_and!; try done; b2p; lia.
Qed.

(** ** Lemmas: answers of Read Var items *)

Lemma lengthField_ok n : 0 <= n <= 65535 -> lengthField n = n.
Proof. intros. unfold lengthField, MaxUint16. if_arith. by rewrite u16_small by (unfold is_u16; lia). Qed.

(** The bytes an item of the answer holds. *)
Definition answer_len (t : target) : Z := if isBit t then 1 else size t.

Lemma readResult_ok m t :
  target_ok m t ->
  exists r, readResult t = Ok r /\ len (RData r) = answer_len t /\
    RReturnCode r = RetCodeSuccess /\
    (isBit t = false -> slice (data (reg t)) (start t) (start t + size t) = Ok (RData r)) /\
    (size t <= 8191 -> result_ok r).
Proof.
  intros (_ & _ & H0 & H1 & H2 & Hb & Hib & Hsz). unfold readResult, answer_len.
  destruct (slice (data (reg t)) (start t) (start t + size t)) as [src|e|] eqn:E.
  2,3: rewrite slice_ok in E by lia; done.
  pose proof (slice_Ok_inv _ _ _ _ E) as (_ & _ & Hl & _). rewrite bind_Ok, Hib.
  destruct (transp t =b TransportSizeBit) eqn:Et.
  - destruct (idx_ok src 0) as [b Hb0]; [lia|]. rewrite Hb0. simpl. eexists. split; [done|].
    split_and!; try done.
  - assert (Hn : forall ts raw, result_ok (mkReadVarResult RetCodeSuccess ts raw src) <->
      is_u16 raw /\ NormalizeResponseDataLength ts raw = Ok (len src)).
    { intros. unfold result_ok. simpl. split; [intros (? & ? & _); auto | by intros [? ?]]. }
    repeat case_if; unfold mret, res_ret; eexists; (split; [done|]); simpl;
      (split_and!; [lia | done | done |]); intros Hs; apply Hn;
      rewrite lengthField_ok by lia; (split; [unfold is_u16; lia|]);
      unfold NormalizeResponseDataLength; simpl; f_equal; Z.div_mod_to_equations; lia.
Qed.

Lemma result_ok_refused code : code <> RetCodeSuccess -> result_ok (refused code).
Proof. intros H. unfold result_ok, is_u16. simpl. split_and!; [lia.. | done | done]. Qed.

(** The bytes a DBREAD range delivers, when the server holds it. *)
Definition range_bytes (m : memory) (r : DBReadArea) : option bytes :=
  if (RangeDBNumber r =? 0) || (b2z (RangeLength r) =? 0) then None
  else bytes_at m (mkAreaKey AreaDB (RangeDBNumber r)) (RangeStart r) (b2z (RangeLength r)).

(** The data of a DBREAD answer: per range its return code and bytes. *)
Fixpoint ranges_data (m : memory) (rs : list DBReadArea) : option bytes :=
  match rs with
  | [] => Some []
  | r :: rs => b ← range_bytes m r; d ← ranges_data m rs; Some ([RetCodeSuccess] ++ b ++ d)
  end.

Lemma dbReadLoop_spec m rs acc :
  Forall range_ok rs ->
  match ranges_data m rs with
  | Some d => dbReadLoop m rs acc =
      Ok (mkReadVarResult RetCodeSuccess DataTransportSizeOctet (lengthField (len (acc ++ d))) (acc ++ d))
  | None => exists code, dbReadLoop m rs acc = Ok (refused code) /\
      (code = RetCodeNotAvailable \/ code = RetCodeAddressFault)
  end.
Proof.
  revert acc. induction rs as [|r rs IH]; intros acc HF; simpl.
  { by rewrite app_nil_r. }
  apply Forall_cons in HF as [[Hdb Hst] HF]. unfold is_u16 in *.
  unfold range_bytes, bytes_at. pose proof (b2z_range (RangeLength r)).
  destruct (m !! mkAreaKey AreaDB (RangeDBNumber r)) as [rg|] eqn:Er; simpl.
  2: { rewrite Tauto.if_same. simpl. eexists. split; [done | by left]. }
  destruct (RangeDBNumber r =? 0) eqn:E0; simpl.
  { eexists. split; [done | by left]. }
  destruct (b2z (RangeLength r) =? 0) eqn:E1; simpl.
  { eexists. split; [done | by right]. }
  case_if.
  - unfold slice. if_arith. simpl. eexists. split; [done | by right].
  - b2p. rewrite slice_ok by lia. simpl. set (b := take _ _).
    specialize (IH (acc ++ [RetCodeSuccess] ++ b) HF). simpl in IH.
    destruct (ranges_data m rs) as [d|]; simpl; [|done].
    rewrite IH. by rewrite <- !app_assoc.
Qed.

Lemma ranges_data_len m rs d : ranges_data m rs = Some d -> len d <= 256 * len rs.
Proof.
  revert d. induction rs as [|r rs IH]; intros d H; [by injection H as <-|].
  cbn [ranges_data] in H. destruct (range_bytes m r) as [b|] eqn:Eb; [|done].
  destruct (ranges_data m rs) as [d'|]; [|done]. apply (inj Some) in H as <-. specialize (IH d' eq_refl).
  unfold range_bytes in Eb. case_if_in Eb; [done|]. apply bytes_at_len in Eb as [Eb _].
  pose proof (b2z_range (RangeLength r)). rewrite !length_app. simpl length. lia.
Qed.

(** The reference answer of one item, without the PDU limit. *)
Definition readItem (m : memory) (spec : VarSpec) (rs : list DBReadArea) : res ReadVarResult :=
  if Syntax spec =b SyntaxIDDBRead then dbRead m rs
  else match resolve m spec with
       | (Some t, _) => readResult t
       | (None, code) => mret (refused code)
       end.

Fixpoint readItems (m : memory) (specs : list VarSpec) (rss : list (list DBReadArea))
  : res (list ReadVarResult) :=
  match specs, rss with
  | spec :: specs, rs :: rss =>
      r ← readItem m spec rs; rest ← readItems m specs rss; mret (r :: rest)
  | _, _ => mret []
  end.

Lemma readItem_ok m spec rs :
  spec_ok spec -> ranges_match spec rs ->
  exists r, readItem m spec rs = Ok r /\ (len (RData r) <= 8191 -> result_ok r).
Proof.
  intros Hs Hm. unfold readItem, ranges_match in *. destruct (Syntax spec =b SyntaxIDDBRead).
  - destruct Hm as (_ & Hn & HF). pose proof (dbReadLoop_spec m rs [] HF) as Hl. unfold dbRead.
    destruct (ranges_data m rs) as [d|] eqn:E.
    + rewrite Hl. apply ranges_data_len in E. eexists. split; [done|]. simpl. intros Hd.
      rewrite lengthField_ok by lia. unfold result_ok, is_u16. simpl. split_and!; [lia.. | done | done].
    + destruct Hl as (code & -> & Hc). eexists. split; [done|]. intros _.
      apply result_ok_refused. by destruct Hc as [-> | ->].
  - destruct (resolve_cases m spec Hs) as [(t & -> & Ht)|(code & -> & Hc)].
    + destruct (readResult_ok m t Ht) as (r & -> & Hl & _ & _ & Hr). exists r. split; [done|].
      intros Hd. apply Hr. unfold answer_len in Hl. destruct Ht as (_ & _ & _ & _ & _ & _ & _ & Hb).
      destruct (isBit t); [rewrite (Hb eq_refl); lia | lia].
    + eexists. split; [done|]. intros _. by apply result_ok_refused.
Qed.

Lemma len_readVarData_cons r rest :
  len (readVarData (r :: rest)) =
    4 + len (RData r) + (if negb (bool_decide (rest = [])) && negb (len (RData r) mod 2 =? 0) then 1 else 0)
    + len (readVarData rest).
Proof.
  rewrite readVarData_cons. unfold fill. rewrite !length_app, length_put16. simpl length.
  case_if; simpl length; lia.
Qed.

(** One pass of the item loop: what an item adds to [used] is what its
    result takes in the answer. *)
Lemma readLoop_step m pdu n spec specs ranges i used rs r :
  spec_ok spec -> idx ranges i = Ok rs -> ranges_match spec rs -> readItem m spec rs = Ok r ->
  let used' := used + 4 + len (RData r) + (if (i <? n - 1) && negb (len (RData r) mod 2 =? 0) then 1 else 0) in
  (used' > pdu /\ readLoop m pdu n (spec :: specs) ranges i used = Ok None) \/
  readLoop m pdu n (spec :: specs) ranges i used =
    (rest ← readLoop m pdu n specs ranges (i + 1) used';
     mret (match rest with Some (rs, u) => Some (r :: rs, u) | None => None end)).
Proof.
  intros Hs Hi Hm Hr used'. cbn [readLoop]. unfold readItem in Hr.
  destruct (Syntax spec =b SyntaxIDDBRead).
  - rewrite Hi, bind_Ok, Hr, bind_Ok. cbv zeta.
    match goal with |- context [if ?u >? pdu then _ else _] => replace u with used' end.
    2: { unfold used'. case_if; lia. }
    case_if; [left; split; [b2p; lia | done] | by right].
  - destruct (resolve_cases m spec Hs) as [(t & Et & Ht)|(code & Et & Hc)]; rewrite Et in *.
    + simpl (_ ≠b _). cbv iota zeta.
      destruct (readResult_ok m t Ht) as (r' & Hr' & Hl & _). rewrite Hr' in Hr. apply Ok_inj in Hr as ->.
      assert (Hpar : 4 + len (RData r) = if isBit t then 5 else 4 + size t).
      { rewrite Hl. unfold answer_len. by destruct (isBit t). }
      rewrite <- Hpar.
      match goal with |- context [if ?u >? pdu then _ else _] => replace u with used' end.
      2: { unfold used'. replace ((4 + len (RData r)) mod 2) with (len (RData r) mod 2);
           [case_if; lia | Z.div_mod_to_equations; lia]. }
      case_if; [left; split; [b2p; lia | done]|]. right. by rewrite Hr'.
    + apply Ok_inj in Hr as <-. rewrite (beq_ne _ _ Hc). simpl (negb _). cbv iota zeta. right.
      unfold used'. simpl length. rewrite andb_false_r. by rewrite !Z.add_0_r.
Qed.

Lemma readLoop_spec m pdu specs pre rss used :
  Forall spec_ok specs -> Forall2 ranges_match specs rss ->
  exists results, readItems m specs rss = Ok results /\ length results = length specs /\
    Forall (fun r => len (RData r) <= 8191 -> result_ok r) results /\
    let n := len pre + len specs in
    let total := used + len (readVarData results) in
    (readLoop m pdu n specs (pre ++ rss) (len pre) used = Ok (Some (results, total)) \/
     (readLoop m pdu n specs (pre ++ rss) (len pre) used = Ok None /\ total > pdu)).
Proof.
  revert pre rss used. induction specs as [|spec specs IH]; intros pre rss used HF H2.
  { apply Forall2_nil_inv_l in H2 as ->. exists []. simpl. split_and!; try done. left.
    by rewrite Z.add_0_r. }
  apply Forall_cons in HF as [Hs HF]. apply Forall2_cons_inv_l in H2 as (rs & rss' & Hm & H2 & ->).
  destruct (readItem_ok m spec rs Hs Hm) as (r & Hr & Hok).
  assert (Hi : idx (pre ++ rs :: rss') (len pre) = Ok rs)
    by (replace (len pre) with (len pre + 0) by lia; by rewrite idx_app_off).
  set (used' := used + 4 + len (RData r) +
    (if (len pre <? len pre + len (spec :: specs) - 1) && negb (len (RData r) mod 2 =? 0) then 1 else 0)).
  destruct (IH (pre ++ [rs]) rss' used' HF H2) as (results & Hrs & Hlen & Hall & Hloop).
  exists (r :: results). cbn [readItems]. rewrite Hr, bind_Ok, Hrs. split_and!; [done | simpl; congruence | by constructor |].
  assert (Htot : used + len (readVarData (r :: results)) = used' + len (readVarData results)).
  { rewrite len_readVarData_cons. unfold used'.
    assert (He : bool_decide (results = []) = negb (len pre <? len pre + len (spec :: specs) - 1)).
    { destruct results, specs; simpl in *; try done; symmetry; lia. }
    rewrite He, negb_involutive. lia. }
  rewrite <- app_assoc in Hloop. cbv zeta in Hloop. rewrite length_app in Hloop. simpl in Hloop.
  replace (Z.of_nat (length pre + 1) + len specs) with (len pre + len (spec :: specs)) in Hloop
    by (simpl length; lia).
  replace (Z.of_nat (length pre + 1)) with (len pre + 1) in Hloop by lia.
  cbv zeta. rewrite Htot.
  pose proof (readLoop_step m pdu (len pre + len (spec :: specs)) spec specs (pre ++ rs :: rss')
                (len pre) used rs r Hs Hi Hm Hr) as [[Hgt Hn] | Hc].
  - right. rewrite Hn. split; [done|]. fold used' in Hgt. lia.
  - rewrite Hc. fold used'. destruct Hloop as [Hl | [Hl Hgt]]; rewrite Hl, bind_Ok; [by left | by right].
Qed.

Lemma RData_le_readVarData items : Forall (fun r => len (RData r) <= len (readVarData items)) items.
Proof.
  induction items as [|r rest IH]; constructor.
  - rewrite len_readVarData_cons. case_if; lia.
  - eapply Forall_impl; [exact IH|]. cbv beta. intros r' H. rewrite len_readVarData_cons. case_if; lia.
Qed.

Lemma EncodeReadVarResponse_ok ref items :
  len items <= 255 -> len (readVarData items) <= MaxUint16 ->
  EncodeReadVarResponse ref items =
    Ok (s7Header ROSCTRAckData ref 2 (len (readVarData items)) ++ [x00; x00] ++
        [FuncReadVar; z2b (len items)] ++ readVarData items).
Proof.
  intros Hn Hl. unfold EncodeReadVarResponse. if_arith. rewrite EncodeAckData_ok; [done | | done].
  unfold MaxUint16. simpl. lia.
Qed.

Lemma EncodeWriteVarResponse_ok ref codes :
  len codes <= 255 ->
  EncodeWriteVarResponse ref codes =
    Ok (s7Header ROSCTRAckData ref 2 (len codes) ++ [x00; x00] ++ [FuncWriteVar; z2b (len codes)] ++ codes).
Proof.
  intros Hn. unfold EncodeWriteVarResponse. if_arith.
  rewrite EncodeAckData_ok; [done | unfold MaxUint16; simpl; lia | unfold MaxUint16; lia].
Qed.

(** ** Read Var *)

Lemma specs_ok param fn specs : parseVarSpecs param fn = Ok specs -> Forall spec_ok specs.
Proof. intros H. by apply parseVarSpecs_inv in H as (? & ? & _ & _ & _ & _ & _ & _ & HF). Qed.

(** [read] answers the items as the reference does when the whole answer fits
    the negotiated PDU, and refuses the job otherwise: the running count of
    the loop and its early exits decide exactly that. *)
Lemma read_spec s ref param specs :
  session_ok s -> ParseReadVarRequest param = Ok specs ->
  exists rss results,
    ParseReadVarDBRead param = Ok rss /\ Forall2 ranges_match specs rss /\
    readItems (regions s) specs rss = Ok results /\ length results = length specs /\
    (let total := AckDataHeaderSize + 2 + len (readVarData results) in
     read s ref param = (if total <=? pduSize s then EncodeReadVarResponse ref results
                         else frameError ref param) /\
     (total <= pduSize s -> Forall result_ok results)).
Proof.
  intros (_ & Hp & Hc) Hspecs. pose proof (specs_ok _ _ _ Hspecs) as Hok.
  destruct (ParseReadVarDBRead_ok _ _ Hspecs) as (rss & Hrss & Hm).
  destruct (readLoop_spec (regions s) (pduSize s) specs [] rss (AckDataHeaderSize + 2) Hok Hm)
    as (results & Hres & Hlen & Hall & Hloop).
  exists rss, results. split_and!; try done. split.
  - unfold read. rewrite Hspecs, bind_Ok, Hrss, bind_Ok. simpl app in Hloop. change (len []) with 0 in Hloop.
    cbv zeta in Hloop. rewrite Z.add_0_l in Hloop. destruct Hloop as [Hl | [Hl Hgt]]; rewrite Hl, bind_Ok.
    + case_if; b2p; [|by if_arith]. by if_arith.
    + by if_arith.
  - intros Hfit. change (AckDataHeaderSize + 2) with 14 in *.
    pose proof (RData_le_readVarData results) as HR. rewrite Forall_forall in *.
    intros r Hr. apply Hall; [done|]. specialize (HR r Hr). simpl in HR. lia.
Qed.

Lemma frameError_ok ref param fn rest :
  param = fn :: rest ->
  frameError ref param =
    Ok (s7Header ROSCTRAckData ref 1 0 ++ [errClassSupplies; errCodeFrames] ++ [fn]).
Proof.
  intros ->. unfold frameError. rewrite (slice_to_app [fn] rest) by done. rewrite bind_Ok.
  by rewrite EncodeAckData_ok by (unfold MaxUint16; simpl; lia).
Qed.

Lemma idx_0_cons {A} (l : list A) a : idx l 0 = Ok a -> exists rest, l = a :: rest.
Proof. destruct l as [|x l]; [done|]. intros [= ->]. by exists l. Qed.

Lemma parseVarSpecs_cons param fn specs :
  parseVarSpecs param fn = Ok specs -> exists rest, param = fn :: rest.
Proof. intros H. apply parseVarSpecs_inv in H as (? & ? & H & _). by apply idx_0_cons. Qed.

(** ** Write Var *)

(** Exactly bit [j] of the byte at [i] of the area became [v]. *)
Definition bit_written (m m' : memory) (k : areaKey) (i : nat) (j : Z) (v : bool) : Prop :=
  shape m' = shape m /\
  (forall k' i', (k' <> k \/ i' <> i) -> byte_at m' k' i' = byte_at m k' i') /\
  exists old new, byte_at m k i = Some old /\ byte_at m' k i = Some new /\
    Z.testbit (b2z new) j = v /\ forall j', j' <> j -> Z.testbit (b2z new) j' = Z.testbit (b2z old) j'.

(** The bit operations of [writeItem] on a byte. *)
Definition set_bit (old : byte) (j : Z) (v : bool) : byte :=
  let mask := Z.shiftl 1 j mod 256 in
  if v then z2b (Z.lor (b2z old) mask) else z2b (Z.ldiff (b2z old) mask).

Lemma byte_mask_range old j :
  0 <= j < 8 ->
  0 <= Z.lor (b2z old) (Z.shiftl 1 j mod 256) < 256 /\ 0 <= Z.ldiff (b2z old) (Z.shiftl 1 j mod 256) < 256.
Proof.
  intros Hj. assert (Hall : forall j b, In j [0;1;2;3;4;5;6;7] ->
    (0 <=? Z.lor (b2z b) (Z.shiftl 1 j mod 256)) && (Z.lor (b2z b) (Z.shiftl 1 j mod 256) <? 256) &&
    (0 <=? Z.ldiff (b2z b) (Z.shiftl 1 j mod 256)) && (Z.ldiff (b2z b) (Z.shiftl 1 j mod 256) <? 256) = true).
  { intros j' b H. repeat (destruct H as [<-|H]; [destruct b; reflexivity|]). destruct H. }
  assert (Hin : In j [0;1;2;3;4;5;6;7]) by (simpl; lia). specialize (Hall j old Hin). b2p. lia.
Qed.

Lemma testbit_mask j j' : 0 <= j < 8 -> 0 <= j' -> Z.testbit (Z.shiftl 1 j mod 256) j' = (j =? j').
Proof.
  intros. change 256 with (2 ^ 8). rewrite Z.shiftl_1_l, Z.mod_small.
  - by rewrite Z.pow2_bits_eqb by lia.
  - split; [lia|]. apply Z.pow_lt_mono_r; lia.
Qed.

Lemma set_bit_testbit old j v j' :
  0 <= j < 8 -> Z.testbit (b2z (set_bit old j v)) j' = if j' =? j then v else Z.testbit (b2z old) j'.
Proof.
  intros Hj. destruct (Z.ltb_spec j' 0).
  { rewrite !Z.testbit_neg_r by lia. by if_arith. }
  unfold set_bit. destruct (byte_mask_range old j Hj) as [H1 H2].
  destruct v; rewrite b2z_z2b_small by done.
  - rewrite Z.lor_spec, testbit_mask by lia. destruct (Z.eqb_spec j' j).
    + subst. rewrite Z.eqb_refl. apply orb_true_r.
    + rewrite (proj2 (Z.eqb_neq j j')) by lia. apply orb_false_r.
  - rewrite Z.ldiff_spec, testbit_mask by lia. destruct (Z.eqb_spec j' j).
    + subst. rewrite Z.eqb_refl. apply andb_false_r.
    + rewrite (proj2 (Z.eqb_neq j j')) by lia. apply andb_true_r.
Qed.

Lemma bit_written_insert m k r i old j v :
  m !! k = Some r -> data r !! i = Some old -> 0 <= j < 8 ->
  bit_written m (<[k := mkRegion (<[i := set_bit old j v]> (data r)) (readOnly r)]> m) k i j v.
Proof.
  intros Hr Ho Hj. pose proof (lookup_lt_Some _ _ _ Ho) as Hi. split_and!.
  - apply shape_insert with r; simpl; [done | apply length_insert | done].
  - intros k' i' Hne. unfold byte_at. destruct (decide (k' = k)) as [->|Hk].
    + rewrite lookup_insert_eq, Hr. simpl. apply list_lookup_insert_ne. destruct Hne; congruence.
    + by rewrite lookup_insert_ne.
  - exists old, (set_bit old j v). unfold byte_at. rewrite lookup_insert_eq, Hr. simpl.
    rewrite list_lookup_insert_eq by done. split_and!; try done.
    + by rewrite set_bit_testbit, Z.eqb_refl.
    + intros j' Hne. rewrite set_bit_testbit by done. by rewrite (proj2 (Z.eqb_neq j' j)).
Qed.

(** The effect of a successful write of an item. *)
Definition item_written (m m' : memory) (t : target) (item : WriteVarData) : Prop :=
  target_ok m t /\ len (WData item) = size t /\
  readOnly (reg t) = false /\ timerOrCounter (tarea t) = false /\
  if isBit t then
    exists v, WData item = [v] /\
      bit_written m m' (regKey t) (Z.to_nat (start t)) (bit t) (Z.testbit (b2z v) 0)
  else overwritten m m' (regKey t) (start t) (WData item).

Lemma land_1_testbit v : negb (Z.land v 1 =? 0) = Z.testbit v 0.
Proof.
  change 1 with (Z.ones 1). rewrite Z.land_ones by lia. change (2 ^ 1) with 2.
  rewrite Z.bit0_odd. pose proof (Zmod_odd v). destruct (Z.odd v); by rewrite H.
Qed.

(** A Write Var item either is refused and changes nothing, or writes exactly
    its span (or its bit) of an area clients may write. *)
Lemma writeItem_spec m spec item :
  spec_ok spec ->
  exists m' code, writeItem m spec item = Ok (m', code) /\
    ((code <> RetCodeSuccess /\ m' = m) \/
     (code = RetCodeSuccess /\ exists t, resolve m spec = (Some t, RetCodeSuccess) /\ item_written m m' t item)).
Proof.
  intros Hs. unfold writeItem.
  destruct (resolve_cases m spec Hs) as [(t & -> & Ht)|(code & -> & Hc)].
  2: { rewrite (beq_ne _ _ Hc). simpl. exists m, code. auto. }
  simpl (_ ≠b _). cbv iota.
  case_if; [exists m, RetCodeDataSizeFault; auto|].
  case_if; [exists m, RetCodeAccessFault; auto|]. b2p.
  pose proof Ht as (Hr & _ & Hz0 & Hz1 & Hz2 & Hb & _ & Hsz).
  destruct (isBit t) eqn:Eb.
  - specialize (Hsz eq_refl).
    destruct (WData item) as [|v [|? ?]] eqn:Ew; simpl length in *; [lia| |lia].
    destruct (idx_ok (data (reg t)) (start t)) as [old Hold]; [lia|].
    rewrite Hold. simpl. eexists _, _. split; [done|]. right. split; [done|].
    exists t. split; [done|]. split_and!; [done | rewrite Ew; simpl; lia | done | done |].
    rewrite Eb. exists v. split; [done|]. apply idx_lookup in Hold as [_ Hold].
    rewrite land_1_testbit. by apply bit_written_insert.
  - destruct (overwrite_ok m (regKey t) (reg t) (start t) (WData item)) as (d & Hd & Ho); [done..|lia|].
    rewrite Hd. simpl. eexists _, _. split; [done|]. right. split; [done|].
    exists t. split; [done|]. split_and!; try done. by rewrite Eb.
Qed.

(** Areas no client may change. *)
Definition protected (k : areaKey) (r : region) : Prop :=
  readOnly r = true \/ timerOrCounter (area k) = true.

(** Memory changes a client can cause: the shape stays, protected areas keep
    their contents. *)
Definition client_step (m m' : memory) : Prop :=
  shape m' = shape m /\ forall k r, m !! k = Some r -> protected k r -> m' !! k = Some r.

Lemma byte_at_ext m m' k r :
  shape m' = shape m -> m !! k = Some r -> (forall i, byte_at m' k i = byte_at m k i) ->
  m' !! k = Some r.
Proof.
  intros Hs Hr Hb. destruct (shape_lookup _ _ _ _ Hs Hr) as (r' & Hr' & _ & Hro). rewrite Hr'. f_equal.
  destruct r as [d ro], r' as [d' ro']. simpl in *. subst ro'. f_equal.
  apply list_eq. intros i. specialize (Hb i). unfold byte_at in Hb. by rewrite Hr, Hr' in Hb.
Qed.

#[export] Instance client_step_refl : Reflexive client_step.
Proof. by intros m. Qed.

#[export] Instance client_step_trans : Transitive client_step.
Proof.
  intros m1 m2 m3 [H1 P1] [H2 P2]. split; [congruence|]. intros k r Hr Hp.
  apply P2; [by apply P1 | done].
Qed.

Lemma item_written_step m m' t item : item_written m m' t item -> client_step m m'.
Proof.
  intros (Ht & _ & Hro & Htc & H). destruct Ht as (Hr & Ha & _).
  assert (Hne : forall k r, m !! k = Some r -> protected k r -> k <> regKey t).
  { intros k r Hk Hp ->. rewrite Hr in Hk. injection Hk as <-. rewrite Ha in Htc.
    destruct Hp; congruence. }
  destruct (isBit t).
  - destruct H as (v & _ & Hs & Hb & _). split; [done|]. intros k r Hk Hp.
    apply (byte_at_ext m); [done..|]. intros i. apply Hb. left. by eapply Hne.
  - destruct H as (Hs & _ & Hb). split; [done|]. intros k r Hk Hp.
    apply (byte_at_ext m); [done..|]. intros i. apply Hb. left. by eapply Hne.
Qed.

Lemma writeLoop_spec m specs items pre :
  Forall spec_ok specs -> length items = length specs ->
  exists m' codes, writeLoop m specs (pre ++ items) (len pre) = Ok (m', codes) /\
    length codes = length specs /\ client_step m m'.
Proof.
  revert m items pre. induction specs as [|spec specs IH]; intros m items pre HF Hl.
  { exists m, []. split_and!; try done. }
  destruct items as [|item items]; [done|]. apply Forall_cons in HF as [Hs HF].
  cbn [writeLoop].
  assert (Hi : idx (pre ++ item :: items) (len pre) = Ok item)
    by (replace (len pre) with (len pre + 0) by lia; by rewrite idx_app_off).
  rewrite Hi, bind_Ok. destruct (writeItem_spec m spec item Hs) as (m1 & code & -> & Hw).
  rewrite bind_Ok. destruct (IH m1 items (pre ++ [item]) HF) as (m2 & codes & Hloop & Hlen & Hst).
  { simpl in Hl. congruence. }
  rewrite <- app_assoc in Hloop. simpl in Hloop. rewrite length_app in Hloop. simpl length in Hloop.
  replace (Z.of_nat (length pre + 1)) with (len pre + 1) in Hloop by lia.
  rewrite Hloop, bind_Ok. exists m2, (code :: codes). split_and!; [done | simpl; congruence |].
  transitivity m1; [|done]. destruct Hw as [[_ ->] | (_ & t & _ & Hw)]; [done|].
  by eapply item_written_step.
Qed.

(** [write] answers every decoded job with one code per item and only takes
    client steps in memory. *)
Lemma write_spec s ref param dat specs items :
  session_ok s -> ParseWriteVarRequest param dat = Ok (specs, items) ->
  exists m' codes, writeLoop (regions s) specs items 0 = Ok (m', codes) /\
    len codes = len specs /\ client_step (regions s) m' /\
    write s ref param dat =
      (mkSession (cfgMaxPDUSize s) m' (pduSize s),
       Ok (s7Header ROSCTRAckData ref 2 (len codes) ++ [x00; x00] ++
           [FuncWriteVar; z2b (len codes)] ++ codes)).
Proof.
  intros Hok H. pose proof (ParseWriteVarRequest_inv _ _ _ _ H) as [Hspecs Hl].
  pose proof (parseVarSpecs_count _ _ _ Hspecs) as Hn.
  destruct (writeLoop_spec (regions s) specs items [] (specs_ok _ _ _ Hspecs) Hl)
    as (m' & codes & Hloop & Hlen & Hst). simpl app in Hloop. change (len []) with 0 in Hloop.
  exists m', codes. split_and!; try done; [lia|]. unfold write. rewrite H, Hloop.
  by rewrite EncodeWriteVarResponse_ok by lia.
Qed.

(** ** The handler *)

(** A PDU with a plain header whose lengths are those of its sections. *)
Definition framed (rosctr r0 r1 : byte) (ref : Z) (param dat : bytes) : bytes :=
  [x32; rosctr; r0; r1] ++ put16 ref ++ put16 (len param) ++ put16 (len dat) ++ param ++ dat.

Definition well_framed (req : bytes) (rosctr : byte) (ref : Z) (param dat : bytes) : Prop :=
  is_u16 ref /\ len param <= MaxUint16 /\ len dat <= MaxUint16 /\
  exists r0 r1, req = framed rosctr r0 r1 ref param dat.

(** What [handle] does once the header is read. *)
Definition dispatch (s : session) (rosctr : byte) (ref : Z) (param dat : bytes)
  : res (session * option bytes * bool) :=
  if IsUserdata rosctr then answered s (userdataNotImplemented ref param) else
  if negb (IsJob rosctr) || (len param =? 0) then answered s (notImplemented ref param) else
  fn ← idx param 0;
  let finish (o : session * res bytes) :=
    match o with
    | (s, Ok out) => mret (s, Some out, true)
    | (s, Err _) => answered s (notImplemented ref param)
    | (_, Panic) => Panic
    end in
  if fn =b FuncSetupComm then finish (setup s ref param)
  else if fn =b FuncReadVar then finish (s, read s ref param)
  else if fn =b FuncWriteVar then finish (write s ref param dat)
  else answered s (notImplemented ref param).

Lemma handle_framed s req rosctr ref param dat :
  well_framed req rosctr ref param dat -> handle s req = dispatch s rosctr ref param dat.
Proof.
  intros (Href & Hp & Hd & r0 & r1 & ->). unfold handle, S7HeaderSize, MaxUint16, is_u16 in *.
  set (req := framed _ _ _ _ _ _).
  assert (Hl : len req = 10 + len param + len dat).
  { unfold req, framed. rewrite !length_app, !length_put16. simpl length. lia. }
  rewrite Hl. if_arith. change (idx req 0) with (Ok x32). change (idx req 1) with (Ok rosctr).
  assert (H4 : (slice req 4 6 ≫= Uint16) = Ok ref /\ (slice req 6 8 ≫= Uint16) = Ok (len param) /\
               (slice req 8 10 ≫= Uint16) = Ok (len dat)).
  { rewrite !slice_Uint16 by lia. unfold req, framed, put16. simpl.
    by rewrite !be16_put16, !Z.mod_small by lia. }
  destruct H4 as (-> & -> & ->). rewrite !bind_Ok. simpl (_ ≠b _). cbv iota. if_arith.
  pose (h := [x32; rosctr; r0; r1] ++ put16 ref ++ put16 (len param) ++ put16 (len dat)).
  assert (Hreq : req = h ++ param ++ dat) by done.
  rewrite Hreq. rewrite (slice_app_mid h param dat) by done. rewrite bind_Ok.
  rewrite (app_assoc h param dat).
  rewrite slice_from_app by (rewrite length_app; unfold h; simpl length; lia). done.
Qed.

(** Every other input drops the connection without an answer. *)
Lemma handle_cases s req :
  (exists rosctr ref param dat, well_framed req rosctr ref param dat) \/
  handle s req = Ok (s, None, false).
Proof.
  destruct (Z.ltb_spec (len req) 10) as [Hs|Hs].
  { right. unfold handle, S7HeaderSize. by if_arith. }
  do 10 (destruct req as [|? req]; [simpl length in *; lia|]).
  unfold handle. rewrite !slice_Uint16 by lia. unfold S7HeaderSize.
  simpl idx. simpl. if_arith. case_if; b2p; [by right | subst].
  case_if; [by right|]. left.
  pose proof (be16_range b5 b6) as R1. pose proof (be16_range b7 b8) as R2. unfold is_u16 in *. b2p.
  pose (n := Z.to_nat (be16 b5 b6)). exists b0, (be16 b3 b4), (take n req), (drop n req).
  assert (Hlp : len (take n req) = be16 b5 b6) by (rewrite length_take; lia).
  assert (Hld : len (drop n req) = be16 b7 b8) by (rewrite length_drop; lia).
  unfold well_framed, MaxUint16, is_u16. split_and!; [apply be16_range.. | lia | lia |].
  exists b1, b2. unfold framed. rewrite Hlp, Hld, take_drop, !put16_be16. done.
Qed.

(** An answer a client can attribute to its request. *)
Definition answers (ref : Z) (a : bytes) : Prop :=
  exists h rest, ParseS7Header a = Ok (h, rest) /\ PDURef h = ref /\
    (ROSCTR h = ROSCTRAckData \/ ROSCTR h = ROSCTRUserdata).

Lemma EncodeAckData_answers ref c k param dat a :
  is_u16 ref -> EncodeAckData ref c k param dat = Ok a -> answers ref a.
Proof.
  intros Hr H. apply ParseS7Header_EncodeAckData in H as [H _]; [|done].
  eexists _, _. split; [exact H|]. simpl. auto.
Qed.

Lemma notImplemented_ok ref param :
  exists fn, notImplemented ref param =
    Ok (Some (s7Header ROSCTRAckData ref (len fn) 0 ++ [errClassApp; errCodeNotImpl] ++ fn)) /\
    len fn <= 1 /\ fn = take 1 param.
Proof.
  exists (take 1 param). unfold notImplemented.
  destruct param as [|p param]; [split_and!; simpl; [done | lia | done]|].
  simpl length. if_arith. rewrite (slice_to_app [p] param) by done. rewrite bind_Ok.
  rewrite EncodeAckData_ok by (unfold MaxUint16; simpl; lia).
  split_and!; simpl; [done | lia | done].
Qed.

Lemma notImplemented_answers ref param :
  is_u16 ref -> exists a, notImplemented ref param = Ok (Some a) /\ answers ref a.
Proof.
  intros Hr. destruct (notImplemented_ok ref param) as (fn & -> & Hf & _). eexists. split; [done|].
  eapply (EncodeAckData_answers _ errClassApp errCodeNotImpl fn []); [done|].
  rewrite EncodeAckData_ok by (unfold MaxUint16; simpl; lia). by rewrite app_nil_r.
Qed.

Lemma userdataNotImplemented_answers ref param :
  is_u16 ref -> exists a, userdataNotImplemented ref param = Ok (Some a) /\ answers ref a.
Proof.
  intros Hr. unfold userdataNotImplemented. case_if; [by apply notImplemented_answers|]. b2p.
  do 8 (destruct param as [|? param]; [simpl length in *; lia|]). simpl idx. simpl.
  case_if; [by apply notImplemented_answers|].
  eexists. split; [done|]. set (r := [_; _; _; _; _; _; _; _; _; _; _; _; _; _; _; _]).
  exists (mkS7Header x32 ROSCTRUserdata 0 ref 12 4 x00 x00), r. split_and!; [|done | by right].
  apply (ParseS7Header_plain ROSCTRUserdata ref 12 4 r); unfold is_u16; simpl; lia || done.
Qed.

Lemma setup_ok s ref param req :
  session_ok s -> ParseSetupCommRequest param = Ok req -> is_u16 (ReqPDUSize req) ->
  exists s' a, setup s ref param = (s', Ok a) /\ session_ok s' /\
    regions s' = regions s /\ cfgMaxPDUSize s' = cfgMaxPDUSize s /\
    pduSize s' = Z.min (ReqPDUSize req) (cfgMaxPDUSize s) /\
    exists calling called, 1 <= calling <= 2 /\ 1 <= called <= 2 /\
      calling = Z.max 1 (Z.min (ReqMaxAmqCalling req) maxAmQ) /\
      called = Z.max 1 (Z.min (ReqMaxAmqCalled req) maxAmQ) /\
      EncodeAckData ref x00 x00
        ([FuncSetupComm; x00] ++ put16 calling ++ put16 called ++ put16 (pduSize s')) [] = Ok a.
Proof.
  intros (Hm & Hp & Hc) Hreq Hsz. unfold setup. rewrite Hreq. unfold maxAmQ, is_u16 in *.
  set (calling := Z.max 1 (Z.min (ReqMaxAmqCalling req) 2)).
  set (called := Z.max 1 (Z.min (ReqMaxAmqCalled req) 2)).
  unfold EncodeSetupCommResponse. rewrite !checkedUint16_ok by (unfold is_u16; lia). rewrite !bind_Ok.
  rewrite EncodeAckData_ok by (unfold MaxUint16; simpl; lia).
  eexists _, _. split; [done|]. split_and!; simpl; try done; try lia.
  - unfold session_ok. simpl. split_and!; [done | lia..].
  - exists calling, called. split_and!; try done; try lia.
Qed.

Lemma ParseSetupCommRequest_range param req :
  ParseSetupCommRequest param = Ok req ->
  is_u16 (ReqMaxAmqCalling req) /\ is_u16 (ReqMaxAmqCalled req) /\ is_u16 (ReqPDUSize req).
Proof.
  unfold ParseSetupCommRequest. case_if; [done|]. intros H.
  apply bind_Ok_inv in H as (b0 & _ & H). case_if_in H; [done|].
  apply bind_Ok_inv in H as (a & Ha%slice_Uint16_range & H).
  apply bind_Ok_inv in H as (b & Hb%slice_Uint16_range & H).
  apply bind_Ok_inv in H as (c & Hc%slice_Uint16_range & [= <-]). done.
Qed.

Lemma read_answers s ref param :
  session_ok s -> is_u16 ref ->
  (exists a, read s ref param = Ok a /\ answers ref a) \/ (exists e, read s ref param = Err e).
Proof.
  intros Hs Hr. destruct (ParseReadVarRequest param) as [specs|e|] eqn:E.
  - destruct (read_spec s ref param specs Hs E) as (rss & results & _ & _ & _ & Hlen & Hread & _).
    pose proof (parseVarSpecs_count _ _ _ E) as Hn. destruct Hs as (_ & Hp & Hc). left.
    rewrite Hread. change (AckDataHeaderSize + 2) with 14 in *. case_if; b2p.
    + eexists. split.
      * apply EncodeReadVarResponse_ok; unfold MaxUint16; lia.
      * apply (EncodeAckData_answers _ x00 x00 [FuncReadVar; z2b (len results)] (readVarData results)); [done|].
        by rewrite EncodeAckData_ok by (unfold MaxUint16; simpl length; lia).
    + destruct (parseVarSpecs_cons _ _ _ E) as (rest & ->). rewrite (frameError_ok _ _ _ _ eq_refl).
      eexists. split; [done|]. eapply (EncodeAckData_answers _ errClassSupplies errCodeFrames [FuncReadVar] []);
        [done|]. by rewrite EncodeAckData_ok by (unfold MaxUint16; simpl; lia).
  - right. exists e. unfold read. by rewrite E.
  - exfalso. by apply (no_panic_parseVarSpecs param FuncReadVar).
Qed.

(** The state after a PDU, whatever it was. *)
Definition session_step (s s' : session) : Prop :=
  session_ok s' /\ cfgMaxPDUSize s' = cfgMaxPDUSize s /\ client_step (regions s) (regions s').

Lemma session_step_refl s : session_ok s -> session_step s s.
Proof. intros. by split_and!. Qed.
#[export] Hint Resolve session_step_refl : go.

Lemma answered_ok s s' ref m :
  session_step s s' -> (exists a, m = Ok (Some a) /\ answers ref a) ->
  exists s' a, answered s' m = Ok (s', Some a, true) /\ session_step s s' /\ answers ref a.
Proof. intros Hs (a & -> & Ha). by exists s', a. Qed.

Lemma write_answers s ref param dat :
  session_ok s -> is_u16 ref ->
  (exists s' a, write s ref param dat = (s', Ok a) /\ session_step s s' /\ answers ref a) \/
  (exists e, write s ref param dat = (s, Err e)).
Proof.
  intros Hs Hr. destruct (ParseWriteVarRequest param dat) as [[specs items]|e|] eqn:E.
  - destruct (write_spec s ref param dat specs items Hs E) as (m' & codes & _ & Hlen & Hst & ->).
    pose proof (ParseWriteVarRequest_inv _ _ _ _ E) as [Hp _]. apply parseVarSpecs_count in Hp.
    left. eexists _, _. split; [done|]. split.
    + destruct Hs as (Hm & ? & ?). split; [|done]. split; [|done].
      by eapply memory_ok_shape; [apply Hst|].
    + apply (EncodeAckData_answers _ x00 x00 [FuncWriteVar; z2b (len codes)] codes); [done|].
      by rewrite EncodeAckData_ok by (unfold MaxUint16; simpl length; lia).
  - right. exists e. unfold write. by rewrite E.
  - exfalso. by apply (ParseWriteVarRequest_no_panic param dat).
Qed.

Lemma dispatch_ok s rosctr ref param dat :
  session_ok s -> is_u16 ref ->
  exists s' a, dispatch s rosctr ref param dat = Ok (s', Some a, true) /\
    session_step s s' /\ answers ref a.
Proof.
  intros Hs Hr. unfold dispatch.
  assert (Hni : exists s' a, answered s (notImplemented ref param) = Ok (s', Some a, true) /\
            session_step s s' /\ answers ref a).
  { destruct (notImplemented_answers ref param Hr) as (a & -> & Ha). exists s, a. auto with go. }
  case_if.
  { destruct (userdataNotImplemented_answers ref param Hr) as (a & -> & Ha). exists s, a. auto with go. }
  case_if; [done|]. b2p. destruct param as [|fn param]; [done|]. simpl idx. simpl.
  set (p := fn :: param) in *.
  case_if.
  { destruct (ParseSetupCommRequest p) as [req|e|] eqn:E.
    - pose proof (ParseSetupCommRequest_range _ _ E) as (_ & _ & Hsz).
      destruct (setup_ok s ref p req Hs E Hsz) as (s' & a & -> & Hs' & Hm & Hc & _ & ? & ? & _ & _ & _ & _ & Ha).
      exists s', a. split; [done|]. split; [split_and!; [done..|by rewrite Hm]|].
      by eapply EncodeAckData_answers.
    - unfold setup. by rewrite E.
    - exfalso. by apply (ParseSetupCommRequest_no_panic p). }
  case_if.
  { destruct (read_answers s ref p Hs Hr) as [(a & -> & Ha) | (e & ->)]; [|done].
    exists s, a. auto with go. }
  case_if; [|done].
  destruct (write_answers s ref p dat Hs Hr) as [(s' & a & -> & Hst & Ha) | (e & ->)]; [|done].
  by exists s', a.
Qed.
