(* ===== verification/Server.v ===== *)
(** * Server configuration and the connection loop (server/server.go)

    [Config] with its defaults, [New], and the request loop of [serveConn]
    over the TSDUs a peer sends, with the host-side operations that change
    the shared memory between them. *)

From S2P Require Import Prelude Go WireErrors Header ReadWrite ServerCodec Memory Session.

(** ** Configuration *)

Definition MinPDUSize : Z := 240.
Definition MaxPDUSize : Z := 4096.
Definition DefaultPDUSize : Z := 480.
Definition DefaultMaxConns : Z := 32.
(** Nanoseconds of [5 * time.Second]. *)
Definition DefaultHandshake : Z := 5000000000.
Definition defaultMaxTPDULen : Z := 1024.

(** The logger is left out. *)
Record Config := mkConfig {
  MaxPDU : Z;
  MaxConnections : Z;
  HandshakeTimeout : Z;
  IdleTimeout : Z;
}.

Definition withDefaults (c : Config) : res Config :=
  let pdu := if MaxPDU c =? 0 then DefaultPDUSize else MaxPDU c in
  if (pdu <? MinPDUSize) || (pdu >? MaxPDUSize) then
    Err (Plain ("s7 server: MaxPDUSize " +:+ dec pdu +:+ " not in " +:+ dec MinPDUSize +:+ ".." +:+ dec MaxPDUSize))
  else
  let conns := if MaxConnections c =? 0 then DefaultMaxConns else MaxConnections c in
  if conns <? 0 then
    Err (Plain ("s7 server: MaxConnections " +:+ dec conns +:+ " is negative"))
  else
  let handshake := if HandshakeTimeout c =? 0 then DefaultHandshake else HandshakeTimeout c in
  if (handshake <? 0) || (IdleTimeout c <? 0) then Err (Plain "s7 server: negative timeout")
  else mret (mkConfig pdu conns handshake (IdleTimeout c)).

(** The parts of [Server] the requests depend on. *)
Record Server := mkServer { cfg : Config; mem : memory }.

Definition server_New (c : Config) : res Server :=
  c ← withDefaults c;
  mret (mkServer c newMemory).

(** [sess := &session{srv: s, pduSize: s.cfg.MaxPDUSize}] *)
Definition new_session (s : Server) : session := mkSession (MaxPDU (cfg s)) (mem s) (MaxPDU (cfg s)).

(** ** The request loop *)

(** The context under which the next TSDU is read: how long it may take to
    arrive, if there is a limit. *)
Definition requestContext (c : Config) : option Z := if IdleTimeout c >? 0 then Some (IdleTimeout c) else None.

(** What happens to the connection: another TSDU arrives, and the answer can
    be written or not; the read fails (the peer leaves, the context ends, the
    server closes); or the host changes the memory between two requests. *)
Inductive event :=
  | Request (req : bytes)
  | RequestLost (req : bytes)
  | ReadFails
  | HostWrite (a : byte) (n start : Z) (src : bytes)
  | HostRegister (a : byte) (n : Z) (init : bytes) (opts : AreaOptions).

(** A host-side call on the memory the sessions share; its error goes to the
    host. *)
Definition host_step (s : session) (r : res memory) : session :=
  match r with
  | Ok m => mkSession (cfgMaxPDUSize s) m (pduSize s)
  | _ => s
  end.

(** The loop of [serveConn]: the answers written, in order, and the session
    at the end.  A failed read, a failed write and a TSDU that cannot be
    answered end the loop. *)
Fixpoint serveConn (s : session) (events : list event) : res (session * list bytes) :=
  match events with
  | [] | ReadFails :: _ => mret (s, [])
  | HostWrite a n start src :: events => serveConn (host_step s (mem_write (regions s) a n start src)) events
  | HostRegister a n init opts :: events => serveConn (host_step s (register (regions s) a n init opts)) events
  | Request req :: events =>
      '(s, out, keep) ← handle s req;
      if negb (keep : bool) then mret (s, [])
      else
      '(s', outs) ← serveConn s events;
      mret (s', match out with None => outs | Some a => a :: outs end)
  | RequestLost req :: events =>
      '(s, out, keep) ← handle s req;
      if negb (keep : bool) then mret (s, [])
      else match out with None => serveConn s events | Some _ => mret (s, []) end
  end.

(** [serveConn] from the COTP handshake on: [accepted] says whether
    [cotp.Accept], which gets [HandshakeTimeout], succeeds. *)
Definition serveConnection (s : Server) (accepted : bool) (events : list event) : res (memory * list bytes) :=
  if accepted then '(s', outs) ← serveConn (new_session s) events; mret (regions s', outs) else mret (mem s, []).

(** ** Lemmas *)

Lemma withDefaults_ok c c' :
  withDefaults c = Ok c' ->
  MinPDUSize <= MaxPDU c' <= MaxPDUSize /\ 0 < MaxConnections c' /\
  0 < HandshakeTimeout c' /\ 0 <= IdleTimeout c' /\
  (MaxPDU c <> 0 -> MaxPDU c' = MaxPDU c).
Proof.
  unfold withDefaults, MinPDUSize, MaxPDUSize, DefaultPDUSize, DefaultMaxConns, DefaultHandshake.
  repeat (case_if; try done; []). intros [= <-]. simpl. repeat case_if; b2p; lia.
Qed.

Lemma newMemory_ok : memory_ok newMemory.
Proof. apply map_Forall_empty. Qed.

Lemma server_New_ok c s : server_New c = Ok s -> withDefaults c = Ok (cfg s) /\ memory_ok (mem s).
Proof. unfold server_New. intros H. apply bind_Ok_inv in H as (c' & Hc & [= <-]). split; [done | apply newMemory_ok]. Qed.

Lemma new_session_ok c s : withDefaults c = Ok (cfg s) -> memory_ok (mem s) -> session_ok (new_session s).
Proof.
  intros Hc Hm. apply withDefaults_ok in Hc as (Hp & _). unfold MinPDUSize, MaxPDUSize in Hp. split; [done|]. simpl. lia.
Qed.

Lemma host_step_ok s r :
  session_ok s -> (forall m, r = Ok m -> memory_ok m) -> session_ok (host_step s r).
Proof. intros (Hm & Hp) Hr. destruct r as [m| |]; simpl; [|done..]. split; [by apply Hr | done]. Qed.

Lemma handle_step s req :
  session_ok s ->
  (handle s req = Ok (s, None, false)) \/
  (exists rosctr ref param dat s' a, well_framed req rosctr ref param dat /\
     handle s req = Ok (s', Some a, true) /\ session_step s s' /\ answers ref a).
Proof.
  intros Hs. destruct (handle_cases s req) as [(rosctr & ref & param & dat & Hf) | ?]; [|by left].
  right. destruct (dispatch_ok s rosctr ref param dat Hs) as (s' & a & Hd & Hst & Ha); [apply Hf|].
  exists rosctr, ref, param, dat, s', a. by rewrite (handle_framed _ _ _ _ _ _ Hf).
Qed.

Definition framed (req : bytes) : Prop := exists rosctr ref param dat, well_framed req rosctr ref param dat.

(** The answers a peer gets, told from what it sends: every well-framed request
    up to the end of the connection gets one answer, with its reference, in
    order.  The end is a TSDU that is not framed, a failed read, or an answer
    that cannot be written. *)
Inductive attributed : list event -> list bytes -> Prop :=
  | attributed_done : attributed [] []
  | attributed_fails events : attributed (ReadFails :: events) []
  | attributed_lost req events : attributed (RequestLost req :: events) []
  | attributed_unframed req events : ~ framed req -> attributed (Request req :: events) []
  | attributed_answer req rosctr ref param dat a events outs :
      well_framed req rosctr ref param dat -> answers ref a -> attributed events outs ->
      attributed (Request req :: events) (a :: outs)
  | attributed_write a n start src events outs : attributed events outs -> attributed (HostWrite a n start src :: events) outs
  | attributed_register a n init opts events outs :
      attributed events outs -> attributed (HostRegister a n init opts :: events) outs.

(** A TSDU that is not answered is not framed. *)
Lemma handle_unframed s req : session_ok s -> handle s req = Ok (s, None, false) -> ~ framed req.
Proof.
  intros Hs H (rosctr & ref & param & dat & Hf). rewrite (handle_framed _ _ _ _ _ _ Hf) in H.
  destruct (dispatch_ok s rosctr ref param dat Hs) as (s' & a & Hd & _); [apply Hf|]. by rewrite Hd in H.
Qed.

(** Whatever arrives and whatever the host does meanwhile, the loop does not
    panic, keeps the invariant, and answers the requests. *)
Lemma serveConn_ok s events :
  session_ok s -> exists s' outs, serveConn s events = Ok (s', outs) /\ session_ok s' /\
    cfgMaxPDUSize s' = cfgMaxPDUSize s /\ attributed events outs.
Proof.
  revert s. induction events as [|[req|req| |a n st src|a n init opts] events IH]; intros s Hs; cbn [serveConn].
  - exists s, []. split_and!; [done..|constructor].
  - destruct (handle_step s req Hs) as [E | (ros & ref & p & d & s1 & a & Hf & -> & (Hs1 & Hc1 & _) & Ha)].
    + rewrite E, bind_Ok. exists s, []. split_and!; [done..|]. constructor. by eapply handle_unframed.
    + rewrite bind_Ok. cbn [negb]. cbv iota. destruct (IH s1 Hs1) as (s' & outs & -> & Hs' & Hc' & HF).
      exists s', (a :: outs). split; [done|]. split; [done|]. split; [congruence|]. by econstructor.
  - destruct (handle_step s req Hs) as [-> | (ros & ref & p & d & s1 & a & Hf & -> & (Hs1 & Hc1 & _) & Ha)];
      rewrite bind_Ok; [exists s, [] | exists s1, []]; (split_and!; [done..|constructor]).
  - exists s, []. split_and!; [done..|constructor].
  - destruct (IH (host_step s (mem_write (regions s) a n st src))) as (s' & outs & -> & Hs' & Hc & HF).
    + apply host_step_ok; [done|]. intros m Hm. eapply mem_write_spec in Hm as (? & _ & _ & ?); [done|apply Hs].
    + exists s', outs. split; [done|]. split; [done|]. split; [|by constructor]. rewrite Hc. by destruct (mem_write _ _ _ _ _).
  - destruct (IH (host_step s (register (regions s) a n init opts))) as (s' & outs & -> & Hs' & Hc & HF).
    + apply host_step_ok; [done|]. intros m Hm. eapply register_spec in Hm as (? & _); [done|apply Hs].
    + exists s', outs. split; [done|]. split; [done|]. split; [|by constructor]. rewrite Hc. by destruct (register _ _ _ _ _).
Qed.
