(* ===== verification/Lifecycle.v ===== *)
(** * Listeners, connections and shutdown of the server (server/server.go)

    [Serve], the goroutine of each connection and [Close] as threads that
    interleave over the shared fields of [Server].  A step is one action on
    the shared state: a call under the mutex, a channel operation on the
    slots, or a change of the wait group.  Sockets are identified by
    numbers; a socket closed twice stays closed. *)

From S2P Require Import Prelude Go WireErrors Header ReadWrite ServerCodec Memory Session Server.

(** ** State *)

(** Where the accept loop of a listener is: in [Accept], on its way with an
    accepted connection, or returned. *)
Inductive loop_pc :=
  | Accepting
  | Handling (raw : Z)
  | Returned.

(** The way of an accepted connection: accepted; in a slot; added to [conns];
    served by its goroutine; removed from [conns]; its slot given back; its
    goroutine over or the connection refused. *)
Inductive stage :=
  | Accepted | Slotted | Added | Serving | Removed | Released | Over.

Record lifecycle := mkLifecycle {
  l_listeners : gset Z;        (* s.listeners *)
  l_conns : gset Z;            (* s.conns *)
  l_closed : bool;             (* s.closed *)
  l_wg : Z;                    (* s.wg *)
  l_slots : Z;                 (* len(s.slots) *)
  l_loops : gmap Z loop_pc;    (* the calls of Serve, by listener *)
  l_raws : gmap Z stage;       (* the accepted connections *)
  l_open_lns : gset Z;         (* listeners not closed yet *)
  l_open : gset Z;             (* connections not closed yet *)
  l_closers : gmap Z bool;     (* the calls of Close: whether they returned *)
}.

Definition initial : lifecycle := mkLifecycle ∅ ∅ false 0 0 ∅ ∅ ∅ ∅ ∅.

(** ** Operations under the mutex *)

(** [track]; false when the server is closed. *)
Definition track (s : lifecycle) (ln : Z) : lifecycle * bool :=
  if l_closed s then (s, false)
  else (mkLifecycle (l_listeners s ∪ {[ln]}) (l_conns s) (l_closed s) (l_wg s) (l_slots s) (l_loops s)
          (l_raws s) (l_open_lns s) (l_open s) (l_closers s), true).

(** [untrack], which closes the listener too. *)
Definition untrack (s : lifecycle) (ln : Z) : lifecycle :=
  mkLifecycle (l_listeners s ∖ {[ln]}) (l_conns s) (l_closed s) (l_wg s) (l_slots s) (l_loops s)
    (l_raws s) (l_open_lns s ∖ {[ln]}) (l_open s) (l_closers s).

(** [addConn]; false when the server is closed. *)
Definition addConn (s : lifecycle) (c : Z) : lifecycle * bool :=
  if l_closed s then (s, false)
  else (mkLifecycle (l_listeners s) (l_conns s ∪ {[c]}) (l_closed s) (l_wg s) (l_slots s) (l_loops s)
          (l_raws s) (l_open_lns s) (l_open s) (l_closers s), true).

(** [removeConn], which closes the connection too. *)
Definition removeConn (s : lifecycle) (c : Z) : lifecycle :=
  mkLifecycle (l_listeners s) (l_conns s ∖ {[c]}) (l_closed s) (l_wg s) (l_slots s) (l_loops s)
    (l_raws s) (l_open_lns s) (l_open s ∖ {[c]}) (l_closers s).

(** The part of [Close] under the mutex. *)
Definition closeAll (s : lifecycle) : lifecycle :=
  if l_closed s then s
  else mkLifecycle (l_listeners s) (l_conns s) true (l_wg s) (l_slots s) (l_loops s) (l_raws s)
         (l_open_lns s ∖ l_listeners s) (l_open s ∖ l_conns s) (l_closers s).

(** ** The other actions on the state *)

Definition set_loop (ln : Z) (pc : loop_pc) (s : lifecycle) : lifecycle :=
  mkLifecycle (l_listeners s) (l_conns s) (l_closed s) (l_wg s) (l_slots s) (<[ln := pc]> (l_loops s))
    (l_raws s) (l_open_lns s) (l_open s) (l_closers s).
Definition set_stage (raw : Z) (st : stage) (s : lifecycle) : lifecycle :=
  mkLifecycle (l_listeners s) (l_conns s) (l_closed s) (l_wg s) (l_slots s) (l_loops s)
    (<[raw := st]> (l_raws s)) (l_open_lns s) (l_open s) (l_closers s).
Definition add_slots (n : Z) (s : lifecycle) : lifecycle :=
  mkLifecycle (l_listeners s) (l_conns s) (l_closed s) (l_wg s) (l_slots s + n) (l_loops s)
    (l_raws s) (l_open_lns s) (l_open s) (l_closers s).
Definition add_wg (n : Z) (s : lifecycle) : lifecycle :=
  mkLifecycle (l_listeners s) (l_conns s) (l_closed s) (l_wg s + n) (l_slots s) (l_loops s)
    (l_raws s) (l_open_lns s) (l_open s) (l_closers s).
Definition open_conn (raw : Z) (s : lifecycle) : lifecycle :=
  mkLifecycle (l_listeners s) (l_conns s) (l_closed s) (l_wg s) (l_slots s) (l_loops s)
    (l_raws s) (l_open_lns s) (l_open s ∪ {[raw]}) (l_closers s).
Definition close_conn (raw : Z) (s : lifecycle) : lifecycle :=
  mkLifecycle (l_listeners s) (l_conns s) (l_closed s) (l_wg s) (l_slots s) (l_loops s)
    (l_raws s) (l_open_lns s) (l_open s ∖ {[raw]}) (l_closers s).
Definition open_ln (ln : Z) (s : lifecycle) : lifecycle :=
  mkLifecycle (l_listeners s) (l_conns s) (l_closed s) (l_wg s) (l_slots s) (l_loops s)
    (l_raws s) (l_open_lns s ∪ {[ln]}) (l_open s) (l_closers s).
Definition close_ln (ln : Z) (s : lifecycle) : lifecycle :=
  mkLifecycle (l_listeners s) (l_conns s) (l_closed s) (l_wg s) (l_slots s) (l_loops s)
    (l_raws s) (l_open_lns s ∖ {[ln]}) (l_open s) (l_closers s).
Definition set_closer (k : Z) (returned : bool) (s : lifecycle) : lifecycle :=
  mkLifecycle (l_listeners s) (l_conns s) (l_closed s) (l_wg s) (l_slots s) (l_loops s)
    (l_raws s) (l_open_lns s) (l_open s) (<[k := returned]> (l_closers s)).

(** ** Steps *)

Section Steps.
(** [cfg.MaxConnections], the capacity of the slots. *)
Variable maxConns : Z.

(** An accept loop returns, and the goroutine of a connection comes to its end,
    whenever the peer, the network or a closed socket make it; which of the two
    it was, [prompted] below tells. *)
Inductive step (s : lifecycle) : lifecycle -> Prop :=
  (* Serve *)
  | serve_tracked ln s1 :
      l_loops s !! ln = None -> track s ln = (s1, true) ->
      step s (set_loop ln Accepting (open_ln ln s1))
  | serve_closed ln s1 :
      l_loops s !! ln = None -> track s ln = (s1, false) ->
      step s (set_loop ln Returned (close_ln ln s1))
  | serve_accept ln raw :
      l_loops s !! ln = Some Accepting -> ln ∈ l_open_lns s -> l_raws s !! raw = None ->
      step s (set_loop ln (Handling raw) (set_stage raw Accepted (open_conn raw s)))
  | serve_return ln :
      l_loops s !! ln = Some Accepting -> step s (set_loop ln Returned (untrack s ln))
  | serve_slot ln raw :
      l_loops s !! ln = Some (Handling raw) -> l_raws s !! raw = Some Accepted -> l_slots s < maxConns ->
      step s (set_stage raw Slotted (add_slots 1 s))
  | serve_full ln raw :
      l_loops s !! ln = Some (Handling raw) -> l_raws s !! raw = Some Accepted -> maxConns <= l_slots s ->
      step s (set_loop ln Accepting (set_stage raw Over (close_conn raw s)))
  | serve_add ln raw s1 :
      l_loops s !! ln = Some (Handling raw) -> l_raws s !! raw = Some Slotted -> addConn s raw = (s1, true) ->
      step s (set_stage raw Added s1)
  | serve_refused ln raw s1 :
      l_loops s !! ln = Some (Handling raw) -> l_raws s !! raw = Some Slotted -> addConn s raw = (s1, false) ->
      step s (set_loop ln Returned (untrack (set_stage raw Over (close_conn raw (add_slots (-1) s1))) ln))
  | serve_go ln raw :
      l_loops s !! ln = Some (Handling raw) -> l_raws s !! raw = Some Added ->
      step s (set_loop ln Accepting (set_stage raw Serving (add_wg 1 s)))
  (* the goroutine of a connection, in the order of its deferred calls *)
  | conn_removed raw :
      l_raws s !! raw = Some Serving -> step s (set_stage raw Removed (removeConn s raw))
  | conn_released raw :
      l_raws s !! raw = Some Removed -> step s (set_stage raw Released (add_slots (-1) s))
  | conn_over raw :
      l_raws s !! raw = Some Released -> step s (set_stage raw Over (add_wg (-1) s))
  (* Close *)
  | close_locked k :
      l_closers s !! k = None -> step s (set_closer k false (closeAll s))
  | close_return k :
      l_closers s !! k = Some false -> l_wg s = 0 -> step s (set_closer k true s).

Definition reachable (s : lifecycle) : Prop := rtc step initial s.
End Steps.

(** ** Counting connections *)

(** The number of connections in the stages that satisfy [P]. *)
Definition count (P : stage -> bool) (m : gmap Z stage) : Z := map_total (fun st => Z.b2z (P st)) m.

Definition holds_slot (st : stage) : bool :=
  match st with Slotted | Added | Serving | Removed => true | _ => false end.
Definition is_goroutine (st : stage) : bool :=
  match st with Serving | Removed | Released => true | _ => false end.
Definition is_serving (st : stage) : bool := match st with Serving => true | _ => false end.
Definition in_conns (st : stage) : bool := match st with Added | Serving => true | _ => false end.
Definition before_conns (st : stage) : bool := match st with Accepted | Slotted => true | _ => false end.

Lemma count_fresh P m k st :
  m !! k = None -> count P (<[k := st]> m) = count P m + Z.b2z (P st).
Proof. apply (map_total_fresh (fun st => Z.b2z (P st))). Qed.

Lemma count_update P m k st st' :
  m !! k = Some st -> count P (<[k := st']> m) = count P m - Z.b2z (P st) + Z.b2z (P st').
Proof. apply (map_total_update (fun st => Z.b2z (P st))). Qed.

Lemma count_le P Q m : (forall st, P st = true -> Q st = true) -> count P m <= count Q m.
Proof. intros H. apply map_total_le. intros st. specialize (H st). destruct (P st), (Q st); simpl; intuition lia. Qed.

Lemma count_none P (m : gmap Z stage) : map_Forall (fun _ st => P st = false) m -> count P m = 0.
Proof. intros H. apply map_total_none. eapply map_Forall_impl; [apply H|]. simpl. by intros _ st ->. Qed.

(** ** The invariant *)

Section Invariant.
Variable maxConns : Z.

Record lifecycle_ok (s : lifecycle) : Prop := {
  ok_slots : l_slots s = count holds_slot (l_raws s);
  ok_limit : l_slots s <= maxConns;
  ok_wg : l_wg s = count is_goroutine (l_raws s);
  ok_conns : forall raw, raw ∈ l_conns s <-> exists st, l_raws s !! raw = Some st /\ in_conns st = true;
  ok_open : forall raw, raw ∈ l_open s ->
    exists st, l_raws s !! raw = Some st /\ (before_conns st = true \/ in_conns st = true /\ l_closed s = false);
  ok_listeners : l_closed s = true -> l_listeners s ## l_open_lns s;
}.

Lemma initial_ok : 0 <= maxConns -> lifecycle_ok initial.
Proof.
  intros H. split; simpl; [done..| | |]; set_solver.
Qed.

(** What moving one connection to the stage [st'] does to the two set
    conditions. *)
Lemma conns_move (C C' : gset Z) (m : gmap Z stage) raw st' :
  (forall r, r ∈ C <-> exists st, m !! r = Some st /\ in_conns st = true) ->
  (forall r, r ∈ C' <-> (r = raw /\ in_conns st' = true) \/ (r <> raw /\ r ∈ C)) ->
  forall r, r ∈ C' <-> exists st, <[raw := st']> m !! r = Some st /\ in_conns st = true.
Proof.
  intros HC HC' r. rewrite HC'. destruct (decide (r = raw)) as [->|Hne].
  - rewrite lookup_insert_eq. split; [intros [[_ H]|[H _]]; [by exists st'|done] | intros (st & [= <-] & H); by left].
  - rewrite lookup_insert_ne by done. rewrite HC. split; [intros [[? _]|[_ H]]; done | intros H; by right].
Qed.

Lemma open_move (O O' : gset Z) (m : gmap Z stage) (closed : bool) raw st' :
  (forall r, r ∈ O -> exists st, m !! r = Some st /\ (before_conns st = true \/ in_conns st = true /\ closed = false)) ->
  (forall r, r ∈ O' -> (r = raw /\ (before_conns st' = true \/ in_conns st' = true /\ closed = false)) \/ (r <> raw /\ r ∈ O)) ->
  forall r, r ∈ O' ->
    exists st, <[raw := st']> m !! r = Some st /\ (before_conns st = true \/ in_conns st = true /\ closed = false).
Proof.
  intros HO HO' r Hr. destruct (HO' r Hr) as [[-> H]|[Hne H]].
  - rewrite lookup_insert_eq. by exists st'.
  - rewrite lookup_insert_ne by done. by apply HO.
Qed.

(** The stage of a connection decides its memberships. *)
Lemma not_in_conns s raw st :
  lifecycle_ok s -> l_raws s !! raw = Some st -> in_conns st = false -> raw ∉ l_conns s.
Proof.
  intros Hs Hr Hst Hin. apply (ok_conns s Hs) in Hin as (st' & Hr' & H). rewrite Hr in Hr'. injection Hr' as <-. congruence.
Qed.

Lemma in_conns_elem s raw st :
  lifecycle_ok s -> l_raws s !! raw = Some st -> in_conns st = true -> raw ∈ l_conns s.
Proof. intros Hs Hr Hst. apply (ok_conns s Hs). by exists st. Qed.

Lemma not_open s raw st :
  lifecycle_ok s -> l_raws s !! raw = Some st -> before_conns st = false -> in_conns st = false -> raw ∉ l_open s.
Proof.
  intros Hs Hr H1 H2 Hin. apply (ok_open s Hs) in Hin as (st' & Hr' & H). rewrite Hr in Hr'. injection Hr' as <-.
  destruct H as [?|[? _]]; congruence.
Qed.

Lemma open_tracked s raw st :
  lifecycle_ok s -> l_raws s !! raw = Some st -> before_conns st = false -> raw ∈ l_open s -> l_closed s = false.
Proof.
  intros Hs Hr H1 Hin. apply (ok_open s Hs) in Hin as (st' & Hr' & H). rewrite Hr in Hr'. injection Hr' as <-.
  destruct H as [?|[_ ?]]; congruence.
Qed.

(** A step that moves one connection from the stage [st] to [st'] and
    changes the counters and sets accordingly. *)
Lemma move_ok s s' raw st st' :
  lifecycle_ok s -> l_raws s !! raw = Some st -> l_raws s' = <[raw := st']> (l_raws s) ->
  l_closed s' = l_closed s ->
  l_slots s' = l_slots s - Z.b2z (holds_slot st) + Z.b2z (holds_slot st') -> l_slots s' <= maxConns ->
  l_wg s' = l_wg s - Z.b2z (is_goroutine st) + Z.b2z (is_goroutine st') ->
  (forall r, r ∈ l_conns s' <-> (r = raw /\ in_conns st' = true) \/ (r <> raw /\ r ∈ l_conns s)) ->
  (forall r, r ∈ l_open s' ->
     (r = raw /\ (before_conns st' = true \/ in_conns st' = true /\ l_closed s = false)) \/ (r <> raw /\ r ∈ l_open s)) ->
  (l_closed s = true -> l_listeners s' ## l_open_lns s') ->
  lifecycle_ok s'.
Proof.
  intros Hs Hr Hr' Hc Hsl Hmax Hwg HC HO HL. split; rewrite ?Hr', ?Hc; [..|done].
  - rewrite (count_update _ _ _ _ _ Hr), Hsl, (ok_slots s Hs). lia.
  - done.
  - rewrite (count_update _ _ _ _ _ Hr), Hwg, (ok_wg s Hs). lia.
  - by apply (conns_move (l_conns s)), HC; apply ok_conns.
  - apply (open_move (l_open s)); [by apply ok_open | apply HO].
Qed.

(** Close the conditions of [move_ok] for the connection [raw]. *)
Ltac elem raw :=
  let r := fresh "r" in
  intros r; rewrite ?elem_of_union, ?elem_of_difference, ?elem_of_singleton;
  destruct (decide (r = raw)) as [->|]; intuition (discriminate || congruence || auto).

Ltac by_move st st' raw Hs Hr :=
  pose proof (ok_limit _ Hs);
  first [ pose proof (not_in_conns _ _ _ Hs Hr eq_refl) | pose proof (in_conns_elem _ _ _ Hs Hr eq_refl) ];
  try pose proof (not_open _ _ _ Hs Hr eq_refl eq_refl);
  try pose proof (open_tracked _ _ _ Hs Hr eq_refl);
  apply (move_ok _ _ _ st st' Hs Hr); simpl; [reflexivity | done | lia | lia | lia | elem raw | elem raw
  | let H := fresh "Hclosed" in intros H; first [ done | apply (ok_listeners _ Hs) in H; set_solver +H ] ].

Lemma close_ok s k : lifecycle_ok s -> lifecycle_ok (set_closer k false (closeAll s)).
Proof.
  intros Hs. unfold closeAll. destruct (l_closed s) eqn:E; [destruct Hs; by split|].
  split; simpl; [apply ok_slots, Hs | apply ok_limit, Hs | apply ok_wg, Hs | apply ok_conns, Hs | | intros _; set_solver +].
  intros raw. rewrite elem_of_difference. intros [Hin Hnc].
  destruct (ok_open s Hs raw Hin) as (st & Hr & [Hb|[Hc _]]); [exists st; auto|].
  destruct Hnc. by eapply in_conns_elem.
Qed.

Lemma accept_ok s ln raw :
  lifecycle_ok s -> l_raws s !! raw = None ->
  lifecycle_ok (set_loop ln (Handling raw) (set_stage raw Accepted (open_conn raw s))).
Proof.
  intros Hs Hr. assert (Hnc : raw ∉ l_conns s).
  { intros (st & Hst & _)%(ok_conns s Hs). congruence. }
  split; simpl.
  - rewrite count_fresh by done. simpl. rewrite (ok_slots s Hs). lia.
  - apply ok_limit, Hs.
  - rewrite count_fresh by done. simpl. rewrite (ok_wg s Hs). lia.
  - apply (conns_move (l_conns s)); [apply ok_conns, Hs | elem raw].
  - apply (open_move (l_open s)); [apply ok_open, Hs | elem raw].
  - apply ok_listeners, Hs.
Qed.

Lemma step_ok s s' : lifecycle_ok s -> step maxConns s s' -> lifecycle_ok s'.
Proof.
  intros Hs Hstep.
  destruct Hstep as [ln s1 Hln Ht|ln s1 Hln Ht|ln raw Hln Hopen Hr|ln Hln|ln raw Hln Hr Hmax|ln raw Hln Hr Hmax
    |ln raw s1 Hln Hr Ha|ln raw s1 Hln Hr Ha|ln raw Hln Hr|raw Hr|raw Hr|raw Hr|k Hk|k Hk Hw].
  - unfold track in Ht. destruct (l_closed s) eqn:E; [done|]. injection Ht as <-. destruct Hs.
    rewrite E in *. by split; simpl; rewrite ?E.
  - unfold track in Ht. destruct (l_closed s) eqn:E; [|done]. injection Ht as <-. destruct Hs.
    split; simpl; try done. intros H. apply ok_listeners0 in H. set_solver +H.
  - by apply accept_ok.
  - destruct Hs. split; simpl; try done. intros H. apply ok_listeners0 in H. set_solver +H.
  - by_move Accepted Slotted raw Hs Hr.
  - by_move Accepted Over raw Hs Hr.
  - unfold addConn in Ha. destruct (l_closed s) eqn:E; [done|]. injection Ha as <-. by_move Slotted Added raw Hs Hr.
  - unfold addConn in Ha. destruct (l_closed s) eqn:E; [|done]. injection Ha as <-. by_move Slotted Over raw Hs Hr.
  - by_move Added Serving raw Hs Hr.
  - by_move Serving Removed raw Hs Hr.
  - by_move Removed Released raw Hs Hr.
  - by_move Released Over raw Hs Hr.
  - by apply close_ok.
  - destruct Hs. by split.
Qed.

Lemma reachable_ok s : 0 <= maxConns -> reachable maxConns s -> lifecycle_ok s.
Proof.
  intros Hmax H. unfold reachable in H. pose proof (initial_ok Hmax) as H0.
  induction H as [|x y z Hxy _ IH]; [done|]. apply IH. by eapply step_ok.
Qed.
End Invariant.

(** ** What follows *)

(** A closed server stays closed and takes no connection in. *)
Lemma closed_step maxConns s s' :
  l_closed s = true -> step maxConns s s' -> l_closed s' = true /\ l_conns s' ⊆ l_conns s.
Proof.
  intros Hc Hstep. destruct Hstep as [ln s1 _ Ht|ln s1 _ Ht| | | | |ln raw s1 _ _ Ha|ln raw s1 _ _ Ha| | | | | |];
    simpl; try done; try (unfold track in Ht; rewrite Hc in Ht; by injection Ht as <-);
    try (unfold addConn in Ha; rewrite Hc in Ha; by injection Ha as <-).
  - split; [done|]. apply subseteq_difference_l. done.
  - unfold closeAll. by rewrite Hc.
Qed.

Lemma closed_run maxConns s s' :
  l_closed s = true -> rtc (step maxConns) s s' -> l_closed s' = true /\ l_conns s' ⊆ l_conns s.
Proof.
  intros Hc Hr. induction Hr as [|s s1 s2 H1 _ IH]; [done|].
  destruct (closed_step _ _ _ Hc H1) as [Hc1 Hs1]. destruct (IH Hc1). split; [done | by etransitivity].
Qed.

Lemma closed_conns maxConns s : lifecycle_ok maxConns s -> l_closed s = true -> l_conns s ## l_open s.
Proof.
  intros Hs Hc raw (st & H1 & H2)%(ok_conns _ _ Hs) (st' & H1' & H3)%(ok_open _ _ Hs).
  rewrite H1 in H1'. injection H1' as <-. destruct H3 as [H3|[_ H3]]; [by destruct st | congruence].
Qed.

(** ** The accept loops *)

(** The stages in which the accept loop still has the connection. *)
Definition in_loop (st : stage) : bool := match st with Accepted | Slotted | Added => true | _ => false end.

Record loops_ok (s : lifecycle) : Prop := {
  ok_tracked : forall ln pc, l_loops s !! ln = Some pc -> pc <> Returned -> ln ∈ l_listeners s;
  ok_handling : forall ln raw, l_loops s !! ln = Some (Handling raw) ->
    exists st, l_raws s !! raw = Some st /\ in_loop st = true;
  ok_handled : forall raw st, l_raws s !! raw = Some st -> in_loop st = true ->
    exists ln, l_loops s !! ln = Some (Handling raw);
  ok_handler : forall ln ln' raw, l_loops s !! ln = Some (Handling raw) -> l_loops s !! ln' = Some (Handling raw) -> ln = ln';
}.

Lemma initial_loops_ok : loops_ok initial.
Proof. split; simpl; intros *; rewrite ?lookup_empty; done. Qed.

(** A step of a loop that keeps its connection. *)
Lemma loops_keep s s' ln raw st' :
  loops_ok s -> l_loops s !! ln = Some (Handling raw) -> in_loop st' = true ->
  l_loops s' = l_loops s -> l_raws s' = <[raw := st']> (l_raws s) -> l_listeners s' = l_listeners s -> loops_ok s'.
Proof.
  intros Hs Hln Hst El Er Ei. split; rewrite ?El, ?Er, ?Ei.
  - apply ok_tracked, Hs.
  - intros ln' raw' H. destruct (decide (raw' = raw)) as [->|Hne].
    + rewrite lookup_insert_eq. by exists st'.
    + rewrite lookup_insert_ne by done. by apply (ok_handling s Hs ln').
  - intros raw' st. destruct (decide (raw' = raw)) as [->|Hne].
    + intros _ _. by exists ln.
    + rewrite lookup_insert_ne by done. apply ok_handled, Hs.
  - apply ok_handler, Hs.
Qed.

(** A step of a loop that gives its connection up and goes to [pc]. *)
Lemma loops_leave s s' ln raw st' pc :
  loops_ok s -> l_loops s !! ln = Some (Handling raw) -> in_loop st' = false -> pc = Accepting \/ pc = Returned ->
  l_loops s' = <[ln := pc]> (l_loops s) -> l_raws s' = <[raw := st']> (l_raws s) ->
  (forall ln', ln' <> ln \/ pc <> Returned -> ln' ∈ l_listeners s -> ln' ∈ l_listeners s') -> loops_ok s'.
Proof.
  intros Hs Hln Hst Hpc El Er Ei.
  assert (Hnot : forall r, pc <> Handling r) by (by destruct Hpc as [->| ->]).
  split; rewrite ?El, ?Er.
  - intros ln' pc' [[<- <-]|[Hne H]]%lookup_insert_Some Hpc'.
    + apply Ei; [by right|]. by eapply (ok_tracked s Hs).
    + apply Ei; [by left; congruence|]. by eapply (ok_tracked s Hs).
  - intros ln' raw' [[_ H]|[Hne H]]%lookup_insert_Some; [by destruct (Hnot raw')|].
    rewrite lookup_insert_ne; [by apply (ok_handling s Hs ln')|].
    intros <-. apply Hne. by eapply (ok_handler s Hs).
  - intros raw' st [[<- <-]|[Hne H]]%lookup_insert_Some Hin; [congruence|].
    destruct (ok_handled s Hs raw' st H Hin) as [ln' Hln']. exists ln'.
    rewrite lookup_insert_ne; [done|]. intros <-. rewrite Hln in Hln'. congruence.
  - intros ln1 ln2 r [[_ H]|[_ H1]]%lookup_insert_Some [[_ H']|[_ H2]]%lookup_insert_Some;
      try (by destruct (Hnot r)). by eapply (ok_handler s Hs).
Qed.

(** A step outside the loops: a connection moves between stages of its
    goroutine. *)
Lemma loops_goroutine s s' raw st st' :
  loops_ok s -> l_raws s !! raw = Some st -> in_loop st = false -> in_loop st' = false ->
  l_loops s' = l_loops s -> l_raws s' = <[raw := st']> (l_raws s) -> l_listeners s' = l_listeners s -> loops_ok s'.
Proof.
  intros Hs Hr Hst Hst' El Er Ei. split; rewrite ?El, ?Er, ?Ei.
  - apply ok_tracked, Hs.
  - intros ln' raw' H. destruct (ok_handling s Hs _ _ H) as (st1 & H1 & H2). exists st1.
    rewrite lookup_insert_ne; [done|]. intros <-. congruence.
  - intros raw' st1 [[<- <-]|[Hne H]]%lookup_insert_Some Hin; [congruence|]. by eapply ok_handled.
  - apply ok_handler, Hs.
Qed.

(** A step that only moves the loop [ln] outside the handling of a
    connection. *)
Lemma loops_move s s' ln pc :
  loops_ok s -> (forall r, l_loops s !! ln <> Some (Handling r)) -> (forall r, pc <> Handling r) ->
  l_loops s' = <[ln := pc]> (l_loops s) -> l_raws s' = l_raws s ->
  (forall ln', ln' ∈ l_listeners s -> ln' <> ln -> ln' ∈ l_listeners s') -> (pc <> Returned -> ln ∈ l_listeners s') ->
  loops_ok s'.
Proof.
  intros Hs Hln Hpc El Er Ei Ht. split; rewrite ?El, ?Er.
  - intros ln' pc' [[<- <-]|[Hne H]]%lookup_insert_Some Hpc'; [by apply Ht|].
    apply Ei; [|done]. by eapply (ok_tracked s Hs).
  - intros ln' raw' [[_ H]|[Hne H]]%lookup_insert_Some; [by destruct (Hpc raw')|]. by apply (ok_handling s Hs ln').
  - intros raw' st H Hin. destruct (ok_handled s Hs raw' st H Hin) as [ln' Hln']. exists ln'.
    rewrite lookup_insert_ne; [done|]. intros <-. by destruct (Hln raw').
  - intros ln1 ln2 r [[_ H]|[_ H1]]%lookup_insert_Some [[_ H']|[_ H2]]%lookup_insert_Some;
      try (by destruct (Hpc r)). by eapply (ok_handler s Hs).
Qed.

Lemma accept_loops_ok s ln raw :
  loops_ok s -> l_loops s !! ln = Some Accepting -> l_raws s !! raw = None ->
  loops_ok (set_loop ln (Handling raw) (set_stage raw Accepted (open_conn raw s))).
Proof.
  intros Hs Hln Hr.
  assert (Hno : forall ln', l_loops s !! ln' <> Some (Handling raw)).
  { intros ln' H. destruct (ok_handling s Hs _ _ H) as (st & H1 & _). congruence. }
  split; simpl.
  - intros ln' pc [[<- <-]|[Hne H]]%lookup_insert_Some Hpc; by eapply (ok_tracked s Hs).
  - intros ln' raw' [[_ [= <-]]|[_ H]]%lookup_insert_Some.
    + rewrite lookup_insert_eq. by exists Accepted.
    + rewrite lookup_insert_ne; [by apply (ok_handling s Hs ln')|]. intros <-. by destruct (Hno ln').
  - intros raw' st [[<- <-]|[Hne H]]%lookup_insert_Some Hin.
    + exists ln. apply lookup_insert_eq.
    + destruct (ok_handled s Hs raw' st H Hin) as [ln' Hln']. exists ln'. rewrite lookup_insert_ne; [done|]. intros <-. congruence.
  - intros ln1 ln2 r [[<- [= <-]]|[_ H1]]%lookup_insert_Some [[<- H2]|[_ H2]]%lookup_insert_Some; try done.
    + by destruct (Hno ln2).
    + injection H2 as <-. by destruct (Hno ln1).
    + by eapply (ok_handler s Hs).
Qed.

Lemma step_loops_ok maxConns s s' : loops_ok s -> step maxConns s s' -> loops_ok s'.
Proof.
  intros Hs Hstep.
  destruct Hstep as [ln s1 Hln Ht|ln s1 Hln Ht|ln raw Hln Hopen Hr|ln Hln|ln raw Hln Hr Hmax|ln raw Hln Hr Hmax
    |ln raw s1 Hln Hr Ha|ln raw s1 Hln Hr Ha|ln raw Hln Hr|raw Hr|raw Hr|raw Hr|k Hk|k Hk Hw].
  - unfold track in Ht. destruct (l_closed s); [done|]. injection Ht as <-.
    eapply (loops_move s _ ln Accepting Hs); simpl; try done; [by rewrite Hln | set_solver +..].
  - unfold track in Ht. destruct (l_closed s); [|done]. injection Ht as <-.
    eapply (loops_move s _ ln Returned Hs); simpl; try done. by rewrite Hln.
  - by apply accept_loops_ok.
  - eapply (loops_move s _ ln Returned Hs); simpl; try done; [by rewrite Hln | set_solver +].
  - by eapply (loops_keep s _ ln raw Slotted Hs).
  - eapply (loops_leave s _ ln raw Over Accepting Hs); simpl; auto.
  - unfold addConn in Ha. destruct (l_closed s); [done|]. injection Ha as <-.
    by eapply (loops_keep s _ ln raw Added Hs).
  - unfold addConn in Ha. destruct (l_closed s); [|done]. injection Ha as <-.
    eapply (loops_leave s _ ln raw Over Returned Hs); simpl; auto. intros ln' [?|?] ?; [set_solver | done].
  - eapply (loops_leave s _ ln raw Serving Accepting Hs); simpl; auto.
  - by eapply (loops_goroutine s _ raw Serving Removed Hs).
  - by eapply (loops_goroutine s _ raw Removed Released Hs).
  - by eapply (loops_goroutine s _ raw Released Over Hs).
  - unfold closeAll. destruct Hs, (l_closed s); by split.
  - destruct Hs. by split.
Qed.

Lemma reachable_loops_ok maxConns s : reachable maxConns s -> loops_ok s.
Proof.
  intros H. unfold reachable in H. pose proof initial_loops_ok as H0.
  induction H as [|x y z Hxy _ IH]; [done|]. apply IH. by eapply step_loops_ok.
Qed.

(** ** Shutdown *)

#[global] Instance stage_eq_dec : EqDecision stage.
Proof. solve_decision. Defined.
#[global] Instance loop_pc_eq_dec : EqDecision loop_pc.
Proof. solve_decision. Defined.

(** A step of the threads that are already running: no new call of [Serve] or
    of [Close]. *)
Definition internal (maxConns : Z) (s s' : lifecycle) : Prop :=
  step maxConns s s' /\ dom (l_loops s') = dom (l_loops s) /\ dom (l_closers s') = dom (l_closers s).

(** Every call of [Serve] and [Close] has returned and every connection is
    over. *)
Definition drained (s : lifecycle) : Prop :=
  map_Forall (fun _ st => st = Over) (l_raws s) /\
  map_Forall (fun _ pc => pc = Returned) (l_loops s) /\
  map_Forall (fun _ returned => returned = true) (l_closers s).

(** The steps that the running threads still have to take at most. *)
Definition stage_rank (st : stage) : Z :=
  match st with
  | Accepted => 6 | Slotted => 5 | Added => 4 | Serving => 3 | Removed => 2 | Released => 1 | Over => 0
  end.
Definition loop_rank (pc : loop_pc) : Z := match pc with Accepting => 1 | Handling _ => 2 | Returned => 0 end.
Definition closer_rank (returned : bool) : Z := if returned then 0 else 1.
Definition pending (s : lifecycle) : Z :=
  map_total stage_rank (l_raws s) + map_total loop_rank (l_loops s) + map_total closer_rank (l_closers s).

Lemma pending_nonneg s : 0 <= pending s.
Proof.
  unfold pending. pose proof (map_total_nonneg stage_rank (l_raws s) ltac:(intros []; simpl; lia)).
  pose proof (map_total_nonneg loop_rank (l_loops s) ltac:(intros []; simpl; lia)).
  pose proof (map_total_nonneg closer_rank (l_closers s) ltac:(intros []; simpl; lia)). lia.
Qed.

(** The changes of [pending]: one connection, one loop or both move. *)
Ltac pending_moves :=
  unfold pending; simpl;
  repeat (erewrite map_total_update; [|eassumption]); simpl; lia.

Lemma internal_decreases maxConns s s' :
  l_closed s = true -> lifecycle_ok maxConns s -> loops_ok s -> internal maxConns s s' -> pending s' < pending s.
Proof.
  intros Hc Hs Hl [Hstep [Hdom Hdom']].
  destruct Hstep as [ln s1 Hln Ht|ln s1 Hln Ht|ln raw Hln Hopen Hr|ln Hln|ln raw Hln Hr Hmax|ln raw Hln Hr Hmax
    |ln raw s1 Hln Hr Ha|ln raw s1 Hln Hr Ha|ln raw Hln Hr|raw Hr|raw Hr|raw Hr|k Hk|k Hk Hw];
    try (unfold track in Ht; rewrite Hc in Ht); try (unfold addConn in Ha; rewrite Hc in Ha);
    try done; try (injection Ht as <-); try (injection Ha as <-); try pending_moves.
  - apply not_elem_of_dom in Hln. destruct Hln. rewrite <- Hdom. simpl. rewrite dom_insert_L. set_solver +.
  - pose proof (ok_tracked s Hl ln Accepting Hln ltac:(done)) as Hin. pose proof (ok_listeners _ _ Hs Hc) as Hd.
    set_solver +Hin Hd Hopen.
  - apply not_elem_of_dom in Hk. destruct Hk. rewrite <- Hdom'. simpl. rewrite dom_insert_L. set_solver +.
Qed.

(** A step on keys that the maps already have is internal. *)
Lemma internal_loop maxConns s s' ln pc pc' :
  step maxConns s s' -> l_loops s !! ln = Some pc -> l_loops s' = <[ln := pc']> (l_loops s) ->
  l_closers s' = l_closers s -> internal maxConns s s'.
Proof.
  intros H Hln El Ec. split; [done|]. rewrite El, Ec. split; [|done].
  rewrite dom_insert_L. apply elem_of_dom_2 in Hln. set_solver +Hln.
Qed.

Lemma internal_same maxConns s s' :
  step maxConns s s' -> l_loops s' = l_loops s -> l_closers s' = l_closers s -> internal maxConns s s'.
Proof. intros H El Ec. split; [done|]. by rewrite El, Ec. Qed.

(** A connection that is not over can go on. *)
Lemma raw_progress maxConns s raw st :
  l_closed s = true -> loops_ok s -> l_raws s !! raw = Some st -> st <> Over -> exists s', internal maxConns s s'.
Proof.
  intros Hc Hl Hr Hne.
  assert (Hhandler : in_loop st = true -> exists ln, l_loops s !! ln = Some (Handling raw)) by (by apply ok_handled).
  destruct st; try done; try (destruct (Hhandler eq_refl) as [ln Hln]).
  { destruct (Z.lt_ge_cases (l_slots s) maxConns); eexists.
    + by apply internal_same; [eapply serve_slot|..].
    + by eapply internal_loop; [eapply serve_full|..]. }
  all: eexists.
  - by eapply internal_loop; [eapply serve_refused; [..|unfold addConn; by rewrite Hc]|..].
  - by eapply internal_loop; [eapply serve_go|..].
  - by apply internal_same; [eapply conn_removed|..].
  - by apply internal_same; [eapply conn_released|..].
  - by apply internal_same; [eapply conn_over|..].
Qed.

Lemma drained_or_progress maxConns s :
  l_closed s = true -> lifecycle_ok maxConns s -> loops_ok s -> drained s \/ exists s', internal maxConns s s'.
Proof.
  intros Hc Hs Hl.
  destruct (decide (map_Forall (fun _ st => st = Over) (l_raws s))) as [Hr|(raw & st & Hr & Hst)%map_not_Forall];
    [|right; by eapply raw_progress | by apply _].
  destruct (decide (map_Forall (fun _ pc => pc = Returned) (l_loops s))) as [Hp|(ln & pc & Hp & Hpc)%map_not_Forall];
    [|right|by apply _].
  2: { destruct pc as [|raw|]; [|exfalso|done].
       - eexists. by eapply internal_loop; [by apply serve_return|..].
       - destruct (ok_handling s Hl _ _ Hp) as (st & H1 & H2). apply Hr in H1. by subst. }
  destruct (decide (map_Forall (fun _ b => b = true) (l_closers s))) as [Hb|(k & b & Hk & Hb)%map_not_Forall];
    [by left; split_and!|right|by apply _].
  destruct b; [done|]. eexists. split; [apply close_return; [done|]|].
  - rewrite (ok_wg _ _ Hs). apply count_none. eapply map_Forall_impl; [apply Hr|]. simpl. by intros _ st ->.
  - split; [done|]. simpl. rewrite dom_insert_L. apply elem_of_dom_2 in Hk. set_solver +Hk.
Qed.

Lemma internal_keeps maxConns s s' :
  l_closed s = true -> lifecycle_ok maxConns s -> loops_ok s -> internal maxConns s s' ->
  l_closed s' = true /\ lifecycle_ok maxConns s' /\ loops_ok s'.
Proof.
  intros Hc Hs Hl [Hstep _]. split; [by eapply closed_step|].
  split; [by eapply step_ok | by eapply step_loops_ok].
Qed.

(** The runs of the threads of a closed server: bounded, and only a drained
    server has no step left. *)
Lemma closed_runs maxConns s n s' :
  l_closed s = true -> lifecycle_ok maxConns s -> loops_ok s -> nsteps (internal maxConns) n s s' ->
  Z.of_nat n + pending s' <= pending s /\ l_closed s' = true /\ lifecycle_ok maxConns s' /\ loops_ok s'.
Proof.
  intros Hc Hs Hl Hn. induction Hn as [|n s s1 s' Hi Hn IH]; [by split; [simpl; lia|]|].
  pose proof (internal_decreases _ _ _ Hc Hs Hl Hi).
  destruct (internal_keeps _ _ _ Hc Hs Hl Hi) as (Hc1 & Hs1 & Hl1).
  destruct (IH Hc1 Hs1 Hl1) as (Hp & ?). split; [lia | done].
Qed.

Lemma closed_drains maxConns s :
  l_closed s = true -> lifecycle_ok maxConns s -> loops_ok s ->
  exists s', rtc (internal maxConns) s s' /\ drained s'.
Proof.
  remember (Z.to_nat (pending s)) as n eqn:Hn. revert s Hn.
  induction n as [n IH] using lt_wf_ind. intros s -> Hc Hs Hl.
  destruct (drained_or_progress maxConns s Hc Hs Hl) as [Hd|[s1 Hi]]; [by exists s; split; [apply rtc_refl|]|].
  pose proof (internal_decreases _ _ _ Hc Hs Hl Hi). pose proof (pending_nonneg s1).
  destruct (internal_keeps _ _ _ Hc Hs Hl Hi) as (Hc1 & Hs1 & Hl1).
  destruct (IH (Z.to_nat (pending s1)) ltac:(lia) s1 eq_refl Hc1 Hs1 Hl1) as (s' & Hr & Hd).
  exists s'. split; [by eapply rtc_l | done].
Qed.

(** A connection that is served, and an accept loop, wait for their socket: the
    goroutine comes to its end, and the loop returns, when the socket is closed
    or when somebody else (the peer, the network) makes the read or the accept
    fail.  A step that needs somebody else: *)
Definition prompted (s s' : lifecycle) : Prop :=
  (exists raw, l_raws s !! raw = Some Serving /\ raw ∈ l_open s /\ l_raws s' !! raw = Some Removed) \/
  (exists ln, l_loops s !! ln = Some Accepting /\ ln ∈ l_open_lns s /\ l_loops s' !! ln = Some Returned).

(** The steps the threads take by themselves. *)
Definition unprompted (maxConns : Z) (s s' : lifecycle) : Prop := internal maxConns s s' /\ ~ prompted s s'.

(** [Close] has closed the sockets that the threads wait for. *)
Lemma closed_not_prompted maxConns s s' :
  l_closed s = true -> lifecycle_ok maxConns s -> loops_ok s -> ~ prompted s s'.
Proof.
  intros Hc Hs Hl [(raw & Hr & Ho & _)|(ln & Hln & Ho & _)].
  - pose proof (open_tracked _ _ _ _ Hs Hr eq_refl Ho). congruence.
  - pose proof (ok_tracked s Hl ln Accepting Hln ltac:(done)) as Hin. pose proof (ok_listeners _ _ Hs Hc) as Hd.
    set_solver +Hin Hd Ho.
Qed.

Lemma closed_unprompted maxConns s s' :
  l_closed s = true -> lifecycle_ok maxConns s -> loops_ok s -> rtc (internal maxConns) s s' -> rtc (unprompted maxConns) s s'.
Proof.
  intros Hc Hs Hl Hr. induction Hr as [|s s1 s' Hi Hr IH]; [apply rtc_refl|].
  destruct (internal_keeps _ _ _ Hc Hs Hl Hi) as (Hc1 & Hs1 & Hl1).
  eapply rtc_l; [split; [exact Hi | by eapply closed_not_prompted] | by apply IH].
Qed.

(** What a drained server has given back. *)
Lemma drained_idle maxConns s :
  lifecycle_ok maxConns s -> drained s -> l_slots s = 0 /\ l_wg s = 0 /\ l_conns s = ∅ /\ l_open s = ∅.
Proof.
  intros Hs (Hr & _). rewrite (ok_slots _ _ Hs), (ok_wg _ _ Hs).
  split; [|split; [|split]].
  - apply count_none. eapply map_Forall_impl; [apply Hr|]. simpl. by intros _ st ->.
  - apply count_none. eapply map_Forall_impl; [apply Hr|]. simpl. by intros _ st ->.
  - apply set_eq. intros raw. rewrite (ok_conns _ _ Hs). split; [|set_solver +].
    intros (st & H1 & H2). apply Hr in H1. by subst.
  - apply set_eq. intros raw. split; [|set_solver +]. intros (st & H1 & H2)%(ok_open _ _ Hs).
    apply Hr in H1. subst. by destruct H2 as [?|[? _]].
Qed.

(** ** The window between [addConn] and [wg.Go] *)

(** A listener that is served and accepts one connection brings it there. *)
Lemma serve_reaches_added maxConns s ln raw :
  l_closed s = false -> l_slots s < maxConns -> l_loops s !! ln = None -> l_raws s !! raw = None ->
  exists s', rtc (step maxConns) s s' /\ l_loops s' !! ln = Some (Handling raw) /\ l_raws s' !! raw = Some Added /\
    l_wg s' = l_wg s /\ l_closers s' = l_closers s.
Proof.
  intros Hc Hm Hln Hr. eexists. split.
  - eapply rtc_l; [apply (serve_tracked _ _ ln); [done | by unfold track; rewrite Hc]|].
    eapply rtc_l; [apply (serve_accept _ _ ln raw); [apply lookup_insert_eq | simpl; set_solver + | done]|].
    eapply rtc_l; [apply (serve_slot _ _ ln raw); [apply lookup_insert_eq | apply lookup_insert_eq | done]|].
    eapply rtc_l; [apply (serve_add _ _ ln raw); [apply lookup_insert_eq | apply lookup_insert_eq |]|apply rtc_refl].
    unfold addConn. simpl. by rewrite ?Hc.
  - simpl. rewrite !lookup_insert_eq. done.
Qed.

(** There the wait group does not know the connection: a [Close] that runs
    when no other connection is served returns before the goroutine of this
    one starts. *)
Lemma close_returns_early maxConns s ln raw k :
  l_loops s !! ln = Some (Handling raw) -> l_raws s !! raw = Some Added -> l_wg s = 0 -> l_closers s !! k = None ->
  exists s', rtc (step maxConns) s s' /\ l_closers s' !! k = Some true /\ l_raws s' !! raw = Some Serving.
Proof.
  intros Hln Hr Hw Hk.
  assert (E : l_loops (closeAll s) = l_loops s /\ l_raws (closeAll s) = l_raws s /\ l_wg (closeAll s) = l_wg s)
    by (unfold closeAll; by destruct (l_closed s)).
  destruct E as (E1 & E2 & E3). eexists. split.
  - eapply rtc_l; [by apply (close_locked _ _ k)|].
    eapply rtc_l; [apply (close_return _ _ k); [apply lookup_insert_eq | simpl; by rewrite E3]|].
    eapply rtc_l; [apply (serve_go _ _ ln raw); simpl; [by rewrite E1 | by rewrite E2]|apply rtc_refl].
  - simpl. rewrite !lookup_insert_eq. done.
Qed.

(** A state in that window, with a [Close] that waits. *)
Lemma close_after_added maxConns (ln raw k : Z) :
  0 < maxConns ->
  exists s, reachable maxConns s /\ l_closed s = true /\ l_raws s !! raw = Some Added /\ l_closers s !! k = Some false.
Proof.
  intros Hm. destruct (serve_reaches_added maxConns initial ln raw) as (s & Hr & _ & Hraw & _ & Hk); try done.
  exists (set_closer k false (closeAll s)). split; [|split; [|split]].
  - eapply rtc_r; [apply Hr|]. apply close_locked. by rewrite Hk.
  - simpl. unfold closeAll. by destruct (l_closed s) eqn:E.
  - simpl. unfold closeAll. by destruct (l_closed s).
  - apply lookup_insert_eq.
Qed.
