(* ===== verification/Serve.v ===== *)
(** * What Serve returns (server/server.go)

    The calls of [Serve] with their contexts and results, over the threads of
    [Lifecycle].  The context of a call may end at any time; the function that
    [context.AfterFunc] registered then closes the server from a goroutine of
    its own.  When [Accept] fails, the loop looks at the context and then, in
    another step, at the server. *)

From S2P Require Import Prelude Go WireErrors Header ReadWrite ServerCodec Memory Session Server Lifecycle.

Inductive serve_error :=
  | ErrServerClosed
  | CtxErr                      (* ctx.Err() *)
  | AcceptErr (e : error).

Record serving := mkServing {
  sv_life : lifecycle;
  sv_ended : gset Z;                   (* the calls, by listener, whose context has ended *)
  sv_fired : gset Z;                   (* those whose AfterFunc has yet to close the server *)
  sv_checked : gset Z;                 (* those that saw Accept fail and their context alive *)
  sv_results : gmap Z serve_error;     (* what the calls returned *)
  sv_byHost : bool;                    (* whether the host called Close *)
}.

Definition not_serving : serving := mkServing initial ∅ ∅ ∅ ∅ false.

Definition loop_of (s : serving) (ln : Z) : option loop_pc := l_loops (sv_life s) !! ln.

(** [Serve] returns [r]: its result, and the state its deferred calls leave. *)
Definition returns (s : serving) (ln : Z) (r : serve_error) (l : lifecycle) : serving :=
  mkServing l (sv_ended s) (sv_fired s) (sv_checked s) (<[ln := r]> (sv_results s)) (sv_byHost s).

Section Steps.
Variable maxConns : Z.
(** [net.Error] with [Timeout()]. *)
Variable isTimeout : error -> bool.

Inductive serve_step (s : serving) : serving -> Prop :=
  (* the context of a call ends: now, if the call has registered its function *)
  | sv_ctx_end ln :
      ln ∉ sv_ended s ->
      serve_step s (mkServing (sv_life s) (sv_ended s ∪ {[ln]})
        (match loop_of s ln with Some Accepting | Some (Handling _) => sv_fired s ∪ {[ln]} | _ => sv_fired s end)
        (sv_checked s) (sv_results s) (sv_byHost s))
  | sv_after_func ln k :
      ln ∈ sv_fired s -> l_closers (sv_life s) !! k = None ->
      serve_step s (mkServing (set_closer k false (closeAll (sv_life s))) (sv_ended s) (sv_fired s ∖ {[ln]})
        (sv_checked s) (sv_results s) (sv_byHost s))
  | sv_close k :
      l_closers (sv_life s) !! k = None ->
      serve_step s (mkServing (set_closer k false (closeAll (sv_life s))) (sv_ended s) (sv_fired s)
        (sv_checked s) (sv_results s) true)
  (* Serve *)
  | sv_tracked ln l1 :
      loop_of s ln = None -> track (sv_life s) ln = (l1, true) ->
      serve_step s (mkServing (set_loop ln Accepting (open_ln ln l1)) (sv_ended s)
        (if decide (ln ∈ sv_ended s) then sv_fired s ∪ {[ln]} else sv_fired s) (sv_checked s) (sv_results s) (sv_byHost s))
  | sv_closed_early ln l1 :
      loop_of s ln = None -> track (sv_life s) ln = (l1, false) ->
      serve_step s (returns s ln ErrServerClosed (set_loop ln Returned (close_ln ln l1)))
  | sv_ctx_err ln :
      loop_of s ln = Some Accepting -> ln ∉ sv_checked s -> ln ∈ sv_ended s ->
      serve_step s (returns s ln CtxErr (set_loop ln Returned (untrack (sv_life s) ln)))
  | sv_ctx_alive ln :
      loop_of s ln = Some Accepting -> ln ∉ sv_ended s ->
      serve_step s (mkServing (sv_life s) (sv_ended s) (sv_fired s) (sv_checked s ∪ {[ln]}) (sv_results s) (sv_byHost s))
  | sv_is_closed ln :
      loop_of s ln = Some Accepting -> ln ∈ sv_checked s -> l_closed (sv_life s) = true ->
      serve_step s (returns s ln ErrServerClosed (set_loop ln Returned (untrack (sv_life s) ln)))
  | sv_timeout ln e :
      loop_of s ln = Some Accepting -> ln ∈ sv_checked s -> l_closed (sv_life s) = false -> isTimeout e = true ->
      serve_step s (mkServing (sv_life s) (sv_ended s) (sv_fired s) (sv_checked s ∖ {[ln]}) (sv_results s) (sv_byHost s))
  | sv_failed ln e :
      loop_of s ln = Some Accepting -> ln ∈ sv_checked s -> l_closed (sv_life s) = false -> isTimeout e = false ->
      serve_step s (returns s ln (AcceptErr e) (set_loop ln Returned (untrack (sv_life s) ln)))
  | sv_refused ln raw l1 :
      loop_of s ln = Some (Handling raw) -> l_raws (sv_life s) !! raw = Some Slotted -> addConn (sv_life s) raw = (l1, false) ->
      serve_step s (returns s ln ErrServerClosed
        (set_loop ln Returned (untrack (set_stage raw Over (close_conn raw (add_slots (-1) l1))) ln)))
  (* the rest: connections on their way, their goroutines, calls of Close that
     return; no call of Serve begins or ends, none that saw Accept fail moves *)
  | sv_other l1 :
      step maxConns (sv_life s) l1 -> l_closed l1 = l_closed (sv_life s) ->
      (forall ln, l_loops l1 !! ln = Some Returned <-> loop_of s ln = Some Returned) ->
      (forall ln, l_loops l1 !! ln = None <-> loop_of s ln = None) ->
      (forall ln, ln ∈ sv_checked s -> l_loops l1 !! ln = loop_of s ln) ->
      serve_step s (mkServing l1 (sv_ended s) (sv_fired s) (sv_checked s) (sv_results s) (sv_byHost s)).

(** The threads below are those of [Lifecycle]. *)
Lemma serve_step_life s s' : serve_step s s' -> sv_life s' = sv_life s \/ step maxConns (sv_life s) (sv_life s').
Proof.
  destruct 1; simpl; try (by left); right; try done.
  - by apply close_locked.
  - by apply close_locked.
  - by apply serve_tracked.
  - by apply serve_closed.
  - by apply serve_return.
  - by apply serve_return.
  - by apply serve_return.
  - by eapply serve_refused.
Qed.

Lemma serve_run_life s s' : rtc serve_step s s' -> rtc (step maxConns) (sv_life s) (sv_life s').
Proof.
  induction 1 as [|s1 s2 s3 H1 _ IH]; [done|]. destruct (serve_step_life _ _ H1) as [<-|H]; [done | by eapply rtc_l].
Qed.

(** ** The invariant *)

Record serving_ok (s : serving) : Prop := {
  so_returned : forall ln, loop_of s ln = Some Returned <-> is_Some (sv_results s !! ln);
  so_ctx : forall ln, sv_results s !! ln = Some CtxErr -> ln ∈ sv_ended s;
  so_closed : forall ln, sv_results s !! ln = Some ErrServerClosed -> l_closed (sv_life s) = true;
  so_failed : forall ln e, sv_results s !! ln = Some (AcceptErr e) -> isTimeout e = false;
  so_fired : sv_fired s ⊆ sv_ended s;
  so_cause : l_closed (sv_life s) = true -> sv_byHost s = true \/ sv_ended s <> ∅;
  so_closing : forall ln pc, ln ∈ sv_ended s -> loop_of s ln = Some pc -> pc <> Returned ->
    ln ∈ sv_fired s \/ l_closed (sv_life s) = true;
}.

Lemma closeAll_closed l : l_closed (closeAll l) = true.
Proof. unfold closeAll. by destruct (l_closed l) eqn:E. Qed.
Lemma closeAll_loops l : l_loops (closeAll l) = l_loops l.
Proof. unfold closeAll. by destruct (l_closed l). Qed.

(** A call returns with a result that its state explains. *)
Lemma serve_returns_ok s ln r l pc :
  serving_ok s -> loop_of s ln = pc -> pc <> Some Returned ->
  l_loops l = <[ln := Returned]> (l_loops (sv_life s)) -> l_closed l = l_closed (sv_life s) ->
  match r with
  | CtxErr => ln ∈ sv_ended s
  | ErrServerClosed => l_closed l = true
  | AcceptErr e => isTimeout e = false
  end -> serving_ok (returns s ln r l).
Proof.
  intros Hs Hln Hpc Hl Hc Hr.
  assert (Hres : forall ln' r', <[ln := r]> (sv_results s) !! ln' = Some r' -> r' = r /\ ln' = ln \/ sv_results s !! ln' = Some r').
  { intros ln' r' [[<- <-]|[_ H]]%lookup_insert_Some; [by left | by right]. }
  split; unfold loop_of; simpl; rewrite ?Hl, ?Hc in *.
  - intros ln'. destruct (decide (ln' = ln)) as [->|Hne]; [by rewrite !lookup_insert_eq|].
    rewrite !lookup_insert_ne by done. apply so_returned, Hs.
  - intros ln' [[<- ->]|H]%Hres; [done | by apply (so_ctx s Hs)].
  - intros ln' [[<- ->]|H]%Hres; [done | by eapply (so_closed s Hs)].
  - intros ln' e [[<- ->]|H]%Hres; [done | by eapply (so_failed s Hs)].
  - apply so_fired, Hs.
  - apply so_cause, Hs.
  - intros ln' pc' He [[_ <-]|[_ H]]%lookup_insert_Some Hn; [done|]. by eapply (so_closing s Hs).
Qed.

(** Closing, by the host or by the end of a context. *)
Lemma serve_closing_ok s k fired host :
  serving_ok s -> fired ⊆ sv_fired s -> host = true \/ host = sv_byHost s /\ sv_ended s <> ∅ ->
  serving_ok (mkServing (set_closer k false (closeAll (sv_life s))) (sv_ended s) fired (sv_checked s) (sv_results s) host).
Proof.
  intros Hs Hf Hh. split; unfold loop_of; simpl; rewrite ?closeAll_loops, ?closeAll_closed; try done.
  - apply so_returned, Hs.
  - apply so_ctx, Hs.
  - apply so_failed, Hs.
  - etransitivity; [done | apply so_fired, Hs].
  - intros _. destruct Hh as [->|[_ ?]]; auto.
  - by right.
Qed.

Lemma serve_step_ok s s' : serving_ok s -> serve_step s s' -> serving_ok s'.
Proof.
  intros Hs Hst.
  destruct Hst as [ln Hln|ln k Hln Hk|k Hk|ln l1 Hln Ht|ln l1 Hln Ht|ln Hln Hch He|ln Hln He|ln Hln Hch Hc|ln e Hln Hch Hc Ht
    |ln e Hln Hch Hc Ht|ln raw l1 Hln Hr Ha|l1 Hst Hc Hret Hnone Hch].
  - pose proof Hs as []. split; simpl; try done.
    + intros ln' H%so_ctx0. by apply elem_of_union_l.
    + clear - so_fired0. destruct (loop_of s ln) as [[]|]; set_solver.
    + intros _. right. clear. set_solver.
    + intros ln' pc [H|H%elem_of_singleton]%elem_of_union Hl Hn.
      * change (loop_of s ln' = Some pc) in Hl. destruct (so_closing0 ln' pc H Hl Hn) as [Hf|Hf]; [left|by right].
        clear - Hf. destruct (loop_of s ln) as [[]|]; set_solver.
      * subst ln'. change (loop_of s ln = Some pc) in Hl. rewrite Hl. left. destruct pc; [apply elem_of_union_r; by apply elem_of_singleton..|done].
  - apply serve_closing_ok; [done | clear; set_solver |]. right. split; [done|]. apply (so_fired s Hs) in Hln. clear - Hln. set_solver.
  - apply serve_closing_ok; [done | done | by left].
  - unfold track in Ht. destruct (l_closed (sv_life s)) eqn:E; [done|]. injection Ht as <-. pose proof Hs as []. rewrite E in *.
    split; unfold loop_of; simpl; rewrite ?E; try done.
    + intros ln'. destruct (decide (ln' = ln)) as [->|Hne].
      * rewrite lookup_insert_eq. specialize (so_returned0 ln). rewrite Hln in so_returned0. split; [done|].
        intros H. by apply so_returned0 in H.
      * rewrite lookup_insert_ne by done. apply so_returned0.
    + case_decide as Hd; [|done]. clear - Hd so_fired0. set_solver.
    + intros ln' pc He. destruct (decide (ln' = ln)) as [->|Hne].
      * rewrite decide_True by done. intros _ _. left. clear. set_solver.
      * rewrite lookup_insert_ne by done. intros Hl Hn. destruct (so_closing0 ln' pc He Hl Hn) as [Hf|Hf]; [left|by right].
        clear - Hf. case_decide; set_solver.
  - unfold track in Ht. destruct (l_closed (sv_life s)) eqn:E; [|done]. injection Ht as <-.
    by eapply serve_returns_ok.
  - by eapply serve_returns_ok.
  - pose proof Hs as []. by split.
  - by eapply serve_returns_ok.
  - pose proof Hs as []. by split.
  - by eapply serve_returns_ok.
  - unfold addConn in Ha. destruct (l_closed (sv_life s)) eqn:E; [|done]. injection Ha as <-.
    by eapply serve_returns_ok.
  - pose proof Hs as []. split; unfold loop_of; simpl; rewrite ?Hc; try done.
    + intros ln. rewrite Hret. apply so_returned0.
    + intros ln pc He Hl Hn. destruct (loop_of s ln) as [pc'|] eqn:E; [|apply Hnone in E; congruence].
      apply (so_closing0 ln pc' He E). intros ->. apply Hret in E. congruence.
Qed.

Lemma not_serving_ok : serving_ok not_serving.
Proof.
  split; unfold loop_of; simpl; intros *; by rewrite ?lookup_empty.
Qed.

Lemma serving_reachable s : rtc serve_step not_serving s -> serving_ok s.
Proof.
  intros Hr. remember not_serving as s0 eqn:E. assert (H0 : serving_ok s0) by (subst; apply not_serving_ok). clear E.
  induction Hr as [|s1 s2 s3 Hst _ IH]; [done | apply IH; by eapply serve_step_ok].
Qed.

Lemma not_serving_life s : rtc serve_step not_serving s -> reachable maxConns (sv_life s).
Proof. apply serve_run_life. Qed.
End Steps.

(** ** A run *)

(** The states of the run below: a listener that accepts; a connection
    accepted; in its slot; the context ended; the server closed. *)
Definition run_life (n : Z) : lifecycle :=
  match n with
  | 0 => mkLifecycle {[0]} ∅ false 0 0 {[0 := Accepting]} ∅ {[0]} ∅ ∅
  | 1 => mkLifecycle {[0]} ∅ false 0 0 {[0 := Handling 1]} {[1 := Accepted]} {[0]} {[1]} ∅
  | 2 => mkLifecycle {[0]} ∅ false 0 1 {[0 := Handling 1]} {[1 := Slotted]} {[0]} {[1]} ∅
  | 3 => mkLifecycle {[0]} ∅ true 0 1 {[0 := Handling 1]} {[1 := Slotted]} ∅ {[1]} {[0 := false]}
  | _ => mkLifecycle ∅ ∅ true 0 0 {[0 := Returned]} {[1 := Over]} ∅ ∅ {[0 := false]}
  end.

(** The context of the only call of [Serve] ends while an accepted connection
    is in its slot but not in [conns] yet: [addConn] finds the server closed,
    and [Serve] returns [ErrServerClosed], though the host never called
    [Close]. *)
Lemma ctx_end_refused isTimeout :
  exists s, rtc (serve_step 1 isTimeout) not_serving s /\ sv_byHost s = false /\ 0 ∈ sv_ended s /\
    sv_results s !! 0 = Some ErrServerClosed.
Proof.
  assert (Hother : forall (n : Z) l1 ended fired, step 1 (run_life n) l1 -> l_closed l1 = l_closed (run_life n) ->
    (exists pc pc', l_loops (run_life n) = {[0 := pc]} /\ l_loops l1 = {[0 := pc']} /\ pc <> Returned /\ pc' <> Returned) ->
    serve_step 1 isTimeout (mkServing (run_life n) ended fired ∅ ∅ false) (mkServing l1 ended fired ∅ ∅ false)).
  { intros n l1 ended fired Hst Hc (pc & pc' & E & E' & Hpc & Hpc'). apply sv_other; [done | done | ..]; unfold loop_of; simpl;
      rewrite ?E, ?E'; intros ln; [| |set_solver]; destruct (decide (ln = 0)) as [->|Hne];
      rewrite ?lookup_singleton_eq, ?lookup_singleton_ne by done; naive_solver. }
  exists (mkServing (run_life 4) {[0]} ∅ ∅ {[0 := ErrServerClosed]} false). split.
  - apply (rtc_l _ _ (mkServing (run_life 0) ∅ ∅ ∅ ∅ false)).
    { exact (sv_tracked 1 isTimeout not_serving 0 _ eq_refl eq_refl). }
    apply (rtc_l _ _ (mkServing (run_life 1) ∅ ∅ ∅ ∅ false)).
    { apply (Hother 0); [exact (serve_accept 1 (run_life 0) 0 1 eq_refl ltac:(set_solver) eq_refl) | done | by eexists _, _]. }
    apply (rtc_l _ _ (mkServing (run_life 2) ∅ ∅ ∅ ∅ false)).
    { apply (Hother 1); [exact (serve_slot 1 (run_life 1) 0 1 eq_refl eq_refl ltac:(simpl; lia)) | done | by eexists _, _]. }
    apply (rtc_l _ _ (mkServing (run_life 2) {[0]} {[0]} ∅ ∅ false)).
    { exact (sv_ctx_end 1 isTimeout (mkServing (run_life 2) ∅ ∅ ∅ ∅ false) 0 ltac:(set_solver)). }
    apply (rtc_l _ _ (mkServing (run_life 3) {[0]} ∅ ∅ ∅ false)).
    { exact (sv_after_func 1 isTimeout (mkServing (run_life 2) {[0]} {[0]} ∅ ∅ false) 0 0 ltac:(set_solver) eq_refl). }
    apply rtc_once.
    exact (sv_refused 1 isTimeout (mkServing (run_life 3) {[0]} ∅ ∅ ∅ false) 0 1 _ eq_refl eq_refl eq_refl).
  - simpl. split; [done|]. split; [set_solver | done].
Qed.
