(* ===== verification/Codec.v ===== *)
(** * Data conversion (model/codec/codec.go, wrapped by model/types.go)

    Big-endian words, signed integers, REAL and STRING.  A [float32] is its
    bit pattern ([math.Float32bits] and [Float32frombits] are the identity on
    it), a Go string its bytes. *)

From S2P Require Import Prelude Go.

Definition DecodeBool (data : bytes) (bit : Z) : res bool :=
  if bit <? 0 then mret false else
  if len data =? 0 then mret false else
  let byteOffset := bit / 8 in
  let bitOffset := bit mod 8 in
  if byteOffset >=? len data then mret false else
  b ← idx data byteOffset;
  mret (negb (Z.land (b2z b) (Z.shiftl 1 bitOffset mod 256) =? 0)).

Definition DecodeByte (data : bytes) : res byte :=
  if len data <? 1 then mret x00 else idx data 0.

Definition DecodeWord (data : bytes) : res Z :=
  if len data <? 2 then mret 0 else Uint16 data.

(** [int16(data[0])<<8 | int16(data[1])]: the shift drops the high bits. *)
Definition DecodeInt (data : bytes) : res Z :=
  if len data <? 2 then mret 0 else
  b0 ← idx data 0; b1 ← idx data 1;
  mret (sint 16 (Z.lor (sint 16 (Z.shiftl (b2z b0) 8)) (b2z b1))).

Definition DecodeDWord (data : bytes) : res Z :=
  if len data <? 4 then mret 0 else Uint32 data.

Definition DecodeDInt (data : bytes) : res Z :=
  if len data <? 4 then mret 0 else
  b0 ← idx data 0; b1 ← idx data 1; b2 ← idx data 2; b3 ← idx data 3;
  mret (sint 32 (Z.lor (Z.lor (Z.lor (sint 32 (Z.shiftl (b2z b0) 24)) (sint 32 (Z.shiftl (b2z b1) 16)))
                         (sint 32 (Z.shiftl (b2z b2) 8))) (b2z b3))).

Definition DecodeReal (data : bytes) : res Z := DecodeDWord data.

Definition DecodeString (data : bytes) : res bytes :=
  if len data <? 2 then mret [] else
  b1 ← idx data 1;
  let actualLen := b2z b1 in
  let actualLen := if 2 + actualLen >? len data then len data - 2 else actualLen in
  slice data 2 (2 + actualLen).

Definition EncodeBool (val : bool) : bytes := if val then [x01] else [x00].
Definition EncodeByte (val : byte) : bytes := [val].
Definition EncodeWord (val : Z) : bytes := put16 val.
Definition EncodeInt (val : Z) : bytes :=
  [z2b (Z.land (Z.shiftr val 8) 255); z2b (Z.land val 255)].
Definition EncodeDWord (val : Z) : bytes := put32 val.
Definition EncodeDInt (val : Z) : bytes :=
  [z2b (Z.land (Z.shiftr val 24) 255); z2b (Z.land (Z.shiftr val 16) 255);
   z2b (Z.land (Z.shiftr val 8) 255); z2b (Z.land val 255)].
Definition EncodeReal (val : Z) : bytes := EncodeDWord val.

Definition EncodeString (val : bytes) (maxLen : Z) : res bytes :=
  let maxLen := if maxLen <? 2 then 2 else maxLen in
  let maxLen := if maxLen >? 256 then 256 else maxLen in
  let maxChars := maxLen - 2 in
  let n := Z.min (len val) maxChars in
  chars ← slice val 0 n;
  mret ([z2b maxChars; z2b n] ++ chars ++ replicate (Z.to_nat (maxChars - n)) x00).

(** ** Lemmas *)

Definition is_i16 (z : Z) : Prop := -32768 <= z < 32768.
Definition is_i32 (z : Z) : Prop := -2147483648 <= z < 2147483648.

Lemma z2b_land255 z : z2b (Z.land z 255) = z2b z.
Proof.
  change 255 with (Z.ones 8). rewrite Z.land_ones by lia. apply z2b_mod.
Qed.

Lemma sint_mod w z z' : 0 < w -> z mod 2 ^ w = z' mod 2 ^ w -> sint w z = sint w z'.
Proof. intros Hw H. unfold sint. by rewrite H. Qed.

Lemma sint_small w z : 0 < w -> - 2 ^ (w - 1) <= z < 2 ^ (w - 1) -> sint w z = z.
Proof.
  intros Hw Hz. unfold sint.
  assert (Hp : 2 ^ w = 2 * 2 ^ (w - 1)) by (rewrite <- Z.pow_succ_r by lia; f_equal; lia).
  destruct (Z.ltb_spec z 0).
  - rewrite <- (Z.mod_unique z (2 ^ w) (-1) (z + 2 ^ w)) by lia. case_if; lia.
  - rewrite Z.mod_small by lia. case_if; lia.
Qed.

(** The bits of a wrapped value below its width are those of the value. *)
Lemma sint_testbit w z i : 0 <= i < w -> Z.testbit (sint w z) i = Z.testbit z i.
Proof.
  intros Hi. unfold sint. rewrite <- (Z.mod_pow2_bits_low z w i) by lia. case_if; [done|].
  rewrite <- (Z.mod_pow2_bits_low (z mod 2 ^ w - 2 ^ w) w i) by lia.
  rewrite <- (Z.mod_pow2_bits_low (z mod 2 ^ w) w i) by lia. f_equal.
  replace (z mod 2 ^ w - 2 ^ w) with (z mod 2 ^ w + (-1) * 2 ^ w) by lia.
  apply Z_mod_plus_full.
Qed.

Lemma bits_mod_eq w x y :
  0 <= w -> (forall i, 0 <= i < w -> Z.testbit x i = Z.testbit y i) -> x mod 2 ^ w = y mod 2 ^ w.
Proof.
  intros Hw H. apply Z.bits_inj'. intros i Hi. destruct (Z.ltb_spec i w).
  - rewrite !Z.mod_pow2_bits_low by lia. apply H. lia.
  - by rewrite !Z.mod_pow2_bits_high by lia.
Qed.

(** [|] on wrapped operands is the wrapped [|] of the operands. *)
Lemma sint_lor w x y : 0 < w -> sint w (Z.lor (sint w x) y) = sint w (Z.lor x y).
Proof.
  intros Hw. apply sint_mod; [done|]. apply bits_mod_eq; [lia|]. intros i Hi.
  by rewrite !Z.lor_spec, sint_testbit.
Qed.

Lemma sint_lor_r w x y : 0 < w -> sint w (Z.lor x (sint w y)) = sint w (Z.lor x y).
Proof. intros Hw. by rewrite Z.lor_comm, sint_lor, Z.lor_comm. Qed.

Lemma DecodeInt_be16 a b rest : DecodeInt (a :: b :: rest) = Ok (sint 16 (be16 a b)).
Proof. unfold DecodeInt. simpl length. if_arith. simpl. by rewrite sint_lor. Qed.

Lemma DecodeDInt_be32 a b c d rest :
  DecodeDInt (a :: b :: c :: d :: rest) = Ok (sint 32 (be32 a b c d)).
Proof.
  unfold DecodeDInt. simpl length. if_arith. simpl. unfold mret, res_ret. f_equal.
  apply sint_mod; [lia|]. apply bits_mod_eq; [lia|]. intros i Hi. unfold be32.
  rewrite !Z.lor_spec, !sint_testbit by lia. by rewrite !orb_assoc.
Qed.

Lemma DecodeInt_EncodeInt v rest : is_i16 v -> DecodeInt (EncodeInt v ++ rest) = Ok v.
Proof.
  unfold is_i16. intros Hv. unfold EncodeInt. simpl. rewrite DecodeInt_be16, !z2b_land255, be16_put16.
  f_equal. rewrite (sint_mod 16 _ v); [apply sint_small; [lia|simpl; lia] | lia |].
  by rewrite Z.mod_mod.
Qed.

Lemma DecodeDInt_EncodeDInt v rest : is_i32 v -> DecodeDInt (EncodeDInt v ++ rest) = Ok v.
Proof.
  unfold is_i32. intros Hv. unfold EncodeDInt. simpl.
  rewrite DecodeDInt_be32, !z2b_land255, be32_put32. f_equal. unfold u32.
  rewrite (sint_mod 32 _ v); [apply sint_small; [lia|simpl; lia] | lia |]. by rewrite Z.mod_mod.
Qed.

Lemma DecodeWord_EncodeWord v rest : is_u16 v -> DecodeWord (EncodeWord v ++ rest) = Ok v.
Proof.
  intros Hv. unfold DecodeWord, EncodeWord. rewrite length_app, length_put16. if_arith.
  rewrite Uint16_put16. f_equal. by apply Z.mod_small.
Qed.

Lemma DecodeDWord_EncodeDWord v rest : is_u32 v -> DecodeDWord (EncodeDWord v ++ rest) = Ok v.
Proof.
  intros Hv. unfold DecodeDWord, EncodeDWord. rewrite length_app, length_put32. if_arith.
  rewrite Uint32_put32. f_equal. by apply u32_small.
Qed.

(** The buffer of a STRING is exactly its declared size. *)
Lemma EncodeString_ok val maxLen :
  let size := Z.min 256 (Z.max 2 maxLen) in
  let n := Z.min (len val) (size - 2) in
  EncodeString val maxLen =
    Ok ([z2b (size - 2); z2b n] ++ take (Z.to_nat n) val ++ replicate (Z.to_nat (size - 2 - n)) x00).
Proof.
  intros size n. unfold EncodeString.
  replace (if (if maxLen <? 2 then 2 else maxLen) >? 256 then 256 else if maxLen <? 2 then 2 else maxLen)
    with size by (unfold size; destruct (maxLen <? 2) eqn:?; case_if; lia).
  fold n. rewrite slice_ok by lia. simpl. by rewrite Z.sub_0_r, drop_0.
Qed.

Lemma DecodeString_EncodeString val maxLen :
  exists buf, EncodeString val maxLen = Ok buf /\
    len buf = Z.min 256 (Z.max 2 maxLen) /\
    DecodeString buf = Ok (take (Z.to_nat (Z.min 256 (Z.max 2 maxLen) - 2)) val).
Proof.
  rewrite EncodeString_ok. cbv zeta. set (size := Z.min 256 (Z.max 2 maxLen)).
  set (n := Z.min (len val) (size - 2)). eexists. split; [done|].
  assert (Hn : 0 <= n <= 254) by lia.
  assert (Htk : length (take (Z.to_nat n) val) = Z.to_nat n) by (rewrite length_take; lia).
  assert (Hl : len ([z2b (size - 2); z2b n] ++ take (Z.to_nat n) val ++
                    replicate (Z.to_nat (size - 2 - n)) x00) = size).
  { rewrite !length_app, Htk, length_replicate. simpl length. lia. }
  split; [done|]. unfold DecodeString. rewrite Hl. if_arith. simpl (idx _ 1 ≫= _).
  rewrite b2z_z2b_small by lia. cbv zeta. if_arith.
  rewrite (slice_app_mid [z2b (size - 2); z2b n] (take (Z.to_nat n) val)
             (replicate (Z.to_nat (size - 2 - n)) x00)); [|done|rewrite Htk; simpl length; lia].
  f_equal. unfold n. destruct (Z.le_gt_cases (len val) (size - 2)).
  - rewrite !take_ge by lia. done.
  - f_equal. lia.
Qed.

Lemma land_pow2_testbit x k : 0 <= k -> negb (Z.land x (2 ^ k) =? 0) = Z.testbit x k.
Proof.
  intros Hk. destruct (Z.testbit x k) eqn:E.
  - apply negb_true_iff, Z.eqb_neq. intros H. apply (f_equal (fun z => Z.testbit z k)) in H.
    by rewrite Z.land_spec, E, Z.pow2_bits_true, Z.bits_0 in H by lia.
  - apply negb_false_iff, Z.eqb_eq. apply Z.bits_inj'. intros i Hi.
    rewrite Z.land_spec, Z.bits_0. destruct (decide (i = k)) as [->|Hne]; [by rewrite E|].
    rewrite Z.pow2_bits_false by lia. apply andb_false_r.
Qed.

(** Bit [bit] of the buffer, false when the buffer does not have it. *)
Lemma DecodeBool_value data bit :
  DecodeBool data bit =
    Ok (match (if bit <? 0 then None else data !! Z.to_nat (bit / 8)) with
        | Some b => Z.testbit (b2z b) (bit mod 8)
        | None => false
        end).
Proof.
  unfold DecodeBool. case_if; [done|]. b2p.
  assert (Hq : 0 <= bit / 8) by (apply Z.div_pos; lia).
  case_if; b2p.
  { destruct data; [done | simpl length in *; lia]. }
  case_if; b2p.
  { rewrite lookup_ge_None_2 by lia. done. }
  destruct (idx_ok data (bit / 8)) as [b Hb]; [lia|]. rewrite Hb. apply idx_lookup in Hb as [_ ->].
  simpl. pose proof (Z.mod_pos_bound bit 8 ltac:(lia)). rewrite Z.shiftl_1_l, Z.mod_small.
  - unfold mret, res_ret. by rewrite land_pow2_testbit by lia.
  - change 256 with (2 ^ 8). split; [lia | apply Z.pow_lt_mono_r; lia].
Qed.
