(* ===== verification/Userdata.v ===== *)
(** * User data and blocks on the wire (wire/pdu_szl.go, wire/pdu_blocks.go)

    The user data exchange (SZL reads and block functions): requests,
    follow-ups, response parameter and data sections; the block functions'
    payloads; the three requests of a block upload.  A Go string read from
    the wire is its bytes. *)

From S2P Require Import Prelude Go WireErrors Header.

Local Open Scope string_scope.

(** ** wire/pdu_szl.go *)

Definition SZLModuleID : Z := 0x0011.
Definition SZLComponentID : Z := 0x001C.
Definition SZLCPUState : Z := 0x0424.
Definition SZLProtectionInfo : Z := 0x0232.
Definition SZLDiagBuffer : Z := 0x00A0.
Definition SZLBlockList : Z := 0x0111.
Definition SZLBlockInfo : Z := 0x0113.

Definition szlIDNames : list (Z * string) :=
  [ (0x0011, "Module identification")
  ; (0x0012, "All characteristics")
  ; (0x0013, "Data records of all memory areas")
  ; (0x0014, "All system areas of a module")
  ; (0x0015, "Data records of all block types")
  ; (0x0016, "Data records of all priority classes")
  ; (0x0017, "All SDBs of a module")
  ; (0x0018, "All data records")
  ; (0x0019, "Status of all LEDs")
  ; (0x001C, "Component identification")
  ; (0x00A0, "Diagnostic buffer")
  ; (0x0111, "Block list (single identification data record)")
  ; (0x0112, "Characteristics of a group")
  ; (0x0113, "Data record for one memory area / Block info")
  ; (0x0114, "One system area")
  ; (0x0115, "Data record of a block type")
  ; (0x0116, "Data record of priority class")
  ; (0x0117, "One single SDB")
  ; (0x0124, "Information about the last mode transition")
  ; (0x0131, "Information about a communication unit")
  ; (0x0132, "Status data for one communication section")
  ; (0x0137, "Details of one Ethernet interface")
  ; (0x0174, "Status of an LED")
  ; (0x0181, "Startup information of all synchronous error OBs")
  ; (0x0182, "Startup events of all synchronous error OBs")
  ; (0x0190, "Information of one DP master system")
  ; (0x0191, "Status information of all modules/racks with wrong type")
  ; (0x01A0, "Most recent diagnostic buffer entries")
  ; (0x0200, "Partial list extract")
  ; (0x021C, "Identification of all components (H system)")
  ; (0x0221, "Data records for specified interrupt")
  ; (0x0222, "Data records for specified interrupt")
  ; (0x0223, "Data records of priority classes being processed")
  ; (0x0224, "Processed mode transition")
  ; (0x0232, "Protection level")
  ; (0x0281, "Startup information of synchronous error OBs (one priority class)")
  ; (0x0282, "Startup events of synchronous error OBs (one priority class)")
  ; (0x0291, "Status information of all faulty modules")
  ; (0x0292, "Actual status of central racks/stations (DP)")
  ; (0x0294, "Actual status of rack/stations (DP/PN)")
  ; (0x0300, "Possible indexes of a partial list extract")
  ; (0x031C, "Identification of one component (redundant CPUs, H system)")
  ; (0x0381, "Startup information of all OBs of one priority class")
  ; (0x0382, "Startup events of all OBs of a priority class")
  ; (0x0391, "Status information of all modules not available")
  ; (0x0392, "State of battery backup of racks")
  ; (0x0424, "Current mode transition")
  ; (0x0492, "State of total backup of racks")
  ; (0x04A0, "Start information of all standard OBs")
  ; (0x0524, "Specified mode transition") ].

Definition SZLIDString (id : Z) : string :=
  match name_lookup szlIDNames id with
  | Some s => s
  | None => "SZL 0x" +:+ fmt_04X id
  end.

Local Close Scope string_scope.

Definition UserdataReq : byte := x11.
Definition UserdataRes : byte := x12.
Definition UserdataSubParam : byte := x44.
Definition UserdataSZL : byte := x01.
Definition UserdataTypeRequest : byte := x40.
Definition UserdataTypeResponse : byte := x80.
Definition UserdataGroupBlock : byte := x03.
Definition UserdataGroupCPU : byte := x04.
Definition UserdataBlockCount : byte := x01.
Definition UserdataBlockList : byte := x02.
Definition UserdataBlockInfo : byte := x03.

(** [t | group&0x0f] *)
Definition type_group (t group : byte) : byte :=
  z2b (Z.lor (b2z t) (Z.land (b2z group) 0x0f)).

Definition EncodeUserdataRequest (pduRef : Z) (group subfunc : byte) (data : bytes) : res bytes :=
  let param := [x00; x01; x12; x04; UserdataReq; type_group UserdataTypeRequest group; subfunc; x00] in
  encodeMessage ROSCTRUserdata pduRef param data.

(** [msg, _ := f()]: the zero value [nil] when there is an error. *)
Definition or_nil (r : res bytes) : bytes := match r with Ok msg => msg | _ => [] end.

Definition userdataRequest (pduRef : Z) (group subfunc : byte) (data : bytes) : bytes :=
  or_nil (EncodeUserdataRequest pduRef group subfunc data).

Definition EncodeUserdataFollowUp (pduRef : Z) (group subfunc seq : byte) : bytes :=
  let param := [x00; x01; x12; x08; UserdataRes; type_group UserdataTypeRequest group; subfunc; seq;
                x00; x00; x00; x00] in
  or_nil (encodeMessage ROSCTRUserdata pduRef param [RetCodeNotAvailable; x00; x00; x00]).

Record UserdataParam := mkUserdataParam {
  ud_Group : byte;
  ud_Subfunction : byte;
  ud_Sequence : byte;
  ud_More : bool;
  ud_ErrorCode : Z;
}.

Definition ParseUserdataParam (param : bytes) : res UserdataParam :=
  let invalid := Err (S7Error x00 x00 ("user data response parameter of " +:+ dec (len param) +:+
                                       " bytes is not 00 01 12 08")) in
  if len param <? 12 then invalid else
  p0 ← idx param 0; p1 ← idx param 1; p2 ← idx param 2; p3 ← idx param 3;
  if (p0 ≠b x00) || (p1 ≠b x01) || (p2 ≠b x12) || (p3 ≠b x08) then invalid else
  p5 ← idx param 5; p6 ← idx param 6; p7 ← idx param 7; p9 ← idx param 9;
  code ← slice param 10 12 ≫= Uint16;
  mret (mkUserdataParam (z2b (Z.land (b2z p5) 0x0f)) p6 p7 (p9 ≠b x00) code).

(** [ReturnCodeError(code)] as the error of a function that returns no value
    with it: a nil error would be a nil value without error, which does not
    happen ([ReturnCodeError_err]). *)
Definition refusal {A} (code : byte) : res A :=
  match ReturnCodeError code with Err e => Err e | _ => Panic end.

Definition ParseUserdataData (data : bytes) : res bytes :=
  if len data <? 4 then Err (S7Error x00 x00 "user data section too short") else
  d0 ← idx data 0;
  if d0 ≠b RetCodeSuccess then refusal d0 else
  n ← slice data 2 4 ≫= Uint16;
  if 4 + n >? len data then
    Err (S7Error x00 x00 ("user data length " +:+ dec n +:+ " past the " +:+ dec (len data - 4) +:+
                          " bytes received"))
  else slice data 4 (4 + n).

Definition EncodeSZLRequest (pduRef szlID szlIndex : Z) : bytes :=
  userdataRequest pduRef UserdataGroupCPU UserdataSZL
    ([RetCodeSuccess; x09] ++ put16 4 ++ put16 szlID ++ put16 szlIndex).

Record SZLResponse := mkSZLResponse {
  szl_ID : Z;
  szl_Index : Z;
  szl_DataLength : Z;
  szl_Data : bytes;
}.

Definition ParseSZLResponse (data : bytes) : res SZLResponse :=
  refused ← (if len data >? 0 then d0 ← idx data 0; mret (if d0 ≠b RetCodeSuccess then Some d0 else None)
             else mret None);
  match refused with
  | Some code => refusal code
  | None =>
  if len data <? 8 then Err (S7Error x00 x00 "SZL response too short") else
  dataLen ← slice data 2 4 ≫= Uint16;
  let stop := 4 + dataLen in
  if stop <? 8 then Err (S7Error x00 x00 "SZL data length too short") else
  if stop >? len data then Err (S7Error x00 x00 "SZL data length mismatch") else
  id ← slice data 4 6 ≫= Uint16;
  index ← slice data 6 8 ≫= Uint16;
  payload ← slice data 8 stop;
  mret (mkSZLResponse id index dataLen payload)
  end.

(** ** wire/pdu_blocks.go *)

Definition BlockTypeOB : byte := x38.
Definition BlockTypeDB : byte := x41.
Definition BlockTypeSDB : byte := x42.
Definition BlockTypeFC : byte := x43.
Definition BlockTypeSFC : byte := x44.
Definition BlockTypeFB : byte := x45.
Definition BlockTypeSFB : byte := x46.

Definition validBlockType (t : byte) : bool :=
  t ∈b [BlockTypeOB; BlockTypeDB; BlockTypeSDB; BlockTypeFC; BlockTypeSFC; BlockTypeFB; BlockTypeSFB].

Definition MaxUploadBlockNumber : Z := 99999.
Definition blockAddressLen : Z := 8.

(** fmt's [%05d] of a number in 0..99999. *)
Definition fmt_05d (n : Z) : bytes :=
  (fun p => z2b (48 + n / p mod 10)) <$> [10000; 1000; 100; 10; 1].

Definition blockAddress (blockType : byte) (blockNum : Z) : res bytes :=
  if negb (validBlockType blockType) then
    Err (errorf1 "" (Sentinel ErrUnknownBlockType) (": 0x" +:+ fmt_02X blockType))
  else if (blockNum <? 0) || (blockNum >? MaxUploadBlockNumber) then
    Err (errorf1 "" (Sentinel ErrOutOfRange)
           (": block number " +:+ dec blockNum +:+ " not in 0.." +:+ dec MaxUploadBlockNumber))
  else mret ([x30; blockType] ++ fmt_05d blockNum ++ [x41]).

Definition EncodeBlockCountRequest (pduRef : Z) : bytes :=
  userdataRequest pduRef UserdataGroupBlock UserdataBlockCount [RetCodeNotAvailable; x00; x00; x00].

Record BlockCount := mkBlockCount { bc_BlockType : byte; bc_Count : Z }.

(** The loop of [ParseBlockCountResponse]; [fuel] bounds its passes and the
    payload's length is enough. *)
Fixpoint blockCounts (fuel : nat) (payload : bytes) (off : Z) : res (list BlockCount) :=
  match fuel with
  | O => mret []
  | S fuel =>
      if off <? len payload then
        t ← idx payload (off + 1);
        n ← slice_from payload (off + 2) ≫= Uint16;
        rest ← blockCounts fuel payload (off + 4);
        mret (mkBlockCount t n :: rest)
      else mret []
  end.

Definition ParseBlockCountResponse (payload : bytes) : res (list BlockCount) :=
  if negb (len payload mod 4 =? 0) then
    Err (Plain ("block count data length " +:+ dec (len payload) +:+ " not multiple of 4"))
  else blockCounts (length payload) payload 0.

Definition EncodeBlockListRequest (pduRef : Z) (blockType : byte) : bytes :=
  userdataRequest pduRef UserdataGroupBlock UserdataBlockList
    [RetCodeSuccess; x09; x00; x02; x30; blockType].

Record BlockListEntry := mkBlockListEntry {
  be_BlockType : byte;
  be_BlockNumber : Z;
  be_Language : byte;
  be_Flags : byte;
}.

(** The loop of [ParseBlockListResponse]; the type stays the zero value. *)
Fixpoint blockEntries (fuel : nat) (payload : bytes) (off : Z) : res (list BlockListEntry) :=
  match fuel with
  | O => mret []
  | S fuel =>
      if off <? len payload then
        n ← slice payload off (off + 2) ≫= Uint16;
        flags ← idx payload (off + 2);
        lang ← idx payload (off + 3);
        rest ← blockEntries fuel payload (off + 4);
        mret (mkBlockListEntry x00 n lang flags :: rest)
      else mret []
  end.

Definition ParseBlockListResponse (payload : bytes) : res (list BlockListEntry) :=
  if negb (len payload mod 4 =? 0) then
    Err (Plain ("block list data length " +:+ dec (len payload) +:+ " not multiple of 4"))
  else blockEntries (length payload) payload 0.

Definition EncodeBlockInfoRequest (pduRef : Z) (blockType : byte) (blockNum : Z) : res bytes :=
  addr ← blockAddress blockType blockNum;
  let data := [RetCodeSuccess; x09; x00; z2b blockAddressLen] ++ addr in
  mret (userdataRequest pduRef UserdataGroupBlock UserdataBlockInfo data).

Record BlockInfoData := mkBlockInfoData {
  bi_Flags : byte;
  bi_Language : byte;
  bi_SubBlockType : byte;
  bi_Number : Z;
  bi_LoadMemory : Z;
  bi_Security : Z;
  bi_SSBLength : Z;
  bi_AddLength : Z;
  bi_LocalData : Z;
  bi_MC7Size : Z;
  bi_Author : bytes;
  bi_Family : bytes;
  bi_Name : bytes;
  bi_Version : string;
  bi_Checksum : Z;
}.

Definition blockInfoSize : Z := 70.

(** [strings.TrimRight(s, "\x00 ")]: the cutset is ASCII, so bytes are cut. *)
Fixpoint trim_front (l : bytes) : bytes :=
  match l with
  | b :: l' => if (b =b x00) || (b =b x20) then trim_front l' else l
  | [] => []
  end.
Definition TrimRight (s : bytes) : bytes := rev (trim_front (rev s)).

Definition ParseBlockInfoResponse (b : bytes) : res BlockInfoData :=
  if len b <? blockInfoSize then
    Err (Plain ("block info data too short: need " +:+ dec blockInfoSize +:+ " bytes, got " +:+ dec (len b)))
  else
  flags ← idx b 9; lang ← idx b 10; sub ← idx b 11;
  number ← slice b 12 14 ≫= Uint16;
  load ← slice b 14 18 ≫= Uint32;
  security ← slice b 18 22 ≫= Uint32;
  ssb ← slice b 34 36 ≫= Uint16;
  add ← slice b 36 38 ≫= Uint16;
  localData ← slice b 38 40 ≫= Uint16;
  mc7 ← slice b 40 42 ≫= Uint16;
  author ← slice b 42 50;
  family ← slice b 50 58;
  name ← slice b 58 66;
  v ← idx b 66;
  checksum ← slice b 68 70 ≫= Uint16;
  mret (mkBlockInfoData flags lang sub number load security ssb add localData mc7
          (TrimRight author) (TrimRight family) (TrimRight name)
          (dec (Z.shiftr (b2z v) 4) +:+ "." +:+ dec (Z.land (b2z v) 0x0f)) checksum).

Definition EncodeStartUploadRequest (pduRef : Z) (blockType : byte) (blockNum : Z) : res bytes :=
  addr ← blockAddress blockType blockNum;
  let param := [FuncUploadStart; x00; x00; x00; x00; x00; x00; x00; z2b (1 + blockAddressLen); x5f] ++ addr in
  encodeMessage ROSCTRJob pduRef param [].

Record StartUpload := mkStartUpload { su_UploadID : Z; su_Length : Z }.

(** [strconv.Atoi] on 64-bit integers: an optional sign and decimal digits,
    in range. *)
Fixpoint atoi_digits (l : bytes) (acc : Z) : option Z :=
  match l with
  | [] => Some acc
  | b :: l =>
      let d := b2z b - 48 in
      if (0 <=? d) && (d <=? 9) then atoi_digits l (acc * 10 + d) else None
  end.

Definition Atoi (s : bytes) : option Z :=
  let '(neg, digits) :=
    match s with
    | b :: l => if b =b x2d then (true, l) else if b =b x2b then (false, l) else (false, s)
    | [] => (false, [])
    end in
  match digits with
  | [] => None
  | _ =>
      n ← atoi_digits digits 0;
      let v := if neg : bool then - n else n in
      if (- 2 ^ 63 <=? v) && (v <? 2 ^ 63) then Some v else None
  end.

Definition ParseStartUploadResponse (param : bytes) : res StartUpload :=
  if len param <? 8 then Err (S7Error x00 x00 "invalid start upload response") else
  p0 ← idx param 0;
  if p0 ≠b FuncUploadStart then Err (S7Error x00 x00 "invalid start upload response") else
  id ← slice param 4 8 ≫= Uint32;
  if len param >? 8 then
    p8 ← idx param 8;
    let n := b2z p8 in
    if 9 + n >? len param then Err (S7Error x00 x00 "invalid start upload block length") else
    s ← slice param 9 (9 + n);
    mret (mkStartUpload id (default (-1) (Atoi s)))
  else mret (mkStartUpload id (-1)).

Definition uploadSessionRequest (pduRef : Z) (fn : byte) (uploadID : Z) : bytes :=
  let param := [fn; x00; x00; x00] ++ put32 uploadID in
  s7Header ROSCTRJob pduRef 8 0 ++ param.

Definition EncodeUploadRequest (pduRef uploadID : Z) : bytes :=
  uploadSessionRequest pduRef FuncUpload uploadID.

Definition EncodeEndUploadRequest (pduRef uploadID : Z) : bytes :=
  uploadSessionRequest pduRef FuncUploadEnd uploadID.

Record UploadChunk := mkUploadChunk { uc_Done : bool; uc_Data : bytes }.

Definition ParseUploadResponse (param data : bytes) : res UploadChunk :=
  if len param <? 2 then Err (S7Error x00 x00 "invalid upload response") else
  p0 ← idx param 0;
  if p0 ≠b FuncUpload then Err (S7Error x00 x00 "invalid upload response") else
  if len data <? 4 then Err (Plain "upload response data too short") else
  n ← slice data 0 2 ≫= Uint16;
  if 4 + n >? len data then
    Err (Plain ("upload response length overrun: need " +:+ dec (4 + n) +:+ " bytes, have " +:+ dec (len data)))
  else
  p1 ← idx param 1;
  d ← slice data 4 (4 + n);
  mret (mkUploadChunk (Z.land (b2z p1) 0x01 =? 0) d).

(** ** Lemmas: requests *)

Lemma userdataRequest_eq ref group subfunc data :
  len data <= MaxUint16 ->
  userdataRequest ref group subfunc data =
  s7Header ROSCTRUserdata ref 8 (len data) ++
    [x00; x01; x12; x04; UserdataReq; type_group UserdataTypeRequest group; subfunc; x00] ++ data.
Proof.
  intros H. unfold userdataRequest, EncodeUserdataRequest.
  by rewrite encodeMessage_ok by (unfold MaxUint16 in *; simpl length; lia).
Qed.

Lemma length_userdataRequest ref group subfunc data :
  len data <= MaxUint16 -> len (userdataRequest ref group subfunc data) = 18 + len data.
Proof. intros H. rewrite userdataRequest_eq by done. rewrite !length_app, length_s7Header. simpl length. lia. Qed.

Lemma length_EncodeUserdataFollowUp ref group subfunc seq :
  len (EncodeUserdataFollowUp ref group subfunc seq) = 26.
Proof. done. Qed.

Lemma length_uploadSessionRequest ref fn id : len (uploadSessionRequest ref fn id) = 18.
Proof. done. Qed.

(** ** Lemmas: no parser of the two files indexes out of range *)

Lemma no_panic_refusal {A} code : code <> RetCodeSuccess -> no_panic (@refusal A code).
Proof. intros H. unfold refusal. rewrite ReturnCodeError_err by done. np. Qed.

Lemma ParseUserdataParam_no_panic param : no_panic (ParseUserdataParam param).
Proof. unfold ParseUserdataParam. cbv zeta. repeat np_step. Qed.

Lemma ParseUserdataData_no_panic data : no_panic (ParseUserdataData data).
Proof.
  unfold ParseUserdataData. np_step; [np|]. np_step; [np_step|]. np_step.
  - apply no_panic_refusal. by b2p.
  - repeat np_step.
Qed.

Lemma ParseSZLResponse_no_panic data : no_panic (ParseSZLResponse data).
Proof.
  unfold ParseSZLResponse. apply no_panic_bind; [repeat np_step|].
  intros [code|] H.
  - apply no_panic_refusal. case_if_in H; [|done]. apply bind_Ok_inv in H as (d0 & _ & H).
    case_if_in H; [|done]. injection H as <-. by b2p.
  - cbv zeta. repeat np_step.
Qed.

Lemma blockCounts_no_panic fuel payload off :
  0 <= off -> (4 | len payload) -> (4 | off) -> no_panic (blockCounts fuel payload off).
Proof.
  revert off. induction fuel as [|fuel IH]; intros off Hoff Hlen [q Hq]; cbn [blockCounts]; [np|].
  destruct Hlen as [k Hk]. case_if; [|np]. b2p.
  apply no_panic_bind; [np_step|]. intros t _. rewrite slice_from_ok by lia. rewrite bind_Ok.
  apply no_panic_bind.
  { unfold Uint16. repeat (apply no_panic_bind; [apply no_panic_idx; rewrite length_drop; lia|intros ? _]). np. }
  intros n _. apply no_panic_bind; [|intros; np]. apply IH; [lia | by exists k | exists (q + 1); lia].
Qed.

Lemma blockEntries_no_panic fuel payload off :
  0 <= off -> (4 | len payload) -> (4 | off) -> no_panic (blockEntries fuel payload off).
Proof.
  revert off. induction fuel as [|fuel IH]; intros off Hoff Hlen [q Hq]; cbn [blockEntries]; [np|].
  destruct Hlen as [k Hk]. case_if; [|np]. b2p.
  do 3 (apply no_panic_bind; [np_step|intros ? _]).
  apply no_panic_bind; [|intros; np]. apply IH; [lia | by exists k | exists (q + 1); lia].
Qed.

Lemma ParseBlockCountResponse_no_panic payload : no_panic (ParseBlockCountResponse payload).
Proof.
  unfold ParseBlockCountResponse. np_step; [np|]. b2p. apply blockCounts_no_panic; [lia | | by exists 0].
  by apply Z.mod_divide.
Qed.

Lemma ParseBlockListResponse_no_panic payload : no_panic (ParseBlockListResponse payload).
Proof.
  unfold ParseBlockListResponse. np_step; [np|]. b2p. apply blockEntries_no_panic; [lia | | by exists 0].
  by apply Z.mod_divide.
Qed.

Lemma no_panic_slice_Uint32 (l : bytes) i j :
  0 <= i -> j = i + 4 -> j <= len l -> no_panic (slice l i j ≫= Uint32).
Proof. intros. destruct (Uint32_slice_ok l i j) as (v & -> & _); [done..|np]. Qed.

Lemma ParseBlockInfoResponse_no_panic b : no_panic (ParseBlockInfoResponse b).
Proof.
  unfold ParseBlockInfoResponse, blockInfoSize. np_step; [np|]. b2p.
  repeat first [ apply no_panic_slice_Uint16; lia | apply no_panic_slice_Uint32; lia
               | apply no_panic_bind; [|intros ? _] | np_step ].
Qed.

Lemma ParseStartUploadResponse_no_panic param : no_panic (ParseStartUploadResponse param).
Proof.
  unfold ParseStartUploadResponse. np_step; [np|]. b2p.
  repeat first [ apply no_panic_slice_Uint32; lia | progress (cbv zeta) | np_step
               | byte_ranges; np_step ].
Qed.

Lemma ParseUploadResponse_no_panic param data : no_panic (ParseUploadResponse param data).
Proof. unfold ParseUploadResponse. repeat np_step. Qed.

Lemma blockAddress_no_panic t n : no_panic (blockAddress t n).
Proof. unfold blockAddress. repeat np_step. Qed.

#[export] Hint Resolve ParseUserdataParam_no_panic ParseUserdataData_no_panic ParseSZLResponse_no_panic
  ParseBlockCountResponse_no_panic ParseBlockListResponse_no_panic ParseBlockInfoResponse_no_panic
  ParseStartUploadResponse_no_panic ParseUploadResponse_no_panic blockAddress_no_panic : go.

Lemma EncodeBlockInfoRequest_no_panic ref t n : no_panic (EncodeBlockInfoRequest ref t n).
Proof. unfold EncodeBlockInfoRequest. apply no_panic_bind; [auto with go|intros; np]. Qed.

Lemma EncodeStartUploadRequest_no_panic ref t n : no_panic (EncodeStartUploadRequest ref t n).
Proof. unfold EncodeStartUploadRequest. apply no_panic_bind; [auto with go|intros; cbv zeta; auto with go]. Qed.
#[export] Hint Resolve EncodeBlockInfoRequest_no_panic EncodeStartUploadRequest_no_panic : go.

(** ** Lemmas: what the parsers read back *)

(** The parameter and data section of a user data response, as documented at
    the constants of wire/pdu_szl.go. *)
Definition userdata_param (group subfunc seq : byte) (more : bool) : bytes :=
  [x00; x01; x12; x08; UserdataRes; type_group UserdataTypeResponse group; subfunc; seq; x00;
   if more then x01 else x00; x00; x00].

Definition userdata_data (payload : bytes) : bytes :=
  [RetCodeSuccess; x09] ++ put16 (len payload) ++ payload.

Lemma type_group_group t group :
  Z.land (b2z t) 0x0f = 0 -> b2z group < 16 -> z2b (Z.land (b2z (type_group t group)) 0x0f) = group.
Proof.
  intros Ht Hg. byte_ranges. unfold type_group. change 0x0f with (Z.ones 4) in *.
  rewrite b2z_z2b. change 256 with (2 ^ 8). rewrite <- !Z.land_ones by lia.
  rewrite <- Z.land_assoc, (Z.land_comm (Z.ones 8)). change (Z.land (Z.ones 4) (Z.ones 8)) with (Z.ones 4).
  rewrite Z.land_lor_distr_l, Ht, Z.lor_0_l, <- Z.land_assoc, Z.land_diag, Z.land_ones by lia.
  rewrite Z.mod_small by (simpl; lia). apply z2b_b2z.
Qed.

Lemma ParseUserdataParam_answer group subfunc seq more :
  b2z group < 16 ->
  ParseUserdataParam (userdata_param group subfunc seq more) =
  Ok (mkUserdataParam group subfunc seq more 0).
Proof.
  intros Hg. unfold ParseUserdataParam, userdata_param. cbv zeta. simpl length. if_arith.
  rewrite slice_Uint16 by lia. simpl. rewrite type_group_group by done.
  do 3 f_equal. by destruct more.
Qed.

Lemma ParseUserdataData_answer payload :
  len payload <= MaxUint16 -> ParseUserdataData (userdata_data payload) = Ok payload.
Proof.
  unfold MaxUint16. intros H. unfold ParseUserdataData, userdata_data. simpl length.
  if_arith. simpl. rewrite slice_Uint16 by lia. simpl.
  rewrite be16_put16, Z.mod_small by lia. if_arith.
  pose proof (slice_app_mid (RetCodeSuccess :: x09 :: put16 (len payload)) payload [] 4 (4 + len payload)) as Hs.
  rewrite app_nil_r in Hs. by apply Hs.
Qed.

(** The payload of a user data section is inside it. *)
Lemma ParseUserdataData_inv data payload :
  ParseUserdataData data = Ok payload ->
  exists n, (slice data 2 4 ≫= Uint16) = Ok n /\ len payload = n /\ 4 + n <= len data /\
    idx data 0 = Ok RetCodeSuccess /\ payload = take (Z.to_nat n) (drop 4 data).
Proof.
  unfold ParseUserdataData. case_if; [done|]. intros H.
  apply bind_Ok_inv in H as (d0 & H0 & H). case_if_in H.
  { unfold refusal in H. by destruct (ReturnCodeError d0). }
  apply bind_Ok_inv in H as (n & Hn & H). case_if_in H; [done|].
  apply slice_Ok_inv in H as (? & ? & ? & ->). exists n. b2p.
  split; [done|]. split; [lia|]. split; [lia|]. split; [by rewrite H0; do 2 f_equal|].
  f_equal. lia.
Qed.

(** An SZL response is read as its user data payload after the first four
    bytes, which are the ID and the index. *)
Lemma ParseSZLResponse_payload data resp payload :
  ParseSZLResponse data = Ok resp -> ParseUserdataData data = Ok payload ->
  4 <= len payload /\ szl_Data resp = drop 4 payload /\ szl_DataLength resp = len payload /\
  Uint16 payload = Ok (szl_ID resp) /\ Uint16 (drop 2 payload) = Ok (szl_Index resp).
Proof.
  intros H Hp. apply ParseUserdataData_inv in Hp as (n & Hn & Hl & Hle & H0 & ->).
  unfold ParseSZLResponse in H. apply bind_Ok_inv in H as (o & Ho & H).
  destruct o as [code|]; [unfold refusal in H; by destruct (ReturnCodeError code)|].
  case_if_in H; [done|]. apply bind_Ok_inv in H as (n' & Hn' & H).
  rewrite Hn in Hn'. injection Hn' as <-. cbv zeta in H.
  case_if_in H; [done|]. case_if_in H; [done|].
  apply bind_Ok_inv in H as (id & Hid & H). apply bind_Ok_inv in H as (index & Hidx & H).
  apply bind_Ok_inv in H as (p & Hs & [= <-]). apply slice_Ok_inv in Hs as (? & ? & ? & ->). b2p. cbn.
  do 8 (destruct data as [|? data]; [simpl length in *; lia|]).
  rewrite slice_Uint16 in Hid, Hidx by lia. simpl in Hid, Hidx.
  replace (Z.to_nat n) with (S (S (S (S (Z.to_nat (n - 4)))))) by lia. simpl.
  simpl length in *. rewrite !drop_0. split; [lia|]. split; [f_equal; lia|]. split; [rewrite length_take; lia|]. done.
Qed.

(** One entry of a block count and of a block list payload. *)
Definition block_count (c : BlockCount) : bytes := [x30; bc_BlockType c] ++ put16 (bc_Count c).
Definition block_entry (e : BlockListEntry) : bytes :=
  put16 (be_BlockNumber e) ++ [be_Flags e; be_Language e].

Lemma length_mjoin_const {A} (f : A -> bytes) n l :
  (forall x, length (f x) = n) -> length (mjoin (f <$> l)) = (n * length l)%nat.
Proof.
  intros Hf. induction l as [|x l IH]; [simpl; lia|].
  change (length (f x ++ mjoin (f <$> l)) = (n * length (x :: l))%nat).
  rewrite length_app, Hf, IH. simpl length. lia.
Qed.

Lemma blockCounts_encode l : forall fuel pre,
  Forall (fun c => is_u16 (bc_Count c)) l -> (length l <= fuel)%nat ->
  blockCounts fuel (pre ++ mjoin (block_count <$> l)) (len pre) = Ok l.
Proof.
  induction l as [|c l IH]; intros fuel pre Hl Hf.
  - destruct fuel; cbn [blockCounts]; [done|]. simpl. rewrite app_nil_r. by if_arith.
  - destruct fuel as [|fuel]; [simpl in *; lia|]. apply Forall_cons in Hl as [Hc Hl].
    cbn [blockCounts fmap list_fmap mjoin list_join]. rewrite length_app at 1.
    assert (Hlen : length (block_count c) = 4%nat) by done.
    rewrite length_app, Hlen. if_arith. rewrite idx_app_off by lia.
    rewrite (slice_from_ok _ (len pre + 2)) by (rewrite !length_app, Hlen; lia).
    replace (Z.to_nat (len pre + 2)) with (length pre + 2)%nat by lia.
    rewrite <- drop_drop, drop_app_exact by done. simpl (drop 2 _). simpl (idx _ 1).
    rewrite bind_Ok. change (Uint16 _) with (Ok (be16 (z2b (Z.shiftr (bc_Count c) 8)) (z2b (bc_Count c)))).
    rewrite be16_put16. cbn [mbind res_bind idx].
    change (idx _ 1) with (Ok (bc_BlockType c)). rewrite !bind_Ok.
    replace (len pre + 4) with (len (pre ++ block_count c)) by (rewrite length_app, Hlen; lia).
    rewrite app_assoc. rewrite IH; [|done|simpl in *; lia]. rewrite bind_Ok.
    unfold is_u16 in Hc. rewrite Z.mod_small by lia. by destruct c.
Qed.

Lemma blockEntries_encode l : forall fuel pre,
  Forall (fun e => is_u16 (be_BlockNumber e) /\ be_BlockType e = x00) l -> (length l <= fuel)%nat ->
  blockEntries fuel (pre ++ mjoin (block_entry <$> l)) (len pre) = Ok l.
Proof.
  induction l as [|e l IH]; intros fuel pre Hl Hf.
  - destruct fuel; cbn [blockEntries]; [done|]. simpl. rewrite app_nil_r. by if_arith.
  - destruct fuel as [|fuel]; [simpl in *; lia|]. apply Forall_cons in Hl as [[He Ht] Hl].
    cbn [blockEntries fmap list_fmap mjoin list_join]. rewrite length_app at 1.
    assert (Hlen : length (block_entry e) = 4%nat) by done.
    rewrite length_app, Hlen. if_arith. rewrite slice_Uint16 by lia.
    replace (idx (pre ++ block_entry e ++ mjoin (block_entry <$> l)) (len pre))
      with (idx (pre ++ block_entry e ++ mjoin (block_entry <$> l)) (len pre + 0)) by (f_equal; lia).
    rewrite !idx_app_off by lia.
    change (idx (block_entry e ++ _) 0) with (Ok (z2b (Z.shiftr (be_BlockNumber e) 8))).
    change (idx (block_entry e ++ _) 1) with (Ok (z2b (be_BlockNumber e))).
    change (idx (block_entry e ++ _) 2) with (Ok (be_Flags e)).
    change (idx (block_entry e ++ _) 3) with (Ok (be_Language e)).
    rewrite !bind_Ok, be16_put16.
    replace (len pre + 4) with (len (pre ++ block_entry e)) by (rewrite length_app, Hlen; lia).
    rewrite app_assoc. rewrite IH; [|done|simpl in *; lia]. rewrite bind_Ok.
    unfold is_u16 in He. rewrite Z.mod_small by lia. destruct e. simpl in *. by subst.
Qed.

Lemma ParseBlockCountResponse_encode l :
  Forall (fun c => is_u16 (bc_Count c)) l ->
  ParseBlockCountResponse (mjoin (block_count <$> l)) = Ok l.
Proof.
  intros Hl. unfold ParseBlockCountResponse. pose proof (length_mjoin_const block_count 4 l ltac:(done)) as Hlen.
  rewrite Hlen. replace (Z.of_nat (4 * length l) mod 4) with 0 by (Z.div_mod_to_equations; lia).
  apply (blockCounts_encode l _ []); [done | lia].
Qed.

Lemma ParseBlockListResponse_encode l :
  Forall (fun e => is_u16 (be_BlockNumber e) /\ be_BlockType e = x00) l ->
  ParseBlockListResponse (mjoin (block_entry <$> l)) = Ok l.
Proof.
  intros Hl. unfold ParseBlockListResponse. pose proof (length_mjoin_const block_entry 4 l ltac:(done)) as Hlen.
  rewrite Hlen. replace (Z.of_nat (4 * length l) mod 4) with 0 by (Z.div_mod_to_equations; lia).
  apply (blockEntries_encode l _ []); [done | lia].
Qed.

(** ** Lemmas: block addresses *)

Definition digit (n p : Z) : byte := z2b (48 + n / p mod 10).

Lemma digit_value n p : 0 < p -> b2z (digit n p) = 48 + n / p mod 10.
Proof.
  intros. unfold digit. apply b2z_z2b_small. pose proof (Z.mod_pos_bound (n / p) 10). lia.
Qed.

Lemma digits_value n :
  0 <= n <= 99999 ->
  n = (n / 10000 mod 10) * 10000 + (n / 1000 mod 10) * 1000 + (n / 100 mod 10) * 100 + (n / 10 mod 10) * 10 + n / 1 mod 10.
Proof. intros. Z.div_mod_to_equations. lia. Qed.

Lemma Atoi_fmt_05d n : 0 <= n <= 99999 -> Atoi (fmt_05d n) = Some n.
Proof.
  intros Hn. unfold fmt_05d. simpl fmap.
  fold (digit n 10000) (digit n 1000) (digit n 100) (digit n 10) (digit n 1).
  assert (Hd : forall p, 0 < p -> 48 <= b2z (digit n p) <= 57).
  { intros p Hp. rewrite digit_value by done. pose proof (Z.mod_pos_bound (n / p) 10). lia. }
  unfold Atoi. rewrite !beq_ne; [|intros E; pose proof (Hd 10000 ltac:(lia)) as K; rewrite E in K; (change (b2z x2d) with 45 in K || change (b2z x2b) with 43 in K); lia..].
  cbn [atoi_digits].
  do 5 (match goal with |- context [digit n ?p] =>
    let v := fresh "v" in let E := fresh "E" in
    pose proof (Hd p ltac:(lia)); pose proof (digit_value n p ltac:(lia)) as E; set (v := digit n p) in * end).
  do 5 (if_arith). cbn. pose proof (digits_value n Hn).
  match goal with |- context [if ?c then _ else _] => replace c with true by lia end. f_equal. lia.
Qed.

Lemma blockAddress_ok t n :
  validBlockType t = true -> 0 <= n <= MaxUploadBlockNumber ->
  blockAddress t n = Ok ([x30; t] ++ fmt_05d n ++ [x41]).
Proof. intros Ht Hn. unfold blockAddress, MaxUploadBlockNumber in *. rewrite Ht. simpl negb. cbv iota. by if_arith. Qed.

Lemma blockAddress_inv t n a :
  blockAddress t n = Ok a ->
  validBlockType t = true /\ 0 <= n <= MaxUploadBlockNumber /\ a = [x30; t] ++ fmt_05d n ++ [x41].
Proof.
  unfold blockAddress. case_if; [done|]. case_if; [done|]. intros [= <-]. b2p. split; [done|]. split; [lia|done].
Qed.

Lemma length_blockAddress t n a : blockAddress t n = Ok a -> len a = blockAddressLen.
Proof. by intros (_ & _ & ->)%blockAddress_inv. Qed.

Lemma length_EncodeStartUploadRequest ref t n req :
  EncodeStartUploadRequest ref t n = Ok req -> len req = 28.
Proof.
  unfold EncodeStartUploadRequest. intros H. apply bind_Ok_inv in H as (a & Ha & H).
  apply length_blockAddress in Ha. cbv zeta in H. apply encodeMessage_inv in H as (_ & _ & ->).
  rewrite !length_app, length_s7Header. unfold blockAddressLen in Ha. simpl length. lia.
Qed.
