(* ===== verification/Inspect.v ===== *)
(** * Packet inspection (wire/inspect.go)

    The summary of one COTP TPDU.  [cotp.Decode] is go-cotp's: a parameter that
    gives an error, or the type of the TPDU and the user data of a data
    TPDU. *)

From S2P Require Import Prelude Go WireErrors Header.

Local Open Scope string_scope.
Local Open Scope list_scope.
Local Open Scope Z_scope.

Record FrameSummary := mkFrameSummary {
  TPDULength : Z;
  COTPType : byte;
  fs_ROSCTR : byte;
  Function : byte;
  fs_ParamLength : Z;
  fs_DataLength : Z;
  fs_ErrorClass : byte;
  fs_ErrorCode : byte;
}.

Section Inspect.
Variable Decode : bytes -> error + byte * option bytes.

Definition InspectTPDU (tpdu : bytes) : res FrameSummary :=
  match Decode tpdu with
  | inl err => Err (errorf1 "parse cotp: " err "")
  | inr (typ, dt) =>
      match default [] dt with
      | x32 :: _ =>
          match ParseS7Header (default [] dt) with
          | Err err => Err (errorf1 "parse s7 header: " err "")
          | Panic => Panic
          | Ok (h, rest) =>
              fn ← (if len rest >? 0 then idx rest 0 else Ok x00);
              Ok (mkFrameSummary (len tpdu) typ (ROSCTR h) fn (ParamLength h) (DataLength h) (ErrorClass h) (ErrorCode h))
          end
      | _ => Ok (mkFrameSummary (len tpdu) typ x00 x00 0 0 x00 x00)
      end
  end.

Lemma InspectTPDU_no_panic tpdu : no_panic (InspectTPDU tpdu).
Proof.
  unfold InspectTPDU. destruct (Decode tpdu) as [err|[typ dt]]; [np|].
  destruct (default [] dt) as [|b l]; [np|]. destruct b; try np.
  pose proof (ParseS7Header_no_panic (x32 :: l)) as Hp. destruct (ParseS7Header (x32 :: l)) as [[h rest]|e|]; [|np|done].
  destruct rest; simpl; np.
Qed.

(** The summary of a TPDU that carries a message: the fields it was encoded
    with and the function code of its parameters. *)
Lemma InspectTPDU_message tpdu typ r f param data msg :
  IsAckData r || IsAck r = false -> is_u16 f ->
  encodeMessage r f param data = Ok msg -> Decode tpdu = inr (typ, Some msg) ->
  InspectTPDU tpdu =
    Ok (mkFrameSummary (len tpdu) typ r (match param ++ data with b :: _ => b | [] => x00 end) (len param) (len data) x00 x00).
Proof.
  intros Hr Hf (Hp & Hd & ->)%encodeMessage_inv HD. unfold MaxUint16 in *. unfold InspectTPDU. rewrite HD. cbn [default from_option id].
  unfold s7Header at 1. cbn [app]. cbv iota.
  rewrite ParseS7Header_plain; [|done|done|unfold is_u16; lia..|rewrite length_app; lia].
  by destruct (param ++ data).
Qed.

(** A TPDU without user data, or with that of another protocol, has no S7
    fields; a broken S7 header is an error. *)
Lemma InspectTPDU_foreign tpdu typ dt :
  Decode tpdu = inr (typ, dt) -> head (default [] dt) <> Some x32 ->
  InspectTPDU tpdu = Ok (mkFrameSummary (len tpdu) typ x00 x00 0 0 x00 x00).
Proof.
  intros HD Hh. unfold InspectTPDU. rewrite HD. destruct (default [] dt) as [|b l]; [done|]. by destruct b.
Qed.
End Inspect.
