(* ===== verification/Client.v ===== *)
(** * Client state, transport and connection (client/options.go, client/handshake.go, client/client.go)

    The client is a state-passing program over an environment of type [W]:
    package net, go-cotp, package context and the clock, which are not part
    of the repository.  [Transport W] lists the operations of it the client
    calls; an operation returns its error as a value and the next environment,
    so a theorem stated for every [Transport] holds for every behaviour of the
    network.  [M W A] is the type of a client operation: from the client's
    state and the environment to a Go result and the state after it, which
    is kept on the error paths too.  The mutexes are not modelled: [reqMu]
    serialises the operations, each of which is a function here.  Logging is
    left out. *)

From S2P Require Import Prelude Go WireErrors Header.

(** ** Options *)

Record options := mkOptions {
  o_port : Z;
  o_rack : Z;
  o_slot : Z;
  o_localTSAP : Z;
  o_remoteTSAP : Z;
  o_useExplicit : bool;
  o_autoRackSlot : bool;
  o_bruteRackSlot : bool;
  o_timeout : Z;
  o_rateLimit : Z;
  o_maxPDU : Z;
  o_maxAmqCalling : Z;
  o_maxAmqCalled : Z;
}.

(** Nanoseconds in a second ([time.Second]). *)
Definition Second : Z := 1000000000.

Definition defaultOptions : options :=
  {| o_port := 102; o_rack := 0; o_slot := 1; o_localTSAP := 0; o_remoteTSAP := 0;
     o_useExplicit := false; o_autoRackSlot := false; o_bruteRackSlot := false;
     o_timeout := 5 * Second; o_rateLimit := 0;
     o_maxPDU := 480; o_maxAmqCalling := 1; o_maxAmqCalled := 1 |}.

Definition Option := options -> options.

Definition WithPort (port : Z) : Option := fun o =>
  {| o_port := port; o_rack := o_rack o; o_slot := o_slot o; o_localTSAP := o_localTSAP o;
     o_remoteTSAP := o_remoteTSAP o; o_useExplicit := o_useExplicit o;
     o_autoRackSlot := o_autoRackSlot o; o_bruteRackSlot := o_bruteRackSlot o;
     o_timeout := o_timeout o; o_rateLimit := o_rateLimit o; o_maxPDU := o_maxPDU o;
     o_maxAmqCalling := o_maxAmqCalling o; o_maxAmqCalled := o_maxAmqCalled o |}.

Definition WithRackSlot (rack slot : Z) : Option := fun o =>
  {| o_port := o_port o; o_rack := rack; o_slot := slot; o_localTSAP := o_localTSAP o;
     o_remoteTSAP := o_remoteTSAP o; o_useExplicit := o_useExplicit o;
     o_autoRackSlot := o_autoRackSlot o; o_bruteRackSlot := o_bruteRackSlot o;
     o_timeout := o_timeout o; o_rateLimit := o_rateLimit o; o_maxPDU := o_maxPDU o;
     o_maxAmqCalling := o_maxAmqCalling o; o_maxAmqCalled := o_maxAmqCalled o |}.

Definition WithTSAP (local remote : Z) : Option := fun o =>
  {| o_port := o_port o; o_rack := o_rack o; o_slot := o_slot o; o_localTSAP := local;
     o_remoteTSAP := remote; o_useExplicit := true;
     o_autoRackSlot := o_autoRackSlot o; o_bruteRackSlot := o_bruteRackSlot o;
     o_timeout := o_timeout o; o_rateLimit := o_rateLimit o; o_maxPDU := o_maxPDU o;
     o_maxAmqCalling := o_maxAmqCalling o; o_maxAmqCalled := o_maxAmqCalled o |}.

Definition WithAutoRackSlot (brute : bool) : Option := fun o =>
  {| o_port := o_port o; o_rack := o_rack o; o_slot := o_slot o; o_localTSAP := o_localTSAP o;
     o_remoteTSAP := o_remoteTSAP o; o_useExplicit := o_useExplicit o;
     o_autoRackSlot := true; o_bruteRackSlot := brute;
     o_timeout := o_timeout o; o_rateLimit := o_rateLimit o; o_maxPDU := o_maxPDU o;
     o_maxAmqCalling := o_maxAmqCalling o; o_maxAmqCalled := o_maxAmqCalled o |}.

Definition WithTimeout (t : Z) : Option := fun o =>
  {| o_port := o_port o; o_rack := o_rack o; o_slot := o_slot o; o_localTSAP := o_localTSAP o;
     o_remoteTSAP := o_remoteTSAP o; o_useExplicit := o_useExplicit o;
     o_autoRackSlot := o_autoRackSlot o; o_bruteRackSlot := o_bruteRackSlot o;
     o_timeout := t; o_rateLimit := o_rateLimit o; o_maxPDU := o_maxPDU o;
     o_maxAmqCalling := o_maxAmqCalling o; o_maxAmqCalled := o_maxAmqCalled o |}.

Definition WithRateLimit (d : Z) : Option := fun o =>
  {| o_port := o_port o; o_rack := o_rack o; o_slot := o_slot o; o_localTSAP := o_localTSAP o;
     o_remoteTSAP := o_remoteTSAP o; o_useExplicit := o_useExplicit o;
     o_autoRackSlot := o_autoRackSlot o; o_bruteRackSlot := o_bruteRackSlot o;
     o_timeout := o_timeout o; o_rateLimit := d; o_maxPDU := o_maxPDU o;
     o_maxAmqCalling := o_maxAmqCalling o; o_maxAmqCalled := o_maxAmqCalled o |}.

Definition WithMaxPDU (size : Z) : Option := fun o =>
  {| o_port := o_port o; o_rack := o_rack o; o_slot := o_slot o; o_localTSAP := o_localTSAP o;
     o_remoteTSAP := o_remoteTSAP o; o_useExplicit := o_useExplicit o;
     o_autoRackSlot := o_autoRackSlot o; o_bruteRackSlot := o_bruteRackSlot o;
     o_timeout := o_timeout o; o_rateLimit := o_rateLimit o; o_maxPDU := size;
     o_maxAmqCalling := o_maxAmqCalling o; o_maxAmqCalled := o_maxAmqCalled o |}.

(** ** The client *)

(** A connection handle of go-cotp. *)
Definition Conn := Z.

Record Client := mkClient {
  c_host : string;
  c_opts : options;
  c_conn : option Conn;
  c_rack : Z;
  c_slot : Z;
  c_pduRef : Z;
  c_localTSAP : Z;
  c_remoteTSAP : Z;
  c_pduSize : Z;
  c_maxAmqCalling : Z;
  c_maxAmqCalled : Z;
}.

Definition New (host : string) (opts : list Option) : Client :=
  let o := fold_left (fun o f => f o) opts defaultOptions in
  mkClient host o None 0 0 0 0 0 0 0 0.

Definition set_pduRef (p : Z) (c : Client) : Client :=
  mkClient (c_host c) (c_opts c) (c_conn c) (c_rack c) (c_slot c) p (c_localTSAP c)
    (c_remoteTSAP c) (c_pduSize c) (c_maxAmqCalling c) (c_maxAmqCalled c).

(** The assignments of [connectOnce] and [closeConnLocked]. *)
Definition set_connection (conn : option Conn) (rack slot local remote size calling called : Z)
  (c : Client) : Client :=
  mkClient (c_host c) (c_opts c) conn rack slot (c_pduRef c) local remote size calling called.

(** ** The environment *)

(** Contexts as the client passes them on: the caller's, [context.Background]
    and [context.WithTimeout]; [NilCtx] is a nil [context.Context]. *)
Inductive Ctx :=
  | NilCtx
  | Background
  | Caller (id : Z)
  | TimeoutCtx (parent : Ctx) (d : Z).

Definition is_nil (ctx : Ctx) : bool := match ctx with NilCtx => true | _ => false end.

(** What an outside call returns: an error or a value, and the environment
    after it. *)
Class Transport (W : Type) := {
  (** [net.Dialer.DialContext] *)
  t_dial : Ctx -> Z -> string -> W -> (error + Z) * W;
  (** [cotp.Connect]: selectors and the TPDU size; it closes raw on failure *)
  t_cotpConnect : Ctx -> Z -> bytes -> bytes -> Z -> W -> (error + Conn) * W;
  (** [WriteTSDU], [ReadTSDU] and [Close] of [cotp.Conn] *)
  t_WriteTSDU : Ctx -> Conn -> bytes -> W -> (error + unit) * W;
  t_ReadTSDU : Ctx -> Conn -> W -> (error + bytes) * W;
  t_Close : Conn -> W -> option error * W;
  (** [ctx.Err()] *)
  t_ctxErr : Ctx -> W -> option error * W;
  (** [select] between [ctx.Done()] and [time.After]: whether the context
    ended first *)
  t_wait : Ctx -> Z -> W -> bool * W;
  (** the text [fmt] gives a [time.Duration] *)
  t_duration : Z -> string;
}.

(** ** Client operations *)

Definition M (W A : Type) : Type := Client * W -> res A * (Client * W).

#[export] Instance M_ret {W} : MRet (M W) := fun A a st => (Ok a, st).
#[export] Instance M_bind {W} : MBind (M W) := fun A B k m st =>
  match m st with
  | (Ok a, st') => k a st'
  | (Err e, st') => (Err e, st')
  | (Panic, st') => (Panic, st')
  end.

Section Operations.
Context {W : Type}.
Implicit Types st : Client * W.

(** A computation without effects. *)
Definition lift {A} (r : res A) : M W A := fun st => (r, st).
Definition fail {A} (e : error) : M W A := lift (Err e).
Definition get {A} (f : Client -> A) : M W A := fun st => (Ok (f st.1), st).
Definition modify (f : Client -> Client) : M W unit := fun st => (Ok tt, (f st.1, st.2)).
(** [x, err := m]: the error as a value; a panic is not caught. *)
Definition attempt {A} (m : M W A) : M W (error + A) := fun st =>
  match m st with
  | (Ok a, st') => (Ok (inr a), st')
  | (Err e, st') => (Ok (inl e), st')
  | (Panic, st') => (Panic, st')
  end.
(** Calls of the environment. *)
Definition call {A} (f : W -> (error + A) * W) : M W A := fun st =>
  match f st.2 with
  | (inr a, w) => (Ok a, (st.1, w))
  | (inl e, w) => (Err e, (st.1, w))
  end.
Definition observe {A} (f : W -> A * W) : M W A := fun st =>
  let '(a, w) := f st.2 in (Ok a, (st.1, w)).

Lemma bind_run {A B} (m : M W A) (k : A -> M W B) st :
  (m ≫= k) st =
  match m st with
  | (Ok a, st') => k a st'
  | (Err e, st') => (Err e, st')
  | (Panic, st') => (Panic, st')
  end.
Proof. done. Qed.

Lemma bind_run_Ok {A B} (m : M W A) (k : A -> M W B) st st' a :
  m st = (Ok a, st') -> (m ≫= k) st = k a st'.
Proof. intros H. by rewrite bind_run, H. Qed.
End Operations.

#[global] Arguments lift {W A} r _ /.
#[global] Arguments fail {W A} e _ /.

Section Connection.
Context {W : Type} `{!Transport W}.

(** A method call on a nil context panics. *)
Definition ctx_Err (ctx : Ctx) : M W (option error) :=
  if is_nil ctx then lift Panic else observe (t_ctxErr ctx).

(** [if err := ctx.Err(); err != nil { return err }] *)
Definition check_ctx (ctx : Ctx) : M W unit :=
  e ← ctx_Err ctx;
  match e with Some err => fail err | None => mret tt end.

Definition WriteTSDU (ctx : Ctx) (conn : Conn) (req : bytes) : M W unit :=
  call (t_WriteTSDU ctx conn req).
Definition ReadTSDU (ctx : Ctx) (conn : Conn) : M W bytes := call (t_ReadTSDU ctx conn).

(** ** client/handshake.go *)

Definition defaultMaxTPDULength : Z := 1024.

Definition tsapSelector (tsap : Z) : bytes := put16 tsap.

Definition dialTCP (ctx : Ctx) (address : string) (timeout : Z) : M W Z :=
  let ctx := if is_nil ctx then Background else ctx in
  r ← attempt (call (t_dial ctx timeout address));
  match r with
  | inl err => fail (errorf1 "TCP connect: " err "")
  | inr raw => mret raw
  end.

(** [context.WithTimeout] panics on a nil parent. *)
Definition withOptionalTimeout (ctx : Ctx) (timeout : Z) : res Ctx :=
  if timeout >? 0 then if is_nil ctx then Panic else mret (TimeoutCtx ctx timeout)
  else mret ctx.

Definition connectCOTP (ctx : Ctx) (raw timeout localTSAP remoteTSAP : Z) : M W Conn :=
  let ctx := if is_nil ctx then Background else ctx in
  let connectCtx := if timeout >? 0 then TimeoutCtx ctx timeout else ctx in
  call (t_cotpConnect connectCtx raw (tsapSelector localTSAP) (tsapSelector remoteTSAP)
          defaultMaxTPDULength).

Definition dialCOTP (ctx : Ctx) (address : string) (timeout localTSAP remoteTSAP : Z) : M W Conn :=
  raw ← dialTCP ctx address timeout;
  connectCOTP ctx raw timeout localTSAP remoteTSAP.

Definition closeCOTP (conn : option Conn) : M W unit :=
  match conn with
  | None => mret tt
  | Some conn =>
      e ← observe (t_Close conn);
      match e with
      | None => mret tt
      | Some err => if errors_Is err CotpErrClosed then mret tt else fail err
      end
  end.

Definition performS7Setup (ctx : Ctx) (conn : Conn) (pduRef maxAmqCalling maxAmqCalled maxPDU : Z)
  : M W SetupCommResponse :=
  check_ctx ctx ;;
  r ← attempt (lift (EncodeSetupCommRequest pduRef maxAmqCalling maxAmqCalled maxPDU));
  match r with
  | inl err => fail (ValidationError (Error err))
  | inr req =>
      WriteTSDU ctx conn req ;;
      s7Data ← ReadTSDU ctx conn;
      r ← attempt (lift (ParseS7Header s7Data));
      match r with
      | inl err => fail (errorf1 "parse S7 header: " (Join [err; Sentinel ErrProtocolFailure]) "")
      | inr (header, paramData) =>
          if negb (PDURef header =? pduRef) then fail (PDURefMismatchError pduRef (PDURef header)) else
          if (ErrorClass header ≠b x00) || (ErrorCode header ≠b x00) then
            e ← lift (NewS7ErrorWithParam (ErrorClass header) (ErrorCode header) paramData);
            fail e
          else
          p0 ← lift (if len paramData >? 0 then b ← idx paramData 0; mret (Some b) else mret None);
          match p0 with
          | Some b =>
              if b ≠b FuncSetupComm then
                fail (errorf1 ("S7 setup response: expected function 0x" +:+ fmt_02X FuncSetupComm +:+
                               ", got 0x" +:+ fmt_02X b +:+ ": ") (Sentinel ErrProtocolFailure) "")
              else mret tt
          | None => mret tt
          end ;;
          r ← attempt (lift (ParseSetupCommResponse paramData));
          match r with
          | inl err => fail (errorf1 "parse setup response: " (Join [err; Sentinel ErrProtocolFailure]) "")
          | inr setup => mret setup
          end
      end
  end.

(** ** client/client.go *)

(** [net.JoinHostPort] *)
Definition JoinHostPort (host port : string) : string :=
  if existsb (Ascii.eqb (Ascii.ascii_of_nat 58)) (String.list_ascii_of_string host)
  then "[" +:+ host +:+ "]:" +:+ port else host +:+ ":" +:+ port.

Definition connectOnce (ctx : Ctx) (rack slot : Z) : M W unit :=
  c ← get id;
  let o := c_opts c in
  let addr := JoinHostPort (c_host c) (dec (o_port o)) in
  let timeout := o_timeout o in
  tsaps ← attempt (lift (
    if o_useExplicit o then mret (o_localTSAP o, o_remoteTSAP o)
    else local ← BuildTSAP 1 0 0; remote ← BuildTSAP 3 rack slot; mret (local, remote)));
  match tsaps with
  | inl err => fail (ValidationError (Error err))
  | inr (local, remote) =>
      conn ← dialCOTP ctx addr timeout local remote;
      setupCtx ← lift (withOptionalTimeout ctx timeout);
      r ← attempt (performS7Setup setupCtx conn 1 (o_maxAmqCalling o) (o_maxAmqCalled o) (o_maxPDU o));
      match r with
      | inl err =>
          attempt (closeCOTP (Some conn)) ;;
          fail (errorf1 "S7 setup: " err "")
      | inr setup =>
          oldConn ← get c_conn;
          modify (set_connection (Some conn) rack slot local remote (PDUSize setup)
                    (MaxAmqCalling setup) (MaxAmqCalled setup)) ;;
          attempt (closeCOTP oldConn) ;;
          mret tt
      end
  end.

(** The loops of [autoConnect] over rack/slot pairs, in order. *)
Fixpoint tryPairs (ctx : Ctx) (pairs : list (Z * Z)) (failed : string) : M W unit :=
  match pairs with
  | [] => fail (Plain failed)
  | (rack, slot) :: pairs =>
      check_ctx ctx ;;
      r ← attempt (connectOnce ctx rack slot);
      match r with
      | inr _ => mret tt
      | inl _ => tryPairs ctx pairs failed
      end
  end.

Definition brutePairs : list (Z * Z) :=
  rack ← [0; 1; 2; 3]; slot ← [0; 1; 2; 3; 4; 5]; [(rack, slot)].

Definition commonPairs : list (Z * Z) := [(0, 1); (0, 2); (0, 0); (1, 1); (0, 3)].

Definition autoConnect (ctx : Ctx) : M W unit :=
  o ← get c_opts;
  if o_bruteRackSlot o
  then tryPairs ctx brutePairs "auto rack/slot connect failed for rack 0-3 slot 0-5"
  else tryPairs ctx commonPairs "auto rack/slot connect failed on common rack/slot pairs".

Definition Connect (ctx : Ctx) : M W unit :=
  o ← get c_opts;
  if (o_port o <? 0) || (o_port o >? 65535) then
    fail (ValidationError ("invalid port: " +:+ dec (o_port o)))
  else if o_timeout o <? 0 then
    fail (ValidationError ("invalid timeout: " +:+ t_duration (o_timeout o)))
  else if (o_maxPDU o <? 1) || (o_maxPDU o >? MaxUint16) then
    fail (ValidationError ("invalid max PDU: " +:+ dec (o_maxPDU o)))
  else
  (if negb (o_autoRackSlot o) then
     if (o_rack o <? 0) || (o_slot o <? 0) then
       fail (ValidationError ("invalid rack/slot: rack=" +:+ dec (o_rack o) +:+ " slot=" +:+ dec (o_slot o)))
     else
     r ← attempt (lift (ValidateRackSlot (o_rack o) (o_slot o)));
     match r with inl err => fail (ValidationError (Error err)) | inr _ => mret tt end
   else mret tt) ;;
  if o_autoRackSlot o && negb (o_useExplicit o) then autoConnect ctx
  else connectOnce ctx (o_rack o) (o_slot o).

Definition closeConnLocked : M W unit :=
  conn ← get c_conn;
  match conn with
  | None => mret tt
  | Some _ =>
      r ← attempt (closeCOTP conn);
      modify (set_connection None 0 0 0 0 0 0 0) ;;
      match r with inl err => fail err | inr _ => mret tt end
  end.

Definition Close : M W unit := closeConnLocked.

(** [atomic.AddUint32(&c.pduRef, 1) & math.MaxUint16], repeated while it is
    0; [fuel] bounds the passes. *)
Fixpoint pduRefLoop (fuel : nat) (p : Z) : option (Z * Z) :=
  match fuel with
  | O => None
  | S fuel =>
      let p := u32 (p + 1) in
      let ref := Z.land p MaxUint16 in
      if negb (ref =? 0) then Some (u16 ref, p) else pduRefLoop fuel p
  end.

(** Two passes are enough ([pduRefLoop_total]). *)
Definition nextPDURef : M W Z := fun st =>
  match pduRefLoop 2 (c_pduRef st.1) with
  | Some (ref, p) => (Ok ref, (set_pduRef p st.1, st.2))
  | None => (Panic, st)
  end.

Definition sendReceive (ctx : Ctx) (req : bytes) (expectedPDURef : Z) : M W (bytes * bytes) :=
  conn ← get c_conn;
  pduSize ← get c_pduSize;
  match conn with
  | None => fail (Sentinel ErrNotConnected)
  | Some conn =>
      if (pduSize >? 0) && (len req >? pduSize) then
        fail (errorf1 ("request size " +:+ dec (len req) +:+ " exceeds negotiated PDU size " +:+
                       dec pduSize +:+ ": ") (Sentinel ErrRequestExceedsPDU) "")
      else
      WriteTSDU ctx conn req ;;
      check_ctx ctx ;;
      s7Data ← ReadTSDU ctx conn;
      r ← attempt (lift (ParseS7Header s7Data));
      match r with
      | inl err => fail (errorf1 "parse S7 header: " (Join [err; Sentinel ErrProtocolFailure]) "")
      | inr (header, rest) =>
          if negb (expectedPDURef =? 0) && negb (PDURef header =? expectedPDURef) then
            fail (Join [Sentinel ErrProtocolFailure; PDURefMismatchError expectedPDURef (PDURef header)])
          else
          if (ErrorClass header ≠b x00) || (ErrorCode header ≠b x00) then
            let pl := ParamLength header in
            param ← lift (if (pl >? 0) && (len rest >=? pl) then slice rest 0 pl else mret []);
            e ← lift (NewS7ErrorWithParam (ErrorClass header) (ErrorCode header) param);
            fail e
          else
          let need := ParamLength header + DataLength header in
          if len rest <? need then
            fail (errorf1 ("short S7 payload: need " +:+ dec need +:+ " bytes, got " +:+ dec (len rest) +:+ ": ")
                    (Sentinel ErrProtocolFailure) "")
          else
          paramData ← lift (slice rest 0 (ParamLength header));
          dataData ← lift (slice rest (ParamLength header) (u16 (ParamLength header + DataLength header)));
          mret (paramData, dataData)
      end
  end.

(** [ConnectionInfo] and [PDUSize]: the negotiated state. *)
Record ConnectionInfo := mkConnectionInfo {
  ci_Host : string; ci_Port : Z; ci_LocalTSAP : Z; ci_RemoteTSAP : Z; ci_Rack : Z; ci_Slot : Z;
  ci_PDUSize : Z; ci_MaxAmqCalling : Z; ci_MaxAmqCalled : Z;
}.

Definition Client_ConnectionInfo (c : Client) : ConnectionInfo :=
  mkConnectionInfo (c_host c) (o_port (c_opts c)) (c_localTSAP c) (c_remoteTSAP c) (c_rack c)
    (c_slot c) (c_pduSize c) (c_maxAmqCalling c) (c_maxAmqCalled c).

Definition Client_PDUSize (c : Client) : Z := c_pduSize c.
End Connection.

(** ** Lemmas *)

Lemma pduRefLoop_total p :
  is_u32 p -> exists ref p', pduRefLoop 2 p = Some (ref, p') /\ 1 <= ref <= MaxUint16 /\ is_u32 p'.
Proof.
  unfold is_u32, MaxUint16. intros Hp. cbn [pduRefLoop]. unfold MaxUint16.
  change 65535 with (Z.ones 16). rewrite !Z.land_ones by lia. change (2 ^ 16) with 65536.
  assert (Hu : forall z, 0 <= u32 z < 4294967296) by (intros; apply Z.mod_pos_bound; lia).
  pose proof (Hu (p + 1)) as H1. pose proof (Hu (u32 (p + 1) + 1)) as H2.
  set (q := u32 (p + 1)) in *.
  case_if; b2p.
  - eexists _, _. split; [done|]. rewrite u16_small; [|apply Z.mod_pos_bound; lia].
    split; [|done]. change (Z.ones 16) with 65535.
    pose proof (Z.mod_pos_bound q 65536 ltac:(lia)). lia.
  - assert (Hr : u32 (q + 1) mod 65536 = 1).
    { unfold u32. rewrite (Z.mod_small (q + 1)) by (Z.div_mod_to_equations; lia).
      Z.div_mod_to_equations; lia. }
    rewrite Hr. simpl. eexists _, _. split; [done|]. split; [|done]. unfold u16. change (Z.ones 16) with 65535. by rewrite Z.mod_small by lia.
Qed.

Section SendReceive.
Context {W : Type} `{!Transport W}.

Definition client_pduRef_ok (c : Client) : Prop := is_u32 (c_pduRef c).

Lemma nextPDURef_ok c (w : W) :
  client_pduRef_ok c ->
  exists ref p, nextPDURef (c, w) = (Ok ref, (set_pduRef p c, w)) /\
    1 <= ref <= MaxUint16 /\ client_pduRef_ok (set_pduRef p c).
Proof.
  intros Hc. destruct (pduRefLoop_total _ Hc) as (ref & p & H & Hr & Hp).
  exists ref, p. unfold nextPDURef. simpl fst. by rewrite H.
Qed.

(** The request is written, the context still runs, and the answer [a]
    arrives. *)
Definition exchange (ctx : Ctx) (conn : Conn) (req : bytes) (w : W) (a : bytes) (w' : W) : Prop :=
  exists w1 w2, t_WriteTSDU ctx conn req w = (inr tt, w1) /\ t_ctxErr ctx w1 = (None, w2) /\
    t_ReadTSDU ctx conn w2 = (inr a, w').

Lemma check_ctx_ok ctx c (w w' : W) :
  is_nil ctx = false -> t_ctxErr ctx w = (None, w') -> check_ctx ctx (c, w) = (Ok tt, (c, w')).
Proof.
  intros Hn H. unfold check_ctx, ctx_Err. rewrite Hn, bind_run. unfold observe. simpl.
  by rewrite H.
Qed.

(** The sections [sendReceive] returns for an answer [a]; it panics when the
    16-bit sum of the lengths wraps. *)
Definition sections (a : bytes) (expectedPDURef : Z) : res (bytes * bytes) :=
  match ParseS7Header a with
  | Err err => Err (errorf1 "parse S7 header: " (Join [err; Sentinel ErrProtocolFailure]) "")
  | Panic => Panic
  | Ok (header, rest) =>
      if negb (expectedPDURef =? 0) && negb (PDURef header =? expectedPDURef) then
        Err (Join [Sentinel ErrProtocolFailure; PDURefMismatchError expectedPDURef (PDURef header)])
      else
      if (ErrorClass header ≠b x00) || (ErrorCode header ≠b x00) then
        param ← (if (ParamLength header >? 0) && (len rest >=? ParamLength header)
                 then slice rest 0 (ParamLength header) else mret []);
        e ← NewS7ErrorWithParam (ErrorClass header) (ErrorCode header) param;
        Err e
      else if len rest <? ParamLength header + DataLength header then
        Err (errorf1 ("short S7 payload: need " +:+ dec (ParamLength header + DataLength header) +:+
                      " bytes, got " +:+ dec (len rest) +:+ ": ") (Sentinel ErrProtocolFailure) "")
      else
        paramData ← slice rest 0 (ParamLength header);
        dataData ← slice rest (ParamLength header) (u16 (ParamLength header + DataLength header));
        mret (paramData, dataData)
  end.

Lemma sendReceive_exchange ctx req ref c (w : W) conn a w' :
  is_nil ctx = false -> c_conn c = Some conn ->
  (c_pduSize c <= 0 \/ len req <= c_pduSize c) ->
  exchange ctx conn req w a w' ->
  sendReceive ctx req ref (c, w) = (sections a ref, (c, w')).
Proof.
  intros Hn Hc Hsz (w1 & w2 & Hw & He & Hr). unfold sendReceive.
  rewrite (bind_run_Ok _ _ _ (c, w) (c_conn c)) by done.
  rewrite (bind_run_Ok _ _ _ (c, w) (c_pduSize c)) by done. rewrite Hc.
  replace ((c_pduSize c >? 0) && (len req >? c_pduSize c)) with false by lia. cbv iota.
  rewrite (bind_run_Ok _ _ _ (c, w1) tt) by (unfold WriteTSDU, call; simpl; by rewrite Hw).
  rewrite (bind_run_Ok _ _ _ (c, w2) tt) by by apply check_ctx_ok.
  rewrite (bind_run_Ok _ _ _ (c, w') a) by (unfold ReadTSDU, call; simpl; by rewrite Hr).
  unfold sections, lift, fail, attempt, mbind, M_bind, res_bind.
  destruct (ParseS7Header a) as [[h rest]|err|]; [|done..].
  repeat (match goal with
          | |- context [if ?b then _ else _] => destruct b
          | |- context [slice ?a ?b ?c] => destruct (slice a b c)
          | |- context [NewS7ErrorWithParam ?a ?b ?c] => destruct (NewS7ErrorWithParam a b c)
          end; cbv beta iota; try done).
Qed.

(** An answer without error whose sections fit one 16-bit length. *)
Lemma sections_ack ref k param dat a :
  is_u16 ref -> k = x00 ->
  a = s7Header ROSCTRAckData ref (len param) (len dat) ++ [x00; k] ++ param ++ dat ->
  len param + len dat <= MaxUint16 ->
  sections a ref = Ok (param, dat).
Proof.
  unfold MaxUint16. intros Hr -> -> Hl. unfold sections.
  rewrite ParseS7Header_ack; [|done|done|unfold is_u16; lia..|rewrite length_app; lia].
  cbn [PDURef ErrorClass ErrorCode ParamLength DataLength]. rewrite Z.eqb_refl, andb_false_r.
  simpl (_ || _). cbv iota. rewrite length_app. if_arith.
  rewrite slice_to_app by done. rewrite bind_Ok. rewrite u16_small by (unfold is_u16; lia).
  pose proof (slice_app_mid param dat [] (len param) (len param + len dat) eq_refl eq_refl) as Hs.
  rewrite app_nil_r in Hs. by rewrite Hs.
Qed.

(** A header error answer becomes the [S7Error] of its class and code. *)
Lemma sections_error ref c k param dat a :
  is_u16 ref -> (c <> x00 \/ k <> x00) ->
  a = s7Header ROSCTRAckData ref (len param) (len dat) ++ [c; k] ++ param ++ dat ->
  len param <= MaxUint16 -> len dat <= MaxUint16 ->
  exists msg, sections a ref = Err (S7Error c k msg).
Proof.
  unfold MaxUint16. intros Hr Hck -> Hp Hd. unfold sections.
  rewrite ParseS7Header_ack; [|done|done|unfold is_u16; lia..|rewrite length_app; lia].
  cbn [PDURef ErrorClass ErrorCode ParamLength DataLength]. rewrite Z.eqb_refl, andb_false_r.
  replace ((c ≠b x00) || (k ≠b x00)) with true.
  2: { destruct Hck as [H|H]; rewrite (beq_ne _ _ H); [done | by rewrite orb_true_r]. }
  simpl andb. cbv iota.
  destruct (if _ : bool then _ else _) as [pr| |] eqn:E.
  - rewrite bind_Ok. destruct (NewS7ErrorWithParam_ok c k pr) as [msg ->]. by exists msg.
  - case_if_in E; [|done]. rewrite slice_ok in E; [done|lia|rewrite length_app; lia].
  - case_if_in E; [|done]. rewrite slice_ok in E; [done|lia|rewrite length_app; lia].
Qed.

(** When [sendReceive] can panic: exactly on an answer whose length sum does
    not fit 16 bits and wraps below the parameter length. *)
Lemma sections_panic a ref :
  sections a ref = Panic <->
  exists h rest, ParseS7Header a = Ok (h, rest) /\
    (ref = 0 \/ PDURef h = ref) /\ ErrorClass h = x00 /\ ErrorCode h = x00 /\
    65536 <= ParamLength h + DataLength h.
Proof.
  unfold sections. destruct (ParseS7Header a) as [[h rest]|e|] eqn:E.
  2: { split; [done | by intros (? & ? & [=] & _)]. }
  2: { by apply ParseS7Header_no_panic in E. }
  pose proof (ParseS7Header_sound _ _ _ E) as (_ & _ & _ & _ & _ & Hp & Hd & Hrest & _).
  unfold is_u16 in *.
  assert (Hex : forall P : Prop, (exists h' rest', Ok (h, rest) = Ok (h', rest') /\
      (ref = 0 \/ PDURef h' = ref) /\ ErrorClass h' = x00 /\ ErrorCode h' = x00 /\
      65536 <= ParamLength h' + DataLength h') <->
    ((ref = 0 \/ PDURef h = ref) /\ ErrorClass h = x00 /\ ErrorCode h = x00 /\
      65536 <= ParamLength h + DataLength h)).
  { intros _. split; [by intros (? & ? & [= <- <-] & ?) | intros ?; by exists h, rest]. }
  rewrite (Hex True). clear Hex.
  case_if; b2p. { split; [done | intros ([?|?] & _); lia]. }
  destruct ((ErrorClass h ≠b x00) || (ErrorCode h ≠b x00)) eqn:Ec.
  { split; [|intros (_ & H1 & H2 & _); by rewrite H1, H2 in Ec].
    destruct (if _ : bool then _ else _) as [pr| |] eqn:Es; simpl.
    - by destruct (NewS7ErrorWithParam_ok (ErrorClass h) (ErrorCode h) pr) as [msg ->].
    - done.
    - case_if_in Es; [|done]. rewrite slice_ok in Es; [done|lia|lia]. }
  b2p. if_arith. rewrite (slice_ok rest 0) by lia. rewrite bind_Ok. split.
  - intros Hpan. split_and!; try done.
    + lia.
    + destruct (Z.le_gt_cases 65536 (ParamLength h + DataLength h)); [done|].
      rewrite u16_small in Hpan by (unfold is_u16; lia). rewrite slice_ok in Hpan by lia. done.
  - intros (_ & _ & _ & Hsum). unfold slice at 1.
    replace (u16 (ParamLength h + DataLength h)) with (ParamLength h + DataLength h - 65536).
    + by if_arith.
    + unfold u16. Z.div_mod_to_equations. lia.
Qed.

End SendReceive.
