(* ===== verification/ClientRW.v ===== *)
(** * Reads and writes of a client (client/validation.go, client/result.go, client/readwrite.go, client/bit.go, model/areas.go)

    Address validation, the outcome of a read and its classification, the
    chunked area reads and writes and the single-bit operations. *)

From S2P Require Import Prelude Go WireErrors Header ReadWrite Client.

Local Open Scope string_scope.

(** ** Addresses *)

(** [model.Address] and [model.BitAddress]; [model.Area] has the values of
    the wire areas. *)
Record Address := mkAddress { a_Area : byte; a_DBNumber : Z; a_Start : Z; a_Size : Z }.

Record BitAddress := mkBitAddress { b_Area : byte; b_DBNumber : Z; b_ByteOffset : Z; b_BitOffset : Z }.

Definition model_Area_String (a : byte) : string :=
  if a =b AreaInputs then "I"
  else if a =b AreaOutputs then "Q"
  else if a =b AreaMerkers then "M"
  else if a =b AreaDB then "DB"
  else if a =b AreaCounter then "C"
  else if a =b AreaTimer then "T"
  else "?".

(** ** Validation *)

Local Close Scope string_scope.

Definition validateAddress (addr : Address) : res unit :=
  if a_Start addr <? 0 then
    Err (ValidationError ("start offset must be >= 0, got " +:+ dec (a_Start addr)))
  else if a_Size addr <? 0 then
    Err (ValidationError ("size must be >= 0, got " +:+ dec (a_Size addr)))
  else if (a_Area addr =b AreaDB) && (a_DBNumber addr <? 0) then
    Err (ValidationError ("DB number must be >= 0, got " +:+ dec (a_DBNumber addr)))
  else if (a_DBNumber addr <? 0) || (a_DBNumber addr >? MaxS7AnyDBNumber) then
    Err (ValidationError ("DB number must be 0.." +:+ dec MaxS7AnyDBNumber +:+ ", got " +:+ dec (a_DBNumber addr)))
  else if a_Start addr >? MaxS7AnyByteOffset then
    Err (ValidationError ("start offset must be <= " +:+ dec MaxS7AnyByteOffset +:+ ", got " +:+ dec (a_Start addr)))
  else nil_error.

Definition validateRangeEnd (start n : Z) : res unit :=
  if n >? MaxS7AnyByteOffset + 1 - start then
    Err (ValidationError ("range " +:+ dec start +:+ "+" +:+ dec n +:+
           " ends past the last S7 byte address " +:+ dec MaxS7AnyByteOffset))
  else nil_error.

(** [if err := f(); err != nil { return &ValidationError{Message: err.Error()} }] *)
Definition as_validation (r : res unit) : res unit :=
  match r with Err err => Err (ValidationError (Error err)) | _ => r end.

Definition validateBitAddress (addr : BitAddress) : res unit :=
  if b_ByteOffset addr <? 0 then
    Err (ValidationError ("byte offset must be >= 0, got " +:+ dec (b_ByteOffset addr)))
  else if (b_BitOffset addr <? 0) || (b_BitOffset addr >? 7) then
    Err (ValidationError ("bit offset must be 0..7, got " +:+ dec (b_BitOffset addr)))
  else if (b_Area addr =b AreaDB) && (b_DBNumber addr <? 0) then
    Err (ValidationError ("DB number must be >= 0, got " +:+ dec (b_DBNumber addr)))
  else
  _ ← as_validation (ValidateS7AnyBitAddress
        (mkS7AnyBitAddress x00 (b_DBNumber addr) (b_ByteOffset addr) (b_BitOffset addr)));
  as_validation (ValidateArea (b_Area addr)).

(** ** Results *)

Inductive ReadStatus :=
  | ReadStatusSuccess
  | ReadStatusShortRead
  | ReadStatusEmptyRead
  | ReadStatusRejected
  | ReadStatusTimeout
  | ReadStatusTransportErr
  | ReadStatusProtocolErr
  | ReadStatusInconclusive.

#[export] Instance ReadStatus_eq_dec : EqDecision ReadStatus.
Proof. solve_decision. Defined.

Definition ReadStatus_string (s : ReadStatus) : string :=
  match s with
  | ReadStatusSuccess => "success"
  | ReadStatusShortRead => "short-read"
  | ReadStatusEmptyRead => "empty-read"
  | ReadStatusRejected => "rejected"
  | ReadStatusTimeout => "timeout"
  | ReadStatusTransportErr => "transport-error"
  | ReadStatusProtocolErr => "protocol-error"
  | ReadStatusInconclusive => "inconclusive"
  end.

Record ReadResult := mkReadResult {
  Status : ReadStatus;
  RequestedLength : Z;
  ReturnedLength : Z;
  ResultData : bytes;
  Warnings : list string;
  Message : string;
  Cause : option error;
  ItemStatus : string;
  ResultReturnCode : byte;
}.

(** The methods of a [*ReadResult]; a nil receiver is [None]. *)
Definition OK (r : option ReadResult) : bool :=
  match r with Some r => bool_decide (Status r = ReadStatusSuccess) | None => false end.

Definition Success (r : option ReadResult) : bool := OK r.

(** A [ReadOutcomeError] is its message and what it unwraps to. *)
Definition ReadResult_Err (r : option ReadResult) : res unit :=
  match r with
  | None => Err (Sentinel ErrNilReadResult)
  | Some r =>
      if bool_decide (Status r = ReadStatusSuccess) then nil_error else
      let msg := if negb (String.eqb (Message r) "") then Message r else ReadStatus_string (Status r) in
      Err (Wrapf msg (match Cause r with Some e => [e] | None => [] end))
  end.

Definition classifyOpError (err : option error) : ReadStatus :=
  match err with
  | None => ReadStatusSuccess
  | Some err =>
      if errors_Is err ContextDeadlineExceeded then ReadStatusTimeout
      else if errors_net_Timeout err then ReadStatusTimeout
      else if errors_Is err ErrNotConnected then ReadStatusTransportErr
      else if bool_decide (is_Some (errors_As_S7Error err)) then ReadStatusRejected
      else if errors_Is err ErrShortS7Header || errors_Is err ErrInvalidS7ProtocolID ||
              errors_Is err ErrShortS7AckHeader || errors_Is err ErrS7PayloadLength
      then ReadStatusProtocolErr
      else if errors_Is err ErrProtocolFailure then ReadStatusProtocolErr
      else if errors_Is err ErrRequestExceedsPDU then ReadStatusProtocolErr
      else ReadStatusTransportErr
  end.

Definition newFailedReadResult (requested : Z) (err : option error) : ReadResult :=
  mkReadResult (classifyOpError err) requested 0 [] []
    (match err with Some e => Error e | None => "" end) err "" x00.

Definition ClassifyReadOutcome (requested returned : Z) : ReadStatus :=
  if requested <=? 0 then ReadStatusSuccess
  else if returned =? 0 then ReadStatusEmptyRead
  else if returned <? requested then ReadStatusShortRead
  else ReadStatusSuccess.

(** ** Chunks *)

(** The loop of [planReadChunks]; [fuel] bounds its passes. *)
Fixpoint planLoop (fuel : nat) (remaining maxChunk : Z) : option (list Z) :=
  if remaining >? 0 then
    match fuel with
    | O => None
    | S fuel =>
        let n := Z.min remaining maxChunk in
        rest ← planLoop fuel (remaining - n) maxChunk;
        Some (n :: rest)
    end
  else Some [].

(** A pass takes at least one byte off [total], so [total] passes are enough
    ([planLoop_total]). *)
Definition planReadChunks (total maxChunk : Z) : list Z :=
  if total <=? 0 then []
  else
    let maxChunk := if maxChunk <=? 0 then total else maxChunk in
    default [] (planLoop (Z.to_nat total) total maxChunk).

(** ** Area reads and writes *)

Section Areas.
Context {W : Type} `{!Transport W}.

(** The rate limit between chunks: whether the context ended while waiting. *)
Definition pace (ctx : Ctx) (rateLimit : Z) (firstChunk : bool) : M W bool :=
  if (rateLimit >? 0) && negb firstChunk then
    if is_nil ctx then lift Panic else observe (t_wait ctx rateLimit)
  else mret false.

(** The assignments to [out] when a read stops with the bytes it has. *)
Definition partial (status : ReadStatus) (reqLen : Z) (result : bytes) (msg : string)
  (cause : option error) (itemStatus : string) (rc : byte) : ReadResult :=
  mkReadResult status reqLen (len result) result [] msg cause itemStatus rc.

Definition finishRead (reqLen : Z) (result : bytes) : ReadResult :=
  let status := ClassifyReadOutcome reqLen (len result) in
  let msg :=
    match status with
    | ReadStatusEmptyRead => "target returned no data for requested range"
    | ReadStatusShortRead =>
        "short read: requested " +:+ dec reqLen +:+ ", got " +:+ dec (len result)
    | _ => ""
    end in
  partial status reqLen result msg None "" x00.

(** The chunk loop of [ReadArea]. *)
Fixpoint readChunks (ctx : Ctx) (addr : Address) (reqLen rateLimit : Z) (chunks : list Z)
  (offset : Z) (result : bytes) (firstChunk : bool) : M W ReadResult :=
  match chunks with
  | [] => mret (finishRead reqLen result)
  | chunkSize :: chunks =>
      e ← ctx_Err ctx;
      match e with
      | Some err => mret (newFailedReadResult reqLen (Some err))
      | None =>
      ended ← pace ctx rateLimit firstChunk;
      if (ended : bool) then
        e ← ctx_Err ctx; mret (newFailedReadResult reqLen e)
      else
      let s7Addr := mkS7AnyAddress (a_Area addr) (a_DBNumber addr) offset chunkSize in
      ref ← nextPDURef;
      r ← attempt (lift (EncodeReadVarRequest ref [s7Addr]));
      match r with
      | inl err => fail (ValidationError (Error err))
      | inr req =>
      r ← attempt (sendReceive ctx req ref);
      match r with
      | inl err => mret (newFailedReadResult reqLen (Some err))
      | inr (param, data) =>
      r ← attempt (lift (ParseReadVarResponse param data));
      match r with
      | inl err => mret (partial ReadStatusProtocolErr reqLen result (Error err) None "" x00)
      | inr [] => mret (partial ReadStatusEmptyRead reqLen result "no data returned" None "" x00)
      | inr (item :: _) =>
          match ReturnCodeError (ReturnCode item) with
          | Err err =>
              mret (partial ReadStatusRejected reqLen result (Error err) None
                      (ItemReturnCodeString (ReturnCode item)) (ReturnCode item))
          | Panic => lift Panic
          | Ok _ =>
              if len (Data item) >? chunkSize then
                let msg := "item returned " +:+ dec (len (Data item)) +:+ " bytes for " +:+
                           dec chunkSize +:+ " requested" in
                mret (partial ReadStatusProtocolErr reqLen result msg
                        (Some (errorf1 (msg +:+ ": ") (Sentinel ErrProtocolFailure) "")) "" x00)
              else
              readChunks ctx addr reqLen rateLimit chunks (offset + chunkSize) (result ++ Data item) false
          end
      end end end end
  end.

Definition ReadArea (ctx : Ctx) (addr : Address) : M W ReadResult :=
  lift (validateAddress addr) ;;
  lift (validateRangeEnd (a_Start addr) (a_Size addr)) ;;
  let reqLen := Z.max (a_Size addr) 0 in
  pduSize ← get c_pduSize;
  rateLimit ← get (fun c => o_rateLimit (c_opts c));
  let maxData := pduSize - ReadVarRequestOverhead in
  let maxData := if maxData <? 1 then 200 else maxData in
  readChunks ctx addr reqLen rateLimit (planReadChunks (a_Size addr) maxData) (a_Start addr) [] true.

(** The chunk loop of [WriteArea]. *)
Fixpoint writeChunks (ctx : Ctx) (addr : Address) (data : bytes) (rateLimit : Z) (chunks : list Z)
  (offset : Z) (firstChunk : bool) : M W unit :=
  match chunks with
  | [] => mret tt
  | chunkSize :: chunks =>
      check_ctx ctx ;;
      ended ← pace ctx rateLimit firstChunk;
      if (ended : bool) then check_ctx ctx
      else
      chunk ← lift (slice data offset (offset + chunkSize));
      let s7Addr := mkS7AnyAddress (a_Area addr) (a_DBNumber addr) (a_Start addr + offset) (len chunk) in
      ref ← nextPDURef;
      r ← attempt (lift (EncodeWriteVarRequest ref s7Addr chunk));
      match r with
      | inl err => fail (ValidationError (Error err))
      | inr req =>
          '(param, respData) ← sendReceive ctx req ref;
          lift (ParseWriteVarResponse param respData) ;;
          writeChunks ctx addr data rateLimit chunks (offset + chunkSize) false
      end
  end.

Definition WriteArea (ctx : Ctx) (addr : Address) (data : bytes) : M W unit :=
  lift (validateAddress addr) ;;
  lift (validateRangeEnd (a_Start addr) (len data)) ;;
  check_ctx ctx ;;
  pduSize ← get c_pduSize;
  rateLimit ← get (fun c => o_rateLimit (c_opts c));
  let maxPayload := pduSize - WriteVarRequestOverhead in
  let maxPayload := if maxPayload <? 1 then 200 else maxPayload in
  writeChunks ctx addr data rateLimit (planReadChunks (len data) maxPayload) 0 true.

Definition ReadDB (ctx : Ctx) (dbNum offset size : Z) : M W ReadResult :=
  ReadArea ctx (mkAddress AreaDB dbNum offset size).
Definition WriteDB (ctx : Ctx) (dbNum offset : Z) (data : bytes) : M W unit :=
  WriteArea ctx (mkAddress AreaDB dbNum offset (len data)) data.
Definition ReadInputs (ctx : Ctx) (offset size : Z) : M W ReadResult :=
  ReadArea ctx (mkAddress AreaInputs 0 offset size).
Definition ReadOutputs (ctx : Ctx) (offset size : Z) : M W ReadResult :=
  ReadArea ctx (mkAddress AreaOutputs 0 offset size).
Definition ReadMerkers (ctx : Ctx) (offset size : Z) : M W ReadResult :=
  ReadArea ctx (mkAddress AreaMerkers 0 offset size).

(** ** Bits *)

Definition wireBitAddress (addr : BitAddress) : S7AnyBitAddress :=
  mkS7AnyBitAddress (b_Area addr) (b_DBNumber addr) (b_ByteOffset addr) (b_BitOffset addr).

Definition require_conn : M W unit :=
  conn ← get c_conn;
  match conn with None => fail (Sentinel ErrNotConnected) | Some _ => mret tt end.

Definition ReadBit (ctx : Ctx) (addr : BitAddress) : M W bool :=
  lift (validateBitAddress addr) ;;
  require_conn ;;
  check_ctx ctx ;;
  ref ← nextPDURef;
  r ← attempt (lift (EncodeReadVarBitRequest ref (wireBitAddress addr)));
  match r with
  | inl err => fail (ValidationError (Error err))
  | inr req =>
      '(param, data) ← sendReceive ctx req ref;
      r ← attempt (lift (ParseReadVarResponse param data));
      match r with
      | inl err => fail (errorf1 "parse bit read response: " (Join [err; Sentinel ErrProtocolFailure]) "")
      | inr items =>
          if negb (len items =? 1) then
            fail (errorf1 ("bit read: expected 1 item, got " +:+ dec (len items) +:+ ": ")
                    (Sentinel ErrProtocolFailure) "")
          else
          item ← lift (idx items 0);
          lift (ReturnCodeError (ReturnCode item)) ;;
          r ← attempt (lift (DecodeAsBit item));
          match r with
          | inl err => fail (errorf1 "decode bit: " (Join [err; Sentinel ErrProtocolFailure]) "")
          | inr v => mret v
          end
      end
  end.

Definition WriteBit (ctx : Ctx) (addr : BitAddress) (value : bool) : M W unit :=
  lift (validateBitAddress addr) ;;
  require_conn ;;
  check_ctx ctx ;;
  ref ← nextPDURef;
  r ← attempt (lift (EncodeWriteVarBitRequest ref (wireBitAddress addr) value));
  match r with
  | inl err => fail (ValidationError (Error err))
  | inr req =>
      '(param, respData) ← sendReceive ctx req ref;
      lift (ParseWriteVarResponse param respData)
  end.

Definition ReadDBBit (ctx : Ctx) (dbNumber byteOffset bitOffset : Z) : M W bool :=
  ReadBit ctx (mkBitAddress AreaDB dbNumber byteOffset bitOffset).
Definition WriteDBBit (ctx : Ctx) (dbNumber byteOffset bitOffset : Z) (value : bool) : M W unit :=
  WriteBit ctx (mkBitAddress AreaDB dbNumber byteOffset bitOffset) value.

End Areas.

(** ** Lemmas: chunks *)

Definition sumZ (l : list Z) : Z := foldr Z.add 0 l.

Lemma planLoop_total fuel remaining maxChunk :
  1 <= maxChunk -> remaining <= Z.of_nat fuel ->
  exists l, planLoop fuel remaining maxChunk = Some l /\
    Forall (fun n => 1 <= n <= maxChunk) l /\ sumZ l = Z.max 0 remaining /\
    (forall l1 n l2, l = l1 ++ n :: l2 -> l2 <> [] -> n = maxChunk).
Proof.
  intros Hm. revert remaining. induction fuel as [|fuel IH]; intros remaining Hr; cbn [planLoop].
  - if_arith. exists []. split_and!; try done; [simpl; lia|]. by intros [].
  - case_if; b2p.
    + destruct (IH (remaining - Z.min remaining maxChunk)) as (l & -> & HF & Hs & Hfull); [lia|].
      simpl. exists (Z.min remaining maxChunk :: l).
      split_and!; [done | constructor; [lia | done] | simpl; lia |].
      intros [|x l1] n l2; intros [= <- ->] Hne; [|by eapply Hfull].
      destruct l2; [done|]. apply Forall_cons in HF as [HF1 HF2]. simpl in Hs.
      assert (0 <= sumZ l2) by (clear -HF2; induction HF2; simpl; lia). lia.
    + exists []. split_and!; try done; [simpl; lia|]. by intros [].
Qed.

Lemma planReadChunks_spec total maxChunk :
  Forall (fun n => 1 <= n <= if maxChunk <=? 0 then total else maxChunk) (planReadChunks total maxChunk) /\
  sumZ (planReadChunks total maxChunk) = Z.max 0 total /\
  (forall l1 n l2, planReadChunks total maxChunk = l1 ++ n :: l2 -> l2 <> [] ->
     n = if maxChunk <=? 0 then total else maxChunk).
Proof.
  unfold planReadChunks. destruct (Z.leb_spec total 0).
  { split_and!; [done | simpl; lia | by intros []]. }
  set (m := if maxChunk <=? 0 then total else maxChunk).
  assert (Hm : 1 <= m) by (unfold m; case_if; lia).
  destruct (planLoop_total (Z.to_nat total) total m Hm) as (l & -> & HF & Hs & Hfull); [lia|].
  by split_and!.
Qed.

Lemma sumZ_nonneg l : Forall (fun n => 1 <= n) l -> 0 <= sumZ l.
Proof. induction 1; simpl; lia. Qed.

(** ** Lemmas: validation *)

Lemma validateAddress_ok addr :
  validateAddress addr = nil_error <->
  0 <= a_Start addr <= MaxS7AnyByteOffset /\ 0 <= a_Size addr /\ 0 <= a_DBNumber addr <= MaxS7AnyDBNumber.
Proof.
  unfold validateAddress, MaxS7AnyDBNumber. rewrite MaxS7AnyByteOffset_value.
  repeat case_if; split; try done; intros; b2p; try lia.
Qed.

Lemma validateAddress_err addr e :
  validateAddress addr = Err e -> errors_As_ValidationError e = true.
Proof. unfold validateAddress. repeat case_if; by intros [= <-]. Qed.

Lemma validateRangeEnd_ok start n :
  validateRangeEnd start n = nil_error <-> start + n <= MaxS7AnyByteOffset + 1.
Proof. unfold validateRangeEnd. case_if; split; try done; intros; lia. Qed.

(** An address outside the S7ANY space is refused before anything is done. *)
Lemma validate_invalid addr n :
  ~ (0 <= a_Start addr <= MaxS7AnyByteOffset /\ 0 <= a_Size addr /\
     0 <= a_DBNumber addr <= MaxS7AnyDBNumber /\ a_Start addr + n <= MaxS7AnyByteOffset + 1) ->
  exists msg, validateAddress addr = Err (ValidationError msg) \/
    (validateAddress addr = nil_error /\ validateRangeEnd (a_Start addr) n = Err (ValidationError msg)).
Proof.
  intros Hb. destruct (validateAddress addr) as [[]|e|] eqn:E.
  - pose proof (proj1 (validateAddress_ok addr) E) as (? & ? & ?).
    destruct (validateRangeEnd (a_Start addr) n) as [[]|e|] eqn:E2.
    + apply validateRangeEnd_ok in E2. exfalso. apply Hb. split_and!; lia.
    + unfold validateRangeEnd in E2. case_if_in E2; [|done]. injection E2 as <-. eexists. by right.
    + unfold validateRangeEnd in E2. by case_if_in E2.
  - unfold validateAddress in E. repeat (case_if_in E; [injection E as <-; eexists; by left|]). done.
  - unfold validateAddress in E. repeat (case_if_in E; [done|]). done.
Qed.

Lemma validateBitAddress_err addr :
  validateBitAddress addr = nil_error \/ exists msg, validateBitAddress addr = Err (ValidationError msg).
Proof.
  unfold validateBitAddress. repeat (case_if; [right; by eexists|]).
  unfold ValidateS7AnyBitAddress.
  pose proof (no_panic_EncodeS7AnyBit (mkS7AnyBitAddress x00 (b_DBNumber addr) (b_ByteOffset addr) (b_BitOffset addr))) as Hnp.
  destruct (EncodeS7AnyBit _); [|right; by eexists|done]. simpl.
  unfold ValidateArea. case_if; [by left | right; by eexists].
Qed.

(** ** Lemmas: classification *)

Lemma classifyOpError_not_success err : classifyOpError (Some err) <> ReadStatusSuccess.
Proof. unfold classifyOpError. repeat case_if; done. Qed.

Lemma ClassifyReadOutcome_success requested returned :
  returned <= requested ->
  ClassifyReadOutcome requested returned = ReadStatusSuccess <-> (requested <= 0 \/ returned = requested).
Proof.
  intros. unfold ClassifyReadOutcome. repeat case_if; split; intros; try done; b2p; lia.
Qed.

(** ** Lemmas: reads over an arbitrary transport *)

Section ReadLaws.
Context {W : Type} `{!Transport W}.

Lemma bind_run_inv {A B} (m : M W A) (k : A -> M W B) st st' b :
  (m ≫= k) st = (Ok b, st') -> exists a st1, m st = (Ok a, st1) /\ k a st1 = (Ok b, st').
Proof.
  rewrite bind_run. destruct (m st) as [[a|e|] st1]; [|done..]. intros H. by exists a, st1.
Qed.

Lemma ctx_Err_state ctx st o st' : ctx_Err ctx st = (Ok o, st') -> st'.1 = st.1.
Proof.
  unfold ctx_Err, observe. case_if; [done|]. destruct (t_ctxErr ctx st.2). by intros [= _ <-].
Qed.

(** Package context: after [Done] is closed, [Err] is not nil. *)
Definition ctx_done_has_err (ctx : Ctx) : Prop :=
  forall d w w' w'' o, t_wait ctx d w = (true, w') -> t_ctxErr ctx w' = (o, w'') -> is_Some o.

Lemma pace_ended ctx rate first st st1 :
  pace ctx rate first st = (Ok true, st1) -> exists w', st1 = (st.1, w') /\ t_wait ctx rate st.2 = (true, w').
Proof.
  unfold pace. case_if; [|by intros [=]]. case_if; [done|]. unfold observe.
  destruct (t_wait ctx rate st.2) as [o w'] eqn:E. intros [= -> <-]. by exists w'.
Qed.

(** What every outcome of a read satisfies, whatever the peer and the
    network do. *)
Definition result_wf (reqLen : Z) (r : ReadResult) : Prop :=
  RequestedLength r = reqLen /\ ReturnedLength r = len (ResultData r) /\
  len (ResultData r) <= reqLen /\
  (Status r = ReadStatusSuccess -> len (ResultData r) = reqLen) /\
  (Status r = ReadStatusRejected -> Cause r = None -> ResultReturnCode r <> RetCodeSuccess).

Lemma failed_wf reqLen e : 0 <= reqLen -> result_wf reqLen (newFailedReadResult reqLen (Some e)).
Proof.
  intros. split_and!; simpl; try done; try lia.
  by pose proof (classifyOpError_not_success e).
Qed.

Lemma finishRead_wf reqLen result :
  0 <= reqLen -> len result <= reqLen -> result_wf reqLen (finishRead reqLen result).
Proof.
  intros H0 Hl. unfold finishRead, partial. split_and!; simpl; try done.
  intros Hs. apply ClassifyReadOutcome_success in Hs; [|done]. destruct Hs; lia.
Qed.

Lemma partial_wf status reqLen result msg cause item rc :
  status <> ReadStatusSuccess -> len result <= reqLen ->
  (status = ReadStatusRejected -> rc <> RetCodeSuccess) ->
  result_wf reqLen (partial status reqLen result msg cause item rc).
Proof. intros Hs Hl Hr. split_and!; simpl; [done.. | by intros ?%Hs | auto]. Qed.

Lemma readChunks_wf ctx addr reqLen rate chunks offset result first st r st' :
  ctx_done_has_err ctx -> Forall (fun n => 1 <= n) chunks ->
  0 <= reqLen -> len result + sumZ chunks <= reqLen ->
  readChunks ctx addr reqLen rate chunks offset result first st = (Ok r, st') -> result_wf reqLen r.
Proof.
  intros Hctx HF H0. revert offset result first st.
  induction chunks as [|n chunks IH]; intros offset result first st Hsum H; cbn [readChunks] in H.
  { injection H as <- _. simpl in Hsum. apply finishRead_wf; lia. }
  apply Forall_cons in HF as [Hn HF]. pose proof (sumZ_nonneg _ HF). simpl in Hsum.
  apply bind_run_inv in H as (o & st1 & _ & H).
  destruct o as [err|]; [injection H as <- _; by apply failed_wf|].
  apply bind_run_inv in H as (ended & st2 & Hp & H). destruct ended.
  { apply pace_ended in Hp as (w' & -> & Hw). apply bind_run_inv in H as (o & st3 & He & H).
    injection H as <- _. unfold ctx_Err, observe in He. case_if_in He; [done|]. simpl in He.
    destruct (t_ctxErr ctx w') as [o' w''] eqn:Eo. injection He as -> _.
    destruct (Hctx _ _ _ _ _ Hw Eo) as [e ->]. by apply failed_wf. }
  apply bind_run_inv in H as (ref & st3 & _ & H).
  apply bind_run_inv in H as ([err|req] & st4 & _ & H); [done|].
  apply bind_run_inv in H as ([err|[param dat]] & st5 & _ & H); [injection H as <- _; by apply failed_wf|].
  apply bind_run_inv in H as ([err|items] & st6 & _ & H).
  { injection H as <- _. apply partial_wf; [done | lia | done]. }
  destruct items as [|item items]; [injection H as <- _; apply partial_wf; [done | lia | done]|].
  unfold ReturnCodeError in H. destruct (ReturnCode item =b RetCodeSuccess) eqn:Erc.
  - case_if_in H; [injection H as <- _; apply partial_wf; [done | lia | done]|].
    apply IH in H; [done | done |]. rewrite length_app. b2p. lia.
  - injection H as <- _. b2p. apply partial_wf; [done | lia | done].
Qed.

Lemma ReadArea_wf ctx addr st r st' :
  ctx_done_has_err ctx -> ReadArea ctx addr st = (Ok r, st') -> result_wf (a_Size addr) r.
Proof.
  intros Hctx H. unfold ReadArea in H.
  apply bind_run_inv in H as (u & st1 & Hv & H). injection Hv as Hv _. destruct u.
  apply validateAddress_ok in Hv as (_ & Hsz & _).
  apply bind_run_inv in H as (u & st2 & _ & H). apply bind_run_inv in H as (pdu & st3 & _ & H).
  apply bind_run_inv in H as (rate & st4 & _ & H). rewrite Z.max_l in H by done.
  destruct (planReadChunks_spec (a_Size addr)
    (if pdu - ReadVarRequestOverhead <? 1 then 200 else pdu - ReadVarRequestOverhead)) as (HF & Hs & _).
  eapply readChunks_wf; [done| |done| |exact H].
  - eapply Forall_impl; [exact HF|]. simpl. lia.
  - simpl length. lia.
Qed.

End ReadLaws.
