(* ===== verification/ClientSZL.v ===== *)
(** * User data exchange and SZL reads (client/szl.go, model/device.go)

    The exchange that collects a response of several packets, the SZL lists
    read with it and what the client makes of their records: identification,
    CPU mode, protection level, diagnostic buffer.  A Go function that returns
    a value together with an error returns a pair here. *)

From S2P Require Import Prelude Go WireErrors Header Userdata Client.

(** ** model/device.go *)

Record DeviceInfo := mkDeviceInfo {
  di_OrderNumber : bytes;
  di_SerialNumber : bytes;
  di_ModuleName : bytes;
  di_PlantID : bytes;
  di_Copyright : bytes;
  di_ModuleType : bytes;
  di_FWVersion : string;
  di_HWVersion : bytes;
  di_CPUType : bytes;
  di_CPUFamily : bytes;
  di_SystemName : bytes;
  di_MemoryCardSerial : bytes;
}.

Definition empty_DeviceInfo : DeviceInfo := mkDeviceInfo [] [] [] [] [] [] "" [] [] [] [] [].

Definition CPUState := byte.
Definition CPUStateUnknown : CPUState := x00.
Definition CPUStateRun : CPUState := x01.
Definition CPUStateStop : CPUState := x02.
Definition CPUStateStartup : CPUState := x03.
Definition CPUStateHold : CPUState := x04.

Definition CPUState_String (s : CPUState) : string :=
  if s =b CPUStateRun then "RUN" else if s =b CPUStateStop then "STOP"
  else if s =b CPUStateStartup then "STARTUP" else if s =b CPUStateHold then "HOLD"
  else "UNKNOWN".

Definition ProtectionLevel := byte.
Definition ProtectionNone : ProtectionLevel := x00.
Definition ProtectionRead : ProtectionLevel := x01.
Definition ProtectionReadWrite : ProtectionLevel := x02.
Definition ProtectionFull : ProtectionLevel := x03.

Definition ProtectionLevel_String (p : ProtectionLevel) : string :=
  if p =b ProtectionNone then "No Protection" else if p =b ProtectionRead then "Write Protected"
  else if p =b ProtectionReadWrite then "Read/Write Protected"
  else if p =b ProtectionFull then "Full Protection" else "Unknown".

Record DiagEntry := mkDiagEntry {
  de_Timestamp : string;
  de_EventID : Z;
  de_EventClass : Z;
  de_Priority : byte;
  de_Description : string;
  de_Info1 : Z;
  de_Info2 : Z;
}.

Record DiagBuffer := mkDiagBuffer { db_Entries : list DiagEntry; db_TotalCount : Z }.

(** ** Records of an SZL list *)

Definition maxUserdataFollowUps : Z := 256.
Definition moduleIDRecordSize : Z := 28.
Definition componentIDRecordSize : Z := 34.
Definition szlProtectionIndex : Z := 0x0004.
Definition diagRecordSize : Z := 20.

(** The loop of [szlRecords]: [count] records are still missing. *)
Fixpoint recordLoop (count : nat) (data : bytes) (size off : Z) : res (list bytes) :=
  match count with
  | O => mret []
  | S count =>
      if off + size <=? len data then
        r ← slice data off (off + size);
        rest ← recordLoop count data size (off + size);
        mret (r :: rest)
      else mret []
  end.

Definition szlRecords (data : bytes) : res (list bytes) :=
  if len data <? 4 then Err (Plain ("SZL list header: " +:+ dec (len data) +:+ " bytes")) else
  size ← slice data 0 2 ≫= Uint16;
  count ← slice data 2 4 ≫= Uint16;
  if size =? 0 then Err (Plain "SZL record length 0") else
  recordLoop (Z.to_nat count) data size 4.

(** [data[end-1] == 0 || data[end-1] == ' '] from the end. *)
Definition trimString (data : bytes) : bytes := TrimRight data.

Definition set_OrderNumber (s : bytes) (i : DeviceInfo) : DeviceInfo :=
  mkDeviceInfo s (di_SerialNumber i) (di_ModuleName i) (di_PlantID i) (di_Copyright i) (di_ModuleType i)
    (di_FWVersion i) (di_HWVersion i) (di_CPUType i) (di_CPUFamily i) (di_SystemName i) (di_MemoryCardSerial i).
Definition set_FWVersion (s : string) (i : DeviceInfo) : DeviceInfo :=
  mkDeviceInfo (di_OrderNumber i) (di_SerialNumber i) (di_ModuleName i) (di_PlantID i) (di_Copyright i)
    (di_ModuleType i) s (di_HWVersion i) (di_CPUType i) (di_CPUFamily i) (di_SystemName i) (di_MemoryCardSerial i).
Definition set_SystemName (s : bytes) (i : DeviceInfo) : DeviceInfo :=
  mkDeviceInfo (di_OrderNumber i) (di_SerialNumber i) (di_ModuleName i) (di_PlantID i) (di_Copyright i)
    (di_ModuleType i) (di_FWVersion i) (di_HWVersion i) (di_CPUType i) (di_CPUFamily i) s (di_MemoryCardSerial i).
Definition set_ModuleName (s : bytes) (i : DeviceInfo) : DeviceInfo :=
  mkDeviceInfo (di_OrderNumber i) (di_SerialNumber i) s (di_PlantID i) (di_Copyright i)
    (di_ModuleType i) (di_FWVersion i) (di_HWVersion i) (di_CPUType i) (di_CPUFamily i) (di_SystemName i)
    (di_MemoryCardSerial i).
Definition set_PlantID (s : bytes) (i : DeviceInfo) : DeviceInfo :=
  mkDeviceInfo (di_OrderNumber i) (di_SerialNumber i) (di_ModuleName i) s (di_Copyright i)
    (di_ModuleType i) (di_FWVersion i) (di_HWVersion i) (di_CPUType i) (di_CPUFamily i) (di_SystemName i)
    (di_MemoryCardSerial i).
Definition set_Copyright (s : bytes) (i : DeviceInfo) : DeviceInfo :=
  mkDeviceInfo (di_OrderNumber i) (di_SerialNumber i) (di_ModuleName i) (di_PlantID i) s
    (di_ModuleType i) (di_FWVersion i) (di_HWVersion i) (di_CPUType i) (di_CPUFamily i) (di_SystemName i)
    (di_MemoryCardSerial i).
Definition set_SerialNumber (s : bytes) (i : DeviceInfo) : DeviceInfo :=
  mkDeviceInfo (di_OrderNumber i) s (di_ModuleName i) (di_PlantID i) (di_Copyright i)
    (di_ModuleType i) (di_FWVersion i) (di_HWVersion i) (di_CPUType i) (di_CPUFamily i) (di_SystemName i)
    (di_MemoryCardSerial i).
Definition set_ModuleType (s cpu : bytes) (i : DeviceInfo) : DeviceInfo :=
  mkDeviceInfo (di_OrderNumber i) (di_SerialNumber i) (di_ModuleName i) (di_PlantID i) (di_Copyright i)
    s (di_FWVersion i) (di_HWVersion i) cpu (di_CPUFamily i) (di_SystemName i) (di_MemoryCardSerial i).
Definition set_MemoryCardSerial (s : bytes) (i : DeviceInfo) : DeviceInfo :=
  mkDeviceInfo (di_OrderNumber i) (di_SerialNumber i) (di_ModuleName i) (di_PlantID i) (di_Copyright i)
    (di_ModuleType i) (di_FWVersion i) (di_HWVersion i) (di_CPUType i) (di_CPUFamily i) (di_SystemName i) s.

(** The record loop of [applyModuleID]: [info] is filled until a short
    record. *)
Fixpoint applyModuleRecords (info : DeviceInfo) (recs : list bytes) : res (DeviceInfo * option error) :=
  match recs with
  | [] => mret (info, None)
  | r :: recs =>
      if len r <? moduleIDRecordSize then
        mret (info, Some (Plain ("module ID record of " +:+ dec (len r) +:+ " bytes")))
      else
      index ← slice r 0 2 ≫= Uint16;
      info ←
        (if index =? 0x0001 then s ← slice r 2 22; mret (set_OrderNumber (trimString s) info)
         else if index =? 0x0007 then
           v ← idx r 24;
           if v =b x56 then
             a ← idx r 25; b ← idx r 26; c ← idx r 27;
             mret (set_FWVersion ("V" +:+ dec (b2z a) +:+ "." +:+ dec (b2z b) +:+ "." +:+ dec (b2z c)) info)
           else mret info
         else mret info);
      applyModuleRecords info recs
  end.

Definition applyModuleID (info : DeviceInfo) (data : bytes) : res (DeviceInfo * option error) :=
  match szlRecords data with
  | Err err => mret (info, Some err)
  | Panic => Panic
  | Ok recs => applyModuleRecords info recs
  end.

(** [strings.HasPrefix(strings.ToUpper(text), "CPU")]: no rune outside ASCII
    has the upper case C, P or U, so the first three bytes decide. *)
Definition cpu_prefix (text : bytes) : bool :=
  match text with
  | c :: p :: u :: _ => (c ∈b [x43; x63]) && (p ∈b [x50; x70]) && (u ∈b [x55; x75])
  | _ => false
  end.

Fixpoint applyComponentRecords (info : DeviceInfo) (recs : list bytes) : res (DeviceInfo * option error) :=
  match recs with
  | [] => mret (info, None)
  | r :: recs =>
      if len r <? componentIDRecordSize then
        mret (info, Some (Plain ("component ID record of " +:+ dec (len r) +:+ " bytes")))
      else
      s ← slice r 2 34;
      let text := trimString s in
      index ← slice r 0 2 ≫= Uint16;
      let info :=
        if index =? 0x0001 then set_SystemName text info
        else if index =? 0x0002 then set_ModuleName text info
        else if index =? 0x0003 then set_PlantID text info
        else if index =? 0x0004 then set_Copyright text info
        else if index =? 0x0005 then set_SerialNumber text info
        else if index =? 0x0007 then
          set_ModuleType text (if cpu_prefix text then text else di_CPUType info) info
        else if index =? 0x0008 then set_MemoryCardSerial text info
        else info in
      applyComponentRecords info recs
  end.

Definition applyComponentID (info : DeviceInfo) (data : bytes) : res (DeviceInfo * option error) :=
  match szlRecords data with
  | Err err => mret (info, Some err)
  | Panic => Panic
  | Ok recs => applyComponentRecords info recs
  end.

(** The mode switch of [GetCPUState]. *)
Definition cpuMode (b : byte) : CPUState :=
  let mode := Z.land (b2z b) 0x0f in
  if (mode >=? 1) && (mode <=? 4) then CPUStateStop
  else if (mode >=? 5) && (mode <=? 7) then CPUStateStartup
  else if (mode =? 8) || (mode =? 9) then CPUStateRun
  else if mode =? 10 then CPUStateHold
  else CPUStateUnknown.

(** fmt's [%x] of a byte slice. *)
Definition hex_lower (d : Z) : Ascii.ascii :=
  Ascii.ascii_of_N (Z.to_N (if d <? 10 then 48 + d else 87 + d)).
Definition fmt_x (l : bytes) : string :=
  foldr (fun b s => String (hex_lower (Z.shiftr (b2z b) 4)) (String (hex_lower (Z.land (b2z b) 15)) s))
    EmptyString l.

Definition diagEntry (r : bytes) : res DiagEntry :=
  event ← slice r 0 2 ≫= Uint16;
  b0 ← idx r 0;
  priority ← idx r 2;
  info1 ← slice r 6 8 ≫= Uint16;
  info2 ← slice r 8 12 ≫= Uint32;
  stamp ← slice r 12 20;
  mret (mkDiagEntry (fmt_x stamp) event (Z.shiftr (b2z b0) 4) priority "" info1 info2).

(** The record loop of [ReadDiagBuffer]; the count is set only at its end. *)
Fixpoint diagRecords (recs : list bytes) (entries : list DiagEntry) : res (DiagBuffer * option error) :=
  match recs with
  | [] => mret (mkDiagBuffer entries (len entries), None)
  | r :: recs =>
      if len r <? diagRecordSize then
        mret (mkDiagBuffer entries 0, Some (Plain ("diagnostic record of " +:+ dec (len r) +:+ " bytes")))
      else e ← diagEntry r; diagRecords recs (entries ++ [e])
  end.

(** ** client/szl.go *)

Section Operations.
Context {W : Type} `{!Transport W}.

(** The follow-up loop of [userdata]: [budget] follow-ups are still allowed. *)
Fixpoint followUps (budget : nat) (ctx : Ctx) (group subfunc : byte) (up : UserdataParam) (payload : bytes)
  : M W bytes :=
  if negb (ud_More up) then mret payload else
  match budget with
  | O => fail (errorf1 ("user data response longer than " +:+ dec maxUserdataFollowUps +:+ " packets: ")
                 (Sentinel ErrProtocolFailure) "")
  | S budget =>
      ref ← nextPDURef;
      '(param, data) ← sendReceive ctx (EncodeUserdataFollowUp ref group subfunc (ud_Sequence up)) ref;
      r ← attempt (lift (ParseUserdataParam param));
      match r with
      | inl err => fail (errorf1 "user data follow-up: " (Join [err; Sentinel ErrProtocolFailure]) "")
      | inr up =>
          more ← lift (ParseUserdataData data);
          followUps budget ctx group subfunc up (payload ++ more)
      end
  end.

Definition userdata (ctx : Ctx) (req : bytes) (ref : Z) (group subfunc : byte) : M W (bytes * bytes) :=
  '(param, data) ← sendReceive ctx req ref;
  r ← attempt (lift (ParseUserdataParam param));
  match r with
  | inl err => fail (errorf1 "user data response: " (Join [err; Sentinel ErrProtocolFailure]) "")
  | inr up =>
      payload ← lift (ParseUserdataData data);
      payload ← followUps (Z.to_nat maxUserdataFollowUps) ctx group subfunc up payload;
      mret (data, payload)
  end.

Definition readSZL (ctx : Ctx) (id index : Z) : M W SZLResponse :=
  ref ← nextPDURef;
  '(first, payload) ← userdata ctx (EncodeSZLRequest ref id index) ref UserdataGroupCPU UserdataSZL;
  resp ← lift (ParseSZLResponse first);
  d ← lift (slice_from payload 4);
  mret (mkSZLResponse (szl_ID resp) (szl_Index resp) (szl_DataLength resp) d).

Definition readModuleIDSZL (ctx : Ctx) : M W bytes :=
  resp ← readSZL ctx SZLModuleID 0; mret (szl_Data resp).

Definition readComponentIDSZL (ctx : Ctx) : M W bytes :=
  resp ← readSZL ctx SZLComponentID 0; mret (szl_Data resp).

(** One half of [Identify]: the read, then what [apply] makes of it; the
    error, if any, is appended to [errs]. *)
Definition identifyPart (what : string) (read : M W bytes)
  (apply : DeviceInfo -> bytes -> res (DeviceInfo * option error)) (info : DeviceInfo) (errs : list error)
  : M W (DeviceInfo * list error) :=
  r ← attempt read;
  match r with
  | inl err => mret (info, errs ++ [err])
  | inr raw =>
      '(info, e) ← lift (apply info raw);
      mret (info, errs ++ match e with Some err => [errorf1 what err ""] | None => [] end)
  end.

Definition Identify (ctx : Ctx) : M W (option DeviceInfo * option error) :=
  '(info, errs) ← identifyPart "module ID SZL: " (readModuleIDSZL ctx) applyModuleID empty_DeviceInfo [];
  '(info, errs) ← identifyPart "component ID SZL: " (readComponentIDSZL ctx) applyComponentID info errs;
  match errs with
  | [e1; e2] => mret (None, Some (Join errs))
  | [e1] => mret (Some info, Some e1)
  | _ => mret (Some info, None)
  end.

Definition GetCPUState (ctx : Ctx) : M W CPUState :=
  resp ← readSZL ctx SZLCPUState 0;
  recs ← lift (szlRecords (szl_Data resp));
  match recs with
  | r :: _ =>
      if len r <? 4 then fail (Plain "SZL 0x0424 holds no mode record") else
      b ← lift (idx r 3); mret (cpuMode b)
  | [] => fail (Plain "SZL 0x0424 holds no mode record")
  end.

Definition GetProtectionLevel (ctx : Ctx) : M W ProtectionLevel :=
  resp ← readSZL ctx SZLProtectionInfo szlProtectionIndex;
  recs ← lift (szlRecords (szl_Data resp));
  match recs with
  | r :: _ =>
      if len r <? 8 then fail (Plain "SZL 0x0232 holds no protection record") else
      v ← lift (slice r 6 8 ≫= Uint16);
      if v =? 1 then mret ProtectionNone
      else if v =? 2 then mret ProtectionRead
      else if v =? 3 then mret ProtectionReadWrite
      else fail (Plain ("SZL 0x0232: unknown protection level " +:+ dec v))
  | [] => fail (Plain "SZL 0x0232 holds no protection record")
  end.

Definition ReadDiagBufferRaw (ctx : Ctx) : M W bytes :=
  resp ← readSZL ctx SZLDiagBuffer 0; mret (szl_Data resp).

Definition ReadDiagBuffer (ctx : Ctx) : M W (DiagBuffer * option error) :=
  raw ← ReadDiagBufferRaw ctx;
  recs ← lift (szlRecords raw);
  lift (diagRecords recs []).
End Operations.

(** ** Lemmas: records *)

Lemma recordLoop_ok count data size off :
  0 < size -> 0 <= off ->
  exists recs, recordLoop count data size off = Ok recs /\ Forall (fun r => len r = size) recs /\
    len recs = Z.min (Z.of_nat count) (Z.max 0 (len data - off) / size) /\
    mjoin recs = take (Z.to_nat (len recs * size)) (drop (Z.to_nat off) data).
Proof.
  intros Hsize. revert off. induction count as [|count IH]; intros off Hoff; cbn [recordLoop].
  { exists []. split; [done|]. split; [done|]. split; [|done]. simpl length.
    pose proof (Z.div_pos (Z.max 0 (len data - off)) size ltac:(lia) Hsize). lia. }
  case_if; b2p.
  - destruct (IH (off + size)) as (recs & -> & HF & Hn & Hj); [lia|].
    rewrite slice_ok by lia. replace (off + size - off) with size by lia. rewrite !bind_Ok.
    set (r := take (Z.to_nat size) (drop (Z.to_nat off) data)).
    assert (Hr : len r = size) by (unfold r; rewrite length_take, length_drop; lia).
    exists (r :: recs). split; [done|]. split; [by constructor|].
    replace (Z.max 0 (len data - off)) with (Z.max 0 (len data - (off + size)) + 1 * size) by lia.
    rewrite Z.div_add by lia. split; [simpl length; lia|].
    change (mjoin (r :: recs)) with (r ++ mjoin recs). rewrite Hj.
    replace (Z.to_nat (len (r :: recs) * size)) with (Z.to_nat size + Z.to_nat (len recs * size))%nat
      by (simpl length; lia).
    rewrite <- take_take_drop, drop_drop. unfold r. do 3 f_equal. lia.
  - exists []. split; [done|]. split; [done|]. split; [|done]. simpl length.
    rewrite Z.div_small by lia. lia.
Qed.

Lemma szlRecords_ok data size count :
  4 <= len data -> (slice data 0 2 ≫= Uint16) = Ok size -> (slice data 2 4 ≫= Uint16) = Ok count ->
  size <> 0 ->
  exists recs, szlRecords data = Ok recs /\ Forall (fun r => len r = size) recs /\
    len recs = Z.min count ((len data - 4) / size) /\
    mjoin recs = take (Z.to_nat (len recs * size)) (drop 4 data).
Proof.
  intros Hl Hs Hc Hz. unfold szlRecords. if_arith. rewrite Hs, bind_Ok, Hc, bind_Ok. if_arith.
  apply slice_Uint16_range in Hs. apply slice_Uint16_range in Hc. unfold is_u16 in *.
  destruct (recordLoop_ok (Z.to_nat count) data size 4) as (recs & -> & HF & Hn & Hj); [lia..|].
  exists recs. split; [done|]. split; [done|]. split; [|done]. rewrite Hn. f_equal; [lia|]. f_equal. lia.
Qed.

Lemma szlRecords_no_panic data : no_panic (szlRecords data).
Proof.
  unfold szlRecords. np_step; [np|]. np_step; [np_step|]. np_step; [np_step|]. np_step; [np|]. b2p.
  destruct (recordLoop_ok (Z.to_nat a0) data a 4) as (recs & -> & _); [lia..|np].
Qed.
#[export] Hint Resolve szlRecords_no_panic : go.

Lemma applyModuleRecords_no_panic info recs : no_panic (applyModuleRecords info recs).
Proof.
  revert info. induction recs as [|r recs IH]; intros info; cbn [applyModuleRecords]; [np|].
  unfold moduleIDRecordSize. np_step; [np|]. np_step; [np_step|].
  apply no_panic_bind; [repeat np_step | intros; apply IH].
Qed.

Lemma applyModuleID_no_panic info data : no_panic (applyModuleID info data).
Proof.
  unfold applyModuleID. pose proof (szlRecords_no_panic data).
  destruct (szlRecords data); [apply applyModuleRecords_no_panic | np | done].
Qed.

Lemma applyComponentRecords_no_panic info recs : no_panic (applyComponentRecords info recs).
Proof.
  revert info. induction recs as [|r recs IH]; intros info; cbn [applyComponentRecords]; [np|].
  unfold componentIDRecordSize. np_step; [np|]. np_step; [np_step|]. cbv zeta.
  apply no_panic_bind; [np_step | intros; apply IH].
Qed.

Lemma applyComponentID_no_panic info data : no_panic (applyComponentID info data).
Proof.
  unfold applyComponentID. pose proof (szlRecords_no_panic data).
  destruct (szlRecords data); [apply applyComponentRecords_no_panic | np | done].
Qed.

Lemma diagEntry_no_panic r : diagRecordSize <= len r -> no_panic (diagEntry r).
Proof.
  unfold diagRecordSize, diagEntry. intros H.
  repeat first [ apply no_panic_slice_Uint16; lia | apply no_panic_slice_Uint32; lia
               | apply no_panic_bind; [|intros ? _] | np_step ].
Qed.

Lemma diagRecords_no_panic recs entries : no_panic (diagRecords recs entries).
Proof.
  revert entries. induction recs as [|r recs IH]; intros entries; cbn [diagRecords]; [np|].
  np_step; [np|]. b2p. apply no_panic_bind; [by apply diagEntry_no_panic | intros; apply IH].
Qed.
#[export] Hint Resolve applyModuleID_no_panic applyComponentID_no_panic diagRecords_no_panic : go.

(** ** Lemmas: identification *)

(** The list data splits into records of at least [size] bytes. *)
Definition usable (size : Z) (data : bytes) : bool :=
  match szlRecords data with
  | Ok recs => forallb (fun r => size <=? len r) recs
  | _ => false
  end.

Lemma applyModuleRecords_err recs info :
  exists info' e, applyModuleRecords info recs = Ok (info', e) /\
    (if forallb (fun r => moduleIDRecordSize <=? len r) recs then e = None else e <> None).
Proof.
  revert info. induction recs as [|r recs IH]; intros info; cbn [applyModuleRecords]; [by eexists _, _|].
  simpl forallb. case_if; b2p; [replace (moduleIDRecordSize <=? len r) with false by lia; by eexists _, _|].
  replace (moduleIDRecordSize <=? len r) with true by lia. simpl andb.
  unfold moduleIDRecordSize in *. destruct (Uint16_slice_ok r 0 2) as (index & -> & _); [lia..|]. rewrite bind_Ok.
  destruct (idx_ok r 24) as [v ->]; [lia|]. destruct (idx_ok r 25) as [v1 ->]; [lia|].
  destruct (idx_ok r 26) as [v2 ->]; [lia|]. destruct (idx_ok r 27) as [v3 ->]; [lia|].
  rewrite slice_ok by lia. destruct (index =? 1); [apply IH|]. destruct (index =? 7); [|apply IH]. rewrite !bind_Ok.
  destruct (v =b x56); apply IH.
Qed.

Lemma applyModuleID_err info data :
  exists info' e, applyModuleID info data = Ok (info', e) /\
    (if usable moduleIDRecordSize data then e = None else e <> None).
Proof.
  unfold applyModuleID, usable. pose proof (szlRecords_no_panic data).
  destruct (szlRecords data); [apply applyModuleRecords_err | by eexists _, _ | done].
Qed.

Lemma applyComponentRecords_err recs info :
  exists info' e, applyComponentRecords info recs = Ok (info', e) /\
    (if forallb (fun r => componentIDRecordSize <=? len r) recs then e = None else e <> None).
Proof.
  revert info. induction recs as [|r recs IH]; intros info; cbn [applyComponentRecords]; [by eexists _, _|].
  simpl forallb. case_if; b2p; [replace (componentIDRecordSize <=? len r) with false by lia; by eexists _, _|].
  replace (componentIDRecordSize <=? len r) with true by lia. simpl andb. unfold componentIDRecordSize in *.
  rewrite (slice_ok r 2 34) by lia. rewrite bind_Ok. cbv zeta.
  destruct (Uint16_slice_ok r 0 2) as (index & -> & _); [lia..|]. rewrite bind_Ok. apply IH.
Qed.

Lemma applyComponentID_err info data :
  exists info' e, applyComponentID info data = Ok (info', e) /\
    (if usable componentIDRecordSize data then e = None else e <> None).
Proof.
  unfold applyComponentID, usable. pose proof (szlRecords_no_panic data).
  destruct (szlRecords data); [apply applyComponentRecords_err | by eexists _, _ | done].
Qed.

Section Identification.
Context {W : Type} `{!Transport W}.

(** A list that was read and can be used. *)
Definition obtained (size : Z) (r : res bytes) : bool :=
  match r with Ok raw => usable size raw | _ => false end.

Lemma identifyPart_errs what (read : M W bytes) apply size info errs st r st' :
  (forall i d, exists i' e, apply i d = Ok (i', e) /\ (if usable size d then e = None else e <> None)) ->
  read st = (r, st') -> r <> Panic ->
  exists info' new, identifyPart what read apply info errs st = (Ok (info', errs ++ new), st') /\
    length new = (if obtained size r then 0 else 1)%nat.
Proof.
  intros Ha Hr Hp. unfold identifyPart. rewrite bind_run. unfold attempt. rewrite Hr.
  destruct r as [raw|e|]; [|by eexists _, [e] | done].
  destruct (Ha info raw) as (info' & e & Hap & He). rewrite bind_run. simpl lift. rewrite Hap.
  eexists info', _. split; [done|]. simpl. destruct (usable size raw), e; try done.
Qed.

Lemma Identify_outcome ctx st r1 st1 r2 st2 :
  readModuleIDSZL ctx st = (r1, st1) -> readComponentIDSZL ctx st1 = (r2, st2) ->
  r1 <> Panic -> r2 <> Panic ->
  exists o e, Identify ctx st = (Ok (o, e), st2) /\
    (o = None <-> obtained moduleIDRecordSize r1 = false /\ obtained componentIDRecordSize r2 = false) /\
    (e = None <-> obtained moduleIDRecordSize r1 = true /\ obtained componentIDRecordSize r2 = true).
Proof.
  intros H1 H2 Hp1 Hp2. unfold Identify.
  destruct (identifyPart_errs "module ID SZL: " (readModuleIDSZL ctx) applyModuleID moduleIDRecordSize empty_DeviceInfo [] st r1 st1)
    as (i1 & n1 & Hr1 & Hl1); [apply applyModuleID_err | done..|].
  rewrite (bind_run_Ok _ _ _ _ _ Hr1). cbv beta iota.
  destruct (identifyPart_errs "component ID SZL: " (readComponentIDSZL ctx) applyComponentID componentIDRecordSize i1 ([] ++ n1) st1 r2 st2)
    as (i2 & n2 & Hr2 & Hl2); [apply applyComponentID_err | done..|].
  rewrite (bind_run_Ok _ _ _ _ _ Hr2). simpl (_ ++ _).
  destruct (obtained moduleIDRecordSize r1), (obtained componentIDRecordSize r2);
    destruct n1 as [|e1 [|]]; try done; destruct n2 as [|e2 [|]]; try done; eexists _, _; (split; [done|]); split; intuition discriminate.
Qed.
End Identification.
