(* ===== verification/ClientBlocks.v ===== *)
(** * Block functions and block upload (client/blocks.go, model/blocks.go)

    Block lists, counts and headers over the user data exchange, and the
    upload of a block: start, segments with retries, end.  A Go function that
    returns a value together with an error returns a pair here. *)

From S2P Require Import Prelude Go WireErrors Header Userdata Client ClientSZL.

(** ** model/blocks.go *)

Definition BlockType := byte.
Definition BlockOB : BlockType := x38.
Definition BlockDB : BlockType := x41.
Definition BlockSDB : BlockType := x42.
Definition BlockFC : BlockType := x43.
Definition BlockSFC : BlockType := x44.
Definition BlockFB : BlockType := x45.
Definition BlockSFB : BlockType := x46.

Definition BlockType_String (b : BlockType) : string :=
  if b =b BlockOB then "OB" else if b =b BlockDB then "DB" else if b =b BlockSDB then "SDB"
  else if b =b BlockFC then "FC" else if b =b BlockSFC then "SFC" else if b =b BlockFB then "FB"
  else if b =b BlockSFB then "SFB" else "?".

Definition BlockLang := byte.
Definition BlockLangAWL : BlockLang := x01.
Definition BlockLangKOP : BlockLang := x02.
Definition BlockLangFUP : BlockLang := x03.
Definition BlockLangSCL : BlockLang := x04.
Definition BlockLangDB : BlockLang := x05.
Definition BlockLangGraph : BlockLang := x06.

Definition BlockLang_String (l : BlockLang) : string :=
  if l =b BlockLangAWL then "AWL" else if l =b BlockLangKOP then "KOP" else if l =b BlockLangFUP then "FUP"
  else if l =b BlockLangSCL then "SCL" else if l =b BlockLangDB then "DB"
  else if l =b BlockLangGraph then "GRAPH" else "?".

Record BlockInfo := mkBlockInfo {
  b_Type : BlockType;
  b_Number : Z;
  b_Language : BlockLang;
  b_Flags : byte;
  b_LoadMemory : Z;
  b_LocalData : Z;
  b_MC7Size : Z;
  b_SBBLength : Z;
  b_Author : bytes;
  b_Family : bytes;
  b_Name : bytes;
  b_Version : string;
  b_CheckSum : Z;
}.

Record BlockData := mkBlockData { bd_Info : BlockInfo; bd_Data : bytes }.

(** The literals with only type, number, language and flags set. *)
Definition listed_block (bt : BlockType) (num : Z) (lang : BlockLang) (flags : byte) : BlockInfo :=
  mkBlockInfo bt num lang flags 0 0 0 0 [] [] [] "" 0.

(** ** client/blocks.go *)

Definition maxUploadChunks : Z := 4096.
Definition maxUploadRetries : Z := 3.

Definition isUploadProtocolError (err : option error) : bool :=
  match err with
  | None => false
  | Some err =>
      if errors_Is err ErrProtocolFailure then true
      else match errors_As_S7Error err with Some _ => true | None => false end
  end.

#[export] Instance byte_countable : Countable byte := inj_countable' b2z z2b z2b_b2z.

Section Operations.
Context {W : Type} `{!Transport W}.

Definition ListBlocks (ctx : Ctx) (bt : BlockType) : M W (list BlockInfo) :=
  ref ← nextPDURef;
  '(_, payload) ← userdata ctx (EncodeBlockListRequest ref bt) ref UserdataGroupBlock UserdataBlockList;
  r ← attempt (lift (ParseBlockListResponse payload));
  match r with
  | inl err => fail (Join [err; Sentinel ErrProtocolFailure])
  | inr entries =>
      mret ((fun e => listed_block bt (be_BlockNumber e) (be_Language e) (be_Flags e)) <$> entries)
  end.

Definition BlockCounts (ctx : Ctx) : M W (gmap BlockType Z) :=
  ref ← nextPDURef;
  '(_, payload) ← userdata ctx (EncodeBlockCountRequest ref) ref UserdataGroupBlock UserdataBlockCount;
  r ← attempt (lift (ParseBlockCountResponse payload));
  match r with
  | inl err => fail (Join [err; Sentinel ErrProtocolFailure])
  | inr counts => mret (foldl (fun out bc => <[bc_BlockType bc := bc_Count bc]> out) ∅ counts)
  end.

(** The loop of [ListAllBlocks] over the block types. *)
Fixpoint listTypes (ctx : Ctx) (types : list BlockType) (all : list BlockInfo) (errs : list error)
  : M W (list BlockInfo * list error) :=
  match types with
  | [] => mret (all, errs)
  | bt :: types =>
      r ← attempt (ListBlocks ctx bt);
      match r with
      | inl err => listTypes ctx types all (errs ++ [errorf1 ("list blocks " +:+ BlockType_String bt +:+ ": ") err ""])
      | inr blocks => listTypes ctx types (all ++ blocks) errs
      end
  end.

Definition allBlockTypes : list BlockType :=
  [BlockOB; BlockDB; BlockSDB; BlockFC; BlockFB; BlockSFC; BlockSFB].

Definition ListAllBlocks (ctx : Ctx) : M W (list BlockInfo * option error) :=
  '(all, errs) ← listTypes ctx allBlockTypes [] [];
  mret (all, match errs with [] => None | _ => Some (Join errs) end).

Definition GetBlockInfo (ctx : Ctx) (bt : BlockType) (num : Z) : M W (BlockInfo * option error) :=
  if (num <? 0) || (num >? MaxUploadBlockNumber) then
    fail (ValidationError ("block number " +:+ dec num +:+ " out of range (0.." +:+ dec MaxUploadBlockNumber +:+ ")"))
  else
  ref ← nextPDURef;
  r ← attempt (lift (EncodeBlockInfoRequest ref bt num));
  match r with
  | inl err => fail (ValidationError (Error err))
  | inr req =>
      '(_, payload) ← userdata ctx req ref UserdataGroupBlock UserdataBlockInfo;
      r ← attempt (lift (ParseBlockInfoResponse payload));
      match r with
      | inl err => mret (listed_block bt num x00 x00, Some (Join [err; Sentinel ErrProtocolFailure]))
      | inr bi =>
          mret (mkBlockInfo bt (bi_Number bi) (bi_Language bi) (bi_Flags bi) (bi_LoadMemory bi)
                  (bi_LocalData bi) (bi_MC7Size bi) (bi_SSBLength bi) (bi_Author bi) (bi_Family bi)
                  (bi_Name bi) (bi_Version bi) (bi_Checksum bi), None)
      end
  end.

(** [defer d()] around [m]: [d] runs whatever [m] does, its result is
    dropped, its panic is not. *)
Definition with_defer {A B} (m : M W A) (d : M W B) : M W A := fun st =>
  let '(r, st) := m st in
  match d st with
  | (Panic, st) => (Panic, st)
  | (_, st) => (r, st)
  end.

(** 500 milliseconds, in nanoseconds. *)
Definition cleanupTimeout : Z := 500000000.

Definition endUpload (uploadID : Z) : M W (bytes * bytes) :=
  let cleanupCtx := TimeoutCtx Background cleanupTimeout in
  endRef ← nextPDURef;
  sendReceive cleanupCtx (EncodeEndUploadRequest endRef uploadID) endRef.

(** The retry loop for segment [i]; [received] bytes arrived before it. *)
Fixpoint uploadSegment (retries : nat) (ctx : Ctx) (uploadID i received : Z) (lastErr : option error)
  : M W UploadChunk :=
  match retries with
  | O =>
      match lastErr with
      | Some err =>
          fail (errorf1 ("upload chunk " +:+ dec i +:+ " failed after " +:+ dec maxUploadRetries +:+
                         " retries (received " +:+ dec received +:+ " bytes so far): ") err "")
      | None => lift Panic (* chunk is nil *)
      end
  | S retries =>
      check_ctx ctx ;;
      chunkRef ← nextPDURef;
      r ← attempt (sendReceive ctx (EncodeUploadRequest chunkRef uploadID) chunkRef);
      match r with
      | inl e =>
          if isUploadProtocolError (Some e) then fail (errorf1 ("upload chunk " +:+ dec i +:+ ": ") e "")
          else uploadSegment retries ctx uploadID i received (Some e)
      | inr (param, data) =>
          r ← attempt (lift (ParseUploadResponse param data));
          match r with
          | inl e =>
              let e := errorf1 "parse upload response: " (Join [e; Sentinel ErrProtocolFailure]) "" in
              if isUploadProtocolError (Some e) then fail (errorf1 ("upload chunk " +:+ dec i +:+ ": ") e "")
              else uploadSegment retries ctx uploadID i received (Some e)
          | inr chunk => mret chunk
          end
      end
  end.

(** The segment loop: the payload and the number of segments with data. *)
Fixpoint uploadLoop (chunks : nat) (ctx : Ctx) (uploadID i : Z) (payload : bytes) (chunkCount : Z)
  : M W (bytes * Z) :=
  match chunks with
  | O => fail (Plain ("upload did not complete within " +:+ dec maxUploadChunks +:+ " chunks"))
  | S chunks =>
      chunk ← uploadSegment (Z.to_nat maxUploadRetries) ctx uploadID i (len payload) None;
      let '(payload, chunkCount) :=
        if len (uc_Data chunk) >? 0 then (payload ++ uc_Data chunk, chunkCount + 1) else (payload, chunkCount) in
      if uc_Done chunk then mret (payload, chunkCount)
      else uploadLoop chunks ctx uploadID (i + 1) payload chunkCount
  end.

Definition uploadBody (ctx : Ctx) (bt : BlockType) (num uploadID : Z) : M W BlockData :=
  '(payload, chunkCount) ← uploadLoop (Z.to_nat maxUploadChunks) ctx uploadID 0 [] 0;
  if (len payload =? 0) && (chunkCount =? 0) then fail (Plain "upload completed with no payload")
  else mret (mkBlockData (listed_block bt num x00 x00) payload).

Definition UploadBlock (ctx : Ctx) (bt : BlockType) (num : Z) : M W BlockData :=
  if (num <? 0) || (num >? 0xFFFF) then
    fail (ValidationError ("block number " +:+ dec num +:+ " out of range (0..65535)"))
  else
  ref ← nextPDURef;
  r ← attempt (lift (EncodeStartUploadRequest ref bt num));
  match r with
  | inl err => fail (ValidationError (Error err))
  | inr req =>
      '(param, _) ← sendReceive ctx req ref;
      r ← attempt (lift (ParseStartUploadResponse param));
      match r with
      | inl err => fail (errorf1 "parse start upload: " (Join [err; Sentinel ErrProtocolFailure]) "")
      | inr start =>
          with_defer (uploadBody ctx bt num (su_UploadID start)) (endUpload (su_UploadID start))
      end
  end.
End Operations.
