(* ===== verification/Locking.v ===== *)
(** * Concurrent calls on one client (client/client.go: reqMu)

    Every protocol operation of a client validates its arguments, takes
    [reqMu], works on the client and its connection, and gives the mutex back
    when it returns.  Here any number of goroutines call operations of one
    client and their steps interleave.  The body of an operation is a program
    of atomic steps; the results hold for every way to cut an operation into
    such steps.

    The specification is the atomic object: a call is invoked, takes effect at
    one moment, and returns.  Every history of the goroutines is a history of
    the object, so the operations are linearizable.  A step of a body may block
    (a network call without a deadline): then the goroutines that wait for the
    mutex wait with it, and that is the only way in which calls get stuck. *)

From S2P Require Import Prelude.

(** ** Programs of atomic steps *)

(** A step changes the state; how the program goes on may depend on the
    state the step found. *)

Inductive prog (S A : Type) :=
  | Ret (a : A)
  | Act (f : S -> S) (k : S -> prog S A).
Arguments Ret {S A} a.
Arguments Act {S A} f k.

Fixpoint run {S A} (p : prog S A) (s : S) : A * S :=
  match p with
  | Ret a => (a, s)
  | Act f k => run (k s) (f s)
  end.

(** A function as one atomic step, and steps in sequence. *)
Definition atomically {S A} (m : S -> A * S) : prog S A := Act (fun s => (m s).2) (fun s => Ret (m s).1).

Fixpoint andThen {S A B} (p : prog S A) (k : A -> prog S B) : prog S B :=
  match p with
  | Ret a => k a
  | Act f p' => Act f (fun s => andThen (p' s) k)
  end.

Lemma run_atomically {S A} (m : S -> A * S) s : run (atomically m) s = m s.
Proof. unfold atomically. simpl. by destruct (m s). Qed.

Lemma run_andThen {S A B} (p : prog S A) (k : A -> prog S B) s :
  run (andThen p k) s = let '(a, s') := run p s in run (k a) s'.
Proof.
  revert s. induction p as [a|f p' IH]; intros s; simpl; [done | apply IH].
Qed.

(** ** Histories *)

(** What the callers see: goroutine [t] calls, and its call returns. *)
Inductive event (Q A : Type) :=
  | Invoke (t : Z) (q : Q)
  | Return (t : Z) (a : A).
Arguments Invoke {Q A} t q.
Arguments Return {Q A} t a.

(** Runs of a transition system with silent steps, and what they show. *)
Inductive history {St Ev : Type} (step : St -> option Ev -> St -> Prop) : St -> list Ev -> St -> Prop :=
  | history_nil s : history step s [] s
  | history_silent s1 s2 s3 h : step s1 None s2 -> history step s2 h s3 -> history step s1 h s3
  | history_event s1 e s2 s3 h : step s1 (Some e) s2 -> history step s2 h s3 -> history step s1 (e :: h) s3.

(** A step simulated by at most one silent step, or by the same event. *)
Lemma history_simulation {St1 St2 Ev} (step1 : St1 -> option Ev -> St1 -> Prop) (step2 : St2 -> option Ev -> St2 -> Prop)
    (R : St1 -> St2 -> Prop) :
  (forall s1 e s1' s2, R s1 s2 -> step1 s1 e s1' ->
     (e = None /\ R s1' s2) \/ exists s2', step2 s2 e s2' /\ R s1' s2') ->
  forall s1 h s1' s2, R s1 s2 -> history step1 s1 h s1' -> exists s2', history step2 s2 h s2' /\ R s1' s2'.
Proof.
  intros Hsim s1 h s1' s2 HR Hh. revert s2 HR.
  induction Hh as [s|s1 s1a s1b h Hs _ IH|s1 e s1a s1b h Hs _ IH]; intros s2 HR.
  - exists s2. by split; [constructor|].
  - destruct (Hsim _ _ _ _ HR Hs) as [[_ HR']|(s2a & Hs2 & HR')]; [by apply IH|].
    destruct (IH _ HR') as (s2b & Hh & HR2). exists s2b. split; [by eapply history_silent | done].
  - destruct (Hsim _ _ _ _ HR Hs) as [[? _]|(s2a & Hs2 & HR')]; [done|].
    destruct (IH _ HR') as (s2b & Hh & HR2). exists s2b. split; [by eapply history_event | done].
Qed.

(** ** The atomic object *)

Section Object.
Context {S Q A : Type}.
(** What one call may do to the state. *)
Variable effect : S -> Q -> A -> S -> Prop.

Inductive pending :=
  | Pending (q : Q)
  | Answered (a : A).

(** The calls in flight, and those that took effect, in that order. *)
Record object := mkObject {
  ob_state : S;
  ob_calls : gmap Z pending;
  ob_log : list (Z * Q * A);
}.

Inductive object_step (o : object) : option (event Q A) -> object -> Prop :=
  | object_invoke t q :
      ob_calls o !! t = None ->
      object_step o (Some (Invoke t q)) (mkObject (ob_state o) (<[t := Pending q]> (ob_calls o)) (ob_log o))
  | object_effect t q a s' :
      ob_calls o !! t = Some (Pending q) -> effect (ob_state o) q a s' ->
      object_step o None (mkObject s' (<[t := Answered a]> (ob_calls o)) (ob_log o ++ [(t, q, a)]))
  | object_return t a :
      ob_calls o !! t = Some (Answered a) ->
      object_step o (Some (Return t a)) (mkObject (ob_state o) (delete t (ob_calls o)) (ob_log o)).

(** The log is a sequential run of the calls that took effect. *)
Inductive sequential : S -> list (Z * Q * A) -> S -> Prop :=
  | sequential_nil s : sequential s [] s
  | sequential_snoc s l s1 t q a s2 :
      sequential s l s1 -> effect s1 q a s2 -> sequential s (l ++ [(t, q, a)]) s2.

Lemma history_sequential s0 o h o' :
  sequential s0 (ob_log o) (ob_state o) -> history object_step o h o' -> sequential s0 (ob_log o') (ob_state o').
Proof.
  intros Hs Hh. induction Hh as [o|o1 o2 o3 h Hst _ IH|o1 e o2 o3 h Hst _ IH]; [done|..];
    apply IH; inversion Hst; subst; simpl; try done; by econstructor.
Qed.
End Object.
Arguments pending : clear implicits.
Arguments object : clear implicits.

(** A function of the state that respects the effects. *)
Definition object_map {S1 S2 Q A} (g : S1 -> S2) (o : object S1 Q A) : object S2 Q A :=
  mkObject (g (ob_state o)) (ob_calls o) (ob_log o).

Section Map.
Context {S1 S2 Q A : Type} (g : S1 -> S2).
Variable effect1 : S1 -> Q -> A -> S1 -> Prop.
Variable effect2 : S2 -> Q -> A -> S2 -> Prop.
(** An invariant of the states. *)
Variable I : S1 -> Prop.
Hypothesis Hg : forall s q a s', I s -> effect1 s q a s' -> effect2 (g s) q a (g s') /\ I s'.

Lemma object_step_map o e o' :
  I (ob_state o) -> object_step effect1 o e o' -> object_step effect2 (object_map g o) e (object_map g o') /\ I (ob_state o').
Proof.
  destruct o as [s c l]. unfold object_map. intros Hi [t q Ht|t q a s' Ht He|t a Ht]; simpl in *.
  - split; [by apply (object_invoke effect2 (mkObject _ _ _) t q) | done].
  - apply Hg in He as [He Hi']; [|done]. split; [by apply (object_effect effect2 (mkObject _ _ _) t q a (g s')) | done].
  - split; [by apply (object_return effect2 (mkObject _ _ _) t a) | done].
Qed.

Lemma object_history_map o h o' :
  I (ob_state o) -> history (object_step effect1) o h o' ->
  history (object_step effect2) (object_map g o) h (object_map g o') /\ I (ob_state o').
Proof.
  intros Hi Hh. revert Hi. induction Hh as [o|o1 o2 o3 h Hst _ IH|o1 e o2 o3 h Hst _ IH]; intros Hi; [split; [constructor | done]|..];
    apply object_step_map in Hst as [Hst Hi']; [|done| |done]; destruct (IH Hi') as [Hh Hi3]; (split; [|done]).
  - by eapply history_silent.
  - by eapply history_event.
Qed.
End Map.

(** ** Goroutines and the mutex *)

Section Calls.
Context {S Q A : Type}.
(** The reply of a call that is refused before the mutex is taken, and the
    body of a call. *)
Variable entry : Q -> option A.
Variable body : Q -> prog S A.
(** Whether the next step of a body returns: a network call without a deadline
    may wait for ever.  (One that returns late is a step that is taken late.) *)
Variable ready : S -> prog S A -> bool.

(** Where a call is: before its checks; waiting for [reqMu]; in its body,
    holding it; about to return. *)
Inductive call_pc :=
  | Called (q : Q)
  | Waiting (q : Q)
  | Running (q : Q) (p : prog S A)
  | Returning (q : Q) (a : A).

Record system := mkSystem {
  sy_state : S;                    (* the client and its connection *)
  sy_reqMu : option Z;             (* who holds reqMu *)
  sy_calls : gmap Z call_pc;       (* the goroutines in a call *)
}.

Definition at_pc (s : system) (t : Z) (pc : call_pc) : system := mkSystem (sy_state s) (sy_reqMu s) (<[t := pc]> (sy_calls s)).

Inductive call_step (s : system) : option (event Q A) -> system -> Prop :=
  | call_invoke t q :
      sy_calls s !! t = None -> call_step s (Some (Invoke t q)) (at_pc s t (Called q))
  | call_refused t q a :
      sy_calls s !! t = Some (Called q) -> entry q = Some a -> call_step s None (at_pc s t (Returning q a))
  | call_checked t q :
      sy_calls s !! t = Some (Called q) -> entry q = None -> call_step s None (at_pc s t (Waiting q))
  | call_lock t q :
      sy_calls s !! t = Some (Waiting q) -> sy_reqMu s = None ->
      call_step s None (mkSystem (sy_state s) (Some t) (<[t := Running q (body q)]> (sy_calls s)))
  | call_act t q f k :
      sy_calls s !! t = Some (Running q (Act f k)) -> ready (sy_state s) (Act f k) = true ->
      call_step s None (mkSystem (f (sy_state s)) (sy_reqMu s) (<[t := Running q (k (sy_state s))]> (sy_calls s)))
  | call_unlock t q a :
      sy_calls s !! t = Some (Running q (Ret a)) ->
      call_step s None (mkSystem (sy_state s) None (<[t := Returning q a]> (sy_calls s)))
  | call_return t q a :
      sy_calls s !! t = Some (Returning q a) ->
      call_step s (Some (Return t a)) (mkSystem (sy_state s) (sy_reqMu s) (delete t (sy_calls s))).

Definition at_rest (s0 : S) : system := mkSystem s0 None ∅.

Definition is_running (pc : call_pc) : bool := match pc with Running _ _ => true | _ => false end.

(** Exactly the holder of the mutex is in a body. *)
Definition exclusive (s : system) : Prop :=
  forall t pc, sy_calls s !! t = Some pc -> is_running pc = true <-> sy_reqMu s = Some t.

Definition mutex_ok (s : system) : Prop :=
  exclusive s /\ forall t, sy_reqMu s = Some t -> is_Some (sy_calls s !! t).

Lemma mutex_holder s t : mutex_ok s -> sy_reqMu s = Some t -> exists q p, sy_calls s !! t = Some (Running q p).
Proof.
  intros [Hx Hh] Ht. destruct (Hh t Ht) as [pc Hpc]. apply (Hx t pc Hpc) in Ht as Hr. destruct pc; try done. by eexists _, _.
Qed.

(** Moving a call that keeps the mutex as it is. *)
Lemma mutex_ok_keep (s : system) st t pc pc' :
  mutex_ok s -> sy_calls s !! t = Some pc -> is_running pc = is_running pc' ->
  mutex_ok (mkSystem st (sy_reqMu s) (<[t := pc']> (sy_calls s))).
Proof.
  intros [Hx Hh] Hpc Hr. split.
  - intros t' pc1. simpl. destruct (decide (t' = t)) as [->|Hne].
    + rewrite lookup_insert_eq. intros [= <-]. rewrite <- Hr. by apply Hx.
    + rewrite lookup_insert_ne by done. apply Hx.
  - intros t' Ht. simpl in *. destruct (decide (t' = t)) as [->|Hne]; [rewrite lookup_insert_eq | rewrite lookup_insert_ne by done]; eauto.
Qed.

Lemma step_mutex_ok s e s' : mutex_ok s -> call_step s e s' -> mutex_ok s'.
Proof.
  intros Hs Hst. pose proof Hs as [Hx Hh]. destruct Hst as [t q Ht|t q a Ht He|t q Ht He|t q Ht Hm|t q f k Ht Hrd|t q a Ht|t q a Ht].
  2-3,5: by apply (mutex_ok_keep s _ t _ _ Hs Ht).
  - split.
    + intros t' pc. simpl. destruct (decide (t' = t)) as [->|Hne].
      * rewrite lookup_insert_eq. intros [= <-]. split; [done|]. intros E. by destruct (Hh t E) as [? ?]; congruence.
      * rewrite lookup_insert_ne by done. apply Hx.
    + intros t' E. simpl in *. destruct (decide (t' = t)) as [->|Hne]; [by rewrite lookup_insert_eq|].
      rewrite lookup_insert_ne by done. by apply Hh.
  - split.
    + intros t' pc. simpl. destruct (decide (t' = t)) as [->|Hne]; [rewrite lookup_insert_eq; by intros [= <-]|].
      rewrite lookup_insert_ne by done. intros Hpc. apply Hx in Hpc. rewrite Hm in Hpc. split; [by intros ?%Hpc | congruence].
    + intros t' [= <-]. simpl. by rewrite lookup_insert_eq.
  - split; [|done]. intros t' pc. simpl. destruct (decide (t' = t)) as [->|Hne]; [rewrite lookup_insert_eq; by intros [= <-]|].
    rewrite lookup_insert_ne by done. intros Hpc. apply Hx in Ht as [Hm _]. specialize (Hm eq_refl).
    apply Hx in Hpc. rewrite Hm in Hpc. split; [intros ?%Hpc; congruence | done].
  - split.
    + intros t' pc. simpl. intros [_ Hpc]%lookup_delete_Some. by apply Hx.
    + intros t' E. simpl in *. rewrite lookup_delete_ne; [by apply Hh|]. intros <-. apply Hx in Ht. by apply Ht in E.
Qed.

Lemma at_rest_ok s0 : mutex_ok (at_rest s0).
Proof. split; [|done]. intros t pc. simpl. by rewrite lookup_empty. Qed.

Lemma history_mutex_ok s h s' : mutex_ok s -> history call_step s h s' -> mutex_ok s'.
Proof. intros Hs Hh. induction Hh; eauto using step_mutex_ok. Qed.

(** What is left of a body keeps a property that passes on to its
    continuations. *)
Definition running_in (P : prog S A -> Prop) (s : system) : Prop :=
  forall t q p, sy_calls s !! t = Some (Running q p) -> P p.

Lemma step_running_in (P : prog S A -> Prop) s e s' :
  (forall q, P (body q)) -> (forall f k st, P (Act f k) -> P (k st)) -> running_in P s -> call_step s e s' -> running_in P s'.
Proof.
  intros Hb Hk Hs Hst t' q' p' Hp.
  destruct Hst as [t q Ht|t q a Ht He|t q Ht He|t q Ht Hm|t q f k Ht Hrd|t q a Ht|t q a Ht]; simpl in Hp;
    [apply lookup_insert_Some in Hp..|apply lookup_delete_Some in Hp]; naive_solver.
Qed.

Lemma history_running_in (P : prog S A -> Prop) s h s' :
  (forall q, P (body q)) -> (forall f k st, P (Act f k) -> P (k st)) -> running_in P s -> history call_step s h s' -> running_in P s'.
Proof. intros Hb Hk Hs Hh. induction Hh; eauto using step_running_in. Qed.
End Calls.
Arguments system : clear implicits.
Arguments call_pc : clear implicits.

(** ** Linearizability *)

Section Linearizable.
Context {S M Q A : Type}.
Variable entry : Q -> option A.
Variable body : Q -> prog S A.
Variable ready : S -> prog S A -> bool.
(** The calls that are made, the abstract state of a state, and the effect
    of a call on it. *)
Variable ok : Q -> Prop.
Variable R : S -> M -> Prop.
Variable effect : M -> Q -> A -> M -> Prop.

(** A call refused before the mutex has no effect; a body run alone has the
    effect of its call. *)
Hypothesis Hentry : forall s m q a, R s m -> ok q -> entry q = Some a -> effect m q a m.
Hypothesis Hbody : forall s m q a s',
  R s m -> ok q -> entry q = None -> run (body q) s = (a, s') -> exists m', effect m q a m' /\ R s' m'.

Definition invoked_ok (e : event Q A) : Prop := match e with Invoke _ q => ok q | Return _ _ => True end.

(** A call and the same call of the object: it takes effect when the mutex
    is given back, or when it is refused. *)
Definition same_call (c : option (call_pc S Q A)) (d : option (pending Q A)) : Prop :=
  match c, d with
  | None, None => True
  | Some (Called q), Some (Pending q') => q = q' /\ ok q
  | Some (Waiting q), Some (Pending q') | Some (Running q _), Some (Pending q') => q = q' /\ ok q /\ entry q = None
  | Some (Returning _ a), Some (Answered a') => a = a'
  | _, _ => False
  end.

(** The state behind the mutex: when it is held, what the body still does ends
    as the whole body would have from the state that the mutex protected. *)
Definition protects (s : system S Q A) (m : M) : Prop :=
  match sy_reqMu s with
  | None => R (sy_state s) m
  | Some t => exists q p s0, sy_calls s !! t = Some (Running q p) /\ R s0 m /\ run p (sy_state s) = run (body q) s0
  end.

Definition simulates (s : system S Q A) (o : object M Q A) : Prop :=
  mutex_ok s /\ (forall t, same_call (sy_calls s !! t) (ob_calls o !! t)) /\ protects s (ob_state o).

Lemma same_insert (c : gmap Z (call_pc S Q A)) (d : gmap Z (pending Q A)) t pc pd :
  (forall t', same_call (c !! t') (d !! t')) -> same_call (Some pc) (Some pd) ->
  forall t', same_call (<[t := pc]> c !! t') (<[t := pd]> d !! t').
Proof.
  intros H Ht t'. destruct (decide (t' = t)) as [->|Hne]; [by rewrite !lookup_insert_eq|].
  by rewrite !lookup_insert_ne.
Qed.

Lemma same_insert_l (c : gmap Z (call_pc S Q A)) (d : gmap Z (pending Q A)) t pc :
  (forall t', same_call (c !! t') (d !! t')) -> same_call (Some pc) (d !! t) ->
  forall t', same_call (<[t := pc]> c !! t') (d !! t').
Proof.
  intros H Ht t'. destruct (decide (t' = t)) as [->|Hne]; [by rewrite lookup_insert_eq|].
  by rewrite lookup_insert_ne.
Qed.

Lemma same_delete (c : gmap Z (call_pc S Q A)) (d : gmap Z (pending Q A)) t :
  (forall t', same_call (c !! t') (d !! t')) -> forall t', same_call (delete t c !! t') (delete t d !! t').
Proof.
  intros H t'. destruct (decide (t' = t)) as [->|Hne]; [by rewrite !lookup_delete_eq|].
  by rewrite !lookup_delete_ne.
Qed.

(** A call that is not in its body can move without touching the state. *)
Lemma protects_other (s : system S Q A) m t c :
  protects s m -> (forall t', t' <> t -> c !! t' = sy_calls s !! t') -> sy_reqMu s <> Some t ->
  protects (mkSystem (sy_state s) (sy_reqMu s) c) m.
Proof.
  unfold protects. intros Hp Hc Ht. simpl. destruct (sy_reqMu s) as [h|]; [|done].
  destruct Hp as (q & p & s0 & Hr & HR). exists q, p, s0. rewrite Hc by congruence. done.
Qed.

Lemma not_holder s t pc :
  mutex_ok (S := S) (Q := Q) (A := A) s -> sy_calls s !! t = Some pc -> is_running pc = false -> sy_reqMu s <> Some t.
Proof. intros [Hx _] Ht Hr E. apply (Hx t pc Ht) in E. congruence. Qed.

(** The mutex protects what its holder leaves. *)
Lemma protects_holder (s : system S Q A) m t q p :
  mutex_ok s -> protects s m -> sy_calls s !! t = Some (Running q p) ->
  sy_reqMu s = Some t /\ exists s0, R s0 m /\ run p (sy_state s) = run (body q) s0.
Proof.
  intros [Hx _] Hp Ht. pose proof (proj1 (Hx t _ Ht) eq_refl) as E. split; [done|].
  unfold protects in Hp. rewrite E in Hp. destruct Hp as (q' & p' & s0 & Hr & HR & Hrun). rewrite Ht in Hr.
  injection Hr as <- <-. by exists s0.
Qed.

#[local] Ltac moves t H :=
  apply (protects_other _ _ t); [done | intros; by rewrite ?lookup_insert_ne, ?lookup_delete_ne | by eapply not_holder].

(** The call of goroutine [t] that is not answered yet. *)
Lemma same_pending (s : system S Q A) (o : object M Q A) t pc q :
  (forall t', same_call (sy_calls s !! t') (ob_calls o !! t')) -> sy_calls s !! t = Some pc ->
  match pc with Called q' | Waiting q' | Running q' _ => q' = q | Returning _ _ => False end ->
  ob_calls o !! t = Some (Pending q) /\ ok q /\ match pc with Called _ => True | _ => entry q = None end.
Proof.
  intros H Ht Hpc. specialize (H t). rewrite Ht in H. destruct pc; [subst..|done];
    (destruct (ob_calls o !! t) as [[]|]; [|done..]; by destruct H as [-> ?]).
Qed.

(** Some state always stands for the abstract one. *)
Lemma protects_some s m : protects s m -> exists s0, R s0 m.
Proof. unfold protects. destruct (sy_reqMu s); [intros (? & ? & s0 & _ & ? & _); by exists s0 | by eexists]. Qed.

Lemma call_simulated (s : system S Q A) e s' (o : object M Q A) :
  simulates s o -> call_step entry body ready s e s' /\ (forall ev, e = Some ev -> invoked_ok ev) ->
  (e = None /\ simulates s' o) \/ exists o', object_step effect o e o' /\ simulates s' o'.
Proof.
  intros (Hm & Hc & Hp) [Hst He]. pose proof (step_mutex_ok _ _ _ _ _ _ Hm Hst) as Hm'.
  destruct Hst as [t q Ht|t q a Ht Hq|t q Ht Hq|t q Ht Hmu|t q f k Ht Hrd|t q a Ht|t q a Ht].
  - right. eexists. split.
    + apply object_invoke. specialize (Hc t). rewrite Ht in Hc. by destruct (ob_calls o !! t).
    + split; [done|]. split; [apply same_insert; [done | split; [done | exact (He _ eq_refl)]]|].
      apply (protects_other _ _ t); [done | intros; by rewrite lookup_insert_ne |].
      intros E. destruct Hm as [_ Hh]. destruct (Hh t E). congruence.
  - destruct (same_pending s o t _ q Hc Ht eq_refl) as (Ho & Hok & Hen). right.
    destruct (protects_some _ _ Hp) as [s0 HR]. eexists. split; [eapply object_effect; eauto|].
    split; [done|]. split; [by apply same_insert|]. simpl. moves t Ht.
  - destruct (same_pending s o t _ q Hc Ht eq_refl) as (Ho & Hok & Hen). left. split; [done|]. split; [done|].
    split; [apply same_insert_l; [done | by rewrite Ho] | moves t Ht].
  - destruct (same_pending s o t _ q Hc Ht eq_refl) as (Ho & Hok & Hen). left. split; [done|]. split; [done|].
    split; [apply same_insert_l; [done | by rewrite Ho]|]. unfold protects in *. rewrite Hmu in Hp. simpl.
    exists q, (body q), (sy_state s). by rewrite lookup_insert_eq.
  - destruct (same_pending s o t _ q Hc Ht eq_refl) as (Ho & Hok & Hen). left. split; [done|]. split; [done|].
    split; [apply same_insert_l; [done | by rewrite Ho]|].
    destruct (protects_holder s _ t q _ Hm Hp Ht) as (Hh & s0 & HR & Hrun). unfold protects. simpl. rewrite Hh.
    exists q, (k (sy_state s)), s0. by rewrite lookup_insert_eq.
  - destruct (same_pending s o t _ q Hc Ht eq_refl) as (Ho & Hok & Hen). right.
    destruct (protects_holder s _ t q _ Hm Hp Ht) as (Hh & s0 & HR & Hrun). simpl in Hrun.
    destruct (Hbody s0 (ob_state o) q a (sy_state s) HR Hok Hen (eq_sym Hrun)) as (m' & Heff & HR').
    eexists. split; [eapply object_effect; eauto|]. split; [done|]. split; [by apply same_insert | done].
  - pose proof (Hc t) as Ho. rewrite Ht in Ho. destruct (ob_calls o !! t) as [[|a']|] eqn:Eo; [done| |done]. simpl in Ho. subst a'.
    right. eexists. split; [by apply object_return|]. split; [done|]. split; [by apply same_delete | moves t Ht].
Qed.

Lemma calls_linearizable s0 m0 h s' :
  R s0 m0 -> Forall invoked_ok h -> history (call_step entry body ready) (at_rest s0) h s' ->
  exists o', history (object_step effect) (mkObject m0 ∅ []) h o' /\ simulates s' o' /\
    sequential effect m0 (ob_log o') (ob_state o').
Proof.
  intros HR Hok Hh.
  assert (Hh' : history (fun s e s' => call_step entry body ready s e s' /\ forall ev, e = Some ev -> invoked_ok ev) (at_rest s0) h s').
  { clear HR. induction Hh as [s|s1 s2 s3 h Hst _ IH|s1 e s2 s3 h Hst _ IH].
    - constructor.
    - by eapply history_silent; [split|apply IH].
    - apply Forall_cons in Hok as [He Hok]. eapply history_event; [split; [done | by intros ? [= <-]] | by apply IH]. }
  assert (H0 : simulates (at_rest s0) (mkObject m0 ∅ [])).
  { split; [apply at_rest_ok|]. split; [|done]. intros t. simpl. by rewrite !lookup_empty. }
  destruct (history_simulation _ _ simulates call_simulated _ _ _ _ H0 Hh') as (o' & Ho & Hs).
  exists o'. split; [done|]. split; [done|]. eapply history_sequential; [|done]. constructor.
Qed.
End Linearizable.

(** ** No deadlock *)

Section Termination.
Context {S Q A : Type}.
Variable entry : Q -> option A.
Variable body : Q -> prog S A.
Variable ready : S -> prog S A -> bool.

(** The steps of the calls that were made: no new one is invoked. *)
Definition quiet (s s' : system S Q A) : Prop :=
  exists e, call_step entry body ready s e s' /\ match e with Some (Invoke _ _) => False | _ => True end.

Definition pc_rank (pc : call_pc S Q A) : Z :=
  match pc with Called _ => 4 | Waiting _ => 3 | Running _ _ => 2 | Returning _ _ => 1 end.

Definition calls_rank (s : system S Q A) : Z := map_total pc_rank (sy_calls s).

Lemma calls_rank_nonneg s : 0 <= calls_rank s.
Proof. apply map_total_nonneg. intros []; simpl; lia. Qed.

(** A quiet step lowers the rank, or it is an action of the body in
    progress. *)
Lemma quiet_rank s s' :
  quiet s s' ->
  calls_rank s' < calls_rank s \/
  exists t q f k, sy_calls s !! t = Some (Running q (Act f k)) /\ calls_rank s' = calls_rank s /\
    s' = mkSystem (f (sy_state s)) (sy_reqMu s) (<[t := Running q (k (sy_state s))]> (sy_calls s)).
Proof.
  intros (e & Hst & He). unfold calls_rank.
  destruct Hst as [t q Ht|t q a Ht Hq|t q Ht Hq|t q Ht Hmu|t q f k Ht Hrd|t q a Ht|t q a Ht]; [done|..]; simpl.
  1-3,5: left; rewrite (map_total_update _ _ _ _ _ Ht); simpl; lia.
  2: left; rewrite (map_total_delete _ _ _ _ Ht); simpl; lia.
  right. exists t, q, f, k. split; [done|]. split; [rewrite (map_total_update _ _ _ _ _ Ht); simpl; lia | done].
Qed.

Lemma quiet_terminates s : mutex_ok s -> sn quiet s.
Proof.
  remember (Z.to_nat (calls_rank s)) as n eqn:En. revert s En.
  induction (lt_wf n) as [n _ IH]. intros s En Hs.
  assert (Hlow : forall s1 s2, Z.to_nat (calls_rank s1) = n -> mutex_ok s1 -> quiet s1 s2 -> calls_rank s2 < calls_rank s1 -> sn quiet s2).
  { intros s1 s2 E1 H1 (e & Hst & _) Hlt. pose proof (calls_rank_nonneg s2).
    apply (IH (Z.to_nat (calls_rank s2))); [lia | done | by eapply step_mutex_ok]. }
  destruct (sy_reqMu s) as [t|] eqn:Emu.
  - destruct (mutex_holder s t Hs Emu) as (q & p & Hp). revert s En Hs Emu Hp.
    induction p as [a|f k IHp]; intros s En Hs Emu Hp; apply Acc_intro; intros s' Hq; unfold flip in *;
      (destruct (quiet_rank s s' Hq) as [Hlt|(t' & q' & f' & k' & Ht' & Hr & ->)]; [by eapply Hlow|]).
    all: destruct Hs as [Hx Hh]; pose proof (proj1 (Hx t' _ Ht') eq_refl) as E; rewrite Emu in E; injection E as <-;
      rewrite Hp in Ht'; simplify_eq.
    destruct Hq as (e & Hst & _). eapply (IHp (sy_state s)); [by rewrite Hr | by eapply step_mutex_ok | done | simpl; by rewrite lookup_insert_eq].
  - apply Acc_intro. intros s' Hq. unfold flip in *.
    destruct (quiet_rank s s' Hq) as [Hlt|(t' & q' & f' & k' & Ht' & _)]; [by eapply Hlow|].
    destruct Hs as [Hx _]. pose proof (proj1 (Hx t' _ Ht') eq_refl). congruence.
Qed.

(** A body that holds the mutex and cannot take its next step. *)
Definition blocked_in (s : system S Q A) (p : prog S A) : Prop :=
  exists t q, sy_reqMu s = Some t /\ sy_calls s !! t = Some (Running q p) /\
    match p with Ret _ => False | Act _ _ => ready (sy_state s) p = false end.

(** A goroutine whose call is before its checks, or after its body, moves
    whoever holds the mutex. *)
Lemma quiet_free s t pc :
  sy_calls s !! t = Some pc -> match pc with Called _ | Returning _ _ => True | _ => False end ->
  exists s', quiet s s' /\ sy_calls s' !! t <> Some pc.
Proof.
  intros Ht Hpc. destruct pc as [q|q|q p|q a]; [|done..|].
  - destruct (entry q) as [a|] eqn:E.
    + exists (at_pc s t (Returning q a)). split; [exists None; split; [by eapply call_refused | done]|]. simpl. by rewrite lookup_insert_eq.
    + exists (at_pc s t (Waiting q)). split; [exists None; split; [by eapply call_checked | done]|]. simpl. by rewrite lookup_insert_eq.
  - eexists. split; [exists (Some (Return t a)); split; [by eapply call_return | done]|]. simpl. by rewrite lookup_delete_eq.
Qed.

(** While there are calls, some goroutine moves, unless the holder of the mutex
    is blocked. *)
Lemma quiet_progress s : mutex_ok s -> sy_calls s <> ∅ -> (exists s', quiet s s') \/ exists p, blocked_in s p.
Proof.
  intros Hs Hne. destruct (sy_reqMu s) as [h|] eqn:Emu.
  { destruct (mutex_holder s h Hs Emu) as (q & [a|f k] & Hp).
    - left. eexists _, None. split; [by eapply call_unlock | done].
    - destruct (ready (sy_state s) (Act f k)) eqn:Er; [left | right; by exists (Act f k), h, q].
      eexists _, None. split; [by eapply call_act | done]. }
  apply map_choose in Hne as (t & pc & Ht). left. destruct pc as [q|q|q p|q a].
  1,4: destruct (quiet_free s t _ Ht I) as (s2 & Hq & _); by exists s2.
  - eexists _, None. split; [by eapply call_lock | done].
  - destruct Hs as [Hx _]. pose proof (proj1 (Hx t _ Ht) eq_refl). congruence.
Qed.

(** While the holder is blocked the others neither touch the state nor get
    past the mutex. *)
Lemma quiet_blocked s s' p : mutex_ok s -> blocked_in s p -> quiet s s' -> sy_state s' = sy_state s /\ blocked_in s' p.
Proof.
  intros Hs (t & q & Emu & Hp & Hb) (e & Hst & He). pose proof Hs as [Hx _].
  assert (Hother : forall t' c, t' <> t -> (forall t2, t2 <> t' -> c !! t2 = sy_calls s !! t2) ->
    blocked_in (mkSystem (sy_state s) (sy_reqMu s) c) p).
  { intros t' c Hne Hc. exists t, q. simpl. rewrite Hc by done. by split_and!. }
  assert (Hfree : forall t' pc, sy_calls s !! t' = Some pc -> is_running pc = false -> t' <> t).
  { intros t' pc Ht Hr ->. rewrite Hp in Ht. by injection Ht as <-. }
  destruct Hst as [t' q' Ht|t' q' a Ht Hq|t' q' Ht Hq|t' q' Ht Hmu|t' q' f k Ht Hrd|t' q' a Ht|t' q' a Ht];
    [done|..|split; [done|]; apply (Hother t'); [by eapply Hfree | intros; by rewrite lookup_delete_ne]].
  1-2: split; [done|]; apply (Hother t'); [by eapply Hfree | intros; by rewrite lookup_insert_ne].
  - congruence.
  - pose proof (proj1 (Hx t' _ Ht) eq_refl) as E. rewrite Emu in E. injection E as <-. rewrite Hp in Ht.
    injection Ht as <- ->. congruence.
  - pose proof (proj1 (Hx t' _ Ht) eq_refl) as E. rewrite Emu in E. injection E as <-. rewrite Hp in Ht.
    by injection Ht as <- ->.
Qed.
End Termination.
