(* ===== verification/RWLock.v ===== *)
(** * Concurrent calls behind a readers-writer lock (sync.RWMutex)

    Two records of the program are shared by goroutines under an [RWMutex]:
    the memory of a server ([server/memory.go]) and the negotiated fields of a
    client ([mu] of [client/client.go]).  Here goroutines make calls; a call
    works on state of its own goroutine, or reads the shared state holding the
    lock for reading, or changes it holding the lock for writing, one atomic
    step at a time.  A writer first announces itself, which keeps new readers
    out, and then waits for the readers inside.

    Every history is one of the atomic object of [Locking], whatever the
    interleaving, and every call returns. *)

From S2P Require Import Prelude Locking.

(** What a call does: it changes its own state only, or it runs a program
    under the lock. *)
Inductive job (S L A : Type) :=
  | Local (a : A) (l : L)
  | Sharing (p : prog S A)
  | Exclusive (p : prog S A).
Arguments Local {S L A} a l.
Arguments Sharing {S L A} p.
Arguments Exclusive {S L A} p.

(** A program that leaves the state as it is. *)
Inductive reads_only {S A} : prog S A -> Prop :=
  | reads_ret a : reads_only (Ret a)
  | reads_act f k : (forall s, f s = s) -> (forall s, reads_only (k s)) -> reads_only (Act f k).

Lemma reads_only_act {S A} f (k : S -> prog S A) : reads_only (Act f k) -> (forall s, f s = s) /\ forall s, reads_only (k s).
Proof. intros H. by inversion H. Qed.

Lemma reads_only_run {S A} (p : prog S A) s : reads_only p -> (run p s).2 = s.
Proof. intros Hp. revert s. induction Hp as [a|f k Hf _ IH]; intros s; simpl; [done|]. by rewrite IH, Hf. Qed.

Inductive rw_pc (S Q A : Type) :=
  | Arrived (q : Q)
  | Announced (q : Q) (p : prog S A)    (* in Lock, readers kept out *)
  | Holding (q : Q) (p : prog S A)      (* between Lock and Unlock *)
  | Peeking (q : Q) (p : prog S A)      (* between RLock and RUnlock *)
  | Replying (q : Q) (a : A).
Arguments Arrived {S Q A} q.
Arguments Announced {S Q A} q p.
Arguments Holding {S Q A} q p.
Arguments Peeking {S Q A} q p.
Arguments Replying {S Q A} q a.

Section Goroutines.
Context {S L Q A : Type}.
Abbreviation pcs := (gmap Z (rw_pc S Q A)).

(** The goroutine that makes a call, what the call does given the state of
    that goroutine, and the state goroutines begin with. *)
Variable who : Q -> Z.
Variable job_of : Q -> L -> job S L A.
Variable l0 : L.

Record rw_system := mkRW {
  rw_state : S;
  rw_locals : gmap Z L;
  rw_calls : pcs;
}.

Definition local_of (ls : gmap Z L) (t : Z) : L := default l0 (ls !! t).

Definition is_writer (pc : rw_pc S Q A) : bool := match pc with Announced _ _ | Holding _ _ => true | _ => false end.
Definition is_holding (pc : rw_pc S Q A) : bool := match pc with Holding _ _ => true | _ => false end.
Definition is_reader (pc : rw_pc S Q A) : bool := match pc with Peeking _ _ => true | _ => false end.

(** No goroutine at a place that satisfies [P]. *)
Definition nobody (P : rw_pc S Q A -> bool) (c : pcs) : Prop := map_Forall (fun _ pc => P pc = false) c.

#[export] Instance nobody_dec P c : Decision (nobody P c).
Proof. unfold nobody. apply _. Defined.

Definition move (s : rw_system) (t : Z) (pc : rw_pc S Q A) : rw_system := mkRW (rw_state s) (rw_locals s) (<[t := pc]> (rw_calls s)).

Inductive rw_step (s : rw_system) : option (event Q A) -> rw_system -> Prop :=
  | rw_invoke t q :
      rw_calls s !! t = None -> who q = t -> rw_step s (Some (Invoke t q)) (move s t (Arrived q))
  | rw_local t q a l :
      rw_calls s !! t = Some (Arrived q) -> job_of q (local_of (rw_locals s) t) = Local a l ->
      rw_step s None (mkRW (rw_state s) (<[t := l]> (rw_locals s)) (<[t := Replying q a]> (rw_calls s)))
  | rw_rlock t q p :
      rw_calls s !! t = Some (Arrived q) -> job_of q (local_of (rw_locals s) t) = Sharing p ->
      nobody is_writer (rw_calls s) -> rw_step s None (move s t (Peeking q p))
  | rw_announce t q p :
      rw_calls s !! t = Some (Arrived q) -> job_of q (local_of (rw_locals s) t) = Exclusive p ->
      nobody is_writer (rw_calls s) -> rw_step s None (move s t (Announced q p))
  | rw_lock t q p :
      rw_calls s !! t = Some (Announced q p) -> nobody is_reader (rw_calls s) -> rw_step s None (move s t (Holding q p))
  | rw_act t q f k :
      rw_calls s !! t = Some (Holding q (Act f k)) ->
      rw_step s None (mkRW (f (rw_state s)) (rw_locals s) (<[t := Holding q (k (rw_state s))]> (rw_calls s)))
  | rw_unlock t q a :
      rw_calls s !! t = Some (Holding q (Ret a)) -> rw_step s None (move s t (Replying q a))
  | rw_peek t q f k :
      rw_calls s !! t = Some (Peeking q (Act f k)) ->
      rw_step s None (mkRW (f (rw_state s)) (rw_locals s) (<[t := Peeking q (k (rw_state s))]> (rw_calls s)))
  | rw_runlock t q a :
      rw_calls s !! t = Some (Peeking q (Ret a)) -> rw_step s None (move s t (Replying q a))
  | rw_return t q a :
      rw_calls s !! t = Some (Replying q a) ->
      rw_step s (Some (Return t a)) (mkRW (rw_state s) (rw_locals s) (delete t (rw_calls s))).

Definition rw_idle (s0 : S) : rw_system := mkRW s0 ∅ ∅.

(** ** Exclusion *)

Definition others (t : Z) (P : rw_pc S Q A -> bool) (c : pcs) : Prop :=
  forall t' pc, t' <> t -> c !! t' = Some pc -> P pc = false.

(** At most one writer, and no reader beside a writer that holds the lock. *)
Record exclusion (c : pcs) : Prop := {
  ex_writers : forall t pc, c !! t = Some pc -> is_writer pc = true -> others t is_writer c;
  ex_readers : forall t pc, c !! t = Some pc -> is_holding pc = true -> others t is_reader c;
}.

Lemma nobody_others t P c : nobody P c -> others t P c.
Proof. intros H t' pc _ Ht. exact (H t' pc Ht). Qed.

Lemma holding_writer pc : is_writer pc = false -> is_holding pc = false.
Proof. by destruct pc. Qed.

Lemma others_writer_holding t c : others t is_writer c -> others t is_holding c.
Proof. intros H t' pc Hne Ht. by apply holding_writer, (H t'). Qed.

(** No writer holds the lock while a reader is inside. *)
Lemma ex_holding c t pc : exclusion c -> c !! t = Some pc -> is_reader pc = true -> others t is_holding c.
Proof.
  intros Hx Ht Hr t' pc' Hne Ht'. apply not_true_is_false. intros Hh.
  pose proof (ex_readers c Hx t' pc' Ht' Hh t pc (not_eq_sym Hne) Ht). congruence.
Qed.

Lemma others_insert t t' P c pc : others t' P c -> P pc = false -> others t' P (<[t := pc]> c).
Proof.
  intros H Hp t1 pc1 Hne. destruct (decide (t1 = t)) as [->|Hn]; [rewrite lookup_insert_eq; by intros [= <-]|].
  rewrite lookup_insert_ne by done. by apply H.
Qed.

Lemma exclusion_insert c t pc :
  exclusion c ->
  (is_writer pc = true -> others t is_writer c) ->
  (is_holding pc = true -> others t is_reader c) ->
  (is_reader pc = true -> others t is_holding c) ->
  exclusion (<[t := pc]> c).
Proof.
  intros Hx Hw Hr Hh.
  assert (Hself : forall P, others t P c -> others t P (<[t := pc]> c)).
  { intros P H t1 pc1 Hne. rewrite lookup_insert_ne by done. by apply H. }
  split; intros t1 pc1 Ht1 Hp; (destruct (decide (t1 = t)) as [->|Hne];
    [rewrite lookup_insert_eq in Ht1; injection Ht1 as <-; by auto | rewrite lookup_insert_ne in Ht1 by done]).
  - apply others_insert; [by eapply ex_writers|]. apply not_true_is_false. intros E.
    pose proof (Hw E t1 pc1 Hne Ht1). congruence.
  - apply others_insert; [by eapply ex_readers|]. apply not_true_is_false. intros E.
    pose proof (Hh E t1 pc1 Hne Ht1). congruence.
Qed.

Lemma exclusion_delete c t : exclusion c -> exclusion (delete t c).
Proof.
  intros Hx. split; intros t1 pc1 [_ Ht1]%lookup_delete_Some Hp t2 pc2 Hne [_ Ht2]%lookup_delete_Some.
  - by eapply (ex_writers c Hx t1).
  - by eapply (ex_readers c Hx t1).
Qed.

Lemma step_exclusion s e s' : exclusion (rw_calls s) -> rw_step s e s' -> exclusion (rw_calls s').
Proof.
  intros Hx Hst.
  destruct Hst as [t q Ht Hq|t q a l Ht Hj|t q p Ht Hj Hn|t q p Ht Hj Hn|t q p Ht Hn|t q f k Ht|t q a Ht|t q f k Ht|t q a Ht|t q a Ht];
    [..|by apply exclusion_delete]; apply exclusion_insert; try done; intros _.
  - by apply others_writer_holding, nobody_others.
  - by apply nobody_others.
  - by eapply ex_writers.
  - by apply nobody_others.
  - by eapply ex_writers.
  - by eapply ex_readers.
  - by eapply ex_holding.
Qed.

(** ** Linearizability *)

Hypothesis Hreads : forall q l p, job_of q l = Sharing p -> reads_only p.

(** The effect of a call on the shared state and on that of its goroutine. *)
Definition rw_effect (st : S * gmap Z L) (q : Q) (a : A) (st' : S * gmap Z L) : Prop :=
  match job_of q (local_of st.2 (who q)) with
  | Local a' l => a = a' /\ st' = (st.1, <[who q := l]> st.2)
  | Sharing p | Exclusive p => run p st.1 = (a, st'.1) /\ st'.2 = st.2
  end.

(** A call and the same call of the object; it takes effect when the lock is
    given back.  What a program still does under the lock ends as the whole
    program would have: for a writer from the abstract state, for a reader
    from the state as it is. *)
Definition same_rw (ls : gmap Z L) (t : Z) (st m : S) (c : option (rw_pc S Q A)) (d : option (pending Q A)) : Prop :=
  match c, d with
  | None, None => True
  | Some (Arrived q), Some (Pending q') => q = q' /\ who q = t
  | Some (Announced q p), Some (Pending q') => q = q' /\ who q = t /\ job_of q (local_of ls t) = Exclusive p
  | Some (Holding q p), Some (Pending q') =>
      q = q' /\ who q = t /\ exists p0, job_of q (local_of ls t) = Exclusive p0 /\ run p st = run p0 m
  | Some (Peeking q p), Some (Pending q') =>
      q = q' /\ who q = t /\ reads_only p /\ exists p0, job_of q (local_of ls t) = Sharing p0 /\ run p st = run p0 st
  | Some (Replying _ a), Some (Answered a') => a = a'
  | _, _ => False
  end.

Record rw_sim (s : rw_system) (o : object (S * gmap Z L) Q A) : Prop := {
  si_locals : (ob_state o).2 = rw_locals s;
  si_excl : exclusion (rw_calls s);
  si_calls : forall t, same_rw (rw_locals s) t (rw_state s) (ob_state o).1 (rw_calls s !! t) (ob_calls o !! t);
  si_state : nobody is_holding (rw_calls s) -> (ob_state o).1 = rw_state s;
}.

(** The places where the states do not matter. *)
Lemma same_rw_states ls ls' t st st' m m' pc d :
  local_of ls' t = local_of ls t -> is_holding pc = false -> is_reader pc = false ->
  same_rw ls t st m (Some pc) d -> same_rw ls' t st' m' (Some pc) d.
Proof. intros Hl Hh Hr. destruct pc; try done; destruct d as [[]|]; simpl; rewrite ?Hl; done. Qed.

(** One goroutine moves, the others see no change: of the states, unless none
    of them holds the lock, and of their own. *)
Lemma si_calls_move s o ls st m t (c : gmap Z (rw_pc S Q A)) (d : gmap Z (pending Q A)) :
  rw_sim s o ->
  (forall t', t' <> t -> c !! t' = rw_calls s !! t') -> (forall t', t' <> t -> d !! t' = ob_calls o !! t') ->
  (forall t', t' <> t -> local_of ls t' = local_of (rw_locals s) t') ->
  (st = rw_state s /\ m = (ob_state o).1 \/ others t is_holding (rw_calls s) /\ others t is_reader (rw_calls s)) ->
  same_rw ls t st m (c !! t) (d !! t) ->
  forall t', same_rw ls t' st m (c !! t') (d !! t').
Proof.
  intros Hs Hc Hd Hl Hst Ht t'. destruct (decide (t' = t)) as [->|Hne]; [done|].
  rewrite Hc, Hd by done. pose proof (si_calls s o Hs t') as H. specialize (Hl t' Hne).
  destruct (rw_calls s !! t') as [pc|] eqn:E; [|done]. destruct Hst as [[-> ->]|[Hh Hr]].
  - destruct pc; simpl in *; by rewrite ?Hl.
  - eapply same_rw_states; [exact Hl | by eapply Hh | by eapply Hr | exact H].
Qed.

Lemma nobody_insert P (c : gmap Z (rw_pc S Q A)) t pc :
  nobody P (<[t := pc]> c) -> P pc = false /\ forall t' pc', t' <> t -> c !! t' = Some pc' -> P pc' = false.
Proof.
  intros H. split; [apply (H t); by rewrite lookup_insert_eq|]. intros t' pc' Hne E. apply (H t'). by rewrite lookup_insert_ne.
Qed.

(** Nobody held the lock before, when nobody else does now. *)
Lemma nobody_holding_before (c : gmap Z (rw_pc S Q A)) t old pc :
  c !! t = Some old -> is_holding old = false -> nobody is_holding (<[t := pc]> c) -> nobody is_holding c.
Proof.
  intros Ht Ho H t' pc' E. simpl. destruct (decide (t' = t)) as [->|Hne]; [congruence|]. by apply (nobody_insert _ _ _ _ H) in E.
Qed.

Lemma pending_call s o t pc q :
  rw_sim s o -> rw_calls s !! t = Some pc ->
  match pc with Arrived q' | Announced q' _ | Holding q' _ | Peeking q' _ => q' = q | Replying _ _ => False end ->
  ob_calls o !! t = Some (Pending q) /\ who q = t /\ same_rw (rw_locals s) t (rw_state s) (ob_state o).1 (Some pc) (Some (Pending q)).
Proof.
  intros Hs Ht Hq. pose proof (si_calls s o Hs t) as H. rewrite Ht in H.
  destruct pc; [subst..|done]; (destruct (ob_calls o !! t) as [[]|]; [|done..]; simpl in H; destruct H as [<- H]; split; [done|]; split; [by destruct H || done | done]).
Qed.

(** The goroutine that moved, by its own entry in the maps. *)
#[local] Ltac moved t := eapply (si_calls_move _ _ _ _ _ t);
  [eassumption | intros; simpl; by rewrite ?lookup_insert_ne, ?lookup_delete_ne
  | intros; simpl; by rewrite ?lookup_insert_ne, ?lookup_delete_ne | try done | try (by left)
  | simpl; rewrite ?lookup_insert_eq, ?lookup_delete_eq].

(** A silent move of a call that does not hold the lock before it. *)
Lemma sim_silent s o t old pc q :
  rw_sim s o -> rw_calls s !! t = Some old -> ob_calls o !! t = Some (Pending q) -> is_holding old = false ->
  exclusion (<[t := pc]> (rw_calls s)) -> same_rw (rw_locals s) t (rw_state s) (ob_state o).1 (Some pc) (Some (Pending q)) ->
  rw_sim (move s t pc) o.
Proof.
  intros Hs Ht Ho Hold Hx H. split; simpl; [apply (si_locals s o Hs) | done | by moved t; rewrite Ho|].
  intros Hn. by apply (si_state s o Hs), (nobody_holding_before _ t old pc).
Qed.

(** A call takes effect. *)
Lemma sim_effect s o t q a ls m :
  rw_sim s o -> ob_calls o !! t = Some (Pending q) ->
  exclusion (<[t := Replying q a]> (rw_calls s)) ->
  (forall t', t' <> t -> local_of ls t' = local_of (rw_locals s) t') ->
  (m = (ob_state o).1 \/ others t is_holding (rw_calls s) /\ others t is_reader (rw_calls s)) ->
  (nobody is_holding (<[t := Replying q a]> (rw_calls s)) -> m = rw_state s) ->
  rw_effect (ob_state o) q a (m, ls) ->
  exists o', object_step rw_effect o None o' /\ rw_sim (mkRW (rw_state s) ls (<[t := Replying q a]> (rw_calls s))) o'.
Proof.
  intros Hs Ho Hx Hl Hst Hn He. eexists. split; [by eapply object_effect|]. split; simpl; [done | done | | done].
  moved t; [|done]. destruct Hst as [E|Hst]; [by left | by right].
Qed.

(** The abstract state is the shared one while a reader is inside, and when a
    writer has waited for all others. *)
Lemma si_state_now s o t pc :
  rw_sim s o -> rw_calls s !! t = Some pc -> is_holding pc = false -> others t is_holding (rw_calls s) -> (ob_state o).1 = rw_state s.
Proof.
  intros Hs Ht Hh Ho. apply (si_state s o Hs). intros t' pc' E. simpl. destruct (decide (t' = t)) as [->|Hne]; [congruence|].
  by apply (Ho t').
Qed.

Lemma rw_simulated s e s' o :
  rw_sim s o -> rw_step s e s' ->
  (e = None /\ rw_sim s' o) \/ exists o', object_step rw_effect o e o' /\ rw_sim s' o'.
Proof.
  intros Hs Hst. pose proof (step_exclusion _ _ _ (si_excl s o Hs) Hst) as Hx. pose proof (si_excl s o Hs) as Hx0.
  destruct Hst as [t q Ht Hq|t q a l Ht Hj|t q p Ht Hj Hn|t q p Ht Hj Hn|t q p Ht Hn|t q f k Ht|t q a Ht|t q f k Ht|t q a Ht|t q a Ht].
  - right. pose proof (si_calls s o Hs t) as H. rewrite Ht in H. destruct (ob_calls o !! t) eqn:Eo; [done|].
    eexists. split; [by apply object_invoke|]. split; simpl; [apply (si_locals s o Hs) | done | by moved t|].
    intros [_ Hn]%nobody_insert. apply (si_state s o Hs). intros t' pc' E. apply (Hn t'); [congruence | done].
  - destruct (pending_call s o t _ q Hs Ht eq_refl) as (Ho & Hw & _). right.
    eapply (sim_effect s o t q a _ (ob_state o).1); [done..| | by left | |].
    + intros t' Hne. unfold local_of. by rewrite lookup_insert_ne.
    + intros Hn. by apply (si_state s o Hs), (nobody_holding_before _ t _ _ Ht eq_refl Hn).
    + unfold rw_effect. rewrite (si_locals s o Hs), Hw, Hj. done.
  - destruct (pending_call s o t _ q Hs Ht eq_refl) as (Ho & Hw & _). left. split; [done|].
    eapply sim_silent; [done..|]. simpl. split; [done|]. split; [done|]. split; [by eapply Hreads | by exists p].
  - destruct (pending_call s o t _ q Hs Ht eq_refl) as (Ho & Hw & _). left. split; [done|]. by eapply sim_silent.
  - destruct (pending_call s o t _ q Hs Ht eq_refl) as (Ho & Hw & H). left. split; [done|].
    eapply sim_silent; [done..|]. simpl in *. destruct H as (_ & _ & Hj). split; [done|]. split; [done|]. exists p. split; [done|].
    f_equal. symmetry. eapply (si_state_now s o t); [done.. |]. eapply others_writer_holding, ex_writers; done.
  - destruct (pending_call s o t _ q Hs Ht eq_refl) as (Ho & Hw & H). left. split; [done|]. simpl in H. destruct H as (_ & _ & p0 & Hj & Hr).
    split; simpl; [apply (si_locals s o Hs) | done | | by intros [? _]%nobody_insert].
    moved t; [right; split; [eapply others_writer_holding, ex_writers | eapply ex_readers]; done|].
    rewrite Ho. simpl. split; [done|]. split; [done|]. by exists p0.
  - destruct (pending_call s o t _ q Hs Ht eq_refl) as (Ho & Hw & H). right. simpl in H. destruct H as (_ & _ & p0 & Hj & Hr).
    eapply (sim_effect s o t q a _ (rw_state s)); [done..| |done|].
    + right. split; [eapply others_writer_holding, ex_writers | eapply ex_readers]; done.
    + unfold rw_effect. rewrite (si_locals s o Hs), Hw, Hj. simpl. by rewrite <- Hr.
  - destruct (pending_call s o t _ q Hs Ht eq_refl) as (Ho & Hw & H). left. split; [done|]. simpl in H.
    destruct H as (_ & _ & Hro & p0 & Hj & Hr). apply reads_only_act in Hro as [Hf Hk]. rewrite Hf in *.
    eapply (sim_silent s o t _ (Peeking q (k (rw_state s))) q); [done..|]. simpl. split; [done|]. split; [done|]. split; [done|].
    by exists p0.
  - destruct (pending_call s o t _ q Hs Ht eq_refl) as (Ho & Hw & H). right. simpl in H.
    destruct H as (_ & _ & Hro & p0 & Hj & Hr).
    assert (E : (ob_state o).1 = rw_state s) by (eapply (si_state_now s o t); [done..|]; by eapply ex_holding).
    eapply (sim_effect s o t q a _ (rw_state s)); [done..| by left | done|].
    unfold rw_effect. rewrite (si_locals s o Hs), Hw, Hj, E. simpl. by rewrite <- Hr.
  - pose proof (si_calls s o Hs t) as H. rewrite Ht in H. destruct (ob_calls o !! t) as [[|a']|] eqn:Eo; [done| |done].
    simpl in H. subst a'. right. eexists. split; [by apply object_return|]. split; simpl; [apply (si_locals s o Hs) | done | by moved t|].
    intros Hn. apply (si_state s o Hs). intros t' pc' E. simpl. destruct (decide (t' = t)) as [->|Hne]; [rewrite Ht in E; by injection E as <-|].
    apply (Hn t'). by rewrite lookup_delete_ne.
Qed.

Lemma rw_linearizable s0 h s' :
  history rw_step (rw_idle s0) h s' ->
  exists o', history (object_step rw_effect) (mkObject (s0, ∅) ∅ []) h o' /\
    sequential rw_effect (s0, ∅) (ob_log o') (ob_state o') /\ rw_sim s' o'.
Proof.
  intros Hh.
  assert (H0 : rw_sim (rw_idle s0) (mkObject (s0, ∅) ∅ [])).
  { split; simpl; [done | split; intros t pc E; by rewrite lookup_empty in E | intros t; by rewrite !lookup_empty | done]. }
  destruct (history_simulation _ _ rw_sim (fun s e s1 o Hs Hst => rw_simulated s e s1 o Hs Hst) _ _ _ _ H0 Hh) as (o' & Ho & Hs).
  exists o'. split; [done|]. split; [|done]. eapply history_sequential; [|done]. constructor.
Qed.

(** ** Every call returns *)

(** The steps of the calls that were made: no new one is invoked. *)
Definition rw_quiet (s s' : rw_system) : Prop :=
  exists e, rw_step s e s' /\ match e with Some (Invoke _ _) => False | _ => True end.

(** Where a call can be next, whatever the state. *)
Inductive pc_next : rw_pc S Q A -> rw_pc S Q A -> Prop :=
  | next_arrived q pc : (forall q', pc <> Arrived q') -> pc_next (Arrived q) pc
  | next_announced q p : pc_next (Announced q p) (Holding q p)
  | next_act q f k s : pc_next (Holding q (Act f k)) (Holding q (k s))
  | next_unlock q a : pc_next (Holding q (Ret a)) (Replying q a)
  | next_peek q f k s : pc_next (Peeking q (Act f k)) (Peeking q (k s))
  | next_runlock q a : pc_next (Peeking q (Ret a)) (Replying q a).

Lemma pc_next_sn pc : sn pc_next pc.
Proof.
  assert (Hr : forall q a, sn pc_next (Replying q a)) by (intros q a; apply Acc_intro; intros pc' H; by inversion H).
  assert (Hh : forall q p, sn pc_next (Holding q p)).
  { intros q p. induction p as [a|f k IH]; apply Acc_intro; intros pc' H; inversion H; subst; [apply Hr | apply IH]. }
  assert (Hp : forall q p, sn pc_next (Peeking q p)).
  { intros q p. induction p as [a|f k IH]; apply Acc_intro; intros pc' H; inversion H; subst; [apply Hr | apply IH]. }
  assert (Ha : forall q p, sn pc_next (Announced q p)) by (intros q p; apply Acc_intro; intros pc' H; by inversion H; subst).
  destruct pc; auto. apply Acc_intro. intros pc' H. inversion H as [? ? Hn| | | | |]; subst. destruct pc'; auto. by destruct (Hn q0).
Qed.

Lemma rw_quiet_shrinks s s' : rw_quiet s s' -> map_shrinks pc_next (rw_calls s) (rw_calls s').
Proof.
  intros (e & Hst & He). destruct Hst; [done|..]; simpl.
  1-8: by eapply shrinks_at; [eassumption | constructor].
  by eapply shrinks_off.
Qed.

Lemma rw_quiet_terminates s : sn rw_quiet s.
Proof.
  remember (rw_calls s) as c eqn:Ec. revert s Ec. induction (map_shrinks_sn pc_next c pc_next_sn) as [c _ IH]. intros s ->.
  apply Acc_intro. intros s' Hq. by eapply IH; [apply rw_quiet_shrinks|].
Qed.

Lemma rw_quiet_progress s : rw_calls s <> ∅ -> exists s', rw_quiet s s'.
Proof.
  intros Hne.
  assert (Hgo : forall s', rw_step s None s' -> exists s', rw_quiet s s') by (intros s' H; by exists s', None).
  assert (Hreader : forall t pc, rw_calls s !! t = Some pc -> is_reader pc = true -> exists s', rw_quiet s s').
  { intros t [|q p|q p|q [a|f k]|] E Hr; try done; (eapply Hgo; by econstructor). }
  assert (Hwriter : forall t pc, rw_calls s !! t = Some pc -> is_writer pc = true -> exists s', rw_quiet s s').
  { intros t [|q p|q [a|f k]|q p|] E Hw; try done; try (eapply Hgo; by econstructor).
    destruct (decide (nobody is_reader (rw_calls s))) as [Hn|Hn]; [eapply Hgo; by eapply rw_lock|].
    apply map_not_Forall in Hn as (t2 & pc2 & E2 & H2); [|apply _]. apply not_false_is_true in H2. by eapply Hreader. }
  destruct (decide (nobody is_writer (rw_calls s))) as [Hn|Hn].
  - apply map_choose in Hne as (t & pc & E). destruct pc as [q|q p|q p|q p|q a]; [|by eapply Hwriter..|by eapply Hreader|].
    + destruct (job_of q (local_of (rw_locals s) t)) as [a l|p|p] eqn:Ej; eapply Hgo; by econstructor.
    + eexists _, (Some _). split; [by eapply rw_return | done].
  - apply map_not_Forall in Hn as (t2 & pc2 & E2 & H2); [|apply _]. apply not_false_is_true in H2. by eapply Hwriter.
Qed.

(** ** Runs in which a program is not interrupted *)

Lemma rw_hold_through s t q p h s' :
  rw_calls s !! t = Some (Holding q p) ->
  history rw_step (mkRW (run p (rw_state s)).2 (rw_locals s) (<[t := Replying q (run p (rw_state s)).1]> (rw_calls s))) h s' ->
  history rw_step s h s'.
Proof.
  revert s. induction p as [a|f k IH]; intros s Ht Hh; (eapply history_silent; [by econstructor|]); [done|].
  eapply IH; cbn [rw_calls rw_state rw_locals]; [by rewrite lookup_insert_eq | by rewrite insert_insert_eq].
Qed.

Lemma rw_peek_through s t q p h s' :
  rw_calls s !! t = Some (Peeking q p) ->
  history rw_step (mkRW (run p (rw_state s)).2 (rw_locals s) (<[t := Replying q (run p (rw_state s)).1]> (rw_calls s))) h s' ->
  history rw_step s h s'.
Proof.
  revert s. induction p as [a|f k IH]; intros s Ht Hh; (eapply history_silent; [by econstructor|]); [done|].
  eapply IH; cbn [rw_calls rw_state rw_locals]; [by rewrite lookup_insert_eq | by rewrite insert_insert_eq].
Qed.
End Goroutines.
Arguments rw_system : clear implicits.
