(* ===== verification/Concurrent.v ===== *)
(** * The operations behind reqMu (client/client.go and its callers)

    The operations of a client that take [reqMu], each with the checks it makes
    before, as calls of [Locking].  [ListAllBlocks] and [ProbeReadableRanges] are not among them:
    they call the operations of this list one after the other. *)

From S2P Require Import Prelude Go WireErrors Header ReadWrite Client ClientRW Userdata ClientSZL ClientBlocks Locking.

Local Open Scope string_scope.
Local Open Scope list_scope.
Local Open Scope Z_scope.

(** ** The calls *)

Inductive locked_call :=
  | CallConnect (ctx : Ctx)
  | CallClose
  | CallReadArea (ctx : Ctx) (addr : Address)
  | CallWriteArea (ctx : Ctx) (addr : Address) (dat : bytes)
  | CallReadBit (ctx : Ctx) (addr : BitAddress)
  | CallWriteBit (ctx : Ctx) (addr : BitAddress) (v : bool)
  | CallIdentify (ctx : Ctx)
  | CallGetCPUState (ctx : Ctx)
  | CallGetProtectionLevel (ctx : Ctx)
  | CallReadDiagBufferRaw (ctx : Ctx)
  | CallListBlocks (ctx : Ctx) (bt : BlockType)
  | CallBlockCounts (ctx : Ctx)
  | CallGetBlockInfo (ctx : Ctx) (bt : BlockType) (num : Z)
  | CallUploadBlock (ctx : Ctx) (bt : BlockType) (num : Z).

(** What a call returns. *)
Inductive answer :=
  | AUnit (r : res unit)
  | ARead (r : res ReadResult)
  | ABit (r : res bool)
  | ADevice (r : res (option DeviceInfo * option error))
  | AState (r : res CPUState)
  | ALevel (r : res ProtectionLevel)
  | ARaw (r : res bytes)
  | ABlocks (r : res (list BlockInfo))
  | ACounts (r : res (gmap BlockType Z))
  | AInfo (r : res (BlockInfo * option error))
  | AUpload (r : res BlockData).

(** The checks of the block operations on the number. *)
Definition checkNumber (num max : Z) : res unit :=
  if (num <? 0) || (num >? max)
  then Err (ValidationError ("block number " +:+ dec num +:+ " out of range (0.." +:+ dec max +:+ ")")) else Ok tt.

(** What a call returns before it takes the mutex. *)
Definition refusing {X} (f : res X -> answer) (r : res unit) : option answer :=
  match r with Err e => Some (f (Err e)) | _ => None end.

Section Performs.
Context {W : Type} `{!Transport W}.

(** The checks of [Connect] on the options, which never change. *)
Definition checkOptions (o : options) : res unit :=
  if (o_port o <? 0) || (o_port o >? 65535) then Err (ValidationError ("invalid port: " +:+ dec (o_port o)))
  else if o_timeout o <? 0 then Err (ValidationError ("invalid timeout: " +:+ t_duration (o_timeout o)))
  else if (o_maxPDU o <? 1) || (o_maxPDU o >? MaxUint16) then Err (ValidationError ("invalid max PDU: " +:+ dec (o_maxPDU o)))
  else if o_autoRackSlot o then Ok tt
  else if (o_rack o <? 0) || (o_slot o <? 0) then
    Err (ValidationError ("invalid rack/slot: rack=" +:+ dec (o_rack o) +:+ " slot=" +:+ dec (o_slot o)))
  else match ValidateRackSlot (o_rack o) (o_slot o) with
       | Err err => Err (ValidationError (Error err))
       | r => r
       end.

Definition checks (o : options) (q : locked_call) : option answer :=
  match q with
  | CallConnect _ => refusing AUnit (checkOptions o)
  | CallReadArea _ addr => refusing ARead (validateAddress addr ;; validateRangeEnd (a_Start addr) (a_Size addr))
  | CallWriteArea _ addr dat => refusing AUnit (validateAddress addr ;; validateRangeEnd (a_Start addr) (len dat))
  | CallReadBit _ addr => refusing ABit (validateBitAddress addr)
  | CallWriteBit _ addr _ => refusing AUnit (validateBitAddress addr)
  | CallGetBlockInfo _ _ num => refusing AInfo (checkNumber num MaxUploadBlockNumber)
  | CallUploadBlock _ _ num => refusing AUpload (checkNumber num 65535)
  | _ => None
  end.

Definition giving {X} (f : res X -> answer) (m : M W X) : Client * W -> answer * (Client * W) :=
  fun st => let '(r, st') := m st in (f r, st').

(** A call run alone. *)
Definition performs (q : locked_call) : Client * W -> answer * (Client * W) :=
  match q with
  | CallConnect ctx => giving AUnit (Connect ctx)
  | CallClose => giving AUnit Close
  | CallReadArea ctx addr => giving ARead (ReadArea ctx addr)
  | CallWriteArea ctx addr dat => giving AUnit (WriteArea ctx addr dat)
  | CallReadBit ctx addr => giving ABit (ReadBit ctx addr)
  | CallWriteBit ctx addr v => giving AUnit (WriteBit ctx addr v)
  | CallIdentify ctx => giving ADevice (Identify ctx)
  | CallGetCPUState ctx => giving AState (GetCPUState ctx)
  | CallGetProtectionLevel ctx => giving ALevel (GetProtectionLevel ctx)
  | CallReadDiagBufferRaw ctx => giving ARaw (ReadDiagBufferRaw ctx)
  | CallListBlocks ctx bt => giving ABlocks (ListBlocks ctx bt)
  | CallBlockCounts ctx => giving ACounts (BlockCounts ctx)
  | CallGetBlockInfo ctx bt num => giving AInfo (GetBlockInfo ctx bt num)
  | CallUploadBlock ctx bt num => giving AUpload (UploadBlock ctx bt num)
  end.

(** ** Cutting an operation into atomic steps

    The finest cut the source has: a step reads or writes fields of the
    client, or is one call of the connection or the context; fields that are
    set together under [mu] are one step.  No step changes host and options. *)

Definition same_config (c c' : Client) : Prop := c_host c' = c_host c /\ c_opts c' = c_opts c.

(** What one call of the connection or the context does to the environment. *)
Inductive transport_step : W -> W -> Prop :=
  | step_dial ctx timeout addr w : transport_step w (t_dial ctx timeout addr w).2
  | step_cotpConnect ctx raw l r size w : transport_step w (t_cotpConnect ctx raw l r size w).2
  | step_WriteTSDU ctx conn req w : transport_step w (t_WriteTSDU ctx conn req w).2
  | step_ReadTSDU ctx conn w : transport_step w (t_ReadTSDU ctx conn w).2
  | step_Close conn w : transport_step w (t_Close conn w).2
  | step_ctxErr ctx w : transport_step w (t_ctxErr ctx w).2
  | step_wait ctx d w : transport_step w (t_wait ctx d w).2.

(** A step on fields of the client, and a step that is one call of the
    connection or the context. *)
Definition on_client (f : Client * W -> Client * W) : Prop :=
  forall c w, (f (c, w)).2 = w /\ same_config c (f (c, w)).1.
Definition on_network (f : Client * W -> Client * W) : Prop :=
  forall c w, (f (c, w)).1 = c /\ transport_step w (f (c, w)).2.

Inductive fine {A} : prog (Client * W) A -> Prop :=
  | fine_ret a : fine (Ret a)
  | fine_client f k : on_client f -> (forall s, fine (k s)) -> fine (Act f k)
  | fine_network f k : on_network f -> (forall s, fine (k s)) -> fine (Act f k).

Lemma fine_step {A} f k : fine (A := A) (Act f k) -> (on_client f \/ on_network f) /\ forall st, fine (k st).
Proof. intros H. inversion H; subst; by split; [auto|]. Qed.

Record cut {A} (m : Client * W -> A * (Client * W)) := mkCut {
  cut_prog : prog (Client * W) A;
  cut_fine : fine cut_prog;
  cut_run : forall st, run cut_prog st = m st;
}.

Lemma fine_andThen {A B} (p : prog (Client * W) A) (k : A -> prog (Client * W) B) :
  fine p -> (forall a, fine (k a)) -> fine (andThen p k).
Proof. intros Hp Hk. induction Hp as [a|f p Hf _ IH|f p Hf _ IH]; simpl; [done | by apply fine_client | by apply fine_network]. Qed.

Lemma fine_config {A} (p : prog (Client * W) A) st : fine p -> same_config st.1 (run p st).2.1.
Proof.
  intros Hp. revert st. induction Hp as [a|f k Hf _ IH|f k Hf _ IH]; intros [c w]; simpl; [done|..].
  - destruct (Hf c w) as [_ [H1 H2]]. destruct (IH (c, w) (f (c, w))) as [H3 H4]. split; congruence.
  - pose proof (IH (c, w) (f (c, w))) as H. by rewrite (proj1 (Hf c w)) in H.
Qed.

(** The environment changes by calls of the transport only. *)
Lemma fine_environment {A} (p : prog (Client * W) A) st : fine p -> rtc transport_step st.2 (run p st).2.2.
Proof.
  intros Hp. revert st. induction Hp as [a|f k Hf _ IH|f k Hf _ IH]; intros [c w]; simpl; [done|..].
  - pose proof (IH (c, w) (f (c, w))) as H. by rewrite (proj1 (Hf c w)) in H.
  - eapply rtc_l; [apply (proj2 (Hf c w)) | apply (IH (c, w) (f (c, w)))].
Qed.

Lemma cut_lift {A} (r : res A) : cut (lift r).
Proof. exists (Ret r); [constructor | done]. Qed.
Lemma cut_get {A} (f : Client -> A) : cut (get (W := W) f).
Proof. exists (Act id (fun st => Ret (Ok (f st.1)))); [apply fine_client; [done | constructor] | done]. Qed.
Lemma cut_modify (f : Client -> Client) : (forall c, same_config c (f c)) -> cut (modify (W := W) f).
Proof.
  intros Hf. exists (Act (fun st => (f st.1, st.2)) (fun _ => Ret (Ok tt))); [|done].
  apply fine_client; [intros c w; split; [done | apply Hf] | constructor].
Qed.
Lemma cut_call {A} (f : W -> (error + A) * W) : (forall w, transport_step w (f w).2) -> cut (call f).
Proof.
  intros Hf.
  exists (Act (fun st => (st.1, (f st.2).2)) (fun st => Ret (match (f st.2).1 with inl e => Err e | inr a => Ok a end))).
  - apply fine_network; [by intros c w | constructor].
  - intros [c w]. unfold call. simpl. by destruct (f w) as [[] ?].
Qed.
Lemma cut_observe {A} (f : W -> A * W) : (forall w, transport_step w (f w).2) -> cut (observe f).
Proof.
  intros Hf.
  exists (Act (fun st => (st.1, (f st.2).2)) (fun st => Ret (Ok (f st.2).1))).
  - apply fine_network; [by intros c w | constructor].
  - intros [c w]. unfold observe. simpl. by destruct (f w).
Qed.
Lemma cut_nextPDURef : cut (nextPDURef (W := W)).
Proof.
  exists (atomically nextPDURef); [|intros st; apply run_atomically].
  apply fine_client; [|constructor]. intros c w. unfold nextPDURef, same_config. cbn [fst snd]. by destruct (pduRefLoop 2 (c_pduRef c)) as [[]|].
Qed.
Lemma cut_bind {A B} (m : M W A) (k : A -> M W B) : cut m -> (forall a, cut (k a)) -> cut (m ≫= k).
Proof.
  intros [p Hp Hr] Hk.
  exists (andThen p (fun r => match r with Ok a => cut_prog _ (Hk a) | Err e => Ret (Err e) | Panic => Ret Panic end)).
  - apply fine_andThen; [done|]. intros [a|e|]; [apply cut_fine | constructor..].
  - intros st. rewrite run_andThen, Hr, bind_run. destruct (m st) as [[a|e|] st']; [apply cut_run | done..].
Qed.
Lemma cut_attempt {A} (m : M W A) : cut m -> cut (attempt m).
Proof.
  intros [p Hp Hr].
  exists (andThen p (fun r => Ret (match r with Ok a => Ok (inr a) | Err e => Ok (inl e) | Panic => Panic end))).
  - apply fine_andThen; [done | constructor].
  - intros st. rewrite run_andThen, Hr. unfold attempt. by destruct (m st) as [[]].
Qed.
Lemma cut_with_defer {A B} (m : M W A) (d : M W B) : cut m -> cut d -> cut (with_defer m d).
Proof.
  intros [p Hp Hr] [p' Hp' Hr'].
  exists (andThen p (fun r => andThen p' (fun r' => Ret (match r' with Panic => Panic | _ => r end)))).
  - do 2 (apply fine_andThen; [done|intros ?]). constructor.
  - intros st. rewrite run_andThen, Hr. unfold with_defer. destruct (m st) as [r st1]. rewrite run_andThen, Hr'.
    by destruct (d st1) as [[]].
Qed.

Lemma cut_environment {A} (m : M W A) st : cut m -> rtc transport_step st.2 (m st).2.2.
Proof. intros [p Hp <-]. by apply fine_environment. Qed.

#[local] Ltac cut_step :=
  lazymatch goal with
  | |- cut (mbind _ _) => apply cut_bind; [|intros ?]
  | |- cut (attempt _) => apply cut_attempt
  | |- cut (mret _) => apply cut_lift
  | |- cut (fail _) => apply cut_lift
  | |- cut (lift _) => apply cut_lift
  | |- cut (get _) => apply cut_get
  | |- cut (call _) => apply cut_call; intros ?; constructor
  | |- cut (observe _) => apply cut_observe; intros ?; constructor
  | |- cut nextPDURef => apply cut_nextPDURef
  | |- cut (if ?b then _ else _) => destruct b
  | |- cut (match ?x with _ => _ end) => destruct x
  end.
#[local] Ltac go_cut := repeat first [ cut_step | progress cbv beta iota zeta | solve [auto] ].

Lemma cut_ctx_Err ctx : cut (ctx_Err (W := W) ctx).
Proof. unfold ctx_Err. go_cut. Qed.
#[local] Hint Resolve cut_ctx_Err : core.
Lemma cut_check_ctx ctx : cut (check_ctx (W := W) ctx).
Proof. unfold check_ctx. go_cut. Qed.
#[local] Hint Resolve cut_check_ctx : core.

Lemma cut_sendReceive ctx req ref : cut (sendReceive (W := W) ctx req ref).
Proof. unfold sendReceive, WriteTSDU, ReadTSDU. go_cut. Qed.
#[local] Hint Resolve cut_sendReceive : core.

Lemma cut_closeCOTP conn : cut (closeCOTP (W := W) conn).
Proof. unfold closeCOTP. go_cut. Qed.
Lemma cut_performS7Setup ctx conn ref a b size : cut (performS7Setup (W := W) ctx conn ref a b size).
Proof. unfold performS7Setup, WriteTSDU, ReadTSDU. go_cut. Qed.
Lemma cut_dialCOTP ctx address timeout l r : cut (dialCOTP (W := W) ctx address timeout l r).
Proof. unfold dialCOTP, dialTCP, connectCOTP. go_cut. Qed.
Lemma cut_modify_connection conn a b c d e f g : cut (modify (W := W) (set_connection conn a b c d e f g)).
Proof. by apply cut_modify. Qed.
#[local] Hint Resolve cut_closeCOTP cut_performS7Setup cut_dialCOTP cut_modify_connection : core.

Lemma cut_connectOnce ctx rack slot : cut (connectOnce (W := W) ctx rack slot).
Proof. unfold connectOnce. go_cut. Qed.
#[local] Hint Resolve cut_connectOnce : core.
Lemma cut_tryPairs ctx pairs failed : cut (tryPairs (W := W) ctx pairs failed).
Proof. induction pairs as [|[rack slot] pairs IH]; cbn [tryPairs]; go_cut. Qed.
#[local] Hint Resolve cut_tryPairs : core.
Lemma cut_Connect ctx : cut (Connect (W := W) ctx).
Proof. unfold Connect, autoConnect. go_cut. Qed.
Lemma cut_Close : cut (Close (W := W)).
Proof. unfold Close, closeConnLocked. go_cut. Qed.

Lemma cut_pace ctx rate first : cut (pace (W := W) ctx rate first).
Proof. unfold pace. go_cut. Qed.
#[local] Hint Resolve cut_pace : core.
Lemma cut_readChunks ctx addr reqLen rate chunks offset result first :
  cut (readChunks (W := W) ctx addr reqLen rate chunks offset result first).
Proof. revert offset result first. induction chunks as [|n chunks IH]; intros offset result first; cbn [readChunks]; go_cut. Qed.
Lemma cut_writeChunks ctx addr dat rate chunks offset first :
  cut (writeChunks (W := W) ctx addr dat rate chunks offset first).
Proof. revert offset first. induction chunks as [|n chunks IH]; intros offset first; cbn [writeChunks]; go_cut. Qed.
#[local] Hint Resolve cut_readChunks cut_writeChunks : core.
Lemma cut_ReadArea ctx addr : cut (ReadArea (W := W) ctx addr).
Proof. unfold ReadArea. go_cut. Qed.
Lemma cut_WriteArea ctx addr dat : cut (WriteArea (W := W) ctx addr dat).
Proof. unfold WriteArea. go_cut. Qed.
Lemma cut_ReadBit ctx addr : cut (ReadBit (W := W) ctx addr).
Proof. unfold ReadBit, require_conn. go_cut. Qed.
Lemma cut_WriteBit ctx addr v : cut (WriteBit (W := W) ctx addr v).
Proof. unfold WriteBit, require_conn. go_cut. Qed.

Lemma cut_followUps budget ctx group subfunc up payload : cut (followUps (W := W) budget ctx group subfunc up payload).
Proof. revert up payload. induction budget as [|budget IH]; intros up payload; cbn [followUps]; go_cut. Qed.
#[local] Hint Resolve cut_followUps : core.
Lemma cut_userdata ctx req ref group subfunc : cut (userdata (W := W) ctx req ref group subfunc).
Proof. unfold userdata. go_cut. Qed.
#[local] Hint Resolve cut_userdata : core.
Lemma cut_readSZL ctx id index : cut (readSZL (W := W) ctx id index).
Proof. unfold readSZL. go_cut. Qed.
#[local] Hint Resolve cut_readSZL : core.
Lemma cut_Identify ctx : cut (Identify (W := W) ctx).
Proof. unfold Identify, identifyPart, readModuleIDSZL, readComponentIDSZL. go_cut. Qed.
Lemma cut_GetCPUState ctx : cut (GetCPUState (W := W) ctx).
Proof. unfold GetCPUState. go_cut. Qed.
Lemma cut_GetProtectionLevel ctx : cut (GetProtectionLevel (W := W) ctx).
Proof. unfold GetProtectionLevel. go_cut. Qed.
Lemma cut_ReadDiagBufferRaw ctx : cut (ReadDiagBufferRaw (W := W) ctx).
Proof. unfold ReadDiagBufferRaw. go_cut. Qed.
Lemma cut_ListBlocks ctx bt : cut (ListBlocks (W := W) ctx bt).
Proof. unfold ListBlocks. go_cut. Qed.
Lemma cut_BlockCounts ctx : cut (BlockCounts (W := W) ctx).
Proof. unfold BlockCounts. go_cut. Qed.
Lemma cut_GetBlockInfo ctx bt num : cut (GetBlockInfo (W := W) ctx bt num).
Proof. unfold GetBlockInfo. go_cut. Qed.
Lemma cut_uploadSegment retries ctx id i received lastErr :
  cut (uploadSegment (W := W) retries ctx id i received lastErr).
Proof. revert lastErr. induction retries as [|retries IH]; intros lastErr; cbn [uploadSegment]; go_cut. Qed.
#[local] Hint Resolve cut_uploadSegment : core.
Lemma cut_uploadLoop chunks ctx id i payload count : cut (uploadLoop (W := W) chunks ctx id i payload count).
Proof. revert i payload count. induction chunks as [|chunks IH]; intros i payload count; cbn [uploadLoop]; go_cut. Qed.
#[local] Hint Resolve cut_uploadLoop : core.
Lemma cut_uploadBody ctx bt num id : cut (uploadBody (W := W) ctx bt num id).
Proof. unfold uploadBody. go_cut. Qed.
Lemma cut_UploadBlock ctx bt num : cut (UploadBlock (W := W) ctx bt num).
Proof.
  unfold UploadBlock, endUpload. go_cut. apply cut_with_defer; [apply cut_uploadBody | go_cut].
Qed.

Lemma cut_giving {X} (f : res X -> answer) (m : M W X) : cut m -> cut (giving f m).
Proof.
  intros [p Hp Hr]. exists (andThen p (fun r => Ret (f r))); [apply fine_andThen; [done | constructor]|].
  intros st. rewrite run_andThen, Hr. unfold giving. by destruct (m st).
Qed.

(** Every operation has a finest cut. *)
Lemma cut_performs q : cut (performs q).
Proof.
  destruct q; apply cut_giving;
    first [apply cut_Connect | apply cut_Close | apply cut_ReadArea | apply cut_WriteArea | apply cut_ReadBit | apply cut_WriteBit
          | apply cut_Identify | apply cut_GetCPUState | apply cut_GetProtectionLevel | apply cut_ReadDiagBufferRaw
          | apply cut_ListBlocks | apply cut_BlockCounts | apply cut_GetBlockInfo | apply cut_UploadBlock].
Qed.

(** Options and host are those the client was made with. *)
Lemma performs_config q c (w : W) a c' w' : performs q (c, w) = (a, (c', w')) -> same_config c c'.
Proof.
  intros H. destruct (cut_performs q) as [p Hp Hr]. pose proof (fine_config p (c, w) Hp) as Hc. rewrite Hr, H in Hc. done.
Qed.

(** The checks agree with the call: one that is refused by them returns the
    same and changes nothing. *)
Lemma Connect_refused ctx c (w : W) e : checkOptions (c_opts c) = Err e -> Connect ctx (c, w) = (Err e, (c, w)).
Proof.
  unfold checkOptions, Connect. intros H. rewrite (bind_run_Ok _ _ _ (c, w) (c_opts c)) by done.
  destruct (_ || _); [injection H as <-; done|]. destruct (_ <? _); [injection H as <-; done|].
  destruct (_ || _); [injection H as <-; done|]. destruct (o_autoRackSlot (c_opts c)); [done|].
  simpl (negb false). cbv iota. destruct (_ || _); [injection H as <-; done|].
  rewrite bind_run, bind_run. unfold attempt, lift. destruct (ValidateRackSlot _ _) as [[]|err|]; [done| |done].
  by injection H as <-.
Qed.

Lemma checks_performs q c (w : W) a : checks (c_opts c) q = Some a -> performs q (c, w) = (a, (c, w)).
Proof.
  assert (Hlift : forall X (f : res X -> answer) (r : res unit) (m : M W X) a,
    refusing f r = Some a -> (forall e, r = Err e -> m (c, w) = (Err e, (c, w))) -> giving f m (c, w) = (a, (c, w))).
  { intros X f r m a' H Hm. unfold giving. destruct r as [[]|e|]; [done| |done]. injection H as <-. by rewrite (Hm e eq_refl). }
  assert (Hbind : forall X (r : res unit) (k : M W X) e, r = Err e -> (lift r ;; k) (c, w) = (Err e, (c, w))).
  { intros X r k e ->. by rewrite bind_run. }
  destruct q; simpl; try done; intros H; apply (Hlift _ _ _ _ _ H); intros e He.
  - by apply Connect_refused.
  - unfold ReadArea. destruct (validateAddress addr) as [[]|e'|] eqn:E; simpl in He; [|by injection He as <-; apply Hbind|done].
    rewrite (bind_run_Ok _ _ _ (c, w) tt) by done. by apply Hbind.
  - unfold WriteArea. destruct (validateAddress addr) as [[]|e'|] eqn:E; simpl in He; [|by injection He as <-; apply Hbind|done].
    rewrite (bind_run_Ok _ _ _ (c, w) tt) by done. by apply Hbind.
  - by apply Hbind.
  - by apply Hbind.
  - unfold checkNumber in He. unfold GetBlockInfo. destruct (_ || _); [by injection He as <- | done].
  - unfold checkNumber in He. unfold UploadBlock. destruct (_ || _); [by injection He as <- | done].
Qed.
End Performs.
