(* ===== verification/Snapshot.v ===== *)
(** * Snapshots of the connection under mu (client/client.go)

    [Connect] and [Close] set the fields of the connection one by one holding
    [mu] for writing; [ConnectionInfo], [PDUSize] and [sendReceive] copy some
    of them one by one holding it for reading.  The goroutines interleave at
    every single assignment and copy, as calls of [RWLock]. *)

From S2P Require Import Prelude Go WireErrors Header Client Locking RWLock.

(** ** The critical sections *)

(** What a [Connect] negotiated. *)
Record setup := mkSetup {
  su_conn : Conn; su_rack : Z; su_slot : Z; su_local : Z; su_remote : Z; su_size : Z; su_calling : Z; su_called : Z;
}.

(** The assignments of [connectOnce]: the connection, rack and slot, the
    TSAPs, the PDU size and the job limits. *)
Definition connectAssignments (v : setup) : list (Client -> Client) :=
  let set f c := match c with mkClient h o cn r sl p l rm sz ca cd => f h o cn r sl p l rm sz ca cd end in
  [set (fun h o _ r sl p l rm sz ca cd => mkClient h o (Some (su_conn v)) r sl p l rm sz ca cd);
   set (fun h o cn _ sl p l rm sz ca cd => mkClient h o cn (su_rack v) sl p l rm sz ca cd);
   set (fun h o cn r _ p l rm sz ca cd => mkClient h o cn r (su_slot v) p l rm sz ca cd);
   set (fun h o cn r sl p _ rm sz ca cd => mkClient h o cn r sl p (su_local v) rm sz ca cd);
   set (fun h o cn r sl p l _ sz ca cd => mkClient h o cn r sl p l (su_remote v) sz ca cd);
   set (fun h o cn r sl p l rm _ ca cd => mkClient h o cn r sl p l rm (su_size v) ca cd);
   set (fun h o cn r sl p l rm sz _ cd => mkClient h o cn r sl p l rm sz (su_calling v) cd);
   set (fun h o cn r sl p l rm sz ca _ => mkClient h o cn r sl p l rm sz ca (su_called v))].

(** Those of [closeConnLocked], when there is a connection. *)
Definition closeAssignments : list (Client -> Client) :=
  let set f c := match c with mkClient h o cn r sl p l rm sz ca cd => f h o cn r sl p l rm sz ca cd end in
  [set (fun h o _ r sl p l rm sz ca cd => mkClient h o None r sl p l rm sz ca cd);
   set (fun h o cn _ sl p l rm sz ca cd => mkClient h o cn 0 sl p l rm sz ca cd);
   set (fun h o cn r _ p l rm sz ca cd => mkClient h o cn r 0 p l rm sz ca cd);
   set (fun h o cn r sl p _ rm sz ca cd => mkClient h o cn r sl p 0 rm sz ca cd);
   set (fun h o cn r sl p l _ sz ca cd => mkClient h o cn r sl p l 0 sz ca cd);
   set (fun h o cn r sl p l rm _ ca cd => mkClient h o cn r sl p l rm 0 ca cd);
   set (fun h o cn r sl p l rm sz _ cd => mkClient h o cn r sl p l rm sz 0 cd);
   set (fun h o cn r sl p l rm sz ca _ => mkClient h o cn r sl p l rm sz ca 0)].

(** The readers, and the fields each of them copies; the host never changes. *)
Inductive reader :=
  | ByConnectionInfo
  | ByPDUSize
  | BySendReceive.

Definition copied (r : reader) : list (Client -> option Z) :=
  match r with
  | ByConnectionInfo =>
      [fun c => Some (o_port (c_opts c)); fun c => Some (c_localTSAP c); fun c => Some (c_remoteTSAP c); fun c => Some (c_rack c);
       fun c => Some (c_slot c); fun c => Some (c_pduSize c); fun c => Some (c_maxAmqCalling c); fun c => Some (c_maxAmqCalled c)]
  | ByPDUSize => [fun c => Some (c_pduSize c)]
  | BySendReceive => [c_conn; fun c => Some (c_pduSize c)]
  end.

(** ** Calls *)

Inductive mu_call :=
  | SetFields (t : Z) (v : setup)
  | ClearFields (t : Z)
  | CopyFields (t : Z) (r : reader).

Definition mu_caller (q : mu_call) : Z := match q with SetFields t _ | ClearFields t | CopyFields t _ => t end.

Fixpoint assigning (fs : list (Client -> Client)) : prog Client (list (option Z)) :=
  match fs with [] => Ret [] | f :: fs => Act f (fun _ => assigning fs) end.

Fixpoint copying (fs : list (Client -> option Z)) (got : list (option Z)) : prog Client (list (option Z)) :=
  match fs with [] => Ret got | f :: fs => Act id (fun c => copying fs (got ++ [f c])) end.

(** [closeConnLocked] assigns nothing when there is no connection. *)
Definition mu_job (q : mu_call) (_ : unit) : job Client unit (list (option Z)) :=
  match q with
  | SetFields _ v => Exclusive (assigning (connectAssignments v))
  | ClearFields _ =>
      Exclusive (Act id (fun c => match c_conn c with None => Ret [] | Some _ => assigning closeAssignments end))
  | CopyFields _ r => Sharing (copying (copied r) [])
  end.

(** ** What the calls do at once *)

Definition snapshot (r : reader) (c : Client) : list (option Z) := (fun f => f c) <$> copied r.

Definition connected_as (v : setup) (c : Client) : Client :=
  set_connection (Some (su_conn v)) (su_rack v) (su_slot v) (su_local v) (su_remote v) (su_size v) (su_calling v) (su_called v) c.

Definition cleared (c : Client) : Client := match c_conn c with None => c | Some _ => set_connection None 0 0 0 0 0 0 0 c end.

Definition fields_effect (c : Client) (q : mu_call) (a : list (option Z)) (c' : Client) : Prop :=
  match q with
  | SetFields _ v => a = [] /\ c' = connected_as v c
  | ClearFields _ => a = [] /\ c' = cleared c
  | CopyFields _ r => a = snapshot r c /\ c' = c
  end.

Lemma run_assigning fs c : run (assigning fs) c = ([], fold_left (fun c f => f c) fs c).
Proof. revert c. induction fs as [|f fs IH]; intros c; simpl; [done | apply IH]. Qed.

Lemma run_copying fs got c : run (copying fs got) c = (got ++ ((fun f => f c) <$> fs), c).
Proof.
  revert got. induction fs as [|f fs IH]; intros got; simpl; [by rewrite app_nil_r|]. by rewrite IH, <- app_assoc.
Qed.

Lemma copying_reads fs got : reads_only (copying fs got).
Proof. revert got. induction fs as [|f fs IH]; intros got; simpl; by constructor. Qed.

Lemma mu_job_reads q l p : mu_job q l = Sharing p -> reads_only p.
Proof. destruct q; simpl; try done. intros [= <-]. apply copying_reads. Qed.

Lemma mu_effect st q a st' : rw_effect mu_caller mu_job tt st q a st' -> fields_effect st.1 q a st'.1.
Proof.
  destruct st as [c ls], st' as [c' ls']. unfold rw_effect. destruct q as [t v|t|t r]; cbn [mu_job fst snd fields_effect]; intros [H _].
  - rewrite run_assigning in H. injection H as <- <-. split; [done|]. by destruct c.
  - cbn [run id] in H. unfold cleared. destruct (c_conn c) eqn:E; [rewrite run_assigning in H|]; injection H as <- <-; [|done].
    split; [done|]. by destruct c.
  - rewrite run_copying in H. by injection H as <- <-.
Qed.

(** ** Snapshots are consistent *)

(** The client as it was, as one [Connect] of the log made it, or cleared. *)
Definition consistent (connects : list setup) (c0 c : Client) : Prop :=
  c = c0 \/ (exists v, v ∈ connects /\ c = connected_as v c0) \/ c = set_connection None 0 0 0 0 0 0 0 c0.

Definition connects_of (log : list (Z * mu_call * list (option Z))) : list setup :=
  omap (fun e => match e.1.2 with SetFields _ v => Some v | _ => None end) log.

Lemma consistent_app l l' c0 c : consistent (connects_of l) c0 c -> consistent (connects_of (l ++ l')) c0 c.
Proof.
  intros [?|[(v & Hv & ?)|?]]; [by left| |by right; right]. right; left. exists v. unfold connects_of in *.
  rewrite omap_app. split; [by apply elem_of_app; left | done].
Qed.

Lemma sequential_consistent c0 log c :
  sequential fields_effect c0 log c ->
  consistent (connects_of log) c0 c /\
  forall t t' r a, (t, CopyFields t' r, a) ∈ log -> exists c1, consistent (connects_of log) c0 c1 /\ a = snapshot r c1.
Proof.
  induction 1 as [|s l s1 t q a s2 _ [IH1 IH2] He].
  { split; [by left | intros t t' r a H; by apply not_elem_of_nil in H]. }
  split.
  - destruct q as [t' v|t'|t' r]; destruct He as [_ ->]; [| |by apply consistent_app].
    + right; left. exists v. unfold connects_of. rewrite omap_app. split; [apply elem_of_app; right; by left|].
      by destruct IH1 as [->|[(? & _ & ->)| ->]].
    + unfold cleared. destruct (c_conn s1); [|by apply consistent_app]. right; right. by destruct IH1 as [->|[(? & _ & ->)| ->]].
  - intros t1 t2 r a1 [Hin|Hin]%elem_of_app.
    + destruct (IH2 _ _ _ _ Hin) as (c1 & Hc1 & E). exists c1. split; [by apply consistent_app | done].
    + apply list_elem_of_singleton in Hin. injection Hin as -> <- ->. destruct He as [-> _]. exists s1. split; [by apply consistent_app | done].
Qed.

(** The fields of the record [ConnectionInfo] returns. *)
Lemma snapshot_info c :
  snapshot ByConnectionInfo c = let i := Client_ConnectionInfo c in
    Some <$> [ci_Port i; ci_LocalTSAP i; ci_RemoteTSAP i; ci_Rack i; ci_Slot i; ci_PDUSize i; ci_MaxAmqCalling i; ci_MaxAmqCalled i].
Proof. done. Qed.
