(* ===== verification/ServerShared.v ===== *)
(** * Connections that share the memory of a server (server/session.go, server/memory.go)

    Every connection of a server has a goroutine that handles its requests one
    after the other, and the host calls the server from goroutines of its own.
    They share the memory under its [RWMutex]: [read] of a session and of the
    memory hold it for reading, [write] and [register] for writing, from after
    the checks on their arguments to their end.  The PDU size of a session
    belongs to its connection alone.  Here the calls are those of [RWLock]; a
    critical section may be cut into atomic steps in any way, in particular
    item by item as the loops of the source do. *)

From S2P Require Import Prelude Go WireErrors Header ReadWrite ServerCodec Memory Session Server Locking RWLock.

(** ** Calls *)

(** A request that arrives on a connection, and the host-side operations of a
    goroutine. *)
Inductive server_call :=
  | OnRequest (conn : Z) (req : bytes)
  | OnRead (t : Z) (a : byte) (n start size : Z)
  | OnWrite (t : Z) (a : byte) (n start : Z) (src : bytes)
  | OnRegister (t : Z) (a : byte) (n : Z) (init : bytes) (opts : AreaOptions).

Inductive server_answer :=
  | Handled (r : res (option bytes * bool))
  | HostRead (r : res bytes)
  | HostDone (r : res unit).

Definition server_caller (q : server_call) : Z :=
  match q with OnRequest t _ | OnRead t _ _ _ _ | OnWrite t _ _ _ _ | OnRegister t _ _ _ _ => t end.

(** What is left to do when the arguments are checked: a reply without the lock,
    or one of the critical sections.  The PDU size is that of the connection. *)
Inductive todo :=
  | Reply (a : server_answer) (pdu : Z)
  | ReadVar (pdu ref : Z) (param : bytes) (specs : list VarSpec) (ranges : list (list DBReadArea))
  | WriteVar (ref : Z) (param : bytes) (specs : list VarSpec) (items : list WriteVarData)
  | ReadSpan (a : byte) (n start size : Z)
  | WriteSpan (a : byte) (n start : Z) (src : bytes)
  | AddRegion (a : byte) (n : Z) (init : bytes) (opts : AreaOptions).

(** What a call does outside the lock or under it. *)
Inductive critical :=
  | Unlocked (a : server_answer) (pdu : Z)
  | UnderRLock (f : memory -> server_answer)
  | UnderLock (f : memory -> server_answer * memory).

Definition done (r : res memory) : res unit := match r with Ok _ => Ok tt | Err e => Err e | Panic => Panic end.

(** The memory an operation leaves: as it was when the operation failed. *)
Definition kept (m : memory) (r : res memory) : memory := match r with Ok m' => m' | _ => m end.

(** The answer to a request whose handler returned. *)
Definition finish (ref : Z) (param : bytes) (r : res bytes) : server_answer :=
  Handled match r with
  | Ok out => Ok (Some out, true)
  | Err _ => o ← notImplemented ref param; mret (o, true)
  | Panic => Panic
  end.

(** [read] and [write] of a session from the lock on. *)
Definition readAnswer (pdu ref : Z) (param : bytes) (out : option (list ReadVarResult * Z)) : res bytes :=
  match out with
  | None => frameError ref param
  | Some (results, used) => if used >? pdu then frameError ref param else EncodeReadVarResponse ref results
  end.

Definition readLocked (m : memory) (pdu ref : Z) (param : bytes) (specs : list VarSpec) (ranges : list (list DBReadArea)) : res bytes :=
  out ← readLoop m pdu (len specs) specs ranges 0 (AckDataHeaderSize + 2); readAnswer pdu ref param out.

Definition writeLocked (m : memory) (ref : Z) (specs : list VarSpec) (items : list WriteVarData) : res bytes * memory :=
  match writeLoop m specs items 0 with
  | Ok (m', codes) => (EncodeWriteVarResponse ref codes, m')
  | Err e => (Err e, m)
  | Panic => (Panic, m)
  end.

(** [handle] up to the lock. *)
Definition handleTodo (max pdu : Z) (req : bytes) : res todo :=
  let dropped := Reply (Handled (Ok (None, false))) pdu in
  let answer (r : res (option bytes)) : res todo := o ← r; mret (Reply (Handled (Ok (o, true))) pdu) in
  if len req <? S7HeaderSize then mret dropped else
  b0 ← idx req 0;
  if b0 ≠b x32 then mret dropped else
  rosctr ← idx req 1;
  ref ← slice req 4 6 ≫= Uint16;
  paramLen ← slice req 6 8 ≫= Uint16;
  dataLen ← slice req 8 10 ≫= Uint16;
  if negb (S7HeaderSize + paramLen + dataLen =? len req) then mret dropped else
  param ← slice req S7HeaderSize (S7HeaderSize + paramLen);
  data ← slice_from req (S7HeaderSize + paramLen);
  if IsUserdata rosctr then answer (userdataNotImplemented ref param) else
  if negb (IsJob rosctr) || (paramLen =? 0) then answer (notImplemented ref param) else
  fn ← idx param 0;
  let failed (e : error) := mret (Reply (finish ref param (Err e)) pdu) in
  if fn =b FuncSetupComm then
    let '(s, r) := setup (mkSession max ∅ pdu) ref param in mret (Reply (finish ref param r) (pduSize s))
  else if fn =b FuncReadVar then
    match (specs ← ParseReadVarRequest param; ranges ← ParseReadVarDBRead param; mret (specs, ranges)) with
    | Ok (specs, ranges) => mret (ReadVar pdu ref param specs ranges)
    | Err e => failed e
    | Panic => Panic
    end
  else if fn =b FuncWriteVar then
    match ParseWriteVarRequest param data with
    | Ok (specs, items) => mret (WriteVar ref param specs items)
    | Err e => failed e
    | Panic => Panic
    end
  else answer (notImplemented ref param).

Definition todoOf (max : Z) (q : server_call) (pdu : Z) : todo :=
  match q with
  | OnRequest _ req =>
      match handleTodo max pdu req with
      | Ok c => c
      | Err e => Reply (Handled (Err e)) pdu
      | Panic => Reply (Handled Panic) pdu
      end
  | OnRead _ a n start size => ReadSpan a n start size
  | OnWrite _ a n start src => WriteSpan a n start src
  | OnRegister _ a n init opts =>
      match keyOf a n with
      | Err e => Reply (HostDone (Err e)) pdu
      | Panic => Reply (HostDone Panic) pdu
      | Ok _ =>
          if (len init =? 0) || (len init >? MaxAreaSize) then Reply (HostDone (done (register ∅ a n init opts))) pdu
          else AddRegion a n init opts
      end
  end.

Definition criticalOf (c : todo) : critical :=
  match c with
  | Reply a pdu => Unlocked a pdu
  | ReadVar pdu ref param specs ranges => UnderRLock (fun m => finish ref param (readLocked m pdu ref param specs ranges))
  | WriteVar ref param specs items => UnderLock (fun m => let '(r, m') := writeLocked m ref specs items in (finish ref param r, m'))
  | ReadSpan a n start size => UnderRLock (fun m => HostRead (mem_read m a n start size))
  | WriteSpan a n start src => UnderLock (fun m => let r := mem_write m a n start src in (HostDone (done r), kept m r))
  | AddRegion a n init opts => UnderLock (fun m => let r := register m a n init opts in (HostDone (done r), kept m r))
  end.

(** A job that is the critical section cut into steps. *)
Definition cuts (c : critical) (j : job memory Z server_answer) : Prop :=
  match c, j with
  | Unlocked a pdu, Local a' pdu' => a' = a /\ pdu' = pdu
  | UnderRLock f, Sharing p => reads_only p /\ forall m, run p m = (f m, m)
  | UnderLock f, Exclusive p => forall m, run p m = f m
  | _, _ => False
  end.

(** ** The effect of a call at once *)

Section Effect.
Variable max : Z.

Definition pdu_of (pdus : gmap Z Z) (conn : Z) : Z := local_of max pdus conn.

(** The PDU sizes after connection [conn] has [pdu]. *)
Definition only_changed (pdus pdus' : gmap Z Z) (conn pdu : Z) : Prop :=
  forall t, pdu_of pdus' t = if decide (t = conn) then pdu else pdu_of pdus t.

Definition server_effect (st : memory * gmap Z Z) (q : server_call) (a : server_answer) (st' : memory * gmap Z Z) : Prop :=
  match q with
  | OnRequest conn req =>
      match handle (mkSession max st.1 (pdu_of st.2 conn)) req with
      | Ok (s', out, keep) => a = Handled (Ok (out, keep)) /\ st'.1 = regions s' /\ only_changed st.2 st'.2 conn (pduSize s')
      | _ => False
      end
  | OnRead t a' n start size => a = HostRead (mem_read st.1 a' n start size) /\ st'.1 = st.1 /\ only_changed st.2 st'.2 t (pdu_of st.2 t)
  | OnWrite t a' n start src =>
      let r := mem_write st.1 a' n start src in a = HostDone (done r) /\ st'.1 = kept st.1 r /\ only_changed st.2 st'.2 t (pdu_of st.2 t)
  | OnRegister t a' n init opts =>
      let r := register st.1 a' n init opts in a = HostDone (done r) /\ st'.1 = kept st.1 r /\ only_changed st.2 st'.2 t (pdu_of st.2 t)
  end.
End Effect.

(** ** The handler is its critical section *)

(** What the handler returns, when the critical section runs on [m]. *)
Definition settle (max : Z) (m : memory) (pdu : Z) (c : critical) : res (session * option bytes * bool) :=
  let after (m : memory) (pdu : Z) (a : server_answer) :=
    match a with
    | Handled r => '(out, keep) ← r; mret (mkSession max m pdu, out, keep)
    | _ => Panic
    end in
  match c with
  | Unlocked a pdu' => after m pdu' a
  | UnderRLock f => after m pdu (f m)
  | UnderLock f => let '(a, m') := f m in after m' pdu a
  end.

Lemma handle_settles max m pdu req :
  handle (mkSession max m pdu) req = c ← handleTodo max pdu req; settle max m pdu (criticalOf c).
Proof.
  unfold handle, handleTodo. case_if; [done|]. destruct (idx req 0) as [b0|e|]; [|done..]. cbn [mbind res_bind].
  case_if; [done|]. destruct (idx req 1) as [ro|e|]; [|done..]. cbn [mbind res_bind].
  destruct (slice req 4 6 ≫= Uint16) as [ref|e|]; [|done..]. cbn [mbind res_bind].
  destruct (slice req 6 8 ≫= Uint16) as [pl|e|]; [|done..]. cbn [mbind res_bind].
  destruct (slice req 8 10 ≫= Uint16) as [dl|e|]; [|done..]. cbn [mbind res_bind].
  case_if; [done|]. destruct (slice req S7HeaderSize (S7HeaderSize + pl)) as [param|e|]; [|done..]. cbn [mbind res_bind].
  destruct (slice_from req (S7HeaderSize + pl)) as [dat|e|]; [|done..]. cbn [mbind res_bind].
  unfold answered, finish. case_if; [by destruct (userdataNotImplemented ref param)|].
  case_if; [by destruct (notImplemented ref param)|]. destruct (idx param 0) as [fn|e|]; [|done..]. cbn [mbind res_bind].
  case_if; [|case_if; [|case_if; [|by destruct (notImplemented ref param)]]].
  - unfold setup. destruct (ParseSetupCommRequest param) as [r|e|]; simpl; [|by destruct (notImplemented ref param)|done].
    destruct (EncodeSetupCommResponse _ _ _ _); simpl; [done | by destruct (notImplemented ref param) | done].
  - unfold read. destruct (ParseReadVarRequest param) as [specs|e|]; simpl; [|by destruct (notImplemented ref param)|done].
    destruct (ParseReadVarDBRead param) as [ranges|e|]; simpl; [|by destruct (notImplemented ref param)|done].
    match goal with |- match ?x with _ => _ end = _ => change x with (readLocked m pdu ref param specs ranges) end.
    by destruct (readLocked m pdu ref param specs ranges); [|destruct (notImplemented ref param)|].
  - unfold write. destruct (ParseWriteVarRequest param dat) as [[specs items]|e|]; simpl; [|by destruct (notImplemented ref param)|done].
    unfold writeLocked. destruct (writeLoop m specs items 0) as [[m' codes]|e|]; simpl; [|by destruct (notImplemented ref param)|done].
    destruct (EncodeWriteVarResponse ref codes); simpl; [done | by destruct (notImplemented ref param) | done].
Qed.

(** ** Calls have the effect of the handler *)

Section Shared.
Variable max : Z.
Variable job_of : server_call -> Z -> job memory Z server_answer.
Hypothesis Hcut : forall q pdu, cuts (criticalOf (todoOf max q pdu)) (job_of q pdu).

Lemma job_reads q pdu p : job_of q pdu = Sharing p -> reads_only p.
Proof. intros E. pose proof (Hcut q pdu) as H. rewrite E in H. destruct (criticalOf (todoOf max q pdu)); [done | apply H | done]. Qed.

(** Every session could go on: the memory is sound and the PDU sizes are in
    range. *)
Definition shared_ok (st : memory * gmap Z Z) : Prop := forall t, session_ok (mkSession max st.1 (pdu_of max st.2 t)).

Abbreviation effect := (rw_effect server_caller job_of max).

Lemma effect_critical st q a st' :
  effect st q a st' ->
  match criticalOf (todoOf max q (pdu_of max st.2 (server_caller q))) with
  | Unlocked a' pdu => a = a' /\ st' = (st.1, <[server_caller q := pdu]> st.2)
  | UnderRLock f => a = f st.1 /\ st' = st
  | UnderLock f => f st.1 = (a, st'.1) /\ st'.2 = st.2
  end.
Proof.
  unfold rw_effect. pose proof (Hcut q (pdu_of max st.2 (server_caller q))) as H. unfold pdu_of in *.
  destruct st as [m ls], st' as [m' ls']. cbn [fst snd] in *.
  destruct (criticalOf _) as [a1 pdu|f|f], (job_of _ _) as [a2 l|p|p]; try done; simpl in H.
  - destruct H as [-> ->]. done.
  - destruct H as [_ H]. rewrite H. by intros [[= <- <-] ->].
  - rewrite H. done.
Qed.

Lemma only_changed_insert pdus conn pdu : only_changed max pdus (<[conn := pdu]> pdus) conn pdu.
Proof.
  intros t. unfold pdu_of, local_of. destruct (decide (t = conn)) as [->|Hne]; [by rewrite lookup_insert_eq | by rewrite lookup_insert_ne].
Qed.

Lemma only_changed_same pdus conn : only_changed max pdus pdus conn (pdu_of max pdus conn).
Proof. intros t. by destruct (decide (t = conn)) as [->|Hne]. Qed.

(** A step of one session, or none. *)
Lemma shared_ok_session st m pdus conn pdu :
  shared_ok st -> session_ok (mkSession max m pdu) -> only_changed max st.2 pdus conn pdu -> shared_ok (m, pdus).
Proof.
  intros Hst (Hm & Hp & Hx) Hc t. specialize (Hst t). simpl. rewrite Hc. destruct (decide (t = conn)); [done|].
  destruct Hst as (_ & Hp' & _). done.
Qed.

Lemma onRequest_effect st conn req a st' :
  shared_ok st -> effect st (OnRequest conn req) a st' -> server_effect max st (OnRequest conn req) a st' /\ shared_ok st'.
Proof.
  intros Hst He. apply effect_critical in He. simpl in He |- *. set (pdu := pdu_of max st.2 conn) in *.
  pose proof (handle_settles max st.1 pdu req) as Hh.
  assert (Hok : exists s' out keep, handle (mkSession max st.1 pdu) req = Ok (s', out, keep) /\ session_ok s').
  { destruct (handle_step (mkSession max st.1 pdu) req (Hst conn)) as [E | (ro & ref & p & d & s' & o & _ & E & (Hs' & _) & _)].
    - exists (mkSession max st.1 pdu), None, false. split; [done | apply (Hst conn)].
    - by exists s', (Some o), true. }
  destruct Hok as (s' & out & keep & Hok & Hs'). rewrite Hok in *. symmetry in Hh. apply bind_Ok_inv in Hh as (c & Hc & Hh). rewrite Hc in He.
  set (cr := criticalOf c) in *.
  assert (Hafter : forall m p r, (match r with Handled r => '(out, keep) ← r; mret (mkSession max m p, out, keep) | _ => Panic end) = Ok (s', out, keep) ->
    r = Handled (Ok (out, keep)) /\ s' = mkSession max m p).
  { intros m p [[[o k]|e|]|r|r]; simpl; try done. by intros [= <- <- <-]. }
  destruct cr as [a' pdu'|f|f]; simpl in Hh.
  - destruct He as [-> ->]. apply Hafter in Hh as [-> ->]. simpl. pose proof (only_changed_insert st.2 conn pdu') as Hch.
    split; [done | by eapply shared_ok_session].
  - destruct He as [-> ->]. apply Hafter in Hh as [-> ->]. simpl. split; [|done]. split; [done|]. split; [done|]. apply only_changed_same.
  - destruct He as [Hf Hl]. rewrite Hf in Hh. apply Hafter in Hh as [-> ->]. destruct st' as [m' ls']. simpl in *. subst ls'.
    split; [|by eapply (shared_ok_session st m' st.2 conn); [| |apply only_changed_same]].
    split; [done|]. split; [done|]. apply only_changed_same.
Qed.

Lemma kept_ok m r : memory_ok m -> (forall m', r = Ok m' -> memory_ok m') -> memory_ok (kept m r).
Proof. intros Hm Hr. destruct r; simpl; auto. Qed.

Lemma shared_ok_host st st' t :
  shared_ok st -> memory_ok st'.1 -> only_changed max st.2 st'.2 t (pdu_of max st.2 t) -> shared_ok st'.
Proof.
  intros Hst Hm Hc. destruct st' as [m pdus]. eapply shared_ok_session; [done | | exact Hc].
  destruct (Hst t) as (_ & Hp). by split.
Qed.

(** The checks of [register] before the lock. *)
Lemma register_unchecked m a n init opts :
  match keyOf a n with
  | Err e => register m a n init opts = Err e
  | Panic => register m a n init opts = Panic
  | Ok _ => (len init =? 0) || (len init >? MaxAreaSize) = true -> exists e, forall m', register m' a n init opts = Err e
  end.
Proof.
  unfold register. destruct (keyOf a n); [|done..]. intros ->. by eexists.
Qed.

Lemma call_effect st q a st' : shared_ok st -> effect st q a st' -> server_effect max st q a st' /\ shared_ok st'.
Proof.
  destruct q as [conn req|t b n start size|t b n start src|t b n init opts]; [apply onRequest_effect|..]; intros Hst He;
    pose proof (proj1 (Hst 0)) as Hm; simpl in Hm; apply effect_critical in He; simpl in He |- *.
  - destruct He as [-> ->]. split; [|done]. split; [done|]. split; [done | apply only_changed_same].
  - destruct He as [Hf Hl]. injection Hf as <- Hm'. pose proof (only_changed_same st.2 t) as Hc. rewrite <- Hl in Hc at 2.
    split; [done|]. eapply shared_ok_host; [done | | done]. rewrite <- Hm'. apply kept_ok; [done|].
    intros m' Hw. by apply mem_write_spec in Hw as (_ & _ & _ & ?).
  - pose proof (register_unchecked st.1 b n init opts) as Hu. destruct (keyOf b n) as [k|e|] eqn:Ek.
    2-3: destruct He as [-> ->]; rewrite Hu; pose proof (only_changed_insert st.2 t (pdu_of max st.2 t)) as Hc; simpl;
      (split; [done | by eapply shared_ok_host]).
    destruct ((len init =? 0) || (len init >? MaxAreaSize)).
    + destruct (Hu eq_refl) as [e Hr]. rewrite !Hr in *. destruct He as [-> ->].
      pose proof (only_changed_insert st.2 t (pdu_of max st.2 t)) as Hc. simpl. split; [done | by eapply shared_ok_host].
    + destruct He as [Hf Hl]. injection Hf as <- Hm'. pose proof (only_changed_same st.2 t) as Hc. rewrite <- Hl in Hc at 2.
      split; [done|]. eapply shared_ok_host; [done | | done]. rewrite <- Hm'. apply kept_ok; [done|].
      intros m' Hw. by apply register_spec in Hw as (? & _).
Qed.

Lemma server_calls_linearizable m0 h s' :
  memory_ok m0 -> 240 <= max <= 4096 -> history (rw_step server_caller job_of max) (rw_idle m0) h s' ->
  exists o', history (object_step (server_effect max)) (mkObject (m0, ∅) ∅ []) h o' /\
    sequential (server_effect max) (m0, ∅) (ob_log o') (ob_state o') /\ shared_ok (ob_state o') /\
    (nobody is_holding (rw_calls s') -> rw_state s' = (ob_state o').1).
Proof.
  intros Hm Hx Hh. destruct (rw_linearizable server_caller job_of max job_reads m0 h s' Hh) as (o' & Ho & _ & Hs).
  apply (object_history_map id _ (server_effect max) shared_ok) in Ho as [Ho Hok]; [|by intros; apply call_effect|].
  2: { intros t. split; [done|]. unfold pdu_of, local_of. simpl. rewrite lookup_empty. simpl. lia. }
  unfold object_map in Ho. simpl in Ho. destruct o' as [st c l]. simpl in *. exists (mkObject st c l).
  split; [done|]. split; [|split; [done | intros Hn; symmetry; by apply (si_state _ _ _ _ _ Hs)]].
  eapply (history_sequential _ (m0, ∅) (mkObject (m0, ∅) ∅ [])) in Ho; [done | constructor].
Qed.
End Shared.

(** ** Item by item *)

Definition prefixed (rs : list ReadVarResult) (rest : option (list ReadVarResult * Z)) : option (list ReadVarResult * Z) :=
  match rest with Some (rs', used) => Some (rs ++ rs', used) | None => None end.

(** The loop of [read], each item as one step. *)
Fixpoint readProgram (pdu n : Z) (specs : list VarSpec) (ranges : list (list DBReadArea)) (i used : Z) (rs : list ReadVarResult)
  : prog memory (res (option (list ReadVarResult * Z))) :=
  match specs with
  | [] => Ret (Ok (Some (rs, used)))
  | spec :: specs =>
      Act id (fun m =>
        match readLoop m pdu n [spec] ranges i used with
        | Ok (Some (r, used)) => readProgram pdu n specs ranges (i + 1) used (rs ++ r)
        | Ok None => Ret (Ok None)
        | Err e => Ret (Err e)
        | Panic => Ret Panic
        end)
  end.

(** The loop of [write]. *)
Fixpoint writeProgram (specs : list VarSpec) (items : list WriteVarData) (i : Z) (codes : bytes) : prog memory (res bytes) :=
  match specs with
  | [] => Ret (Ok codes)
  | spec :: specs =>
      let item_step (m : memory) := item ← idx items i; writeItem m spec item in
      Act (fun m => match item_step m with Ok (m', _) => m' | _ => m end)
        (fun m => match item_step m with
                  | Ok (_, code) => writeProgram specs items (i + 1) (codes ++ [code])
                  | Err e => Ret (Err e)
                  | Panic => Ret Panic
                  end)
  end.

Definition itemwise (max : Z) (q : server_call) (pdu : Z) : job memory Z server_answer :=
  match todoOf max q pdu with
  | Reply a pdu => Local a pdu
  | ReadVar pdu ref param specs ranges =>
      Sharing (andThen (readProgram pdu (len specs) specs ranges 0 (AckDataHeaderSize + 2) [])
        (fun out => Ret (finish ref param (out ≫= readAnswer pdu ref param))))
  | WriteVar ref param specs items =>
      Exclusive (andThen (writeProgram specs items 0 [])
        (fun codes => Ret (finish ref param (codes ≫= EncodeWriteVarResponse ref))))
  | ReadSpan a n start size => Sharing (Act id (fun m => Ret (HostRead (mem_read m a n start size))))
  | WriteSpan a n start src => Exclusive (atomically (fun m => let r := mem_write m a n start src in (HostDone (done r), kept m r)))
  | AddRegion a n init opts => Exclusive (atomically (fun m => let r := register m a n init opts in (HostDone (done r), kept m r)))
  end.

(** An item of [read], and the rest. *)
Lemma readLoop_item m pdu n spec specs ranges i used :
  readLoop m pdu n (spec :: specs) ranges i used =
  match readLoop m pdu n [spec] ranges i used with
  | Ok (Some (r, used)) => rest ← readLoop m pdu n specs ranges (i + 1) used; mret (prefixed r rest)
  | r => r
  end.
Proof.
  cbn [readLoop]. case_if.
  - destruct (idx ranges i) as [rs|e|]; [|done..]. cbn [mbind res_bind]. destruct (dbRead m rs) as [r|e|]; [|done..]. cbn [mbind res_bind].
    case_if; [done|]. cbn [mbind res_bind mret res_ret]. by destruct (readLoop m pdu n specs ranges (i + 1) _) as [[[]|]|e|].
  - destruct (resolve m spec) as [t code]. case_if.
    + cbn [mbind res_bind mret res_ret]. by destruct (readLoop m pdu n specs ranges (i + 1) _) as [[[]|]|e|].
    + destruct t as [t|]; [|done]. case_if; [done|]. destruct (readResult t) as [r|e|]; [|done..]. cbn [mbind res_bind mret res_ret].
      by destruct (readLoop m pdu n specs ranges (i + 1) _) as [[[]|]|e|].
Qed.

Lemma run_readProgram m pdu n specs ranges i used rs :
  run (readProgram pdu n specs ranges i used rs) m = (prefixed rs <$> readLoop m pdu n specs ranges i used, m).
Proof.
  revert i used rs. induction specs as [|spec specs IH]; intros i used rs; [simpl; by rewrite app_nil_r|].
  cbn [readProgram run id]. rewrite (readLoop_item m pdu n spec specs).
  destruct (readLoop m pdu n [spec] ranges i used) as [[[r used']|]|e|]; [|done..].
  rewrite IH. cbn [mbind res_bind]. destruct (readLoop m pdu n specs ranges (i + 1) used') as [[[rs' u]|]|e|]; simpl; try done.
  by rewrite <- app_assoc.
Qed.

Lemma readProgram_reads pdu n specs ranges i used rs : reads_only (readProgram pdu n specs ranges i used rs).
Proof.
  revert i used rs. induction specs as [|spec specs IH]; intros i used rs; cbn [readProgram]; constructor; [done|].
  intros m. by destruct (readLoop m pdu n [spec] ranges i used) as [[[r u]|]|e|]; [|constructor..].
Qed.

Lemma reads_only_andThen {S A B} (p : prog S A) (k : A -> prog S B) :
  reads_only p -> (forall a, reads_only (k a)) -> reads_only (andThen p k).
Proof. intros Hp Hk. induction Hp; simpl; [apply Hk | by constructor]. Qed.

Lemma run_writeProgram m specs items i codes m' cs :
  writeLoop m specs items i = Ok (m', cs) -> run (writeProgram specs items i codes) m = (Ok (codes ++ cs), m').
Proof.
  revert m i codes cs. induction specs as [|spec specs IH]; intros m i codes cs; cbn [writeLoop writeProgram run].
  { intros [= <- <-]. by rewrite app_nil_r. }
  intros H. apply bind_Ok_inv in H as (item & -> & H). rewrite bind_Ok.
  apply bind_Ok_inv in H as ([m1 code] & -> & H). apply bind_Ok_inv in H as ([m2 cs2] & H & [= -> <-]).
  rewrite (IH _ _ _ _ H). by rewrite <- app_assoc.
Qed.

(** A Write Var job that reaches the lock was decoded. *)
Lemma todo_write max q pdu ref param specs items :
  todoOf max q pdu = WriteVar ref param specs items -> exists dat, ParseWriteVarRequest param dat = Ok (specs, items).
Proof.
  destruct q as [conn req|t a n start size|t a n start src|t a n init opts]; simpl; try done.
  - destruct (handleTodo max pdu req) as [c|e|] eqn:E; [intros ->|done..]. unfold handleTodo in E. revert E.
    case_if; [done|]. destruct (idx req 0); [|done..]. cbn [mbind res_bind]. case_if; [done|].
    destruct (idx req 1) as [ro|e|]; [|done..]. cbn [mbind res_bind].
    destruct (slice req 4 6 ≫= Uint16) as [ref'|e|]; [|done..]. cbn [mbind res_bind].
    destruct (slice req 6 8 ≫= Uint16) as [pl|e|]; [|done..]. cbn [mbind res_bind].
    destruct (slice req 8 10 ≫= Uint16) as [dl|e|]; [|done..]. cbn [mbind res_bind].
    case_if; [done|]. destruct (slice req S7HeaderSize (S7HeaderSize + pl)) as [param'|e|]; [|done..]. cbn [mbind res_bind].
    destruct (slice_from req (S7HeaderSize + pl)) as [dat|e|]; [|done..]. cbn [mbind res_bind].
    case_if; [by destruct (userdataNotImplemented ref' param')|]. case_if; [by destruct (notImplemented ref' param')|].
    destruct (idx param' 0) as [fn|e|]; [|done..]. cbn [mbind res_bind].
    case_if; [by destruct (setup _ _ _)|]. case_if; [by destruct (specs ← _; _) as [[]|e|]|].
    case_if; [|by destruct (notImplemented ref' param')].
    destruct (ParseWriteVarRequest param' dat) as [[specs' items']|e|] eqn:Ep; [|done..]. intros [= <- <- <- <-]. by exists dat.
  - destruct (keyOf a n); [|done..]. by case_if.
Qed.

Lemma itemwise_cuts max q pdu : cuts (criticalOf (todoOf max q pdu)) (itemwise max q pdu).
Proof.
  unfold itemwise. pose proof (todo_write max q pdu) as Hw.
  destruct (todoOf max q pdu) as [a p|p ref param specs ranges|ref param specs items|a n start size|a n start src|a n init opts]; simpl.
  - done.
  - split; [apply reads_only_andThen; [apply readProgram_reads | constructor]|]. intros m. rewrite run_andThen, run_readProgram. simpl.
    unfold readLocked. by destruct (readLoop m p (len specs) specs ranges 0 _) as [[[rs u]|]|e|].
  - destruct (Hw _ _ _ _ eq_refl) as [dat Hp]. intros m. rewrite run_andThen.
    pose proof (ParseWriteVarRequest_inv _ _ _ _ Hp) as [Hs Hl].
    destruct (writeLoop_spec m specs items [] (specs_ok _ _ _ Hs) Hl) as (m' & codes & Hloop & _). simpl app in Hloop. change (len []) with 0 in Hloop.
    unfold writeLocked. rewrite (run_writeProgram _ _ _ _ _ _ _ Hloop), Hloop. done.
  - split; [|done]. by repeat constructor.
  - done.
  - done.
Qed.
