(* ===== verification/RangeScan.v ===== *)
(** * Scanning an area for readable ranges (client/rangescan.go)

    [ProbeReadableRanges] reads at every offset of a range and puts adjacent
    probes of the same outcome together.  The request validation is the part
    of client/validation.go for it.  The pointers [Stable] and [AllZero] are
    options: nothing writes through them.  Offsets are 64-bit integers that
    wrap around. *)

From stdpp Require Import functions.
From S2P Require Import Prelude Go WireErrors Header ReadWrite Client ClientRW.

(** ** Data *)

Record RangeProbeRequest := mkRangeProbeRequest {
  rq_Area : byte;
  rq_DBNumber : Z;
  rq_Start : Z;
  rq_End : Z;
  rq_Step : Z;
  rq_ProbeSize : Z;
  rq_Retries : Z;
  rq_RetryDelay : Z;
  rq_Repeat : Z;
  rq_Interval : Z;
  rq_Parallelism : Z;
}.

Record ReadProbeObservation := mkObservation {
  ob_Offset : Z;
  ob_Request : Address;
  ob_Result : ReadResult;
  ob_Stable : option bool;
  ob_AllZero : option bool;
}.

Record ReadableSpan := mkSpan {
  sp_Start : Z;
  sp_End : Z;
  sp_Status : ReadStatus;
  sp_Stable : option bool;
  sp_AllZero : option bool;
  sp_Notes : list string;
}.

Record RangeProbeSummary := mkSummary {
  ReadableSpans : list ReadableSpan;
  EmptySpans : list ReadableSpan;
  FailedSpans : list ReadableSpan;
  InconclusiveSpans : list ReadableSpan;
}.

Record RangeProbeResult := mkRangeProbeResult {
  rp_Area : byte;
  rp_DBNumber : Z;
  rp_Spans : list ReadableSpan;
  rp_Probes : list ReadProbeObservation;
  rp_Summary : RangeProbeSummary;
}.

Definition validateRangeProbeRequest (req : RangeProbeRequest) : res unit :=
  if rq_Start req >? rq_End req then
    Err (ValidationError ("start must be <= end, got start=" +:+ dec (rq_Start req) +:+ " end=" +:+ dec (rq_End req)))
  else if (rq_Area req =b AreaDB) && (rq_DBNumber req <? 0) then
    Err (ValidationError ("DB number must be >= 0, got " +:+ dec (rq_DBNumber req)))
  else if rq_ProbeSize req <? 0 then
    Err (ValidationError ("probe size must be >= 0, got " +:+ dec (rq_ProbeSize req)))
  else if rq_Retries req <? 0 then
    Err (ValidationError ("retries must be >= 0, got " +:+ dec (rq_Retries req)))
  else if rq_Repeat req <? 0 then
    Err (ValidationError ("repeat must be >= 0, got " +:+ dec (rq_Repeat req)))
  else if rq_Parallelism req <? 0 then
    Err (ValidationError ("parallelism must be >= 0, got " +:+ dec (rq_Parallelism req)))
  else nil_error.

(** ** Consolidation *)

(** The inner loop: the probes that continue a run of [status], the end of the
    span and the probes left. *)
Fixpoint spanRun (status : ReadStatus) (step probeSize prev stop : Z) (obs : list ReadProbeObservation)
  : list ReadProbeObservation * Z * list ReadProbeObservation :=
  match obs with
  | o :: rest =>
      if bool_decide (Status (ob_Result o) = status) && (ob_Offset o =? i64 (prev + step)) then
        let '(run, stop, rest) := spanRun status step probeSize (ob_Offset o) (i64 (ob_Offset o + probeSize)) rest in
        (o :: run, stop, rest)
      else ([], stop, obs)
  | [] => ([], stop, [])
  end.

(** The merge loops: the value all probes that have one agree on, and
    whether two of them differ. *)
Fixpoint mergeFlag (get : ReadProbeObservation -> option bool) (val : option bool) (run : list ReadProbeObservation)
  : option bool * bool :=
  match run with
  | [] => (val, false)
  | o :: run =>
      match get o, val with
      | None, _ => mergeFlag get val run
      | Some b, None => mergeFlag get (Some b) run
      | Some b, Some v => if Bool.eqb v b then mergeFlag get val run else (None, true)
      end
  end.

Definition makeSpan (start stop : Z) (status : ReadStatus) (run : list ReadProbeObservation) : ReadableSpan :=
  let '(stable, differs1) := mergeFlag ob_Stable None run in
  let '(allZero, differs2) := mergeFlag ob_AllZero None run in
  mkSpan start stop status stable allZero
    ((if differs1 : bool then ["stable metadata differs across probes"] else []) ++
     (if differs2 : bool then ["allZero metadata differs across probes"] else [])).

(** The outer loop; a pass takes at least one probe, so as many passes as
    probes are enough. *)
Fixpoint spanLoop (fuel : nat) (step probeSize : Z) (obs : list ReadProbeObservation)
  (spans : list ReadableSpan) (byStatus : ReadStatus -> list ReadableSpan)
  : list ReadableSpan * (ReadStatus -> list ReadableSpan) :=
  match fuel, obs with
  | S fuel, o :: rest =>
      let status := Status (ob_Result o) in
      let start := ob_Offset o in
      let '(run, stop, rest) := spanRun status step probeSize start (i64 (start + probeSize)) rest in
      let span := makeSpan start stop status (o :: run) in
      spanLoop fuel step probeSize rest (spans ++ [span]) (<[status := byStatus status ++ [span]]> byStatus)
  | _, _ => (spans, byStatus)
  end.

Definition ConsolidateSpans (observations : list ReadProbeObservation) (step probeSize : Z)
  : list ReadableSpan * RangeProbeSummary :=
  match observations with
  | [] => ([], mkSummary [] [] [] [])
  | _ =>
      let step := if step <=? 0 then probeSize else step in
      let '(spans, byStatus) := spanLoop (length observations) step probeSize observations [] (fun _ => []) in
      (spans, mkSummary (byStatus ReadStatusSuccess) (byStatus ReadStatusEmptyRead)
         (byStatus ReadStatusRejected ++ byStatus ReadStatusTimeout ++ byStatus ReadStatusTransportErr ++
          byStatus ReadStatusProtocolErr ++ byStatus ReadStatusShortRead)
         (byStatus ReadStatusInconclusive))
  end.

(** ** Probes *)

(** Another outcome than the first: status or data differ. *)
Definition differs (a b : ReadResult) : bool :=
  negb (bool_decide (Status b = Status a)) || negb (bool_decide (ResultData b = ResultData a)).

Definition mixedResults (l : list ReadResult) : bool :=
  match l with [] => false | a :: l => existsb (differs a) l end.

Definition set_inconclusive (msg : string) (r : ReadResult) : ReadResult :=
  mkReadResult ReadStatusInconclusive (RequestedLength r) (ReturnedLength r) (ResultData r) (Warnings r)
    msg (Cause r) (ItemStatus r) (ResultReturnCode r).

Definition allZeroResult (r : ReadResult) : bool :=
  bool_decide (Status r = ReadStatusSuccess) && (len (ResultData r) >? 0) && forallb (Byte.eqb x00) (ResultData r).

(** The loop that collects the offsets of the scan; [None] when it has not come
    to its end after [fuel] passes. *)
Fixpoint offsetLoop (fuel : nat) (o stop step : Z) : option (list Z) :=
  match fuel with
  | O => None
  | S fuel => if o <? stop then cons o <$> offsetLoop fuel (i64 (o + step)) stop step else Some []
  end.

Section Scan.
Context {W : Type} `{!Transport W}.

(** The read loops of [probeOneOffset]: [n] reads, with a pause of [delay]
    before each but the first.  The failed result when the context ends.  (The
    source counts the retries up to and with [Retries], and so does not stop at
    all when that is the largest [int].) *)
Fixpoint probeReads (n : nat) (ctx : Ctx) (addr : Address) (probeSize delay : Z) (first : bool) (acc : list ReadResult)
  : M W (ReadResult + list ReadResult) :=
  match n with
  | O => mret (inr acc)
  | S n =>
      e ← ctx_Err ctx;
      match e with
      | Some err => mret (inl (newFailedReadResult probeSize (Some err)))
      | None =>
          ended ← pace ctx delay first;
          if (ended : bool) then e ← ctx_Err ctx; mret (inl (newFailedReadResult probeSize e))
          else
          r ← attempt (ReadArea ctx addr);
          let res := match r with inl err => newFailedReadResult probeSize (Some err) | inr res => res end in
          probeReads n ctx addr probeSize delay false (acc ++ [res])
      end
  end.

Definition probeOneOffset (ctx : Ctx) (req : RangeProbeRequest) (offset probeSize : Z) : M W ReadProbeObservation :=
  let addr := mkAddress (rq_Area req) (rq_DBNumber req) offset probeSize in
  let count := Z.max (rq_Repeat req) 1 in
  repeated ← probeReads (Z.to_nat count) ctx addr probeSize (rq_Interval req) true [];
  match repeated with
  | inl failed => mret (mkObservation offset addr failed None None)
  | inr repeated =>
      let zero := mkAddress x00 0 0 0 in
      match last repeated with
      | None =>
          mret (mkObservation 0 zero
            (mkReadResult ReadStatusTransportErr probeSize 0 [] [] "no reads" None "" x00) None None)
      | Some lastRead =>
          let result :=
            if (count >? 1) && (len repeated >? 1) && mixedResults repeated
            then set_inconclusive "repeat reads produced mixed results" lastRead else lastRead in
          let finish (result : ReadResult) :=
            if (count >? 1) && (len repeated >? 0)
            then mkObservation 0 zero result (Some (negb (mixedResults repeated))) (Some (forallb allZeroResult repeated))
            else mkObservation 0 zero result None None in
          if rq_Retries req >? 0 then
            attempts ← probeReads (Z.to_nat (rq_Retries req + 1)) ctx addr probeSize (rq_RetryDelay req) true [];
            match attempts with
            | inl failed => mret (mkObservation 0 zero failed None None)
            | inr attempts =>
                mret (finish (if (len attempts >? 1) && mixedResults attempts
                              then set_inconclusive "retries produced mixed results" result else result))
            end
          else mret (finish result)
      end
  end.

(** The probe loop; on the error of the context, the probes so far are
    dropped. *)
Fixpoint probeLoop (ctx : Ctx) (req : RangeProbeRequest) (probeSize : Z) (offsets : list Z)
  (observations : list ReadProbeObservation) : M W (error + list ReadProbeObservation) :=
  match offsets with
  | [] => mret (inr observations)
  | offset :: offsets =>
      e ← ctx_Err ctx;
      match e with
      | Some err => mret (inl err)
      | None =>
          obs ← probeOneOffset ctx req offset probeSize;
          let obs := mkObservation offset (mkAddress (rq_Area req) (rq_DBNumber req) offset probeSize)
                       (ob_Result obs) (ob_Stable obs) (ob_AllZero obs) in
          probeLoop ctx req probeSize offsets (observations ++ [obs])
      end
  end.

Definition scanStep (req : RangeProbeRequest) : Z :=
  let step := if rq_Step req <=? 0 then rq_ProbeSize req else rq_Step req in
  if step <=? 0 then 1 else step.

Definition scanProbeSize (req : RangeProbeRequest) : Z :=
  if rq_ProbeSize req <=? 0 then 8 else rq_ProbeSize req.

(** A pass advances by at least one: a loop that is not through after as many
    passes as the range is wide, and one more, has gone beyond the largest
    [int] and started again from the smallest. *)
Definition scanOffsets (req : RangeProbeRequest) : option (list Z) :=
  offsetLoop (Z.to_nat (rq_End req - rq_Start req + 1)) (rq_Start req) (rq_End req) (scanStep req).

(** [None]: the loop over the offsets does not come to its end. *)
Definition ProbeReadableRanges (ctx : Ctx) (req : RangeProbeRequest) : M W (option (RangeProbeResult * option error)) :=
  lift (validateRangeProbeRequest req) ;;
  let step := scanStep req in
  let probeSize := scanProbeSize req in
  match scanOffsets req with
  | None => mret None
  | Some offsets =>
      (if len offsets >? 0 then require_conn else mret tt) ;;
      r ← probeLoop ctx req probeSize offsets [];
      match r with
      | inl err => mret (Some (mkRangeProbeResult (rq_Area req) (rq_DBNumber req) [] [] (mkSummary [] [] [] []), Some err))
      | inr observations =>
          let '(spans, summary) := ConsolidateSpans observations step probeSize in
          mret (Some (mkRangeProbeResult (rq_Area req) (rq_DBNumber req) spans observations summary, None))
      end
  end.
End Scan.

(** ** Lemmas: consolidation *)

(** No sum of the loops goes beyond the largest [int] at these offsets. *)
Definition in_reach (step probeSize o : Z) : Prop := is_i64 (o + step) /\ is_i64 (o + probeSize).

(** Offsets that go on from [prev] in steps. *)
Fixpoint chain (step prev : Z) (offs : list Z) : Prop :=
  match offs with
  | [] => True
  | o :: offs => o = prev + step /\ chain step o offs
  end.

(** The last probe of a run that starts with [o]. *)
Definition last_of (o : ReadProbeObservation) (run : list ReadProbeObservation) : ReadProbeObservation :=
  default o (last run).

(** [o] would go on the run that ends with [prev]. *)
Definition continues (step : Z) (prev o : ReadProbeObservation) : Prop :=
  Status (ob_Result o) = Status (ob_Result prev) /\ ob_Offset o = ob_Offset prev + step.

(** A span stands for a run: probes of its status in steps from its start to
    its end. *)
Definition span_of (step probeSize : Z) (run : list ReadProbeObservation) (sp : ReadableSpan) : Prop :=
  exists o rest, run = o :: rest /\ sp_Start sp = ob_Offset o /\
    Forall (fun o => Status (ob_Result o) = sp_Status sp) run /\
    chain step (ob_Offset o) (ob_Offset <$> rest) /\
    sp_End sp = ob_Offset (last_of o rest) + probeSize.

(** No two neighbouring runs could have been put together. *)
Fixpoint maximal (step : Z) (runs : list (list ReadProbeObservation)) : Prop :=
  match runs with
  | (o :: run) :: (((o' :: _) :: _) as runs) => ~ continues step (last_of o run) o' /\ maximal step runs
  | _ :: runs => maximal step runs
  | [] => True
  end.

Lemma last_of_cons o o' run : last_of o (o' :: run) = last_of o' run.
Proof.
  unfold last_of. rewrite last_cons. by destruct (last run).
Qed.

Lemma spanRun_spec o step probeSize rest run stop rest' :
  Forall (in_reach step probeSize) (ob_Offset <$> o :: rest) ->
  spanRun (Status (ob_Result o)) step probeSize (ob_Offset o) (i64 (ob_Offset o + probeSize)) rest = (run, stop, rest') ->
  rest = run ++ rest' /\ Forall (fun o' => Status (ob_Result o') = Status (ob_Result o)) run /\
  chain step (ob_Offset o) (ob_Offset <$> run) /\ stop = ob_Offset (last_of o run) + probeSize /\
  match rest' with [] => True | o' :: _ => ~ continues step (last_of o run) o' end.
Proof.
  revert o run stop rest'. induction rest as [|o1 rest IH]; intros o run stop rest' Hin; cbn [spanRun];
    apply Forall_cons in Hin as [[Hi1 Hi2] Hin]; rewrite (i64_small _ Hi2).
  { intros [= <- <- <-]. done. }
  rewrite (i64_small _ Hi1).
  destruct (_ && _) eqn:Eb.
  - apply andb_prop in Eb as [Est Eoff]. b2p. destruct (spanRun _ _ _ _ _ rest) as [[run1 stop1] rest1] eqn:E. intros [= <- <- <-].
    rewrite <- Est in E. apply IH in E as (-> & HF & Hc & -> & Hm); [|done]. rewrite last_of_cons. rewrite Est in *.
    split; [done|]. split; [by constructor|]. split; [by split|]. by split.
  - intros [= <- <- <-]. split; [done|]. split; [done|]. split; [done|]. split; [done|].
    intros [H1 H2]. unfold last_of in *. simpl in *. apply andb_false_iff in Eb as [H|H]; b2p; congruence.
Qed.

Lemma makeSpan_fields start stop status run :
  sp_Start (makeSpan start stop status run) = start /\ sp_End (makeSpan start stop status run) = stop /\
  sp_Status (makeSpan start stop status run) = status.
Proof. unfold makeSpan. by destruct (mergeFlag ob_Stable None run), (mergeFlag ob_AllZero None run). Qed.

Lemma spanLoop_spec fuel step probeSize obs spans byStatus :
  (length obs <= fuel)%nat -> Forall (in_reach step probeSize) (ob_Offset <$> obs) ->
  exists runs new by', spanLoop fuel step probeSize obs spans byStatus = (spans ++ new, by') /\
    mjoin runs = obs /\ Forall2 (span_of step probeSize) runs new /\ maximal step runs /\
    forall s, by' s = byStatus s ++ filter (fun sp => sp_Status sp = s) new.
Proof.
  revert obs spans byStatus. induction fuel as [|fuel IH]; intros obs spans byStatus Hl Hin.
  { destruct obs; [|simpl in Hl; lia]. exists [], [], byStatus. simpl. rewrite app_nil_r. split; [done|].
    split; [done|]. split; [constructor|]. split; [done|]. intros s. by rewrite app_nil_r. }
  destruct obs as [|o rest]; cbn [spanLoop].
  { exists [], [], byStatus. rewrite app_nil_r. split; [done|]. split; [done|]. split; [constructor|].
    split; [done|]. intros s. by rewrite app_nil_r. }
  destruct (spanRun _ _ _ _ _ rest) as [[run stop] rest'] eqn:E.
  apply spanRun_spec in E as (-> & HF & Hc & -> & Hm); [|done]. set (sp := makeSpan _ _ _ _).
  destruct (makeSpan_fields (ob_Offset o) (ob_Offset (last_of o run) + probeSize) (Status (ob_Result o)) (o :: run))
    as (H1 & H2 & H3). fold sp in H1, H2, H3.
  destruct (IH rest' (spans ++ [sp]) (<[Status (ob_Result o) := byStatus (Status (ob_Result o)) ++ [sp]]> byStatus))
    as (runs & new & by' & -> & Hj & HF2 & Hmax & Hby).
  { simpl in Hl. rewrite length_app in Hl. lia. }
  { rewrite fmap_cons, fmap_app in Hin. by apply Forall_cons in Hin as [_ [_ Hin]%Forall_app]. }
  exists ((o :: run) :: runs), (sp :: new), by'. split; [by rewrite <- app_assoc|]. split.
  { change (mjoin ((o :: run) :: runs)) with ((o :: run) ++ mjoin runs). by rewrite Hj. }
  split; [|split].
  - constructor; [|done]. exists o, run. split; [done|]. split; [done|]. split; [|by split].
    rewrite H3. by constructor.
  - cbn [maximal]. destruct runs as [|[|o' r'] runs]; [done|done|]. split; [|done].
    rewrite <- Hj in Hm. apply Hm.
  - intros s. rewrite Hby. destruct (decide (s = Status (ob_Result o))) as [->|Hne].
    + rewrite fn_lookup_insert, filter_cons_True by done. by rewrite <- app_assoc.
    + rewrite fn_lookup_insert_ne by done. rewrite filter_cons_False; [done|]. congruence.
Qed.

(** ** Lemmas: the summary *)

Definition failed_status (s : ReadStatus) : bool :=
  match s with
  | ReadStatusRejected | ReadStatusTimeout | ReadStatusTransportErr | ReadStatusProtocolErr | ReadStatusShortRead => true
  | _ => false
  end.

(** Every span is in the list of its class, and in no other. *)
Definition summary_of (spans : list ReadableSpan) (sum : RangeProbeSummary) : Prop :=
  ReadableSpans sum = filter (fun sp => sp_Status sp = ReadStatusSuccess) spans /\
  EmptySpans sum = filter (fun sp => sp_Status sp = ReadStatusEmptyRead) spans /\
  InconclusiveSpans sum = filter (fun sp => sp_Status sp = ReadStatusInconclusive) spans /\
  FailedSpans sum ≡ₚ filter (fun sp => failed_status (sp_Status sp) = true) spans.

Lemma failed_filter spans :
  filter (fun sp => sp_Status sp = ReadStatusRejected) spans ++
  filter (fun sp => sp_Status sp = ReadStatusTimeout) spans ++
  filter (fun sp => sp_Status sp = ReadStatusTransportErr) spans ++
  filter (fun sp => sp_Status sp = ReadStatusProtocolErr) spans ++
  filter (fun sp => sp_Status sp = ReadStatusShortRead) spans
  ≡ₚ filter (fun sp => failed_status (sp_Status sp) = true) spans.
Proof.
  induction spans as [|sp spans IH]; [done|]. rewrite !filter_cons.
  destruct (sp_Status sp) eqn:E; simpl; rewrite <- IH; try done; rewrite ?app_assoc; rewrite <- Permutation_middle; by rewrite <- ?app_assoc.
Qed.

Lemma ConsolidateSpans_spec obs step probeSize :
  0 < step -> Forall (in_reach step probeSize) (ob_Offset <$> obs) ->
  exists runs, mjoin runs = obs /\ Forall2 (span_of step probeSize) runs (ConsolidateSpans obs step probeSize).1 /\
    maximal step runs /\ summary_of (ConsolidateSpans obs step probeSize).1 (ConsolidateSpans obs step probeSize).2.
Proof.
  intros Hs Hin. unfold ConsolidateSpans. destruct obs as [|o obs]; [by exists []|]. cbv zeta. if_arith.
  destruct (spanLoop_spec (length (o :: obs)) step probeSize (o :: obs) [] (fun _ => []) ltac:(done) Hin)
    as (runs & new & by' & -> & Hj & HF & Hm & Hby). simpl.
  exists runs. split; [done|]. split; [done|]. split; [done|]. split; [apply Hby|]. split; [apply Hby|].
  split; [apply Hby|]. simpl. rewrite !Hby. apply failed_filter.
Qed.

(** ** Lemmas: the probes *)

(** A range whose offsets stay within [int], probe and step included, and a
    number of retries that the loop can count to. *)
Definition range_fits (req : RangeProbeRequest) : Prop :=
  MinInt64 <= rq_Start req /\ rq_Retries req < MaxInt64 /\ rq_End req + Z.max (scanStep req) (scanProbeSize req) <= MaxInt64.

Lemma offsetLoop_spec fuel o stop step :
  0 < step -> Z.max 0 (stop - o) < Z.of_nat fuel -> MinInt64 <= o -> stop + step <= MaxInt64 ->
  offsetLoop fuel o stop step = Some ((fun k => o + k * step) <$> seqZ 0 (Z.max 0 ((stop - o + step - 1) / step))).
Proof.
  intros Hs. revert o. induction fuel as [|fuel IH]; intros o Hf Ho Hstop; cbn [offsetLoop].
  - lia.
  - case_if; b2p.
    + rewrite i64_small by (unfold is_i64; lia). rewrite IH by lia. cbn [fmap option_fmap option_map]. f_equal.
      replace (stop - o + step - 1) with (stop - (o + step) + step - 1 + 1 * step) by lia. rewrite Z.div_add by lia.
      assert (0 <= (stop - (o + step) + step - 1) / step) by (apply Z.div_pos; lia).
      rewrite !Z.max_r by lia. set (n := (stop - (o + step) + step - 1) / step) in *.
      rewrite (seqZ_cons 0 (n + 1)) by lia. rewrite fmap_cons. f_equal; [lia|].
      replace (Z.pred (n + 1)) with n by lia. replace (Z.succ 0) with (1 + 0) by lia.
      rewrite <- (fmap_add_seqZ 1 0 n), <- list_fmap_compose.
      apply list_fmap_ext. intros i k _. simpl. lia.
    + rewrite Z.max_l; [done|]. apply Z.lt_succ_r, Z.div_lt_upper_bound; lia.
Qed.

(** The offsets of the scan of a range. *)
Definition range_offsets (req : RangeProbeRequest) : list Z :=
  (fun k => rq_Start req + k * scanStep req) <$>
    seqZ 0 (Z.max 0 ((rq_End req - rq_Start req + scanStep req - 1) / scanStep req)).

Lemma scanStep_positive req : 0 < scanStep req.
Proof. unfold scanStep. repeat case_if; b2p; lia. Qed.

Lemma scanOffsets_fits req : rq_Start req <= rq_End req -> range_fits req -> scanOffsets req = Some (range_offsets req).
Proof.
  intros Hle (H1 & _ & H2). pose proof (scanStep_positive req). unfold scanOffsets. apply offsetLoop_spec; lia.
Qed.

Lemma range_offsets_reach req : range_fits req -> Forall (in_reach (scanStep req) (scanProbeSize req)) (range_offsets req).
Proof.
  intros (H1 & _ & H2). pose proof (scanStep_positive req).
  assert (0 < scanProbeSize req) by (unfold scanProbeSize; case_if; b2p; lia).
  apply Forall_forall. intros o (k & -> & Hk%elem_of_seqZ)%list_elem_of_fmap.
  assert (k * scanStep req < rq_End req - rq_Start req).
  { assert (k + 1 <= (rq_End req - rq_Start req + scanStep req - 1) / scanStep req) by lia.
    pose proof (Z.mul_div_le (rq_End req - rq_Start req + scanStep req - 1) (scanStep req) ltac:(lia)). nia. }
  unfold in_reach, is_i64. split; nia.
Qed.

(** With an end that is less than a step from the largest [int] the loop goes
    on for ever: in steps of 8 from [MaxInt - 4] it never meets [MaxInt]. *)
Lemma offsetLoop_endless fuel o : o mod 8 = 3 -> is_i64 o -> offsetLoop fuel o MaxInt64 8 = None.
Proof.
  revert o. induction fuel as [|fuel IH]; intros o Hm Ho; [done|]. cbn [offsetLoop].
  assert (Hlt : o < MaxInt64).
  { unfold is_i64 in Ho. destruct (decide (o = MaxInt64)) as [->|]; [by vm_compute in Hm | lia]. }
  case_if; b2p; [|lia]. rewrite IH; [done | | apply i64_range].
  unfold i64. rewrite Zminus_mod, Z.mod_mod_divide by (by exists (2 ^ 61)).
  replace (o + 8 + 2 ^ 63) with (o + (1 + 2 ^ 60) * 8) by lia. rewrite Z.mod_add by lia. by rewrite Hm.
Qed.

Lemma scanOffsets_endless fuel : offsetLoop fuel (MaxInt64 - 4) MaxInt64 8 = None.
Proof. by apply offsetLoop_endless; [|unfold is_i64, MaxInt64, MinInt64; lia]. Qed.

Section Probes.
Context {W : Type} `{!Transport W}.

Lemma probeLoop_spec ctx req probeSize offsets acc (st st' : Client * W) obs :
  probeLoop ctx req probeSize offsets acc st = (Ok (inr obs), st') ->
  exists new, obs = acc ++ new /\ ob_Offset <$> new = offsets /\
    Forall (fun o => ob_Request o = mkAddress (rq_Area req) (rq_DBNumber req) (ob_Offset o) probeSize) new.
Proof.
  revert acc st. induction offsets as [|o offsets IH]; intros acc st; cbn [probeLoop].
  { intros [= <- _]. exists []. by rewrite app_nil_r. }
  intros H. apply bind_run_inv in H as (e & st1 & _ & H). destruct e; [done|].
  apply bind_run_inv in H as (ob & st2 & _ & H). apply IH in H as (new & -> & Ho & HF).
  eexists (_ :: new). rewrite <- app_assoc. split; [done|]. split; [by rewrite fmap_cons, Ho|]. by constructor.
Qed.

Lemma ProbeReadableRanges_spec ctx req (st st' : Client * W) out :
  range_fits req -> ProbeReadableRanges ctx req st = (Ok (Some (out, None)), st') ->
  ob_Offset <$> rp_Probes out = range_offsets req /\
  Forall (fun o => ob_Request o = mkAddress (rq_Area req) (rq_DBNumber req) (ob_Offset o) (scanProbeSize req))
    (rp_Probes out) /\
  exists runs, mjoin runs = rp_Probes out /\
    Forall2 (span_of (scanStep req) (scanProbeSize req)) runs (rp_Spans out) /\
    maximal (scanStep req) runs /\ summary_of (rp_Spans out) (rp_Summary out).
Proof.
  intros Hfit. pose proof (scanStep_positive req) as Hstep.
  unfold ProbeReadableRanges. intros H. apply bind_run_inv in H as (u & st1 & Hv & H).
  assert (Hle : rq_Start req <= rq_End req).
  { unfold lift, validateRangeProbeRequest in Hv. case_if_in Hv; b2p; [done | lia]. }
  cbv zeta in H. rewrite (scanOffsets_fits req Hle Hfit) in H.
  apply bind_run_inv in H as (u' & st2 & _ & H). apply bind_run_inv in H as (r & st3 & Hl & H).
  destruct r as [err|obs]; [done|]. apply probeLoop_spec in Hl as (new & -> & Ho & HF). change ([] ++ new) with new in H.
  destruct (ConsolidateSpans_spec new (scanStep req) (scanProbeSize req) Hstep) as (runs & Hj & HF2 & Hm & Hsum).
  { rewrite Ho. by apply range_offsets_reach. }
  revert H HF2 Hsum. destruct (ConsolidateSpans new (scanStep req) (scanProbeSize req)) as [spans sum]. simpl.
  intros [= <- _] HF2 Hsum. simpl. by split; [|split; [done | by exists runs]].
Qed.
End Probes.
