(* ===== verification/Triple.v ===== *)
(** * A program logic for client operations

    [triple P m Q]: from every state that satisfies [P], the operation [m]
    ends in a result and a state that satisfy [Q]; a Go error and a panic are
    results like any other.  [safe I m Q] is the case used most: [m] keeps the
    invariant [I], does not panic, and a value it returns satisfies [Q].  The
    client operations are built from [mret], [lift], [get], binds and calls of
    the environment, so one rule for each of them is enough to verify them
    compositionally. *)

From S2P Require Import Prelude Go WireErrors Header Client.

(** [x, err := f()] without effects, when there is no error. *)
Lemma attempt_lift_Ok {W A} (r : res A) a (st : Client * W) :
  r = Ok a -> attempt (lift r) st = (Ok (inr a), st).
Proof. by intros ->. Qed.

Lemma attempt_Ok {W A} (m : M W A) a st st' : m st = (Ok a, st') -> attempt m st = (Ok (inr a), st').
Proof. intros H. unfold attempt. by rewrite H. Qed.

Lemma attempt_Err {W A} (m : M W A) e st st' : m st = (Err e, st') -> attempt m st = (Ok (inl e), st').
Proof. intros H. unfold attempt. by rewrite H. Qed.

Lemma lift_Ok {W A} (r : res A) a (st : Client * W) : r = Ok a -> lift r st = (Ok a, st).
Proof. by intros ->. Qed.

Section Triple.
Context {W : Type}.
Implicit Types P I : Client * W -> Prop.

Definition triple {A} P (m : M W A) (Q : res A -> Client * W -> Prop) : Prop :=
  forall st, P st -> Q (m st).1 (m st).2.

Lemma triple_conseq {A} P P' (m : M W A) (Q Q' : res A -> Client * W -> Prop) :
  triple P' m Q' -> (forall st, P st -> P' st) -> (forall r st, Q' r st -> Q r st) -> triple P m Q.
Proof. intros H HP HQ st Hst. by apply HQ, H, HP. Qed.

Lemma triple_lift {A} P (r : res A) (Q : res A -> Client * W -> Prop) :
  (forall st, P st -> Q r st) -> triple P (lift r) Q.
Proof. intros H st Hst. by apply H. Qed.

Lemma triple_bind {A B} P (m : M W A) (k : A -> M W B) R (Q : res B -> Client * W -> Prop) :
  triple P m (fun r st => match r with Ok a => R a st | Err e => Q (Err e) st | Panic => Q Panic st end) ->
  (forall a, triple (R a) (k a) Q) -> triple P (m ≫= k) Q.
Proof.
  intros Hm Hk st Hst. specialize (Hm st Hst). rewrite bind_run.
  destruct (m st) as [[a|e|] st']; simpl in *; [by apply Hk | done..].
Qed.

Lemma triple_attempt {A} P (m : M W A) (Q : res (error + A) -> Client * W -> Prop) :
  triple P m (fun r st => match r with Ok a => Q (Ok (inr a)) st | Err e => Q (Ok (inl e)) st
                                     | Panic => Q Panic st end) ->
  triple P (attempt m) Q.
Proof. intros Hm st Hst. specialize (Hm st Hst). unfold attempt. by destruct (m st) as [[]]. Qed.

(** ** The case without panics *)

Definition safe {A} I (m : M W A) (Q : A -> Prop) : Prop :=
  triple I m (fun r st => match r with Ok a => I st /\ Q a | Err _ => I st | Panic => False end).

Section Safe.
Variable I : Client * W -> Prop.

Lemma safe_run {A} (m : M W A) Q st r st' :
  safe I m Q -> I st -> m st = (r, st') -> r <> Panic /\ I st' /\ (forall a, r = Ok a -> Q a).
Proof.
  intros Hm Hst E. specialize (Hm st Hst). rewrite E in Hm. simpl in Hm.
  destruct r as [a|e|]; [|done..]. destruct Hm. split; [done|]. split; [done|]. by intros ? [= <-].
Qed.

Lemma safe_weaken {A} (m : M W A) (Q Q' : A -> Prop) :
  safe I m Q -> (forall a, Q a -> Q' a) -> safe I m Q'.
Proof.
  intros Hm HQ. eapply triple_conseq; [apply Hm | done|]. intros [a|e|] st; [|done..].
  intros [? ?]. auto.
Qed.

Lemma safe_true {A} (m : M W A) (Q : A -> Prop) : safe I m Q -> safe I m (fun _ => True).
Proof. intros H. by eapply safe_weaken. Qed.

Lemma safe_ret {A} (a : A) (Q : A -> Prop) : Q a -> safe I (mret a) Q.
Proof. intros H st Hst. by simpl. Qed.

Lemma safe_lift {A} (r : res A) (Q : A -> Prop) : no_panic r -> (forall a, r = Ok a -> Q a) -> safe I (lift r) Q.
Proof. intros Hr HQ st Hst. simpl. destruct r as [a|e|]; [|done..]. split; [done | by apply HQ]. Qed.

Lemma safe_fail {A} e (Q : A -> Prop) : safe I (fail e) Q.
Proof. apply safe_lift; [np | done]. Qed.

Lemma safe_get {A} (f : Client -> A) : safe I (get f) (fun _ => True).
Proof. by intros st Hst. Qed.

Lemma safe_bind {A B} (m : M W A) (k : A -> M W B) R Q :
  safe I m R -> (forall a, R a -> safe I (k a) Q) -> safe I (m ≫= k) Q.
Proof.
  intros Hm Hk. apply (triple_bind _ _ _ (fun a st => I st /\ R a)).
  - eapply triple_conseq; [apply Hm | done|]. by intros [a|e|] st.
  - intros a st [Hst Ha]. by apply Hk.
Qed.

Lemma safe_attempt {A} (m : M W A) Q :
  safe I m Q -> safe I (attempt m) (fun r => match r with inr a => Q a | inl _ => True end).
Proof.
  intros Hm. apply triple_attempt. eapply triple_conseq; [apply Hm | done|]. by intros [a|e|] st.
Qed.

(** Effects on the environment alone. *)
Hypothesis env_irrelevant : forall c w w', I (c, w) -> I (c, w').

Lemma safe_call {A} (f : W -> (error + A) * W) (Q : A -> Prop) :
  (forall w a w', f w = (inr a, w') -> Q a) -> safe I (call f) Q.
Proof.
  intros HQ [c w] Hst. unfold call. simpl. destruct (f w) as [[e|a] w'] eqn:E; simpl.
  - by eapply env_irrelevant.
  - split; [by eapply env_irrelevant | by eapply HQ].
Qed.

Lemma safe_observe {A} (f : W -> A * W) : safe I (observe f) (fun _ => True).
Proof.
  intros [c w] Hst. unfold observe. simpl. destruct (f w) as [a w'] eqn:E; simpl.
  split; [by eapply env_irrelevant | done].
Qed.

(** ** The case without errors *)

(** [m] returns a value that satisfies [Q]. *)
Definition total {A} (m : M W A) (Q : A -> Prop) : Prop :=
  triple I m (fun r st => match r with Ok a => I st /\ Q a | _ => False end).

Lemma total_run {A} (m : M W A) Q st : total m Q -> I st -> exists a st', m st = (Ok a, st') /\ I st' /\ Q a.
Proof.
  intros Hm Hst. specialize (Hm st Hst). destruct (m st) as [[a|e|] st']; simpl in Hm; [|done..]. by exists a, st'.
Qed.

Lemma total_ret {A} (a : A) (Q : A -> Prop) : Q a -> total (mret a) Q.
Proof. intros H st Hst. by simpl. Qed.

Lemma total_lift {A} (r : res A) a (Q : A -> Prop) : r = Ok a -> Q a -> total (lift r) Q.
Proof. intros -> H st Hst. by simpl. Qed.

Lemma total_bind {A B} (m : M W A) (k : A -> M W B) R Q :
  total m R -> (forall a, R a -> total (k a) Q) -> total (m ≫= k) Q.
Proof.
  intros Hm Hk. apply (triple_bind _ _ _ (fun a st => I st /\ R a)).
  - eapply triple_conseq; [apply Hm | done|]. by intros [a|e|] st.
  - intros a st [Hst Ha]. by apply Hk.
Qed.

(** An operation whose error is taken as a value. *)
Lemma total_attempt {A} (m : M W A) Q :
  safe I m Q -> total (attempt m) (fun r => match r with inr a => Q a | inl _ => True end).
Proof.
  intros Hm. apply triple_attempt. eapply triple_conseq; [apply Hm | done|]. by intros [a|e|] st.
Qed.
End Safe.
End Triple.

(** One structural step of a [safe] goal. *)
Ltac safe_step :=
  lazymatch goal with
  | |- safe _ (mbind _ (attempt _)) _ => eapply safe_bind; [eapply safe_attempt|intros [?|?] ?]
  | |- safe _ (mbind _ _) _ => eapply safe_bind; [|intros ? ?]
  | |- safe _ (attempt _) _ => eapply safe_attempt
  | |- safe _ (mret _) _ => apply safe_ret
  | |- safe _ (fail _) _ => apply safe_fail
  | |- safe _ (get _) _ => apply safe_get
  | |- safe _ (if ?b then _ else _) _ => let E := fresh "Eif" in destruct b eqn:E
  | |- safe _ (match ?x with pair _ _ => _ end) _ => destruct x
  | |- safe _ (match ?x with _ => _ end) _ => destruct x eqn:?
  end.
