(* ===== verification/Safety.v ===== *)
(** * No client operation panics

    Every operation of the client, over any environment that delivers no more
    bytes in one TSDU than the two 16-bit length fields of a header can
    announce together without wrapping, returns a value or an error.  The
    invariant is the range of the reference counter. *)

From S2P Require Import Prelude Go WireErrors Header ReadWrite Client ClientRW Userdata ClientSZL ClientBlocks RangeScan Triple.

Section Safety.
Context {W : Type} `{!Transport W}.

Definition counter_ok (st : Client * W) : Prop := client_pduRef_ok st.1.

(** The largest TSDU whose announced lengths cannot add up to 65536. *)
Definition maxTSDU : Z := 65545.

Definition answers_fit : Prop :=
  forall ctx conn w a w', t_ReadTSDU ctx conn w = (inr a, w') -> len a <= maxTSDU.

Hypothesis Hfit : answers_fit.
Variable ctx : Ctx.
Hypothesis Hctx : is_nil ctx = false.

Abbreviation ok m := (safe counter_ok m (fun _ => True)).

Lemma counter_ok_env (c : Client) (w w' : W) : counter_ok (c, w) -> counter_ok (c, w').
Proof. done. Qed.

Lemma ok_call {A} (f : W -> (error + A) * W) : ok (call f).
Proof. by apply safe_call. Qed.

Lemma ok_observe {A} (f : W -> A * W) : ok (observe f).
Proof. by apply safe_observe. Qed.

Lemma ok_lift {A} (r : res A) : no_panic r -> ok (lift r).
Proof. intros H. by apply safe_lift. Qed.

Lemma ok_nextPDURef : ok nextPDURef.
Proof.
  intros [c w] Hst. destruct (nextPDURef_ok c w Hst) as (ref & p & -> & _ & H). by simpl.
Qed.

Lemma ok_ctx_Err ctx' : is_nil ctx' = false -> ok (ctx_Err ctx').
Proof. intros H. unfold ctx_Err. rewrite H. apply ok_observe. Qed.

Lemma ok_check_ctx ctx' : is_nil ctx' = false -> ok (check_ctx ctx').
Proof. intros H. unfold check_ctx. safe_step; [by apply ok_ctx_Err|]. by repeat safe_step. Qed.

(** A header that announces 65536 bytes or more needs a longer TSDU. *)
Lemma sections_fit a ref : len a <= maxTSDU -> no_panic (sections a ref).
Proof.
  unfold maxTSDU. intros Ha H. apply sections_panic in H as (h & rest & Hp & _ & _ & _ & Hsum).
  apply ParseS7Header_sound in Hp as (r0 & r1 & -> & _ & _ & _ & _ & Hrest & _).
  rewrite !length_app, !length_put16 in Ha. simpl length in Ha. lia.
Qed.

Lemma ok_sendReceive ctx' req ref : is_nil ctx' = false -> ok (sendReceive ctx' req ref).
Proof.
  intros Hn [c w] Hst. unfold counter_ok in *. simpl in Hst.
  destruct (c_conn c) as [conn|] eqn:Ec; [|by unfold sendReceive; rewrite bind_run; simpl; rewrite bind_run; simpl; rewrite Ec].
  unfold sendReceive. rewrite (bind_run_Ok _ _ _ (c, w) (c_conn c)) by done.
  rewrite (bind_run_Ok _ _ _ (c, w) (c_pduSize c)) by done. rewrite Ec.
  destruct ((c_pduSize c >? 0) && (len req >? c_pduSize c)) eqn:Ep; [done|].
  destruct (t_WriteTSDU ctx' conn req w) as [[e|[]] w1] eqn:Ew.
  { rewrite bind_run. unfold WriteTSDU, call. simpl. by rewrite Ew. }
  destruct (t_ctxErr ctx' w1) as [[e|] w2] eqn:Ee.
  { rewrite (bind_run_Ok _ _ _ (c, w1) tt) by (unfold WriteTSDU, call; simpl; by rewrite Ew).
    rewrite bind_run. unfold check_ctx, ctx_Err. rewrite Hn, bind_run. unfold observe. simpl. by rewrite Ee. }
  destruct (t_ReadTSDU ctx' conn w2) as [[e|a] w3] eqn:Er.
  { rewrite (bind_run_Ok _ _ _ (c, w1) tt) by (unfold WriteTSDU, call; simpl; by rewrite Ew).
    rewrite (bind_run_Ok _ _ _ (c, w2) tt) by by apply check_ctx_ok.
    rewrite bind_run. unfold ReadTSDU, call. simpl. by rewrite Er. }
  assert (Hx : sendReceive ctx' req ref (c, w) = (sections a ref, (c, w3))).
  { apply (sendReceive_exchange _ _ _ _ _ conn); [done..|lia|]. by exists w1, w2. }
  unfold sendReceive in Hx. rewrite (bind_run_Ok _ _ _ (c, w) (c_conn c)) in Hx by done.
  rewrite (bind_run_Ok _ _ _ (c, w) (c_pduSize c)) in Hx by done. rewrite Ec, Ep in Hx.
  rewrite Hx. simpl. pose proof (sections_fit a ref ltac:(by eapply Hfit)) as Hs.
  by destruct (sections a ref).
Qed.

(** Close the leaves of a [safe] goal. *)
Ltac leaf :=
  first [ apply ok_nextPDURef | apply ok_check_ctx; assumption | apply ok_ctx_Err; assumption
        | apply ok_sendReceive; assumption | apply ok_call | apply ok_observe
        | apply ok_lift; solve [auto with go] | done ].
Ltac go_safe := repeat first [ safe_step | progress cbv beta iota zeta | leaf ].

(** ** client/szl.go *)

Lemma ok_followUps budget group subfunc up payload :
  safe counter_ok (followUps budget ctx group subfunc up payload) (fun p => len payload <= len p).
Proof.
  revert up payload. induction budget as [|budget IH]; intros up payload; cbn [followUps].
  - safe_step; [by apply safe_ret | go_safe].
  - safe_step; [by apply safe_ret|]. safe_step; [leaf|]. safe_step; [leaf|]. safe_step. safe_step; [leaf| |].
    + cbv beta iota. go_safe.
    + cbv beta iota. safe_step; [leaf|]. eapply safe_weaken; [apply IH|].
      intros p. cbv beta. rewrite length_app. lia.
Qed.

(** The payload starts with the payload of the first packet. *)
Lemma ok_userdata req ref group subfunc :
  safe counter_ok (userdata ctx req ref group subfunc)
    (fun p => exists p0, ParseUserdataData p.1 = Ok p0 /\ len p0 <= len p.2).
Proof.
  unfold userdata. safe_step; [leaf|]. safe_step. safe_step; [leaf| |]; cbv beta iota; [go_safe|].
  eapply (safe_bind _ _ _ (fun p0 => ParseUserdataData _ = Ok p0)).
  { apply safe_lift; [auto with go | done]. }
  intros p0 Hp0. safe_step; [apply ok_followUps|]. apply safe_ret. by exists p0.
Qed.

Lemma ok_readSZL id index : ok (readSZL ctx id index).
Proof.
  unfold readSZL. safe_step; [leaf|]. safe_step; [apply ok_userdata|].
  destruct a0 as [first payload]. destruct H0 as (p0 & Hp0 & Hl). simpl in Hp0, Hl.
  eapply (safe_bind _ _ _ (fun resp => ParseSZLResponse first = Ok resp)).
  { apply safe_lift; [auto with go | done]. }
  intros resp Hresp. destruct (ParseSZLResponse_payload _ _ _ Hresp Hp0) as (H4 & _).
  safe_step; [apply ok_lift; rewrite slice_from_ok by lia; np|]. by apply safe_ret.
Qed.

Lemma ok_identifyPart what read apply info errs :
  ok read -> (forall i d, no_panic (apply i d)) -> ok (identifyPart what read apply info errs).
Proof.
  intros Hr Ha. unfold identifyPart. safe_step; [apply Hr| |]; [go_safe|]. cbv beta iota.
  safe_step; [by apply ok_lift|]. go_safe.
Qed.

Lemma ok_Identify : ok (Identify ctx).
Proof.
  unfold Identify, readModuleIDSZL, readComponentIDSZL.
  do 2 (safe_step; [apply ok_identifyPart; [safe_step; [apply ok_readSZL | go_safe] | auto with go]|]; safe_step).
  go_safe.
Qed.

Lemma ok_GetCPUState : ok (GetCPUState ctx).
Proof.
  unfold GetCPUState. safe_step; [apply ok_readSZL|]. safe_step; [leaf|]. go_safe.
  apply ok_lift. np_step.
Qed.

Lemma ok_GetProtectionLevel : ok (GetProtectionLevel ctx).
Proof.
  unfold GetProtectionLevel. safe_step; [apply ok_readSZL|]. safe_step; [leaf|]. go_safe.
  apply ok_lift. np_step.
Qed.

Lemma ok_ReadDiagBufferRaw : ok (ReadDiagBufferRaw ctx).
Proof. unfold ReadDiagBufferRaw. safe_step; [apply ok_readSZL | go_safe]. Qed.

Lemma ok_ReadDiagBuffer : ok (ReadDiagBuffer ctx).
Proof. unfold ReadDiagBuffer. safe_step; [apply ok_ReadDiagBufferRaw|]. safe_step; leaf. Qed.

(** ** client/blocks.go *)

Lemma ok_userdata_true req ref group subfunc : ok (userdata ctx req ref group subfunc).
Proof. eapply safe_true, ok_userdata. Qed.

Lemma ok_ListBlocks bt : ok (ListBlocks ctx bt).
Proof. unfold ListBlocks. safe_step; [leaf|]. safe_step; [apply ok_userdata_true|]. go_safe. Qed.

Lemma ok_BlockCounts : ok (BlockCounts ctx).
Proof. unfold BlockCounts. safe_step; [leaf|]. safe_step; [apply ok_userdata_true|]. go_safe. Qed.

Lemma ok_listTypes types all errs : ok (listTypes ctx types all errs).
Proof.
  revert all errs. induction types as [|bt types IH]; intros all errs; cbn [listTypes]; [go_safe|].
  safe_step; [apply ok_ListBlocks | apply IH..].
Qed.

Lemma ok_ListAllBlocks : ok (ListAllBlocks ctx).
Proof. unfold ListAllBlocks. safe_step; [apply ok_listTypes | go_safe]. Qed.

Lemma ok_GetBlockInfo bt num : ok (GetBlockInfo ctx bt num).
Proof.
  unfold GetBlockInfo. safe_step; [go_safe|]. safe_step; [leaf|]. safe_step; [leaf|go_safe|].
  cbv beta iota. safe_step; [apply ok_userdata_true|]. go_safe.
Qed.

Lemma ok_uploadSegment retries id i received lastErr :
  (retries = O -> lastErr <> None) -> ok (uploadSegment retries ctx id i received lastErr).
Proof.
  revert lastErr. induction retries as [|retries IH]; intros lastErr Hne; cbn [uploadSegment].
  - destruct lastErr; [apply safe_fail | by destruct Hne].
  - safe_step; [leaf|]. safe_step; [leaf|]. safe_step; [leaf| |]; cbv beta iota.
    + safe_step; [apply safe_fail | by apply IH].
    + safe_step. safe_step; [leaf| |]; cbv beta iota zeta; [|by apply safe_ret].
      safe_step; [apply safe_fail | by apply IH].
Qed.

Lemma ok_uploadLoop chunks id i payload count : ok (uploadLoop chunks ctx id i payload count).
Proof.
  revert i payload count. induction chunks as [|chunks IH]; intros i payload count; cbn [uploadLoop]; [go_safe|].
  safe_step; [by apply ok_uploadSegment|]. destruct (len (uc_Data a) >? 0); (safe_step; [by apply safe_ret | apply IH]).
Qed.

Lemma ok_with_defer {A B} (m : M W A) (d : M W B) : ok m -> ok d -> ok (with_defer m d).
Proof.
  intros Hm Hd st Hst. specialize (Hm st Hst). unfold with_defer.
  destruct (m st) as [r st1]. simpl in Hm. assert (H1 : counter_ok st1) by by destruct r as [?| |]; destruct Hm.
  specialize (Hd st1 H1). destruct (d st1) as [[b|e|] st2]; simpl in *; [|by destruct r|done].
  destruct r; [split; [by destruct Hd|done] | by destruct Hd | done].
Qed.

Lemma ok_endUpload id : ok (endUpload id).
Proof. unfold endUpload. cbv zeta. safe_step; [leaf|]. by apply ok_sendReceive. Qed.

Lemma ok_UploadBlock bt num : ok (UploadBlock ctx bt num).
Proof.
  unfold UploadBlock. safe_step; [go_safe|]. safe_step; [leaf|]. safe_step; [leaf|go_safe|]. cbv beta iota.
  safe_step; [leaf|]. safe_step. safe_step; [leaf|go_safe|]. cbv beta iota. apply ok_with_defer.
  - unfold uploadBody. safe_step; [apply ok_uploadLoop|]. go_safe.
  - apply ok_endUpload.
Qed.

(** ** client/readwrite.go, client/bit.go *)

Lemma no_panic_EncodeReadVarRequest ref addrs : no_panic (EncodeReadVarRequest ref addrs).
Proof. unfold EncodeReadVarRequest. cbv zeta. repeat np_step. Qed.
Lemma no_panic_EncodeReadVarBitRequest ref addr : no_panic (EncodeReadVarBitRequest ref addr).
Proof. unfold EncodeReadVarBitRequest. cbv zeta. repeat np_step. Qed.
Lemma no_panic_EncodeWriteVarRequest ref addr v : no_panic (EncodeWriteVarRequest ref addr v).
Proof. unfold EncodeWriteVarRequest. cbv zeta. repeat np_step. Qed.
Lemma no_panic_EncodeWriteVarBitRequest ref addr v : no_panic (EncodeWriteVarBitRequest ref addr v).
Proof. unfold EncodeWriteVarBitRequest. cbv zeta. repeat np_step. Qed.
Lemma no_panic_DecodeAsBit item : no_panic (DecodeAsBit item).
Proof. unfold DecodeAsBit. repeat np_step. Qed.
Lemma no_panic_validateAddress addr : no_panic (validateAddress addr).
Proof. unfold validateAddress. repeat np_step. Qed.
Lemma no_panic_validateRangeEnd a b : no_panic (validateRangeEnd a b).
Proof. unfold validateRangeEnd. repeat np_step. Qed.
Lemma no_panic_as_validation r : no_panic r -> no_panic (as_validation r).
Proof. by destruct r. Qed.
Lemma no_panic_validateBitAddress addr : no_panic (validateBitAddress addr).
Proof.
  unfold validateBitAddress. do 3 (np_step; [np|]).
  apply no_panic_bind; [|intros ? _]; apply no_panic_as_validation;
    unfold ValidateS7AnyBitAddress, ValidateArea; repeat np_step.
Qed.
Lemma no_panic_ReturnCodeError code : no_panic (ReturnCodeError code).
Proof. unfold ReturnCodeError. repeat np_step. Qed.
#[local] Hint Resolve no_panic_EncodeReadVarRequest no_panic_EncodeReadVarBitRequest no_panic_EncodeWriteVarRequest
  no_panic_EncodeWriteVarBitRequest no_panic_DecodeAsBit no_panic_validateAddress no_panic_validateRangeEnd
  no_panic_validateBitAddress no_panic_ReturnCodeError : go.

Lemma ok_pace rate first : ok (pace ctx rate first).
Proof. unfold pace. rewrite Hctx. safe_step; [leaf | by apply safe_ret]. Qed.

Lemma ok_readChunks addr reqLen rate chunks offset result first :
  ok (readChunks ctx addr reqLen rate chunks offset result first).
Proof.
  revert offset result first. induction chunks as [|n chunks IH]; intros offset result first;
    cbn [readChunks]; [go_safe|].
  safe_step; [leaf|]. safe_step; [go_safe|]. safe_step; [apply ok_pace|]. safe_step; [safe_step; [leaf|go_safe]|].
  cbv zeta. safe_step; [leaf|]. safe_step; [leaf|go_safe|]. cbv beta iota.
  safe_step; [leaf|go_safe|]. cbv beta iota. safe_step. safe_step; [leaf|go_safe|]. cbv beta iota.
  safe_step; [go_safe|]. pose proof (no_panic_ReturnCodeError (ReturnCode r)).
  safe_step; [|go_safe|done]. safe_step; [go_safe | apply IH].
Qed.

Lemma ok_ReadArea addr : ok (ReadArea ctx addr).
Proof.
  unfold ReadArea. safe_step; [leaf|]. safe_step; [leaf|]. cbv zeta. safe_step; [safe_step|]. safe_step; [safe_step|].
  apply ok_readChunks.
Qed.

Lemma ok_writeChunks addr dat rate chunks offset first :
  0 <= offset -> Forall (fun n => 1 <= n) chunks -> offset + sumZ chunks = len dat ->
  ok (writeChunks ctx addr dat rate chunks offset first).
Proof.
  revert offset first. induction chunks as [|n chunks IH]; intros offset first Hoff HF Hsum;
    cbn [writeChunks]; [go_safe|].
  apply Forall_cons in HF as [Hn HF]. pose proof (sumZ_nonneg _ HF). simpl in Hsum.
  safe_step; [leaf|]. safe_step; [apply ok_pace|]. safe_step; [leaf|].
  safe_step; [apply ok_lift, no_panic_slice; lia|]. cbv zeta. safe_step; [leaf|].
  safe_step; [leaf|go_safe|]. cbv beta iota. safe_step; [leaf|]. safe_step. safe_step; [leaf|].
  apply IH; [lia | done | lia].
Qed.

Lemma ok_WriteArea addr dat : ok (WriteArea ctx addr dat).
Proof.
  unfold WriteArea. do 3 (safe_step; [leaf|]). cbv zeta. do 2 (safe_step; [safe_step|]).
  set (n := if _ <? 1 then _ else _). destruct (planReadChunks_spec (len dat) n) as (HF & Hs & _).
  apply ok_writeChunks; [lia | | lia]. eapply Forall_impl; [apply HF|]. simpl. lia.
Qed.

Lemma ok_require_conn : ok require_conn.
Proof. unfold require_conn. safe_step; [safe_step|]. go_safe. Qed.

Lemma ok_ReadBit addr : ok (ReadBit ctx addr).
Proof.
  unfold ReadBit. safe_step; [leaf|]. safe_step; [apply ok_require_conn|]. do 2 (safe_step; [leaf|]).
  safe_step; [leaf|go_safe|]. cbv beta iota. safe_step; [leaf|]. safe_step. safe_step; [leaf|go_safe|]. cbv beta iota.
  safe_step; [go_safe|]. safe_step; [apply ok_lift, no_panic_idx; b2p; lia|].
  safe_step; [leaf|]. safe_step; [leaf|go_safe..].
Qed.

Lemma ok_WriteBit addr v : ok (WriteBit ctx addr v).
Proof.
  unfold WriteBit. safe_step; [leaf|]. safe_step; [apply ok_require_conn|]. do 2 (safe_step; [leaf|]).
  safe_step; [leaf|go_safe|]. cbv beta iota. safe_step; [leaf|]. go_safe.
Qed.

(** ** client/rangescan.go *)

Lemma ok_probeReads n addr probeSize delay first acc : ok (probeReads n ctx addr probeSize delay first acc).
Proof.
  revert first acc. induction n as [|n IH]; intros first acc; cbn [probeReads]; [go_safe|].
  safe_step; [leaf|]. safe_step; [go_safe|]. safe_step; [apply ok_pace|].
  safe_step; [safe_step; [leaf|go_safe]|].
  eapply safe_bind; [apply safe_attempt, ok_ReadArea|]. intros r _. cbv zeta. apply IH.
Qed.

Lemma ok_probeOneOffset req offset probeSize : ok (probeOneOffset ctx req offset probeSize).
Proof.
  unfold probeOneOffset. cbv zeta. safe_step; [apply ok_probeReads|]. safe_step; [go_safe|].
  safe_step; [|go_safe]. safe_step; [|go_safe]. safe_step; [apply ok_probeReads|]. go_safe.
Qed.

Lemma ok_probeLoop req probeSize offsets acc : ok (probeLoop ctx req probeSize offsets acc).
Proof.
  revert acc. induction offsets as [|o offsets IH]; intros acc; cbn [probeLoop]; [go_safe|].
  safe_step; [leaf|]. safe_step; [go_safe|]. safe_step; [apply ok_probeOneOffset|]. cbv zeta. apply IH.
Qed.

Lemma no_panic_validateRangeProbeRequest req : no_panic (validateRangeProbeRequest req).
Proof. unfold validateRangeProbeRequest. repeat np_step. Qed.

Lemma ok_ProbeReadableRanges req : ok (ProbeReadableRanges ctx req).
Proof.
  unfold ProbeReadableRanges. safe_step; [apply ok_lift, no_panic_validateRangeProbeRequest|]. cbv zeta.
  destruct (scanOffsets req) as [offsets|]; [|go_safe].
  eapply (safe_bind _ _ _ (fun _ => True)); [safe_step; [apply ok_require_conn | go_safe]|]. intros _ _.
  safe_step; [apply ok_probeLoop|]. go_safe.
Qed.

(** ** client/client.go *)

Lemma ok_closeCOTP conn : ok (closeCOTP conn).
Proof. unfold closeCOTP. safe_step; [|go_safe]. safe_step; [leaf|]. go_safe. Qed.

Lemma ok_modify f : (forall c, client_pduRef_ok c -> client_pduRef_ok (f c)) -> ok (modify f).
Proof. intros Hf [c w] Hst. split; [by apply Hf | done]. Qed.

Lemma ok_Close : ok Close.
Proof.
  unfold Close, closeConnLocked. safe_step; [safe_step|]. safe_step; [|go_safe].
  eapply safe_bind; [apply safe_attempt, ok_closeCOTP|]. intros r _.
  safe_step; [by apply ok_modify|]. go_safe.
Qed.

Lemma no_panic_ValidateRackSlot r sl : no_panic (ValidateRackSlot r sl).
Proof. unfold ValidateRackSlot. repeat np_step. Qed.
Lemma no_panic_BuildTSAP t r sl : no_panic (BuildTSAP t r sl).
Proof. unfold BuildTSAP. repeat first [ apply no_panic_ValidateRackSlot | progress cbv zeta | np_step ]. Qed.
Lemma no_panic_EncodeSetupCommRequest a b c d : no_panic (EncodeSetupCommRequest a b c d).
Proof. unfold EncodeSetupCommRequest. cbv zeta. repeat np_step. Qed.
Lemma no_panic_NewS7ErrorWithParam c k p : no_panic (NewS7ErrorWithParam c k p).
Proof. destruct (NewS7ErrorWithParam_ok c k p) as [msg ->]. np. Qed.
#[local] Hint Resolve no_panic_ValidateRackSlot no_panic_BuildTSAP no_panic_EncodeSetupCommRequest
  no_panic_NewS7ErrorWithParam : go.

Lemma ok_performS7Setup ctx' conn ref a b size :
  is_nil ctx' = false -> ok (performS7Setup ctx' conn ref a b size).
Proof.
  intros Hn. unfold performS7Setup. safe_step; [leaf|].
  safe_step; [leaf|go_safe|]. cbv beta iota. do 2 (safe_step; [leaf|]). safe_step; [leaf|go_safe|]. cbv beta iota.
  safe_step. safe_step; [go_safe|]. safe_step; [safe_step; [leaf|go_safe]|].
  safe_step.
  { apply ok_lift. np_step; [|np]. np_step; [np_step|np]. }
  eapply (safe_bind _ _ _ (fun _ => True)); [go_safe|]. intros _ _. safe_step; [leaf|go_safe..].
Qed.

Lemma ok_dialCOTP address timeout l r : ok (dialCOTP ctx address timeout l r).
Proof.
  unfold dialCOTP, dialTCP, connectCOTP. eapply (safe_bind _ _ _ (fun _ => True)); [|intros ? _; leaf].
  cbv zeta. safe_step; [leaf|go_safe..].
Qed.

Lemma ok_connectOnce rack slot : ok (connectOnce ctx rack slot).
Proof.
  unfold connectOnce. safe_step; [safe_step|]. cbv zeta. safe_step.
  { apply ok_lift. np_step; [np|]. repeat (np_step; [auto with go|]). np. }
  { go_safe. }
  cbv beta iota. safe_step. safe_step; [apply ok_dialCOTP|].
  eapply (safe_bind _ _ _ (fun c => is_nil c = false)).
  { unfold withOptionalTimeout. rewrite Hctx. apply safe_lift; [repeat np_step|].
    intros c. case_if; by intros [= <-]. }
  intros sctx Hs. safe_step; [by apply ok_performS7Setup| |]; cbv beta iota.
  - eapply safe_bind; [apply safe_attempt, ok_closeCOTP|]. intros ? _. go_safe.
  - safe_step; [safe_step|]. safe_step; [by apply ok_modify|].
    eapply safe_bind; [apply safe_attempt, ok_closeCOTP|]. intros ? _. go_safe.
Qed.

Lemma ok_tryPairs pairs failed : ok (tryPairs ctx pairs failed).
Proof.
  induction pairs as [|[rack slot] pairs IH]; cbn [tryPairs]; [go_safe|].
  safe_step; [leaf|]. safe_step; [apply ok_connectOnce | apply IH | go_safe].
Qed.

Lemma ok_Connect : ok (Connect ctx).
Proof.
  unfold Connect. safe_step; [safe_step|]. do 3 (safe_step; [go_safe|]).
  eapply (safe_bind _ _ _ (fun _ => True)).
  { safe_step; [|go_safe]. safe_step; [go_safe|]. safe_step; [leaf|go_safe..]. }
  intros _ _. safe_step; [|apply ok_connectOnce].
  unfold autoConnect. safe_step; [safe_step|]. safe_step; apply ok_tryPairs.
Qed.

End Safety.

(** ** Sequences of operations *)

Inductive operation :=
  | OpConnect | OpClose
  | OpReadArea (addr : Address) | OpWriteArea (addr : Address) (data : bytes)
  | OpReadBit (addr : BitAddress) | OpWriteBit (addr : BitAddress) (value : bool)
  | OpIdentify | OpGetCPUState | OpGetProtectionLevel | OpReadDiagBuffer
  | OpListBlocks (bt : BlockType) | OpBlockCounts | OpListAllBlocks
  | OpGetBlockInfo (bt : BlockType) (num : Z) | OpUploadBlock (bt : BlockType) (num : Z)
  | OpProbeReadableRanges (req : RangeProbeRequest).

Section Sequences.
Context {W : Type} `{!Transport W}.

Definition run_op (ctx : Ctx) (op : operation) : M W unit :=
  match op with
  | OpConnect => Connect ctx
  | OpClose => Close
  | OpReadArea addr => ReadArea ctx addr ;; mret tt
  | OpWriteArea addr data => WriteArea ctx addr data
  | OpReadBit addr => ReadBit ctx addr ;; mret tt
  | OpWriteBit addr value => WriteBit ctx addr value
  | OpIdentify => Identify ctx ;; mret tt
  | OpGetCPUState => GetCPUState ctx ;; mret tt
  | OpGetProtectionLevel => GetProtectionLevel ctx ;; mret tt
  | OpReadDiagBuffer => ReadDiagBuffer ctx ;; mret tt
  | OpListBlocks bt => ListBlocks ctx bt ;; mret tt
  | OpBlockCounts => BlockCounts ctx ;; mret tt
  | OpListAllBlocks => ListAllBlocks ctx ;; mret tt
  | OpGetBlockInfo bt num => GetBlockInfo ctx bt num ;; mret tt
  | OpUploadBlock bt num => UploadBlock ctx bt num ;; mret tt
  | OpProbeReadableRanges req => ProbeReadableRanges ctx req ;; mret tt
  end.

(** The caller goes on after an error; the errors in order. *)
Fixpoint run_ops (ops : list (Ctx * operation)) : M W (list (option error)) :=
  match ops with
  | [] => mret []
  | (ctx, op) :: ops =>
      r ← attempt (run_op ctx op);
      rest ← run_ops ops;
      mret (match r with inl e => Some e | inr _ => None end :: rest)
  end.

Lemma ok_run_op ctx op :
  answers_fit (W := W) -> is_nil ctx = false -> safe counter_ok (run_op ctx op) (fun _ => True).
Proof.
  intros Hf Hn.
  destruct op; cbn [run_op]; first [by apply ok_Connect | by apply ok_Close | by apply ok_WriteArea | by apply ok_WriteBit | idtac];
    (safe_step; [|by apply safe_ret]).
  - by apply ok_ReadArea.
  - by apply ok_ReadBit.
  - by apply ok_Identify.
  - by apply ok_GetCPUState.
  - by apply ok_GetProtectionLevel.
  - by apply ok_ReadDiagBuffer.
  - by apply ok_ListBlocks.
  - by apply ok_BlockCounts.
  - by apply ok_ListAllBlocks.
  - by apply ok_GetBlockInfo.
  - by apply ok_UploadBlock.
  - by apply ok_ProbeReadableRanges.
Qed.

Lemma ok_run_ops ops :
  answers_fit (W := W) -> Forall (fun p => is_nil p.1 = false) ops ->
  safe counter_ok (run_ops ops) (fun l => length l = length ops).
Proof.
  intros Hf. induction ops as [|[ctx op] ops IH]; intros HF; cbn [run_ops]; [by apply safe_ret|].
  apply Forall_cons in HF as [Hn HF]. eapply safe_bind; [apply safe_attempt; by apply ok_run_op|].
  intros r _. safe_step; [by apply IH|]. apply safe_ret. simpl. congruence.
Qed.

Lemma run_ops_no_Err ops (st : Client * W) e st' : run_ops ops st <> (Err e, st').
Proof.
  revert st e st'. induction ops as [|[ctx op] ops IH]; intros st e st'; cbn [run_ops]; [done|].
  rewrite bind_run. unfold attempt. destruct (run_op ctx op st) as [[a|e'|] st1]; [..|done];
    rewrite bind_run; destruct (run_ops ops st1) as [[l|e2|] st2] eqn:E; try done; by apply IH in E.
Qed.
End Sequences.
