(* ===== verification/Trace.v ===== *)
(** * The requests an operation hands to the transport

    [Traced W] is the environment [W] with a log of the requests written to
    it.  [emits conn size m L]: in a session with the connection [conn] and
    the PDU size [size], [m] keeps the session and appends to the log a list
    that satisfies [L] together with the result.  It holds for every
    environment [W], so a bound or an order proved with it holds whatever the
    network answers. *)

From S2P Require Import Prelude Go WireErrors Header Client Userdata ClientSZL ClientBlocks Triple.

Record Traced (W : Type) := mkTraced { tr_env : W; tr_log : list bytes }.
Arguments mkTraced {W} _ _.
Arguments tr_env {W} _.
Arguments tr_log {W} _.

(** An outside call that writes no request. *)
Definition unlogged {W A} (f : W -> A * W) (w : Traced W) : A * Traced W :=
  let '(a, e) := f (tr_env w) in (a, mkTraced e (tr_log w)).

#[export] Instance traced_transport {W} `{!Transport W} : Transport (Traced W) := {|
  t_dial ctx timeout addr := unlogged (t_dial ctx timeout addr);
  t_cotpConnect ctx raw l r n := unlogged (t_cotpConnect ctx raw l r n);
  t_WriteTSDU ctx conn req w :=
    let '(a, e) := t_WriteTSDU ctx conn req (tr_env w) in (a, mkTraced e (tr_log w ++ [req]));
  t_ReadTSDU ctx conn := unlogged (t_ReadTSDU ctx conn);
  t_Close conn := unlogged (t_Close conn);
  t_ctxErr ctx := unlogged (t_ctxErr ctx);
  t_wait ctx d := unlogged (t_wait ctx d);
  t_duration := t_duration (W := W);
|}.

Section Emits.
Context {W : Type} `{!Transport W}.
Variable conn : option Conn.
Variable size : Z.

Definition in_session (log : list bytes) (st : Client * Traced W) : Prop :=
  c_conn st.1 = conn /\ c_pduSize st.1 = size /\ tr_log st.2 = log.

Definition emits {A} (m : M (Traced W) A) (L : res A -> list bytes -> Prop) : Prop :=
  forall log, triple (in_session log) m (fun r st => exists new, in_session (log ++ new) st /\ L r new).

Lemma emits_run {A} (m : M (Traced W) A) L c w :
  emits m L -> c_conn c = conn -> c_pduSize c = size ->
  exists new, tr_log (m (c, w)).2.2 = tr_log w ++ new /\ L (m (c, w)).1 new.
Proof.
  intros H Hc Hs. destruct (H (tr_log w) (c, w)) as (new & (_ & _ & Hl) & HL); [done|]. by exists new.
Qed.

Lemma emits_weaken {A} (m : M (Traced W) A) (L L' : res A -> list bytes -> Prop) :
  emits m L -> (forall r n, L r n -> L' r n) -> emits m L'.
Proof.
  intros H HL log. eapply triple_conseq; [apply H | done|]. intros r st (n & ? & ?). exists n. auto.
Qed.

Lemma emits_lift {A} (r : res A) (L : res A -> list bytes -> Prop) : L r [] -> emits (lift r) L.
Proof. intros H log st Hst. exists []. by rewrite app_nil_r. Qed.

Lemma emits_ret {A} (a : A) (L : res A -> list bytes -> Prop) : L (Ok a) [] -> emits (mret a) L.
Proof. apply emits_lift. Qed.

Lemma emits_fail {A} e (L : res A -> list bytes -> Prop) : L (Err e) [] -> emits (fail e) L.
Proof. apply emits_lift. Qed.

Lemma emits_bind {A B} (m : M (Traced W) A) (k : A -> M (Traced W) B) L1 L :
  emits m L1 ->
  (forall a n1, L1 (Ok a) n1 -> emits (k a) (fun r n2 => L r (n1 ++ n2))) ->
  (forall e n, L1 (Err e) n -> L (Err e) n) -> (forall n, L1 Panic n -> L Panic n) ->
  emits (m ≫= k) L.
Proof.
  intros Hm Hk He Hp log st Hst. specialize (Hm log st Hst). rewrite bind_run.
  destruct (m st) as [[a|e|] st1]; simpl in Hm; destruct Hm as (n1 & Hs1 & HL1).
  - destruct (Hk a n1 HL1 _ st1 Hs1) as (n2 & Hs2 & HL2). exists (n1 ++ n2). rewrite app_assoc. by split.
  - exists n1. simpl. auto.
  - exists n1. simpl. auto.
Qed.

Lemma emits_attempt {A} (m : M (Traced W) A) L :
  emits m L ->
  emits (attempt m) (fun r n => match r with Ok (inr a) => L (Ok a) n | Ok (inl e) => L (Err e) n
                                           | Err _ => False | Panic => L Panic n end).
Proof. intros Hm log st Hst. specialize (Hm log st Hst). unfold attempt. by destruct (m st) as [[]]. Qed.

(** ** Operations that write nothing *)

Definition silent {A} (m : M (Traced W) A) : Prop := emits m (fun _ n => n = []).

Lemma silent_lift {A} (r : res A) : silent (lift r).
Proof. by apply emits_lift. Qed.

Lemma emits_nextPDURef : emits nextPDURef (fun r n => n = [] /\ forall e, r <> Err e).
Proof.
  intros log [c w] Hst. exists []. rewrite app_nil_r. unfold nextPDURef. cbn [fst snd].
  destruct (pduRefLoop 2 (c_pduRef c)) as [[ref p]|]; by split.
Qed.

Lemma silent_nextPDURef : silent nextPDURef.
Proof. eapply emits_weaken; [apply emits_nextPDURef|]. by intros r n [-> _]. Qed.

Lemma silent_observe_ctxErr ctx : silent (observe (t_ctxErr ctx)).
Proof.
  intros log [c w] Hst. exists []. rewrite app_nil_r. unfold observe. simpl. unfold unlogged.
  destruct (t_ctxErr ctx (tr_env w)); by split.
Qed.

Lemma emits_silent_bind {A B} (m : M (Traced W) A) (k : A -> M (Traced W) B) (L : res B -> list bytes -> Prop) :
  silent m -> (forall a, emits (k a) L) -> (forall e, L (Err e) []) -> L Panic [] -> emits (m ≫= k) L.
Proof.
  intros Hm Hk He Hp. eapply emits_bind; [apply Hm | | |]; simpl.
  - intros a n ->. apply Hk.
  - by intros e n ->.
  - by intros n ->.
Qed.

Lemma silent_check_ctx ctx : silent (check_ctx ctx).
Proof.
  unfold check_ctx, ctx_Err. apply emits_silent_bind; [|intros [e|]; by apply emits_lift|done..].
  case_if; [apply silent_lift | apply silent_observe_ctxErr].
Qed.

(** ** One exchange: the request is written exactly when there is a
    connection and it fits the PDU. *)
Definition sendable (req : bytes) : bool :=
  match conn with
  | None => false
  | Some _ => negb ((size >? 0) && (len req >? size))
  end.

Definition writes {A} (req : bytes) (r : res A) (n : list bytes) : Prop :=
  if sendable req then n = [req] else n = [] /\ exists e, r = Err e.

Lemma emits_sendReceive ctx req ref : emits (sendReceive ctx req ref) (writes req).
Proof.
  intros log [c w] Hst. pose proof Hst as (Hc & Hs & Hl). simpl in Hc, Hs, Hl. unfold sendReceive.
  rewrite (bind_run_Ok _ _ _ (c, w) (c_conn c)) by done.
  rewrite (bind_run_Ok _ _ _ (c, w) (c_pduSize c)) by done. rewrite Hc, Hs. unfold writes, sendable.
  destruct conn as [k|] eqn:Ek.
  2: { exists []. rewrite app_nil_r. simpl. split; [done|]. split; [done|]. by eexists. }
  destruct ((size >? 0) && (len req >? size)) eqn:Ef; simpl negb; cbv iota.
  { exists []. rewrite app_nil_r. simpl. split; [done|]. split; [done|]. by eexists. }
  exists [req]. cbv beta.
  rewrite bind_run. unfold WriteTSDU, call. simpl. destruct (t_WriteTSDU ctx k req (tr_env w)) as [[e|[]] w1].
  { split; [|done]. split; [by rewrite Ek|]. split; [done|]. simpl. by rewrite Hl. }
  assert (Hq : in_session (log ++ [req]) (c, mkTraced w1 (tr_log w ++ [req])))
    by (split; [by rewrite Ek|]; split; [done|]; simpl; by rewrite Hl).
  set (st1 := (c, mkTraced w1 (tr_log w ++ [req]))) in *. split; [|done].
  match goal with |- in_session _ (?m st1).2 => assert (Hm : silent m) end; [|].
  - apply emits_silent_bind; [apply silent_check_ctx| |done..]. intros _.
    apply emits_silent_bind; [| |done..].
    { intros log' [c' w'] Hst'. exists []. rewrite app_nil_r. unfold ReadTSDU, call. simpl. unfold unlogged.
      by destruct (t_ReadTSDU ctx k (tr_env w')) as [[]]. }
    intros a. apply emits_silent_bind; [|intros [e|[h rest]]|done..].
    { eapply emits_weaken; [apply emits_attempt, silent_lift|]. by intros [[]| |] n. }
    + by apply emits_lift.
    + repeat (match goal with |- emits (if ?b then _ else _) _ => destruct b end;
              [first [by apply emits_lift | idtac]|]).
      * apply emits_silent_bind; [apply silent_lift| |done..]. intros p.
        apply emits_silent_bind; [apply silent_lift| |done..]. intros e. by apply emits_lift.
      * apply emits_silent_bind; [apply silent_lift| |done..]. intros p.
        apply emits_silent_bind; [apply silent_lift| |done..]. intros d. by apply emits_lift.
  - destruct (Hm _ st1 Hq) as (n & Hin & ->). by rewrite app_nil_r in Hin.
Qed.
(** ** The user data exchange *)

Definition follow_ups (group subfunc : byte) (n : list bytes) : Prop :=
  Forall (fun q => exists ref seq, q = EncodeUserdataFollowUp ref group subfunc seq) n.

Lemma emits_followUps budget ctx group subfunc up payload :
  emits (followUps budget ctx group subfunc up payload)
    (fun _ n => (length n <= budget)%nat /\ follow_ups group subfunc n).
Proof.
  assert (H0 : forall b, (length (@nil bytes) <= b)%nat /\ follow_ups group subfunc []).
  { intros b. split; [simpl; lia | constructor]. }
  revert up payload. induction budget as [|budget IH]; intros up payload; cbn [followUps].
  { case_if; [by apply emits_ret | by apply emits_fail]. }
  case_if; [by apply emits_ret|]. apply emits_silent_bind; [apply silent_nextPDURef| |done..]. intros ref.
  assert (Hone : forall A (r : res A) n,
    writes (EncodeUserdataFollowUp ref group subfunc (ud_Sequence up)) r n ->
    (length n <= 1)%nat /\ follow_ups group subfunc n).
  { intros A r n. unfold writes. case_if; [intros ->|intros [-> _]; split; [simpl; lia | constructor]].
    split; [done|]. apply Forall_singleton. by eexists _, _. }
  eapply emits_bind; [apply emits_sendReceive| | |].
  2, 3: intros; match goal with H : writes _ _ _ |- _ => apply Hone in H as [? ?] end; split; [lia | done].
  intros [param data] n1 Hn1. apply Hone in Hn1 as [Hl1 HF1].
  apply emits_silent_bind.
  { eapply emits_weaken; [apply emits_attempt, silent_lift|]. by intros [[]| |] n. }
  2: { intros e. rewrite app_nil_r. split; [lia | done]. }
  2: { rewrite app_nil_r. split; [lia | done]. }
  intros [err|up']; [apply emits_fail; rewrite app_nil_r; split; [lia | done]|].
  apply emits_silent_bind; [apply silent_lift| |intros|]; [|rewrite app_nil_r; split; [lia|done]..].
  intros more. eapply emits_weaken; [apply IH|]. intros r n [Hl HF]. rewrite length_app.
  split; [lia|]. by apply Forall_app.
Qed.

Lemma emits_userdata ctx req ref group subfunc :
  emits (userdata ctx req ref group subfunc)
    (fun _ n => n = [] \/ exists fs, n = req :: fs /\ (length fs <= 256)%nat /\ follow_ups group subfunc fs).
Proof.
  unfold userdata. assert (Hone : forall A (r : res A) n, writes req r n ->
    n = [] \/ exists fs, n = req :: fs /\ (length fs <= 256)%nat /\ follow_ups group subfunc fs).
  { intros A r n. unfold writes. case_if; [intros ->|intros [-> _]; by left].
    right. exists []. split; [done|]. split; [simpl; lia | constructor]. }
  eapply emits_bind; [apply emits_sendReceive| |intros; by eapply Hone..].
  intros [param data] n1 Hn1. apply emits_silent_bind.
  { eapply emits_weaken; [apply emits_attempt, silent_lift|]. by intros [[]| |] n. }
  2, 3: intros; rewrite app_nil_r; by eapply Hone.
  intros [err|up]; [apply emits_fail; rewrite app_nil_r; by eapply Hone|].
  apply emits_silent_bind; [apply silent_lift| |intros; rewrite app_nil_r; by eapply Hone..].
  intros payload. unfold writes in Hn1. destruct (sendable req); [|by destruct Hn1 as [_ [? ?]]]. subst n1.
  change (Z.to_nat maxUserdataFollowUps) with 256%nat.
  eapply emits_bind; [apply emits_followUps|..]; cbv beta.
  - intros p n2 [Hl HF]. apply emits_ret. rewrite app_nil_r. right. exists n2. split; [done|]. split; [lia | done].
  - intros e n2 [Hl HF]. right. exists n2. split; [done|]. split; [lia | done].
  - intros n2 [Hl HF]. right. exists n2. split; [done|]. split; [lia | done].
Qed.

(** ** The block upload *)

Definition upload_requests (id : Z) (refs : list Z) : list bytes :=
  (fun ref => EncodeUploadRequest ref id) <$> refs.

Lemma emits_uploadSegment retries ctx id i received lastErr :
  emits (uploadSegment retries ctx id i received lastErr)
    (fun r n => exists refs, n = upload_requests id refs /\ (length refs <= retries)%nat /\
       ((exists ch, r = Ok ch) -> refs <> [])).
Proof.
  set (L := fun (r : res UploadChunk) n => _).
  assert (H0 : forall k (r : res UploadChunk), (forall ch, r <> Ok ch) -> exists refs, [] = upload_requests id refs /\
    (length refs <= k)%nat /\ ((exists ch, r = Ok ch) -> refs <> [])).
  { intros k r Hr. exists []. split; [done|]. split; [simpl; lia|]. intros [ch ->]. by destruct (Hr ch). }
  revert lastErr. subst L. induction retries as [|retries IH]; intros lastErr; cbn [uploadSegment].
  { destruct lastErr; apply emits_lift; by apply H0. }
  apply emits_silent_bind; [apply silent_check_ctx| |intros; by apply H0..]. intros _.
  apply emits_silent_bind; [apply silent_nextPDURef| |intros; by apply H0..]. intros ref.
  assert (Hone : forall A (r : res A) n, writes (EncodeUploadRequest ref id) r n ->
    exists refs, n = upload_requests id refs /\ (length refs <= 1)%nat /\ ((exists a, r = Ok a) -> refs <> [])).
  { intros A r n. unfold writes. case_if.
    - intros ->. by exists [ref].
    - intros [-> [e ->]]. exists []. split; [done|]. split; [simpl; lia|]. by intros [? ?]. }
  eapply emits_bind; [apply emits_attempt, emits_sendReceive|..]; cbv beta.
  2: by intros.
  2: { intros n H. apply Hone in H as (refs & -> & Hl & _). exists refs. split; [done|]. split; [lia|]. by intros [? ?]. }
  intros a n1 Hn1.
  assert (Hn1' : exists refs, n1 = upload_requests id refs /\ (length refs <= 1)%nat /\
    (match a with inr _ => refs <> [] | inl _ => True end)).
  { destruct a as [e|p]; apply Hone in Hn1 as (refs & -> & Hl & Hne); exists refs; [done|].
    split; [done|]. split; [done|]. apply Hne. by exists p. }
  clear Hn1. destruct Hn1' as (refs1 & -> & Hl1 & Hne1).
  assert (Hagain : forall e, emits (uploadSegment retries ctx id i received (Some e)) (fun r n2 => exists refs,
    upload_requests id refs1 ++ n2 = upload_requests id refs /\ (length refs <= S retries)%nat /\
    ((exists ch, r = Ok ch) -> refs <> []))).
  { intros e. eapply emits_weaken; [apply IH|]. intros r n (refs & -> & Hl & Hne). exists (refs1 ++ refs).
    split; [unfold upload_requests; by rewrite fmap_app|]. rewrite length_app. split; [lia|].
    intros Hok. apply Hne in Hok. by destruct refs1. }
  assert (Hstop : forall (r : res UploadChunk), ((exists ch, r = Ok ch) -> refs1 <> []) -> exists refs,
    upload_requests id refs1 ++ [] = upload_requests id refs /\ (length refs <= S retries)%nat /\
    ((exists ch, r = Ok ch) -> refs <> [])).
  { intros r Hr. exists refs1. rewrite app_nil_r. split; [done|]. split; [lia | done]. }
  destruct a as [e|[param data]].
  { destruct (isUploadProtocolError (Some e)); [apply emits_fail, Hstop; by intros [? ?] | apply Hagain]. }
  apply emits_silent_bind.
  { eapply emits_weaken; [apply emits_attempt, silent_lift|]. by intros [[]| |] n. }
  2, 3: intros; apply Hstop; by intros [? ?].
  intros [e|chunk]; [|by apply emits_ret, Hstop]. cbv zeta.
  destruct (isUploadProtocolError _); [apply emits_fail, Hstop; by intros [? ?] | apply Hagain].
Qed.

Lemma emits_uploadLoop chunks ctx id i payload count :
  emits (uploadLoop chunks ctx id i payload count)
    (fun r n => exists refs, n = upload_requests id refs /\ (length refs <= 3 * chunks)%nat /\
       ((exists x, r = Ok x) -> refs <> [])).
Proof.
  revert i payload count. induction chunks as [|chunks IH]; intros i payload count; cbn [uploadLoop].
  { apply emits_fail. exists []. split; [done|]. split; [simpl; lia|]. by intros [? ?]. }
  eapply emits_bind; [apply emits_uploadSegment|..]; cbv beta.
  2, 3: intros; match goal with H : exists _, _ |- _ => destruct H as (refs & -> & Hl & _) end;
    exists refs; split; [done|]; split; [change (Z.to_nat maxUploadRetries) with 3%nat in *; lia | by intros [? ?]].
  intros chunk n1 (refs1 & -> & Hl1 & Hne1). change (Z.to_nat maxUploadRetries) with 3%nat in Hl1.
  specialize (Hne1 ltac:(by eexists)).
  destruct (if len (uc_Data chunk) >? 0 then _ else _) as [payload' count'].
  destruct (uc_Done chunk).
  - apply emits_ret. exists refs1. rewrite app_nil_r. split; [done|]. split; [lia | done].
  - eapply emits_weaken; [apply IH|]. intros r n (refs & -> & Hl & Hne). exists (refs1 ++ refs).
    split; [unfold upload_requests; by rewrite fmap_app|]. rewrite length_app. split; [lia|]. by destruct refs1.
Qed.
Lemma emits_with_defer {A B} (m : M (Traced W) A) (d : M (Traced W) B) L1 L2 (L : res A -> list bytes -> Prop) :
  emits m L1 -> emits d L2 ->
  (forall r n1 n2 r2, L1 r n1 -> L2 r2 n2 -> r2 <> Panic -> L r (n1 ++ n2)) ->
  (forall n, L Panic n) ->
  emits (with_defer m d) L.
Proof.
  intros Hm Hd HL HP log st Hst. destruct (Hm log st Hst) as (n1 & Hs1 & H1). unfold with_defer.
  destruct (m st) as [r st1]. simpl in *. destruct (Hd _ st1 Hs1) as (n2 & Hs2 & H2).
  exists (n1 ++ n2). rewrite app_assoc. destruct (d st1) as [[b|e|] st2]; simpl in *.
  - split; [done|]. by apply (HL r n1 n2 (Ok b)).
  - split; [done|]. by apply (HL r n1 n2 (Err e)).
  - split; [done | apply HP].
Qed.
End Emits.

(** The requests of an upload: none or only the start request when the upload
    did not begin; otherwise the start request, requests for segments of the
    upload the CPU named, and its end request. *)
Inductive upload_trace (bt : BlockType) (num : Z) (r : res BlockData) : list bytes -> Prop :=
  | trace_nothing : (forall b, r <> Ok b) -> upload_trace bt num r []
  | trace_refused ref start :
      EncodeStartUploadRequest ref bt num = Ok start -> (forall b, r <> Ok b) -> upload_trace bt num r [start]
  | trace_session ref start id refs endRef :
      EncodeStartUploadRequest ref bt num = Ok start ->
      (length refs <= Z.to_nat (maxUploadRetries * maxUploadChunks))%nat ->
      ((exists b, r = Ok b) -> refs <> []) ->
      upload_trace bt num r (start :: upload_requests id refs ++ [EncodeEndUploadRequest endRef id]).

Section Upload.
Context {W : Type} `{!Transport W}.

Section Session.
Variable conn : option Conn.
Variable size : Z.
Implicit Types L : res BlockData -> list bytes -> Prop.

(** [x, err := f()] for a computation without effects. *)
Lemma emits_attempt_lift {A B} (r : res A) (k : error + A -> M (Traced W) B) (L : res B -> list bytes -> Prop) :
  (forall a, r = Ok a -> emits conn size (k (inr a)) L) -> (forall e, r = Err e -> emits conn size (k (inl e)) L) ->
  L Panic [] -> emits conn size (attempt (lift r) ≫= k) L.
Proof.
  intros Ha He Hp log st Hst. rewrite bind_run. unfold attempt. simpl. destruct r as [a|e|].
  - by apply (Ha a eq_refl log st Hst).
  - by apply (He e eq_refl log st Hst).
  - exists []. rewrite app_nil_r. by split.
Qed.

(** After a start request that was sent, the shorter end request is sent
    too. *)
Lemma emits_endUpload start id :
  sendable conn size start = true -> 18 <= len start ->
  emits (W := W) conn size (endUpload id)
    (fun r n => r <> Panic -> exists endRef, n = [EncodeEndUploadRequest endRef id]).
Proof.
  intros Hs Hlen. unfold endUpload. cbv zeta. eapply emits_bind; [apply emits_nextPDURef|..]; cbv beta.
  - intros ref n [-> _]. eapply emits_weaken; [apply emits_sendReceive|]. intros r n. unfold writes.
    replace (sendable conn size (EncodeEndUploadRequest ref id)) with true.
    + intros -> _. by exists ref.
    + unfold sendable in *. destruct conn; [|done].
      assert (len (EncodeEndUploadRequest ref id) = 18) by done. lia.
  - intros e n [_ He]. by destruct (He e).
  - done.
Qed.

Lemma emits_uploadBody ctx bt num id :
  emits (W := W) conn size (uploadBody ctx bt num id)
    (fun r n => exists refs, n = upload_requests id refs /\
       (length refs <= Z.to_nat (maxUploadRetries * maxUploadChunks))%nat /\ ((exists b, r = Ok b) -> refs <> [])).
Proof.
  replace (Z.to_nat (maxUploadRetries * maxUploadChunks)) with (3 * Z.to_nat maxUploadChunks)%nat
    by (unfold maxUploadRetries, maxUploadChunks; lia).
  unfold uploadBody. eapply emits_bind; [apply emits_uploadLoop|..]; cbv beta.
  - intros [payload count] n (refs & -> & Hl & Hne). specialize (Hne ltac:(by eexists)).
    assert (H : forall r : res BlockData, exists refs', upload_requests id refs ++ [] = upload_requests id refs' /\
      (length refs' <= 3 * Z.to_nat maxUploadChunks)%nat /\ ((exists b, r = Ok b) -> refs' <> [])).
    { intros r. exists refs. by rewrite app_nil_r. }
    case_if; [apply emits_fail, H | apply emits_ret, H].
  - intros e n (refs & -> & Hl & _). exists refs. split; [done|]. split; [done|]. by intros [? ?].
  - intros n (refs & -> & Hl & _). exists refs. split; [done|]. split; [done|]. by intros [? ?].
Qed.

Lemma emits_UploadBlock ctx bt num :
  emits (W := W) conn size (UploadBlock ctx bt num) (fun r n => r <> Panic -> upload_trace bt num r n).
Proof.
  unfold UploadBlock. assert (H0 : forall r, (forall b, r <> Ok b) -> r <> Panic -> upload_trace bt num r []).
  { intros r Hr _. by constructor. }
  case_if; [by apply emits_fail, H0|].
  apply emits_silent_bind; [apply silent_nextPDURef| |intros; by apply H0..]. intros ref.
  apply emits_attempt_lift; [|intros; by apply emits_fail, H0 | by apply H0].
  intros start Hstart.
  assert (Hone : forall A (r : res A) n (r' : res BlockData), writes conn size start r n ->
    (forall b, r' <> Ok b) -> upload_trace bt num r' n).
  { intros A r n r' Hw Hr. unfold writes in Hw. case_if_in Hw.
    - subst. by eapply trace_refused.
    - destruct Hw as [-> _]. by constructor. }
  eapply emits_bind; [apply emits_sendReceive| |intros; by eapply Hone|done].
  intros [param data] n1 Hn1. cbv beta iota.
  apply emits_attempt_lift; [|intros; apply emits_fail; intros _; rewrite app_nil_r; by eapply Hone | done].
  intros up Hup. unfold writes in Hn1. destruct (sendable conn size start) eqn:Es; [|by destruct Hn1 as [_ [? ?]]].
  subst n1. apply length_EncodeStartUploadRequest in Hstart as Hlen.
  eapply emits_with_defer; [apply emits_uploadBody | apply (emits_endUpload start); [done|lia] | | done].
  intros r n1 n2 r2 (refs & -> & Hl & Hne) H2 Hr2 _. destruct (H2 Hr2) as [endRef ->]. simpl.
  by eapply trace_session.
Qed.
End Session.
End Upload.
