(* ===== verification/Pool.v ===== *)
(** * Bounded pools of goroutines (client/compare.go, client/probe.go)

    [CompareRead] and [ProbeRackSlots] start one goroutine per job, in the
    order of the jobs, each after taking a place in a channel of capacity
    [cap]; a goroutine stores the outcome of its job at the index of the job,
    may end the context of the whole call, and gives its place back.  The call
    waits for all goroutines before it looks at the outcomes.

    The pool is a step relation over any outcomes a job can have, so a result
    about it holds for every interleaving and every behaviour of the
    network. *)

From S2P Require Import Prelude.

Section Pool.
(** [outcome j r]: a goroutine for [j] may end with [r]. *)
Context {J R : Type} (jobs : list J) (cap : Z) (outcome : J -> R -> Prop).
(** The outcomes after which a goroutine ends the context. *)
Variable stops : R -> bool.
(** Whether the loop looks at the context before it waits for a place. *)
Variable checks : bool.

(** Where the dispatching loop is: at the head of a pass, waiting for a
    place, or left. *)
Inductive dispatcher := AtHead | Waiting | Left.

Record pool := mkPool {
  p_pc : dispatcher;
  p_next : nat;
  p_running : gset nat;
  p_results : gmap nat R;
  p_cancelled : bool;          (* the context of the goroutines has ended *)
  p_ended : bool;              (* the context of the caller has ended *)
}.

Definition start_pool : pool := mkPool AtHead 0 ∅ ∅ false false.

Inductive pool_step (s : pool) : pool -> Prop :=
  (* the caller's context ends *)
  | pool_cancel : pool_step s (mkPool (p_pc s) (p_next s) (p_running s) (p_results s) true true)
  (* the head of a pass *)
  | pool_end :
      p_pc s = AtHead -> (length jobs <= p_next s)%nat ->
      pool_step s (mkPool Left (p_next s) (p_running s) (p_results s) (p_cancelled s) (p_ended s))
  | pool_stopped :
      p_pc s = AtHead -> (p_next s < length jobs)%nat -> checks = true -> p_cancelled s = true ->
      pool_step s (mkPool Left (p_next s) (p_running s) (p_results s) (p_cancelled s) (p_ended s))
  | pool_wait :
      p_pc s = AtHead -> (p_next s < length jobs)%nat -> checks = false \/ p_cancelled s = false ->
      pool_step s (mkPool Waiting (p_next s) (p_running s) (p_results s) (p_cancelled s) (p_ended s))
  (* select between the end of the context and a place *)
  | pool_break :
      p_pc s = Waiting -> p_cancelled s = true ->
      pool_step s (mkPool Left (p_next s) (p_running s) (p_results s) (p_cancelled s) (p_ended s))
  | pool_go :
      p_pc s = Waiting -> Z.of_nat (base.size (p_running s)) < cap ->
      pool_step s (mkPool AtHead (S (p_next s)) (p_running s ∪ {[p_next s]}) (p_results s) (p_cancelled s) (p_ended s))
  (* a goroutine *)
  | pool_finish i j r :
      i ∈ p_running s -> jobs !! i = Some j -> outcome j r ->
      pool_step s (mkPool (p_pc s) (p_next s) (p_running s ∖ {[i]}) (<[i := r]> (p_results s))
                     (p_cancelled s || stops r) (p_ended s)).

(** The loop has left and the goroutines are over. *)
Definition pool_done (s : pool) : Prop := p_pc s = Left /\ p_running s = ∅.

Definition pool_run (s : pool) : Prop := rtc pool_step start_pool s.

(** The results, in the order of the jobs; [None] where no goroutine ran. *)
Definition pool_results (s : pool) : list (option R) := (fun i => p_results s !! i) <$> List.seq 0 (length jobs).

Lemma size_add (X : gset nat) i : (base.size (X ∪ {[i]}) <= S (base.size X))%nat.
Proof.
  rewrite size_union_alt. assert (base.size ({[i]} ∖ X) <= 1)%nat; [|lia].
  transitivity (base.size ({[i]} : gset nat)); [apply subseteq_size; set_solver + | by rewrite size_singleton].
Qed.

Lemma size_remove (X : gset nat) i : i ∈ X -> (base.size (X ∖ {[i]}) < base.size X)%nat.
Proof. intros Hi. apply subset_size. set_solver +Hi. Qed.

(** ** Invariant *)

Record pool_ok (s : pool) : Prop := {
  pool_next : (p_next s <= length jobs)%nat;
  pool_waiting : p_pc s = Waiting -> (p_next s < length jobs)%nat;
  pool_places : Z.of_nat (base.size (p_running s)) <= cap;
  pool_started : forall i, i ∈ p_running s \/ is_Some (p_results s !! i) <-> (i < p_next s)%nat;
  pool_once : forall i, i ∈ p_running s -> p_results s !! i = None;
  pool_outcomes : forall i r, p_results s !! i = Some r -> exists j, jobs !! i = Some j /\ outcome j r;
  pool_why : p_cancelled s = true -> p_ended s = true \/ exists i r, p_results s !! i = Some r /\ stops r = true;
  pool_left : p_pc s = Left -> p_cancelled s = true \/ p_next s = length jobs;
}.

Lemma start_ok : 0 <= cap -> pool_ok start_pool.
Proof.
  intros Hc. split; simpl; try done; try lia.
  intros i. split; [|lia]. rewrite lookup_empty. intros [H|[? H]]; [set_solver +H | done].
Qed.

Lemma finish_ok s i j r :
  pool_ok s -> i ∈ p_running s -> jobs !! i = Some j -> outcome j r ->
  pool_ok (mkPool (p_pc s) (p_next s) (p_running s ∖ {[i]}) (<[i := r]> (p_results s)) (p_cancelled s || stops r) (p_ended s)).
Proof.
  intros [H1 H2 H3 H4 H5 H6 H8 H7] Hi Hj Hr. split; simpl; try done.
  - assert (base.size (p_running s ∖ {[i]}) <= base.size (p_running s))%nat; [|lia]. apply subseteq_size. set_solver +.
  - intros k. rewrite <- H4. destruct (decide (k = i)) as [->|Hne].
    + rewrite lookup_insert_eq. split; [by left | by right].
    + rewrite lookup_insert_ne by done. rewrite elem_of_difference, elem_of_singleton. intuition.
  - intros k. rewrite elem_of_difference, elem_of_singleton. intros [Hk Hne]. rewrite lookup_insert_ne by done. by apply H5.
  - intros k r' [[<- <-]|[_ H]]%lookup_insert_Some; [by exists j | by apply H6].
  - intros [Hc|Hs]%orb_prop; [|right; exists i, r; by rewrite lookup_insert_eq].
    destruct (H8 Hc) as [He|(k & r' & Hk & Hs)]; [by left|right]. exists k, r'. split; [|done].
    rewrite lookup_insert_ne; [done|]. intros <-. by rewrite (H5 _ Hi) in Hk.
  - intros H. destruct (H7 H) as [->|?]; auto.
Qed.

Lemma pool_step_ok s s' : pool_ok s -> pool_step s s' -> pool_ok s'.
Proof.
  intros Hs Hstep.
  destruct Hstep as [|Hpc Hn|Hpc Hn Hck Hc|Hpc Hn Hck|Hpc Hc|Hpc Hcap|i j r Hi Hj Hr];
    [..|by eapply finish_ok]; destruct Hs as [H1 H2 H3 H4 H5 H6 H8 H7]; split; simpl; try done; auto.
  - right. lia.
  - specialize (H2 Hpc). lia.
  - pose proof (size_add (p_running s) (p_next s)). lia.
  - intros i. specialize (H4 i). rewrite elem_of_union, elem_of_singleton. destruct (decide (i = p_next s)) as [->|Hne]; [lia|].
    split; [|intros; assert (i < p_next s)%nat by lia; tauto]. intros H. assert (i < p_next s)%nat by tauto. lia.
  - intros i. rewrite elem_of_union, elem_of_singleton. intros [Hi| ->]; [by apply H5|].
    apply eq_None_not_Some. intros H. assert (p_next s < p_next s)%nat; [|lia]. apply H4. by right.
Qed.

Lemma run_ok s : 0 <= cap -> pool_run s -> pool_ok s.
Proof.
  intros Hc Hr. unfold pool_run in Hr. pose proof (start_ok Hc) as H0.
  induction Hr as [|a b c Hab _ IH]; [done|]. apply IH. by eapply pool_step_ok.
Qed.

(** ** What a finished run holds *)

Lemma length_results s : length (pool_results s) = length jobs.
Proof. unfold pool_results. by rewrite length_fmap, length_seq. Qed.

Lemma lookup_results s i :
  (i < length jobs)%nat -> pool_results s !! i = Some (p_results s !! i).
Proof.
  intros Hi. unfold pool_results. rewrite list_lookup_fmap, lookup_seq_lt by done. done.
Qed.

(** The outcomes of a first part of the jobs, each at its index; of all of
    them unless the context ended. *)
Lemma results_prefix s :
  0 <= cap -> pool_run s -> pool_done s ->
  exists rs, (length rs <= length jobs)%nat /\ Forall2 outcome (take (length rs) jobs) rs /\
    pool_results s = (Some <$> rs) ++ replicate (length jobs - length rs) None /\
    (length rs = length jobs \/ p_cancelled s = true).
Proof.
  intros Hc Hr [Hpc Hrun]. pose proof (run_ok s Hc Hr) as [H1 _ _ H4 _ H6 _ H7].
  assert (Hsome : forall i, is_Some (p_results s !! i) <-> (i < p_next s)%nat).
  { intros i. rewrite <- H4, Hrun. split; [by right|]. intros [H|?]; [set_solver +H | done]. }
  exists (omap (fun i => p_results s !! i) (List.seq 0 (p_next s))).
  assert (E : Some <$> omap (fun i => p_results s !! i) (List.seq 0 (p_next s)) = (fun i => p_results s !! i) <$> List.seq 0 (p_next s)).
  { assert (HF : Forall (fun i => is_Some (p_results s !! i)) (List.seq 0 (p_next s))).
    { apply Forall_forall. intros i Hi. apply Hsome. apply elem_of_seq in Hi. lia. }
    induction HF as [|i l [r Hi] _ IH]; [done|]. simpl. rewrite Hi. simpl. by f_equal. }
  assert (L : length (omap (fun i => p_results s !! i) (List.seq 0 (p_next s))) = p_next s).
  { apply (f_equal length) in E. by rewrite !length_fmap, length_seq in E. }
  rewrite L. split; [done|]. split; [|split; [|destruct (H7 Hpc); auto]].
  - apply Forall2_same_length_lookup_2; [rewrite length_take, L; lia|].
    intros i j r Hj Hi. apply lookup_take_Some in Hj as [Hj Hlt].
    assert (Hi' : (Some <$> omap (fun i => p_results s !! i) (List.seq 0 (p_next s))) !! i = Some (Some r)).
    { by rewrite list_lookup_fmap, Hi. }
    rewrite E, list_lookup_fmap, lookup_seq_lt in Hi' by done. simpl in Hi'. injection Hi' as Hi'.
    destruct (H6 i r Hi') as (j' & Hj' & ?). rewrite Hj in Hj'. by injection Hj' as <-.
  - rewrite E. unfold pool_results. replace (length jobs) with (p_next s + (length jobs - p_next s))%nat at 1 by lia.
    rewrite seq_app, fmap_app. f_equal. apply list_eq_same_length with (length jobs - p_next s)%nat.
    { by rewrite length_replicate. }
    { by rewrite length_fmap, length_seq. }
    intros i x y Hi. rewrite list_lookup_fmap, lookup_seq_lt, lookup_replicate by done. simpl. intros [= <-] [-> _].
    apply eq_None_not_Some. rewrite Hsome. lia.
Qed.

(** ** Termination *)

(** The steps left, the end of the context aside. *)
Definition pool_pending (s : pool) : nat :=
  3 * (length jobs - p_next s) + base.size (p_running s) +
  match p_pc s with AtHead => 2 | Waiting => 1 | Left => 0 end.

(** Every step but the end of the caller's context uses one up. *)
Lemma step_decreases s s' :
  pool_ok s -> pool_step s s' ->
  (pool_pending s' < pool_pending s)%nat \/ s' = mkPool (p_pc s) (p_next s) (p_running s) (p_results s) true true.
Proof.
  intros Hs Hstep. unfold pool_pending in *.
  destruct Hstep as [|Hpc Hn|Hpc Hn Hck Hc|Hpc Hn Hck|Hpc Hc|Hpc Hcap|i j r Hi Hj Hr]; [by right|left..];
    simpl in *; rewrite ?Hpc in *; try lia.
  - pose proof (pool_waiting s Hs Hpc). pose proof (size_add (p_running s) (p_next s)). lia.
  - pose proof (size_remove (p_running s) i Hi). lia.
Qed.

(** A pool with a place does not get stuck, as long as every job has an
    outcome. *)
Lemma pool_progress s :
  0 < cap -> (forall j, j ∈ jobs -> exists r, outcome j r) -> pool_ok s ->
  pool_done s \/ exists s', pool_step s s' /\ (pool_pending s' < pool_pending s)%nat /\ p_ended s' = p_ended s.
Proof.
  intros Hcap Hout Hs.
  destruct (set_choose_or_empty (p_running s)) as [[i Hi]|Hempty].
  - right. assert (Hlt : (i < p_next s)%nat) by (apply (pool_started s Hs); by left).
    pose proof (pool_next s Hs). destruct (lookup_lt_is_Some_2 jobs i ltac:(lia)) as [j Hj].
    destruct (Hout j) as [r Hr]; [by eapply list_elem_of_lookup_2|]. eexists. split; [by eapply pool_finish|].
    unfold pool_pending. simpl. pose proof (size_remove (p_running s) i Hi). split; [lia | done].
  - assert (Hz : base.size (p_running s) = O) by (rewrite size_empty_iff; done).
    destruct (p_pc s) eqn:Hpc; [right..|by left; split; [|apply leibniz_equiv]].
    + destruct (decide (length jobs <= p_next s)%nat).
      { eexists. split; [by apply pool_end|]. unfold pool_pending. rewrite Hpc. simpl. split; [lia | done]. }
      destruct checks eqn:Eck, (p_cancelled s) eqn:Ec;
        (eexists; split;
         [first [ apply pool_wait; [done | lia | by auto] | apply pool_stopped; [done | lia | done | done] ]
         | unfold pool_pending; rewrite Hpc; simpl; split; [lia | done]]).
    + eexists. split; [apply pool_go; [done | lia]|]. unfold pool_pending. rewrite Hpc. simpl.
      pose proof (pool_waiting s Hs Hpc). pose proof (size_add (p_running s) (p_next s)). split; [lia | done].
Qed.

(** The steps of the threads: all but the end of the caller's context. *)
Definition end_context (s : pool) : pool := mkPool (p_pc s) (p_next s) (p_running s) (p_results s) true true.
Definition pool_internal (s s' : pool) : Prop := pool_step s s' /\ s' <> end_context s.

Lemma internal_run n s s' :
  0 < cap -> pool_run s -> nsteps pool_internal n s s' -> pool_run s' /\ (n + pool_pending s' <= pool_pending s)%nat.
Proof.
  intros Hcap Hr Hn. induction Hn as [|n s s1 s2 [Hs Hne] _ IH]; [by split; [|lia]|].
  destruct IH as [Hr2 Hle]; [by eapply rtc_r|]. split; [done|].
  destruct (step_decreases s s1) as [Hlt|He]; [apply run_ok; [lia | done] | done | lia | done].
Qed.

Lemma internal_progress s :
  0 < cap -> (forall j, j ∈ jobs -> exists r, outcome j r) -> pool_run s -> pool_done s \/ exists s', pool_internal s s'.
Proof.
  intros Hcap Hout Hr. destruct (pool_progress s Hcap Hout) as [Hd|(s1 & H1 & Hlt & _)]; [apply run_ok; [lia | done] | by left |].
  right. exists s1. split; [done|]. intros ->. unfold pool_pending in Hlt. simpl in Hlt. lia.
Qed.

(** From any state of a run, the threads alone can finish it. *)
Lemma pool_finishes s :
  0 < cap -> (forall j, j ∈ jobs -> exists r, outcome j r) -> pool_run s ->
  exists s', pool_run s' /\ pool_done s' /\ p_ended s' = p_ended s.
Proof.
  intros Hcap Hout. remember (pool_pending s) as n eqn:Hn. revert s Hn. induction n as [n IH] using lt_wf_ind.
  intros s -> Hr. destruct (pool_progress s Hcap Hout) as [Hd|(s1 & H1 & Hlt & He)].
  - apply run_ok; [lia | done].
  - by exists s.
  - destruct (IH _ Hlt s1 eq_refl ltac:(by eapply rtc_r)) as (s' & H2 & H3 & H4). exists s'. by rewrite <- He.
Qed.
End Pool.
