(* ===== verification/Probe.v ===== *)
(** * Probing rack and slot candidates (client/probe.go)

    [probeOne] tries one rack/slot pair on connections of its own and
    classifies how far it got; [ProbeRackSlots] runs it over a range of pairs
    in a bounded pool of goroutines.  The request validation is the part of
    client/validation.go for it.  The string enumerations of the source are
    strings here too, so the zero value of a candidate that was never probed is
    the source's.

    [probeOne] is a client operation that does not use the client of the
    state.  A goroutine of the pool ends with any candidate that [probeOne]
    returns over some environment: what the other goroutines do meanwhile is
    part of the environment that the one considered sees. *)

From S2P Require Import Prelude Go WireErrors Header Client Userdata Pool.

Local Open Scope string_scope.
Local Open Scope list_scope.
Local Open Scope Z_scope.

(** ** Random delays *)

(** [rand.Int]: a number below the bound, or the error of the source. *)
Class Entropy (W : Type) := { e_randInt : Z -> W -> (error + Z) * W }.

Definition maxJitterMS : Z := 3600000.
(** Nanoseconds in a millisecond ([time.Millisecond]). *)
Definition Millisecond : Z := 1000000.

Definition randomJitter {W} `{!Entropy W} (maxMS : Z) : M W Z :=
  if maxMS <=? 0 then mret 0
  else
  r ← observe (e_randInt (Z.min maxMS maxJitterMS + 1));
  match r with
  | inl _ => mret 0
  | inr n => mret (n * Millisecond)
  end.

(** ** Enumerations *)

Definition SafetyMode := string.
Definition SafetyConservative : SafetyMode := "conservative".
Definition SafetyNormal : SafetyMode := "normal".
Definition SafetyAggressive : SafetyMode := "aggressive".

Definition isProbeTimeout (err : error) : bool :=
  errors_Is err ContextDeadlineExceeded || errors_net_Timeout err.

Definition ProbeStage := string.
Definition ProbeStageTCP : ProbeStage := "tcp".
Definition ProbeStageCOTP : ProbeStage := "cotp".
Definition ProbeStageSetup : ProbeStage := "setup".
Definition ProbeStageQuery : ProbeStage := "query".

Definition ProbeStatus := string.
Definition StatusUnreachable : ProbeStatus := "unreachable".
Definition StatusTCPOnly : ProbeStatus := "tcp-only".
Definition StatusCOTPOnly : ProbeStatus := "cotp-only".
Definition StatusSetupOnly : ProbeStatus := "setup-only".
Definition StatusValidConnect : ProbeStatus := "valid-connect".
Definition StatusValidQuery : ProbeStatus := "valid-query".
Definition StatusRejected : ProbeStatus := "rejected".
Definition StatusTimeout : ProbeStatus := "timeout".
Definition StatusFlaky : ProbeStatus := "flaky".

Definition ConfirmationKind := string.
Definition ConfirmNone : ConfirmationKind := "none".
Definition ConfirmSZL : ConfirmationKind := "szl".
Definition ConfirmCPUState : ConfirmationKind := "cpu-state".
Definition ConfirmAny : ConfirmationKind := "any".

Definition Confidence := string.
Definition ConfidenceNone : Confidence := "none".
Definition ConfidenceLow : Confidence := "low".
Definition ConfidenceHigh : Confidence := "high".

(** ** Requests and results *)

Record RackSlotProbeRequest := mkProbeRequest {
  pq_Address : string;
  pq_Port : Z;
  pq_RackMin : Z;
  pq_RackMax : Z;
  pq_SlotMin : Z;
  pq_SlotMax : Z;
  pq_Timeout : Z;
  pq_Parallelism : Z;
  pq_DelayMS : Z;
  pq_StopOnFirst : bool;
  pq_LocalTSAP : option Z;
  pq_RemoteTSAP : option Z;
  pq_SafetyMode : SafetyMode;
  pq_JitterMS : Z;
  pq_MaxAttemptsPerHost : Z;
  pq_Strict : bool;
  pq_Confirm : ConfirmationKind;
  pq_Retries : Z;
  pq_RetryDelay : Z;
  pq_StopOnFirstConfirmed : bool;
}.

Record RackSlotCandidate := mkCandidate {
  cd_Rack : Z;
  cd_Slot : Z;
  cd_LocalTSAP : Z;
  cd_RemoteTSAP : Z;
  cd_Stage : ProbeStage;
  cd_Status : ProbeStatus;
  cd_PDUSize : Z;
  cd_ConfirmedBy : ConfirmationKind;
  cd_Confidence : Confidence;
  cd_Error : string;
}.

(** The zero value, of a candidate that was not probed. *)
Definition zeroCandidate : RackSlotCandidate := mkCandidate 0 0 0 0 "" "" 0 "" "" "".

Record RackSlotProbeResult := mkProbeResult {
  pr_Address : string;
  pr_Candidates : list RackSlotCandidate;
  pr_Valid : list RackSlotCandidate;
  pr_SetupAccepted : Z;
  pr_ConfirmedByQuery : Z;
  pr_Flaky : Z;
  pr_TCPOnly : Z;
  pr_StoppedEarly : bool;
  pr_StoppedReason : string;
}.

Definition DefaultRackSlotProbeRequest (address : string) : RackSlotProbeRequest :=
  mkProbeRequest address 102 0 7 0 31 (2 * Second) 4 0 false None None "" 0 0 false "" 0 0 false.

(** By [mode]: conservative, aggressive, anything else. *)
Definition by_mode {A} (mode : SafetyMode) (conservative aggressive other : A) : A :=
  if String.eqb mode SafetyConservative then conservative
  else if String.eqb mode SafetyAggressive then aggressive else other.

Definition applyProbeDefaults (req : RackSlotProbeRequest) : RackSlotProbeRequest :=
  let mode := if String.eqb (pq_SafetyMode req) "" then SafetyNormal else pq_SafetyMode req in
  mkProbeRequest (pq_Address req)
    (if pq_Port req =? 0 then 102 else pq_Port req)
    (pq_RackMin req) (pq_RackMax req) (pq_SlotMin req) (pq_SlotMax req)
    (if pq_Timeout req =? 0 then by_mode mode (5 * Second) Second (2 * Second) else pq_Timeout req)
    (if pq_Parallelism req <? 1 then by_mode mode 2 8 4 else pq_Parallelism req)
    (if (pq_DelayMS req =? 0) && String.eqb mode SafetyConservative then 50 else pq_DelayMS req)
    (pq_StopOnFirst req) (pq_LocalTSAP req) (pq_RemoteTSAP req) (pq_SafetyMode req) (pq_JitterMS req)
    (pq_MaxAttemptsPerHost req) (pq_Strict req)
    (if pq_Strict req && (String.eqb (pq_Confirm req) "" || String.eqb (pq_Confirm req) ConfirmNone)
     then ConfirmAny else pq_Confirm req)
    (pq_Retries req) (pq_RetryDelay req) (pq_StopOnFirstConfirmed req).

(** ** Validation *)

(** The bytes of one white space character of one, two or three bytes
    ([unicode.IsSpace] in UTF-8). *)
Definition space1 (a : Z) : bool := (9 <=? a) && (a <=? 13) || (a =? 32).
Definition space2 (a b : Z) : bool := (a =? 0xC2) && ((b =? 0x85) || (b =? 0xA0)).
Definition space3 (a b c : Z) : bool :=
  (a =? 0xE1) && (b =? 0x9A) && (c =? 0x80) ||
  (a =? 0xE2) && (b =? 0x80) && ((0x80 <=? c) && (c <=? 0x8A) || (c =? 0xA8) || (c =? 0xA9) || (c =? 0xAF)) ||
  (a =? 0xE2) && (b =? 0x81) && (c =? 0x9F) ||
  (a =? 0xE3) && (b =? 0x80) && (c =? 0x80).

(** [strings.TrimSpace(s) == "" ] on the bytes of [s]. *)
Fixpoint only_spaces (l : list Z) : bool :=
  match l with
  | [] => true
  | a :: l1 =>
      if space1 a then only_spaces l1
      else match l1 with
           | b :: l2 =>
               if space2 a b then only_spaces l2
               else match l2 with
                    | c :: l3 => if space3 a b c then only_spaces l3 else false
                    | [] => false
                    end
           | [] => false
           end
  end.

Definition blank (s : string) : bool :=
  only_spaces ((fun a => Z.of_N (Ascii.N_of_ascii a)) <$> String.list_ascii_of_string s).

(** [validateRackSlotProbeRequest]; [show] is the text of a duration. *)
Definition validateRackSlotProbeRequest (show : Z -> string) (req : RackSlotProbeRequest) : res unit :=
  let invalid (bad : bool) (msg : string) (next : res unit) := if bad then Err (ValidationError msg) else next in
  invalid (blank (pq_Address req)) "address must be non-empty" (
  invalid ((pq_Port req <? 0) || (pq_Port req >? 65535)) ("port must be 0..65535, got " +:+ dec (pq_Port req)) (
  invalid ((pq_RackMin req <? 0) || (pq_RackMin req >? 7)) ("rack min must be 0..7, got " +:+ dec (pq_RackMin req)) (
  invalid ((pq_RackMax req <? 0) || (pq_RackMax req >? 7)) ("rack max must be 0..7, got " +:+ dec (pq_RackMax req)) (
  invalid ((pq_SlotMin req <? 0) || (pq_SlotMin req >? 31)) ("slot min must be 0..31, got " +:+ dec (pq_SlotMin req)) (
  invalid ((pq_SlotMax req <? 0) || (pq_SlotMax req >? 31)) ("slot max must be 0..31, got " +:+ dec (pq_SlotMax req)) (
  invalid (pq_RackMin req >? pq_RackMax req)
    ("rack min must be <= rack max, got min=" +:+ dec (pq_RackMin req) +:+ " max=" +:+ dec (pq_RackMax req)) (
  invalid (pq_SlotMin req >? pq_SlotMax req)
    ("slot min must be <= slot max, got min=" +:+ dec (pq_SlotMin req) +:+ " max=" +:+ dec (pq_SlotMax req)) (
  invalid (pq_Timeout req <? 0) ("timeout must be >= 0, got " +:+ show (pq_Timeout req)) (
  invalid (pq_Retries req <? 0) ("retries must be >= 0, got " +:+ dec (pq_Retries req)) (
  invalid (pq_DelayMS req <? 0) ("delay ms must be >= 0, got " +:+ dec (pq_DelayMS req)) (
  invalid (pq_Parallelism req <? 0) ("parallelism must be >= 0, got " +:+ dec (pq_Parallelism req)) (
  invalid (pq_JitterMS req <? 0) ("jitter ms must be >= 0, got " +:+ dec (pq_JitterMS req)) (
  invalid (pq_MaxAttemptsPerHost req <? 0)
    ("max attempts per host must be >= 0, got " +:+ dec (pq_MaxAttemptsPerHost req)) nil_error))))))))))))).

(** ** One candidate *)

Section ProbeOne.
Context {W : Type} `{!Transport W}.

(** [trySZL] of [runFollowUp]: whether it succeeded, and the text if not. *)
Definition trySZL (ctx : Ctx) (conn : Conn) (pduRef szlID : Z) : M W (bool * string) :=
  let req := EncodeSZLRequest pduRef szlID 0 in
  r ← attempt (WriteTSDU ctx conn req);
  match r with
  | inl err => mret (false, Error err)
  | inr _ =>
      r ← attempt (ReadTSDU ctx conn);
      match r with
      | inl err => mret (false, Error err)
      | inr s7Data =>
          r ← attempt (lift (ParseS7Header s7Data));
          match r with
          | inl err => mret (false, Error err)
          | inr (hdr, rest) =>
              if negb (PDURef hdr =? pduRef)
              then mret (false, "PDU ref mismatch: expected " +:+ dec pduRef +:+ " got " +:+ dec (PDURef hdr))
              else if (ErrorClass hdr ≠b x00) || (ErrorCode hdr ≠b x00)
              then mret (false, "S7 error 0x" +:+ fmt_02X (ErrorClass hdr) +:+ "/0x" +:+ fmt_02X (ErrorCode hdr))
              else
              let need := ParamLength hdr + DataLength hdr in
              if len rest <? need then mret (false, "short S7 payload")
              else
              dataSlice ← lift (slice rest (ParamLength hdr) (u16 (ParamLength hdr + DataLength hdr)));
              r ← attempt (lift (ParseSZLResponse dataSlice));
              match r with
              | inl err => mret (false, Error err)
              | inr _ => mret (true, "")
              end
          end
      end
  end.

(** Whether a follow-up succeeded, by which strategy, and the text if not. *)
Definition runFollowUp (ctx : Ctx) (conn : Conn) (pduRef : Z) (strategy : ConfirmationKind)
  : M W (bool * ConfirmationKind * string) :=
  if String.eqb strategy ConfirmSZL then
    '(ok, errMsg) ← trySZL ctx conn pduRef SZLModuleID;
    mret (if ok : bool then (true, ConfirmSZL, "") else (false, ConfirmNone, errMsg))
  else if String.eqb strategy ConfirmCPUState then
    '(ok, errMsg) ← trySZL ctx conn pduRef SZLCPUState;
    mret (if ok : bool then (true, ConfirmCPUState, "") else (false, ConfirmNone, errMsg))
  else if String.eqb strategy ConfirmAny then
    '(ok, _) ← trySZL ctx conn pduRef SZLModuleID;
    if ok : bool then mret (true, ConfirmSZL, "")
    else
    '(ok, _) ← trySZL ctx conn pduRef SZLCPUState;
    if ok : bool then mret (true, ConfirmCPUState, "")
    else
    '(ok, errMsg) ← trySZL ctx conn pduRef SZLProtectionInfo;
    mret (if ok : bool then (true, ConfirmAny, "") else (false, ConfirmNone, errMsg))
  else mret (false, ConfirmNone, "no confirmation strategy").

(** The part of [probeOne] on an open COTP connection. *)
Definition probeSetup (ctx : Ctx) (req : RackSlotProbeRequest) (rack slot localTSAP remoteTSAP : Z) (conn : Conn)
  : M W RackSlotCandidate :=
  let c := mkCandidate rack slot localTSAP remoteTSAP in
  setupCtx ← lift (withOptionalTimeout ctx (pq_Timeout req));
  r ← attempt (performS7Setup setupCtx conn 1 1 1 480);
  match r with
  | inl err =>
      let status :=
        if isProbeTimeout err then StatusTimeout
        else match errors_As_S7Error err with Some _ => StatusRejected | None => StatusCOTPOnly end in
      mret (c ProbeStageSetup status 0 "" ConfidenceNone (Error err))
  | inr setup =>
      if negb (pq_Strict req)
      then mret (c ProbeStageSetup StatusSetupOnly (PDUSize setup) "" ConfidenceLow "")
      else
      followUpCtx ← lift (withOptionalTimeout ctx (pq_Timeout req));
      '(ok, confirmedBy, errStr) ← runFollowUp followUpCtx conn (1 + 1) (pq_Confirm req);
      mret (if ok : bool
            then c ProbeStageQuery StatusValidQuery (PDUSize setup) confirmedBy ConfidenceHigh ""
            else c ProbeStageQuery StatusValidConnect (PDUSize setup) "" ConfidenceLow
                   (if String.eqb errStr "" then "" else "follow-up failed: " +:+ errStr))
  end.

Definition probeOne (ctx : Ctx) (req : RackSlotProbeRequest) (rack slot : Z) : M W RackSlotCandidate :=
  let addr := JoinHostPort (pq_Address req) (dec (pq_Port req)) in
  let rejected err := mret (mkCandidate rack slot 0 0 "" StatusRejected 0 "" ConfidenceNone (Error err)) in
  r ← attempt (lift (match pq_LocalTSAP req with Some t => mret t | None => BuildTSAP 1 0 0 end));
  match r with
  | inl err => rejected err
  | inr localTSAP =>
      r ← attempt (lift (match pq_RemoteTSAP req with Some t => mret t | None => BuildTSAP 3 rack slot end));
      match r with
      | inl err => rejected err
      | inr remoteTSAP =>
          let c := mkCandidate rack slot localTSAP remoteTSAP in
          r ← attempt (dialTCP ctx addr (pq_Timeout req));
          match r with
          | inl err =>
              mret (c ProbeStageTCP (if isProbeTimeout err then StatusTimeout else StatusUnreachable) 0 ""
                      ConfidenceNone (Error err))
          | inr raw =>
              r ← attempt (connectCOTP ctx raw (pq_Timeout req) localTSAP remoteTSAP);
              match r with
              | inl err =>
                  mret (c ProbeStageCOTP (if isProbeTimeout err then StatusTimeout else StatusTCPOnly) 0 ""
                          ConfidenceNone (Error err))
              | inr conn =>
                  res ← probeSetup ctx req rack slot localTSAP remoteTSAP conn;
                  attempt (closeCOTP (Some conn)) ;;
                  mret res
              end
          end
      end
  end.
End ProbeOne.

(** ** All candidates *)

Definition probeJobs (req : RackSlotProbeRequest) : list (Z * Z) :=
  rack ← seqZ (pq_RackMin req) (pq_RackMax req - pq_RackMin req + 1);
  slot ← seqZ (pq_SlotMin req) (pq_SlotMax req - pq_SlotMin req + 1);
  [(rack, slot)].

Definition maxJobs (req : RackSlotProbeRequest) : Z :=
  let n := len (probeJobs req) in
  if (pq_MaxAttemptsPerHost req >? 0) && (n >? pq_MaxAttemptsPerHost req) then pq_MaxAttemptsPerHost req else n.

Definition setupSucceeded (c : RackSlotCandidate) : bool :=
  String.eqb (cd_Status c) StatusSetupOnly || String.eqb (cd_Status c) StatusValidConnect ||
  String.eqb (cd_Status c) StatusValidQuery.

Definition has_status (s : ProbeStatus) (c : RackSlotCandidate) : bool := String.eqb (cd_Status c) s.

(** In strict mode a candidate is valid when its query succeeded. *)
Definition isValid (req : RackSlotProbeRequest) (c : RackSlotCandidate) : bool :=
  if pq_Strict req then has_status StatusValidQuery c else setupSucceeded c.

Definition stopsOn (req : RackSlotProbeRequest) (c : RackSlotCandidate) : bool :=
  isValid req c && (pq_StopOnFirst req || pq_StopOnFirstConfirmed req).

Definition count_if (P : RackSlotCandidate -> bool) (l : list RackSlotCandidate) : Z :=
  foldl (fun n c => if P c then n + 1 else n) 0 l.

(** The result, from what the goroutines stored. *)
Definition probeResult (req : RackSlotProbeRequest) (stored : list (option RackSlotCandidate)) : RackSlotProbeResult :=
  let jobs := probeJobs req in
  let candidates := (default zeroCandidate <$> stored) ++ replicate (length jobs - length stored) zeroCandidate in
  let early := maxJobs req <? len jobs in
  mkProbeResult (pq_Address req) candidates (List.filter (isValid req) candidates)
    (count_if setupSucceeded candidates) (count_if (has_status StatusValidQuery) candidates)
    (count_if (has_status StatusFlaky) candidates) (count_if (has_status StatusTCPOnly) candidates)
    early (if early then "max_attempts_reached" else "").

Section ProbeAll.
Context {W : Type} `{!Transport W}.

(** The jobs that are dispatched, and what a goroutine may end with. *)
Definition dispatched (req : RackSlotProbeRequest) : list (Z * Z) := take (Z.to_nat (maxJobs req)) (probeJobs req).

Definition probeOutcome (ctx : Ctx) (req : RackSlotProbeRequest) (job : Z * Z) (c : RackSlotCandidate) : Prop :=
  exists (w : W) st', probeOne ctx req job.1 job.2 (New (pq_Address req) [], w) = (Ok c, st').

(** The runs of the goroutines. *)
Definition probe_pool (ctx : Ctx) (req : RackSlotProbeRequest) (s : pool) : Prop :=
  pool_run (dispatched req) (pq_Parallelism req) (probeOutcome ctx req) (stopsOn req) true s /\ pool_done s.

(** [ProbeRackSlots]: the error of the validation, or the result with the
    error of the caller's context, which is nil only if it has not ended. *)
Inductive ProbeRackSlots (ctx : Ctx) (req0 : RackSlotProbeRequest) : res (RackSlotProbeResult * option error) -> Prop :=
  | probe_invalid e :
      validateRackSlotProbeRequest t_duration (applyProbeDefaults req0) = Err e -> ProbeRackSlots ctx req0 (Err e)
  | probe_finished s err :
      let req := applyProbeDefaults req0 in
      validateRackSlotProbeRequest t_duration req = Ok tt -> probe_pool ctx req s -> (err = None -> p_ended s = false) ->
      ProbeRackSlots ctx req0 (Ok (probeResult req (pool_results (dispatched req) s), err)).
End ProbeAll.
