(* ===== verification/ProbeSeen.v ===== *)
(** * What a probe sees (client/probe.go)

    [Observed W] is the environment [W] with a log of the calls made of it and
    of how they ended: dialling, the COTP handshake, the look at the context
    before the setup, requests written, answers read, the connection closed.
    [told] says, of such a log alone, how the probed pair is to be classified:
    what the peer answered to the setup and to the queries decides, and where
    it did not answer, the error of the call that failed.  [shows_probeOne]
    relates it to [probeOne]. *)

From S2P Require Import Prelude Go WireErrors Header Client Userdata Triple Safety Probe.

Local Open Scope string_scope.
Local Open Scope list_scope.
Local Open Scope Z_scope.

(** ** The log *)

Inductive seen :=
  | Dialed (addr : string) (err : option error)
  | Handshaken (localTSAP remoteTSAP : bytes) (err : option error)
  | Checked (err : option error)
  | Sent (req : bytes) (err : option error)
  | Got (r : error + bytes)
  | Shut.

Record Observed (W : Type) := mkObserved { ob_env : W; ob_seen : list seen }.
Arguments mkObserved {W} _ _.
Arguments ob_env {W} _.
Arguments ob_seen {W} _.

Definition err_of {A} (r : error + A) : option error := match r with inl e => Some e | inr _ => None end.

(** A call of the environment, and what is noted of its result. *)
Definition noting {W A} (note : A -> list seen) (f : W -> A * W) (w : Observed W) : A * Observed W :=
  let '(a, e) := f (ob_env w) in (a, mkObserved e (ob_seen w ++ note a)).

#[export] Instance observed_transport {W} `{!Transport W} : Transport (Observed W) := {|
  t_dial ctx timeout addr := noting (fun r => [Dialed addr (err_of r)]) (t_dial ctx timeout addr);
  t_cotpConnect ctx raw l r n := noting (fun x => [Handshaken l r (err_of x)]) (t_cotpConnect ctx raw l r n);
  t_WriteTSDU ctx conn req := noting (fun r => [Sent req (err_of r)]) (t_WriteTSDU ctx conn req);
  t_ReadTSDU ctx conn := noting (fun r => [Got r]) (t_ReadTSDU ctx conn);
  t_Close conn := noting (fun _ => [Shut]) (t_Close conn);
  t_ctxErr ctx := noting (fun e => [Checked e]) (t_ctxErr ctx);
  t_wait ctx d := noting (fun _ => []) (t_wait ctx d);
  t_duration := t_duration (W := W);
|}.

(** ** The classification, from the log *)

(** A call that failed: with a timeout, or otherwise. *)
Definition timed (e : error) (other : ProbeStatus) : ProbeStatus := if isProbeTimeout e then StatusTimeout else other.

(** A transport error during the setup. *)
Definition setup_failure (e : error) : ProbeStatus :=
  timed e match errors_As_S7Error e with Some _ => StatusRejected | None => StatusCOTPOnly end.

(** An answer with the reference [ref] and no error in its header. *)
Definition replies (ref : Z) (a : bytes) (hdr : S7Header) (rest : bytes) : Prop :=
  ParseS7Header a = Ok (hdr, rest) /\ PDURef hdr = ref /\ ErrorClass hdr = x00 /\ ErrorCode hdr = x00.

(** What the peer's answer to the setup says: the PDU size granted, or the
    status of the candidate.  Parameters that begin like those of a setup and
    break off count as rejected: the parser reports them as an S7 error. *)
Inductive setup_reply (a : bytes) : ProbeStatus + Z -> Prop :=
  | reply_accepted hdr rest setup :
      replies 1 a hdr rest -> ParseSetupCommResponse rest = Ok setup -> setup_reply a (inr (PDUSize setup))
  | reply_refused hdr rest :
      ParseS7Header a = Ok (hdr, rest) -> PDURef hdr = 1 -> (ErrorClass hdr, ErrorCode hdr) <> (x00, x00) ->
      setup_reply a (inl StatusRejected)
  | reply_truncated hdr rest :
      replies 1 a hdr rest -> (rest = [] \/ head rest = Some FuncSetupComm) -> len rest < 8 ->
      setup_reply a (inl StatusRejected)
  | reply_other hdr b rest :
      replies 1 a hdr (b :: rest) -> b <> FuncSetupComm -> setup_reply a (inl StatusCOTPOnly)
  | reply_stray hdr rest :
      ParseS7Header a = Ok (hdr, rest) -> PDURef hdr <> 1 -> setup_reply a (inl StatusCOTPOnly)
  | reply_garbled e :
      ParseS7Header a = Err e -> setup_reply a (inl StatusCOTPOnly).

Inductive setup_exchange : list seen -> ProbeStatus + Z -> Prop :=
  | setup_ended e : setup_exchange [Checked (Some e)] (inl (setup_failure e))
  | setup_unsent q e :
      EncodeSetupCommRequest 1 1 1 480 = Ok q -> setup_exchange [Checked None; Sent q (Some e)] (inl (setup_failure e))
  | setup_unanswered q e :
      EncodeSetupCommRequest 1 1 1 480 = Ok q ->
      setup_exchange [Checked None; Sent q None; Got (inl e)] (inl (setup_failure e))
  | setup_answered q a o :
      EncodeSetupCommRequest 1 1 1 480 = Ok q -> setup_reply a o ->
      setup_exchange [Checked None; Sent q None; Got (inr a)] o.

(** An answer that confirms a query: an SZL list for it. *)
Definition confirms (a : bytes) : Prop :=
  exists hdr rest szl, replies 2 a hdr rest /\
    ParseSZLResponse (take (Z.to_nat (DataLength hdr)) (drop (Z.to_nat (ParamLength hdr)) rest)) = Ok szl.

(** The queries one after the other, up to the first that is confirmed. *)
Inductive queries : list (Z * ConfirmationKind) -> list seen -> option ConfirmationKind -> Prop :=
  | query_none : queries [] [] None
  | query_confirmed id k qs a :
      confirms a -> queries ((id, k) :: qs) [Sent (EncodeSZLRequest 2 id 0) None; Got (inr a)] (Some k)
  | query_denied id k qs a log o :
      ~ confirms a -> queries qs log o ->
      queries ((id, k) :: qs) (Sent (EncodeSZLRequest 2 id 0) None :: Got (inr a) :: log) o
  | query_unanswered id k qs e log o :
      queries qs log o -> queries ((id, k) :: qs) (Sent (EncodeSZLRequest 2 id 0) None :: Got (inl e) :: log) o
  | query_unsent id k qs e log o :
      queries qs log o -> queries ((id, k) :: qs) (Sent (EncodeSZLRequest 2 id 0) (Some e) :: log) o.

(** The queries of a strategy, each with what it confirms by. *)
Definition strategy_queries (strategy : ConfirmationKind) : list (Z * ConfirmationKind) :=
  if String.eqb strategy ConfirmSZL then [(SZLModuleID, ConfirmSZL)]
  else if String.eqb strategy ConfirmCPUState then [(SZLCPUState, ConfirmCPUState)]
  else if String.eqb strategy ConfirmAny
       then [(SZLModuleID, ConfirmSZL); (SZLCPUState, ConfirmCPUState); (SZLProtectionInfo, ConfirmAny)]
  else [].

Definition local_tsap (req : RackSlotProbeRequest) : res Z :=
  match pq_LocalTSAP req with Some t => Ok t | None => BuildTSAP 1 0 0 end.
(** The TSAP of the request, or the one for the pair. *)
Definition remote_tsap (req : RackSlotProbeRequest) (rack slot : Z) : res Z :=
  match pq_RemoteTSAP req with Some t => Ok t | None => BuildTSAP 3 rack slot end.

(** Stage, status, PDU size, confirmation and confidence of a probe with the
    TSAPs [l] and [r]. *)
Section Told.
Variables (req : RackSlotProbeRequest) (l r : Z).

Definition address : string := JoinHostPort (pq_Address req) (dec (pq_Port req)).
(** A COTP connection: opened, what happens on it, closed. *)
Definition connected_log (log : list seen) : list seen :=
  [Dialed address None; Handshaken (tsapSelector l) (tsapSelector r) None] ++ log ++ [Shut].

Inductive told : list seen -> ProbeStage * ProbeStatus * Z * ConfirmationKind * Confidence -> Prop :=
  | told_dial e :
      told [Dialed address (Some e)] (ProbeStageTCP, timed e StatusUnreachable, 0, "", ConfidenceNone)
  | told_handshake e :
      told [Dialed address None; Handshaken (tsapSelector l) (tsapSelector r) (Some e)]
        (ProbeStageCOTP, timed e StatusTCPOnly, 0, "", ConfidenceNone)
  | told_setup log status :
      setup_exchange log (inl status) -> told (connected_log log) (ProbeStageSetup, status, 0, "", ConfidenceNone)
  | told_accepted log size :
      pq_Strict req = false -> setup_exchange log (inr size) ->
      told (connected_log log) (ProbeStageSetup, StatusSetupOnly, size, "", ConfidenceLow)
  | told_confirmed log size log' k :
      pq_Strict req = true -> setup_exchange log (inr size) -> queries (strategy_queries (pq_Confirm req)) log' (Some k) ->
      told (connected_log (log ++ log')) (ProbeStageQuery, StatusValidQuery, size, k, ConfidenceHigh)
  | told_unconfirmed log size log' :
      pq_Strict req = true -> setup_exchange log (inr size) -> queries (strategy_queries (pq_Confirm req)) log' None ->
      told (connected_log (log ++ log')) (ProbeStageQuery, StatusValidConnect, size, "", ConfidenceLow).
End Told.

Definition row (c : RackSlotCandidate) : ProbeStage * ProbeStatus * Z * ConfirmationKind * Confidence :=
  (cd_Stage c, cd_Status c, cd_PDUSize c, cd_ConfirmedBy c, cd_Confidence c).

(** The candidate that a log of the probe of [rack] and [slot] amounts to; a
    pair without a TSAP is rejected before anything is dialled. *)
Definition candidate_told (req : RackSlotProbeRequest) (rack slot : Z) (log : list seen) (c : RackSlotCandidate) : Prop :=
  cd_Rack c = rack /\ cd_Slot c = slot /\
  match local_tsap req, remote_tsap req rack slot with
  | Ok l, Ok r => cd_LocalTSAP c = l /\ cd_RemoteTSAP c = r /\ told req l r log (row c)
  | _, _ => log = [] /\ row c = ("", StatusRejected, 0, "", ConfidenceNone)
  end.

(** ** Logs of operations *)

Section Shows.
Context {W : Type} `{!Transport W}.

(** [m] appends to the log a list that satisfies [L] together with the result. *)
Definition shows {A} (m : M (Observed W) A) (L : res A -> list seen -> Prop) : Prop :=
  forall st, exists new, ob_seen (m st).2.2 = ob_seen st.2 ++ new /\ L (m st).1 new.

Lemma shows_weaken {A} (m : M (Observed W) A) (L L' : res A -> list seen -> Prop) :
  shows m L -> (forall r n, L r n -> L' r n) -> shows m L'.
Proof. intros H HL st. destruct (H st) as (n & Hn & Hl). exists n. auto. Qed.

Lemma shows_lift {A} (r : res A) (L : res A -> list seen -> Prop) : L r [] -> shows (lift r) L.
Proof. intros H st. exists []. by rewrite app_nil_r. Qed.

Lemma shows_ret {A} (a : A) (L : res A -> list seen -> Prop) : L (Ok a) [] -> shows (mret a) L.
Proof. apply shows_lift. Qed.

Lemma shows_bind {A B} (m : M (Observed W) A) (k : A -> M (Observed W) B) L1 (L : res B -> list seen -> Prop) :
  shows m L1 -> (forall a n1, L1 (Ok a) n1 -> shows (k a) (fun r n2 => L r (n1 ++ n2))) ->
  (forall e n, L1 (Err e) n -> L (Err e) n) -> (forall n, L1 Panic n -> L Panic n) -> shows (m ≫= k) L.
Proof.
  intros Hm Hk He Hp st. destruct (Hm st) as (n1 & Hn1 & HL). rewrite bind_run.
  destruct (m st) as [[a|e|] st1]; simpl in Hn1, HL; [|exists n1; simpl; by auto..].
  destruct (Hk a n1 HL st1) as (n2 & Hn2 & HL2). exists (n1 ++ n2). rewrite Hn2, Hn1, app_assoc. by split.
Qed.

Lemma shows_attempt {A} (m : M (Observed W) A) L :
  shows m L ->
  shows (attempt m) (fun r n => match r with Ok (inr a) => L (Ok a) n | Ok (inl e) => L (Err e) n
                                           | Err _ => False | Panic => L Panic n end).
Proof. intros Hm st. destruct (Hm st) as (n & Hn & HL). exists n. unfold attempt. by destruct (m st) as [[]]. Qed.

(** After a part that returns a value. *)
Lemma shows_then {A B} (m : M (Observed W) A) (k : A -> M (Observed W) B) (P : A -> list seen -> Prop) (L : res B -> list seen -> Prop) :
  shows m (fun r n => exists a, r = Ok a /\ P a n) -> (forall a n1, P a n1 -> shows (k a) (fun r n2 => L r (n1 ++ n2))) ->
  shows (m ≫= k) L.
Proof.
  intros Hm Hk. eapply shows_bind; [exact Hm|..].
  - intros a n1 (a' & [= <-] & Hp). by apply Hk.
  - by intros e n (a' & ? & _).
  - by intros n (a' & ? & _).
Qed.

(** One call, its result as a value. *)
Definition result_of {A} (x : error + A) : res A := match x with inr a => Ok a | inl e => Err e end.

Lemma shows_call {A} note (f : W -> (error + A) * W) :
  shows (call (noting note f)) (fun r n => exists x w w', f w = (x, w') /\ r = result_of x /\ n = note x).
Proof.
  intros [c w]. unfold call, noting. simpl. destruct (f (ob_env w)) as [x w'] eqn:E.
  exists (note x). destruct x; (split; [done|]); by eexists _, _, _.
Qed.

Lemma shows_attempt_call {A} note (f : W -> (error + A) * W) :
  shows (attempt (call (noting note f))) (fun r n => exists x, r = Ok x /\ n = note x /\ exists w w', f w = (x, w')).
Proof.
  eapply shows_weaken; [apply shows_attempt, shows_call|].
  intros [[e|a]|e|] n; [intros (x & w & w' & E & Hr & Hn)..| |]; [| |done|]; [destruct x; simplify_eq/=; by eauto 10..|].
  intros (x & w & w' & _ & Hr & _). by destruct x.
Qed.

Lemma shows_observe {A} note (f : W -> A * W) :
  shows (observe (noting note f)) (fun r n => exists x, r = Ok x /\ n = note x).
Proof.
  intros [c w]. unfold observe, noting. simpl. destruct (f (ob_env w)) as [x w'].
  exists (note x). split; [done|]. by eexists.
Qed.

Lemma shows_attempt_lift {A} (r : res A) :
  no_panic r -> shows (attempt (lift r)) (fun r' n => exists x, r' = Ok x /\ n = [] /\ r = result_of x).
Proof.
  intros Hr. eapply shows_weaken; [apply shows_attempt, (shows_lift r (fun r' n => r' = r /\ n = []))|]; [done|].
  intros [[e|a]|e|] n; [intros [<- ->]; by eexists..|done|]. by intros [<- _].
Qed.
End Shows.

(** ** The probe *)

Section ProbeShows.
Context {W : Type} `{!Transport W}.
Hypothesis Hfit : answers_fit (W := W).

#[local] Abbreviation shows m L := (shows (W := W) m L).
#[local] Ltac network := cbn [t_dial t_cotpConnect t_WriteTSDU t_ReadTSDU t_Close t_ctxErr observed_transport].

(** The outcome of one query, and its log. *)
Definition query_log (id : Z) (ok : bool) (n : list seen) : Prop :=
  let q := EncodeSZLRequest 2 id 0 in
  if ok then exists a, confirms a /\ n = [Sent q None; Got (inr a)]
  else (exists e, n = [Sent q (Some e)]) \/ (exists e, n = [Sent q None; Got (inl e)]) \/
       (exists a, ~ confirms a /\ n = [Sent q None; Got (inr a)]).

(** The data section of an answer that fits a TSDU. *)
Lemma answer_section a hdr rest :
  len a <= maxTSDU -> ParseS7Header a = Ok (hdr, rest) ->
  ParamLength hdr + DataLength hdr <= len rest /\
  slice rest (ParamLength hdr) (u16 (ParamLength hdr + DataLength hdr)) =
    Ok (take (Z.to_nat (DataLength hdr)) (drop (Z.to_nat (ParamLength hdr)) rest)).
Proof.
  unfold maxTSDU. intros Ha Hp.
  apply ParseS7Header_sound in Hp as (r0 & r1 & -> & _ & _ & Hpl & Hdl & Hrest & _).
  rewrite !length_app, !length_put16 in Ha. simpl length in Ha.
  unfold is_u16 in *. rewrite u16_small by (unfold is_u16; lia). split; [lia|]. rewrite slice_ok by lia. f_equal. f_equal. lia.
Qed.

Lemma shows_trySZL ctx conn id :
  shows (trySZL ctx conn 2 id) (fun r n => exists p, r = Ok p /\ query_log id p.1 n).
Proof.
  unfold trySZL, WriteTSDU, ReadTSDU. cbv zeta. network.
  eapply shows_then; [apply shows_attempt_call|]. intros [e|[]] n1 [-> _]; [apply shows_ret; eexists; split; [done|]; left; by eexists|].
  eapply shows_then; [apply shows_attempt_call|]. intros [e|a] n2 (-> & w & w' & E).
  { apply shows_ret. eexists. split; [done|]. right. left. by eexists. }
  apply Hfit in E. simpl err_of. simpl app.
  assert (Hno : ~ confirms a -> forall msg : string, exists p : bool * string, @Ok (bool * string) (false, msg) = Ok p /\
    query_log id p.1 [Sent (EncodeSZLRequest 2 id 0) None; Got (inr a)]).
  { intros Hc msg. eexists. split; [done|]. right. right. by exists a. }
  eapply shows_then; [apply shows_attempt_lift; auto with go|]. intros [e|[hdr rest]] n3 [-> Hp].
  { apply shows_ret, Hno. intros (h & r & s & (H & _) & _). by rewrite Hp in H. }
  simpl in Hp. destruct (answer_section a hdr rest E Hp) as [Hl Hs].
  assert (Hh : forall h r, ParseS7Header a = Ok (h, r) -> h = hdr /\ r = rest) by (intros h r H; rewrite Hp in H; by simplify_eq).
  case_if; b2p. { apply shows_ret, Hno. intros (h & r & s & (H & Hr & _) & _). by destruct (Hh _ _ H) as [-> ->]. }
  destruct (_ || _) eqn:Eb.
  { apply shows_ret, Hno. intros (h & r & s & (H & _ & H1 & H2) & _). destruct (Hh _ _ H) as [-> ->]. by rewrite H1, H2 in Eb. }
  b2p.
  case_if; b2p; [lia|]. rewrite Hs.
  eapply (shows_then _ _ (fun d n => n = [] /\ d = take (Z.to_nat (DataLength hdr)) (drop (Z.to_nat (ParamLength hdr)) rest))); [apply shows_lift; by eexists|].
  intros d n [-> ->].
  eapply shows_then; [apply shows_attempt_lift; auto with go|]. intros [e|szl] n4 [-> Hz]; apply shows_ret.
  - apply Hno. intros (h & r & s & (Hq & _) & H1). destruct (Hh _ _ Hq) as [-> ->]. by rewrite Hz in H1.
  - eexists. split; [done|]. exists a. split; [|done]. exists hdr, rest, szl. by repeat split.
Qed.

(** The first query of a list, whether it is confirmed or not. *)
Lemma query_log_hit id k qs n : query_log id true n -> queries ((id, k) :: qs) n (Some k).
Proof. intros (a & Ha & ->). by constructor. Qed.

Lemma query_log_miss id k qs n n' o : query_log id false n -> queries qs n' o -> queries ((id, k) :: qs) (n ++ n') o.
Proof. intros [(e & ->)|[(e & ->)|(a & Ha & ->)]] H; by constructor. Qed.

Definition confirmed_by (p : bool * ConfirmationKind * string) : option ConfirmationKind := if p.1.1 then Some p.1.2 else None.

Lemma shows_runFollowUp ctx conn strategy :
  shows (runFollowUp ctx conn 2 strategy)
    (fun r n => exists p, r = Ok p /\ queries (strategy_queries strategy) n (confirmed_by p)).
Proof.
  unfold runFollowUp, strategy_queries.
  case_if; [|case_if; [|case_if; [|apply shows_ret; eexists; split; [done | constructor]]]];
    (eapply shows_then; [apply shows_trySZL|intros [ok e] n Hn]).
  1, 2: apply shows_ret; eexists; (split; [done|]); destruct ok; [rewrite app_nil_r; by apply query_log_hit | apply query_log_miss; [done | constructor]].
  destruct ok; [apply shows_ret; eexists; split; [done|]; rewrite app_nil_r; by apply query_log_hit|].
  eapply shows_then; [apply shows_trySZL|intros [ok e'] n' Hn'].
  destruct ok; [apply shows_ret; eexists; split; [done|]; rewrite app_nil_r; apply query_log_miss; [done|]; by apply query_log_hit|].
  eapply shows_then; [apply shows_trySZL|intros [ok e''] n'' Hn''].
  apply shows_ret. eexists. split; [done|]. rewrite app_nil_r. do 2 (apply query_log_miss; [done|]).
  destruct ok; [by apply query_log_hit|]. rewrite <- (app_nil_r n''). apply query_log_miss; [done | constructor].
Qed.

(** Errors of the parsers, as the setup wraps them. *)
Lemma setup_failure_wrapped pre e s :
  setup_failure (errorf1 pre (Join [e; Sentinel s]) "") =
    if isProbeTimeout e || bool_decide (s = ContextDeadlineExceeded) then StatusTimeout
    else match errors_As_S7Error e with Some _ => StatusRejected | None => StatusCOTPOnly end.
Proof.
  unfold setup_failure, timed, isProbeTimeout, errorf1. simpl. rewrite !orb_false_r.
  destruct (errors_Is e ContextDeadlineExceeded), (errors_net_Timeout e), s; simpl; try done; by destruct (errors_As_S7Error e).
Qed.

Lemma bind_Err_cases {A B} (m : res A) (k : A -> res B) e :
  m ≫= k = Err e -> m = Err e \/ exists a, m = Ok a /\ k a = Err e.
Proof. destruct m; [intros H; right; by eexists | intros [= ->]; by left | done]. Qed.

Lemma word_not_Err (l : bytes) i j e : 0 <= i -> j = i + 2 -> (slice l i j ≫= Uint16) <> Err e.
Proof.
  intros Hi ->. rewrite slice_Uint16 by lia.
  intros [H|(a & _ & [H|(b & _ & H)]%bind_Err_cases)]%bind_Err_cases; [by apply idx_not_Err in H..|done].
Qed.

(** None of the errors of [ParseS7Header] is a timeout or an S7 error. *)
Lemma ParseS7Header_error a e :
  ParseS7Header a = Err e -> isProbeTimeout e = false /\ errors_As_S7Error e = None.
Proof.
  unfold ParseS7Header. case_if; [by intros [= <-]|].
  intros [H|(b0 & _ & H)]%bind_Err_cases; [by apply idx_not_Err in H|]. case_if_in H; [by injection H as <-|].
  apply bind_Err_cases in H as [H|(b1 & _ & H)]; [by apply idx_not_Err in H|].
  do 4 (apply bind_Err_cases in H as [H|(? & _ & H)]; [by apply word_not_Err in H; [|lia..]|]).
  apply bind_Err_cases in H as [H|([[c k] o] & _ & H)].
  { case_if_in H; [|done]. case_if_in H; [by injection H as <-|].
    apply bind_Err_cases in H as [H|(? & _ & [H|(? & _ & H)]%bind_Err_cases)]; by try apply idx_not_Err in H. }
  apply bind_Err_cases in H as [H|(rest & _ & H)]; [unfold slice_from, slice in H; by case_if_in H|].
  case_if_in H; [by injection H as <- | done].
Qed.

Lemma ParseSetupCommResponse_cases d :
  match ParseSetupCommResponse d with
  | Ok _ => exists t, d = FuncSetupComm :: t
  | Err e => (exists m, e = S7Error x00 x00 m) /\ (len d < 8 \/ head d <> Some FuncSetupComm)
  | Panic => False
  end.
Proof.
  unfold ParseSetupCommResponse. case_if; b2p; [split; [by eexists | by left]|].
  destruct d as [|b d]; [simpl in *; lia|]. change (idx (b :: d) 0) with (Ok b). rewrite bind_Ok.
  case_if; b2p; [split; [by eexists | right; simpl; congruence]|]. subst b.
  destruct (Uint16_slice_ok (FuncSetupComm :: d) 2 4) as (v1 & -> & _); [lia..|].
  destruct (Uint16_slice_ok (FuncSetupComm :: d) 4 6) as (v2 & -> & _); [lia..|].
  destruct (Uint16_slice_ok (FuncSetupComm :: d) 6 8) as (v3 & -> & _); [lia..|]. by eexists.
Qed.

(** A setup that went through, or failed, and its log. *)
Definition setup_log (r : res SetupCommResponse) (n : list seen) : Prop :=
  (exists s, r = Ok s /\ setup_exchange n (inr (PDUSize s))) \/ (exists e, r = Err e /\ setup_exchange n (inl (setup_failure e))).

(** What [performS7Setup] makes of an answer. *)
Lemma setup_answer q a hdr rest (r : res SetupCommResponse) :
  EncodeSetupCommRequest 1 1 1 480 = Ok q -> replies 1 a hdr rest ->
  match ParseSetupCommResponse rest with
  | Ok s => r = Ok s
  | Err e => r = Err (errorf1 "parse setup response: " (Join [e; Sentinel ErrProtocolFailure]) "") /\
             (rest = [] \/ head rest = Some FuncSetupComm)
  | Panic => True
  end -> setup_log r [Checked None; Sent q None; Got (inr a)].
Proof.
  intros Hq Ha Hr. pose proof (ParseSetupCommResponse_cases rest) as Hc.
  destruct (ParseSetupCommResponse rest) as [s|e|] eqn:E; [|..|done].
  - left. exists s. split; [done|]. apply setup_answered; [done|]. by eapply reply_accepted.
  - destruct Hr as [-> Hh], Hc as [[m ->] Hl]. right. eexists. split; [done|]. apply setup_answered; [done|].
    rewrite setup_failure_wrapped. simpl. eapply reply_truncated; [done..|].
    destruct Hh as [->|Hh]; [simpl; lia | by destruct Hl].
Qed.

Lemma shows_performS7Setup ctx conn : is_nil ctx = false -> shows (performS7Setup ctx conn 1 1 1 480) setup_log.
Proof.
  intros Hn. unfold performS7Setup, check_ctx, ctx_Err, WriteTSDU, ReadTSDU. rewrite Hn. network.
  assert (Hfail : forall e n, setup_exchange n (inl (setup_failure e)) -> setup_log (Err e) n) by (intros e n H; right; by eexists).
  assert (Hq : exists q, EncodeSetupCommRequest 1 1 1 480 = Ok q) by (eexists; vm_compute; reflexivity).
  destruct Hq as [q Hq]. rewrite Hq.
  eapply (shows_bind _ _ (fun r n => match r with Ok _ => n = [Checked None] | Err e => n = [Checked (Some e)] | Panic => False end)).
  { eapply shows_then; [apply shows_observe|]. intros [e|] n ->; [by apply shows_lift | by apply shows_ret]. }
  2: { intros e n ->. apply Hfail. constructor. }
  2: done.
  intros _ n ->.
  eapply (shows_then _ _ (fun x n => n = [] /\ x = inr q)); [apply shows_lift; by eexists|]. intros ? n [-> ->].
  eapply shows_bind; [apply shows_call|..]; [|intros e n ([e'|] & w & w' & _ & [= <-] & ->); by apply Hfail, setup_unsent | by intros n ([] & w & w' & _ & ? & _)].
  intros [] n ([|] & w & w' & _ & [= <-] & ->).
  eapply shows_bind; [apply shows_call|..]; [|intros e n ([e'|] & w1 & w1' & _ & [= <-] & ->); by apply Hfail, setup_unanswered | by intros n ([] & w1 & w1' & _ & ? & _)].
  intros a n ([|] & w1 & w1' & _ & [= <-] & ->). simpl app.
  eapply shows_then; [apply shows_attempt_lift; auto with go|]. intros [e|[hdr rest]] n [-> Hp]; simpl in Hp.
  { apply shows_lift, Hfail, setup_answered; [done|]. rewrite setup_failure_wrapped.
    destruct (ParseS7Header_error a e Hp) as [-> ->]. simpl. by eapply reply_garbled. }
  case_if; b2p; [apply shows_lift, Hfail, setup_answered; [done|]; by eapply reply_stray|].
  destruct (_ || _) eqn:Eb.
  { destruct (NewS7ErrorWithParam_ok (ErrorClass hdr) (ErrorCode hdr) rest) as (m & ->).
    eapply (shows_then _ _ (fun x n => n = [] /\ x = S7Error (ErrorClass hdr) (ErrorCode hdr) m)); [apply shows_lift; by eexists|].
    intros ? n [-> ->]. apply shows_lift, Hfail, setup_answered; [done|]. eapply reply_refused; [done..|].
    intros [= H1 H2]. by rewrite H1, H2 in Eb. }
  b2p. assert (Hr : replies 1 a hdr rest) by (by repeat split).
  destruct rest as [|b rest].
  - eapply (shows_then _ _ (fun x n => n = [] /\ x = None)); [apply shows_lift; by eexists|]. intros ? n [-> ->].
    eapply (shows_then _ _ (fun x n => n = [])); [apply shows_ret; by eexists|]. intros ? n ->.
    eapply shows_then; [apply shows_attempt_lift; auto with go|]. intros [e|s] n [-> Hs]; simpl in Hs; apply shows_lift;
      (eapply setup_answer; [done..|]; rewrite Hs); [split; [done | by left] | done].
  - eapply (shows_then _ _ (fun x n => n = [] /\ x = Some b)); [apply shows_lift; by eexists|]. intros ? n [-> ->].
    case_if; b2p.
    + eapply shows_bind; [apply (shows_lift _ (fun r n => n = [] /\ exists m, r = Err (errorf1 m (Sentinel ErrProtocolFailure) ""))); split; [done | by eexists]|..].
      * by intros ? n (_ & ? & ?).
      * intros e n (-> & m & [= ->]). apply Hfail, setup_answered; [done|]. by eapply reply_other.
      * by intros n (_ & ? & ?).
    + eapply (shows_then _ _ (fun x n => n = [])); [apply shows_ret; by eexists|]. intros ? n ->. subst b.
      eapply shows_then; [apply shows_attempt_lift; auto with go|]. intros [e|s] n [-> Hs]; simpl in Hs; apply shows_lift;
        (eapply setup_answer; [done..|]; rewrite Hs); [split; [done | by right] | done].
Qed.

Lemma shows_dialTCP ctx addr timeout :
  shows (dialTCP ctx addr timeout) (fun r n => match r with
    | Ok _ => n = [Dialed addr None]
    | Err e => exists e', n = [Dialed addr (Some e')] /\ isProbeTimeout e = isProbeTimeout e'
    | Panic => False end).
Proof.
  unfold dialTCP. cbv zeta. network. eapply shows_then; [apply shows_attempt_call|]. intros [e|raw] n [-> _]; [|by apply shows_ret].
  apply shows_lift. exists e. split; [done|]. unfold isProbeTimeout, errorf1. simpl. by rewrite !orb_false_r.
Qed.

Variable ctx : Ctx.
Hypothesis Hctx : is_nil ctx = false.
Variable req : RackSlotProbeRequest.

Lemma withOptionalTimeout_ok d : exists ctx', withOptionalTimeout ctx d = Ok ctx' /\ is_nil ctx' = false.
Proof. unfold withOptionalTimeout. rewrite Hctx. case_if; by eexists. Qed.

(** What happens on the COTP connection. *)
Definition setup_told (l r : Z) (log : list seen) (c : RackSlotCandidate) : Prop :=
  cd_LocalTSAP c = l /\ cd_RemoteTSAP c = r /\ told req l r (connected_log req l r log) (row c).

Lemma shows_probeSetup rack slot l r conn :
  shows (probeSetup ctx req rack slot l r conn) (fun x n => exists c, x = Ok c /\
    cd_Rack c = rack /\ cd_Slot c = slot /\ setup_told l r n c).
Proof.
  unfold probeSetup, setup_told. cbv zeta. destruct (withOptionalTimeout_ok (pq_Timeout req)) as (ctx' & E & Hn). rewrite E.
  eapply (shows_then _ _ (fun x n => n = [] /\ x = ctx')); [apply shows_lift; by eexists|]. intros ? n [-> ->]. simpl app.
  eapply (shows_then _ _ (fun x n => match x with inl e => setup_exchange n (inl (setup_failure e)) | inr s => setup_exchange n (inr (PDUSize s)) end)).
  { eapply shows_weaken; [by apply shows_attempt, shows_performS7Setup|]. unfold setup_log.
    intros [[e|s]|e|] n; [..|done|]; intros; naive_solver. }
  intros [e|s] n Hs.
  { apply shows_ret. eexists. split; [done|]. rewrite app_nil_r. split_and!; try done. by apply told_setup. }
  destruct (pq_Strict req) eqn:Es; simpl negb; cbv iota.
  2: { apply shows_ret. eexists. split; [done|]. rewrite app_nil_r. split_and!; try done. by apply told_accepted. }
  eapply (shows_then _ _ (fun x n => n = [] /\ x = ctx')); [apply shows_lift; by eexists|]. intros ? n' [-> ->]. simpl app.
  eapply shows_then; [apply shows_runFollowUp|]. intros [[ok k] msg] n' Hk.
  apply shows_ret. eexists. split; [done|]. rewrite app_nil_r. destruct ok; (split_and!; try done);
    [by eapply told_confirmed | by eapply told_unconfirmed].
Qed.

Lemma no_panic_tsap o t a b : no_panic (match o : option Z with Some x => mret x | None => BuildTSAP t a b end).
Proof. destruct o; [np | apply no_panic_BuildTSAP]. Qed.

Lemma shows_closeCOTP conn : shows (attempt (closeCOTP (Some conn))) (fun x n => exists a, x = Ok a /\ n = [Shut]).
Proof.
  eapply shows_weaken; [apply (shows_attempt _ (fun r n => r <> Panic /\ n = [Shut]))|].
  { unfold closeCOTP. network. eapply shows_then; [apply shows_observe|]. intros [e|] n ->; [case_if|]; by apply shows_lift. }
  intros [[e|a]|e|] n; naive_solver.
Qed.

Lemma shows_probeOne rack slot :
  shows (probeOne ctx req rack slot) (fun x n => exists c, x = Ok c /\ candidate_told req rack slot n c).
Proof.
  unfold probeOne, candidate_told. cbv zeta.
  eapply shows_then; [apply shows_attempt_lift, no_panic_tsap|]. intros [e|l] n [-> Hl];
    rewrite (Hl : local_tsap req = _); simpl result_of; cbv iota; [apply shows_ret; by eexists|].
  eapply shows_then; [apply shows_attempt_lift, no_panic_tsap|]. intros [e|r] n [-> Hr];
    rewrite (Hr : remote_tsap req rack slot = _); simpl result_of; cbv iota; [apply shows_ret; by eexists|].
  simpl app. fold (address req).
  eapply shows_bind; [apply shows_attempt, shows_dialTCP|..]; cbv beta; [|done..]. intros [e|raw] n Hd.
  { destruct Hd as (e' & -> & He). apply shows_ret. eexists. split; [done|]. split_and!; try done.
    simpl. unfold row. simpl. rewrite He. constructor. }
  subst n. unfold connectCOTP. network.
  eapply shows_then; [apply shows_attempt_call|]. intros [e|conn] n [-> _].
  { apply shows_ret. eexists. split; [done|]. split_and!; try done. constructor. }
  simpl app. eapply shows_then; [apply shows_probeSetup|]. intros c n (H1 & H2 & H3 & H4 & H5).
  eapply shows_then; [apply shows_closeCOTP|]. intros _ n' ->. apply shows_ret. exists c. split; [done|].
  rewrite app_nil_r. split_and!; try done.
Qed.
End ProbeShows.
