(* ===== verification/ProbeProps.v ===== *)
(** * Properties of the probes (client/probe.go)

    What one probe can report and send, and what the result of a whole scan
    says, for every behaviour of the network and every interleaving of the
    goroutines. *)

From S2P Require Import Prelude Go WireErrors Header Client Userdata Triple Safety Trace Pool Probe ProbeSeen.

(** ** One candidate *)

(** The rows a candidate can be: stage, status, PDU size, confirmation and
    confidence. *)
Inductive classification (strict : bool) : ProbeStage -> ProbeStatus -> Z -> ConfirmationKind -> Confidence -> Prop :=
  | cl_tsap : classification strict "" StatusRejected 0 "" ConfidenceNone
  | cl_tcp s : s ∈ [StatusUnreachable; StatusTimeout] -> classification strict ProbeStageTCP s 0 "" ConfidenceNone
  | cl_cotp s : s ∈ [StatusTCPOnly; StatusTimeout] -> classification strict ProbeStageCOTP s 0 "" ConfidenceNone
  | cl_setup s :
      s ∈ [StatusCOTPOnly; StatusRejected; StatusTimeout] -> classification strict ProbeStageSetup s 0 "" ConfidenceNone
  | cl_accepted size : strict = false -> classification strict ProbeStageSetup StatusSetupOnly size "" ConfidenceLow
  | cl_connect size : strict = true -> classification strict ProbeStageQuery StatusValidConnect size "" ConfidenceLow
  | cl_query size k :
      strict = true -> k ∈ [ConfirmSZL; ConfirmCPUState; ConfirmAny] ->
      classification strict ProbeStageQuery StatusValidQuery size k ConfidenceHigh.

Definition candidate_ok (req : RackSlotProbeRequest) (rack slot : Z) (c : RackSlotCandidate) : Prop :=
  cd_Rack c = rack /\ cd_Slot c = slot /\
  classification (pq_Strict req) (cd_Stage c) (cd_Status c) (cd_PDUSize c) (cd_ConfirmedBy c) (cd_Confidence c) /\
  (cd_Stage c <> "" -> remote_tsap req rack slot = Ok (cd_RemoteTSAP c)).

Section Probe.
Context {W : Type} `{!Transport W}.
Hypothesis Hfit : answers_fit (W := W).
Variable ctx : Ctx.
Hypothesis Hctx : is_nil ctx = false.
Variable req : RackSlotProbeRequest.

Abbreviation ok m := (safe (counter_ok (W := W)) m (fun _ => True)).
Abbreviation gives m Q := (total (counter_ok (W := W)) m Q).

Lemma gives_attempt {A} (m : M W A) : ok m -> gives (attempt m) (fun _ => True).
Proof. intros H. eapply triple_conseq; [by apply total_attempt | done|]. by intros [a| |] st; [intros [? _]|..]. Qed.

(** A response that a TSDU can hold does not reach the wrapping slice. *)
Lemma response_slice a hdr rest :
  len a <= maxTSDU -> ParseS7Header a = Ok (hdr, rest) -> ParamLength hdr + DataLength hdr <= len rest ->
  no_panic (slice rest (ParamLength hdr) (u16 (ParamLength hdr + DataLength hdr))).
Proof.
  unfold maxTSDU. intros Ha Hp Hl.
  apply ParseS7Header_sound in Hp as (r0 & r1 & -> & _ & _ & Hpl & Hdl & Hrest & _).
  rewrite !length_app, !length_put16 in Ha. simpl length in Ha.
  unfold is_u16 in *. rewrite u16_small by (unfold is_u16; lia). apply no_panic_slice; lia.
Qed.

Lemma gives_trySZL ctx' conn ref id :
  is_nil ctx' = false -> gives (trySZL ctx' conn ref id) (fun _ => True).
Proof.
  intros Hn. unfold trySZL. cbv zeta.
  eapply total_bind; [apply gives_attempt, ok_call|]. intros [e|[]] _; [by apply total_ret|].
  eapply total_bind; [apply (total_attempt _ _ (fun a => len a <= maxTSDU)), safe_call; [done|]; intros w a w' E; by eapply Hfit|].
  intros [e|a] Ha; [by apply total_ret|]. cbv iota.
  eapply total_bind.
  { apply (total_attempt _ _ (fun p => ParseS7Header a = Ok p)). apply safe_lift; [auto with go | done]. }
  intros [e|[hdr rest]] Hp; [by apply total_ret|]. cbv iota beta in Ha |- *.
  case_if; [by apply total_ret|]. case_if; [by apply total_ret|]. case_if; [by apply total_ret|]. b2p.
  destruct (slice rest (ParamLength hdr) (u16 (ParamLength hdr + DataLength hdr))) as [d|e|] eqn:E.
  - eapply total_bind; [by apply (total_lift _ _ d (fun _ => True))|]. intros d' _.
    eapply total_bind; [apply gives_attempt, ok_lift; auto with go|]. intros [e|r] _; by apply total_ret.
  - unfold slice in E. by case_if_in E.
  - exfalso. by eapply response_slice; [apply Ha | apply Hp | lia | apply E].
Qed.

(** A follow-up that succeeded names its strategy. *)
Lemma gives_runFollowUp ctx' conn ref strategy :
  is_nil ctx' = false ->
  gives (runFollowUp ctx' conn ref strategy)
    (fun p => p.1.1 = true -> p.1.2 ∈ [ConfirmSZL; ConfirmCPUState; ConfirmAny]).
Proof.
  intros Hn. unfold runFollowUp.
  case_if; [|case_if; [|case_if; [|by apply total_ret]]];
    (eapply total_bind; [by apply gives_trySZL|intros [ok e] _]).
  1, 2: destruct ok; apply total_ret; simpl; [set_solver + | done].
  destruct ok; [apply total_ret; simpl; set_solver +|].
  eapply total_bind; [by apply gives_trySZL|]. intros [ok e'] _. destruct ok; [apply total_ret; simpl; set_solver +|].
  eapply total_bind; [by apply gives_trySZL|]. intros [ok e''] _. destruct ok; apply total_ret; simpl; [set_solver + | done].
Qed.

Lemma gives_probeSetup rack slot l r conn :
  remote_tsap req rack slot = Ok r ->
  gives (probeSetup ctx req rack slot l r conn) (candidate_ok req rack slot).
Proof.
  intros Hr. unfold probeSetup. cbv zeta.
  destruct (withOptionalTimeout_ok ctx Hctx (pq_Timeout req)) as (ctx' & E & Hn). rewrite E.
  eapply total_bind; [by apply (total_lift _ _ ctx' (fun c => c = ctx'))|]. intros ? ->.
  eapply total_bind; [by apply gives_attempt, (ok_performS7Setup ctx Hctx)|]. intros [e|setup] _.
  { apply total_ret. split; [done|]. split; [done|]. split; [|done]. apply cl_setup.
    destruct (isProbeTimeout e); [set_solver +|]. destruct (errors_As_S7Error e); set_solver +. }
  destruct (pq_Strict req) eqn:Es; simpl negb; cbv iota.
  2: { apply total_ret. split; [done|]. split; [done|]. split; [|done]. simpl. rewrite Es. by constructor. }
  eapply total_bind; [by apply (total_lift _ _ ctx' (fun c => c = ctx'))|]. intros ? ->.
  eapply total_bind; [by apply gives_runFollowUp|]. intros [[ok k] msg] Hk. simpl in Hk.
  apply total_ret. destruct ok; (split; [done|]; split; [done|]; split; [|done]); simpl; rewrite Es.
  - by apply cl_query; [|apply Hk].
  - by apply cl_connect.
Qed.

Lemma gives_probeOne rack slot : gives (probeOne ctx req rack slot) (candidate_ok req rack slot).
Proof.
  unfold probeOne. cbv zeta.
  eapply total_bind; [apply gives_attempt, ok_lift, no_panic_tsap|]. intros [e|l] _.
  { apply total_ret. split; [done|]. split; [done|]. split; [constructor | done]. }
  eapply total_bind.
  { apply (total_attempt _ _ (fun r => remote_tsap req rack slot = Ok r)).
    apply safe_lift; [apply no_panic_tsap | done]. }
  intros [e|r] Hr; [apply total_ret; split; [done|]; split; [done|]; split; [constructor | done]|]. cbv iota.
  eapply total_bind.
  { apply gives_attempt. unfold dialTCP. cbv zeta. eapply safe_bind; [apply safe_attempt, ok_call|].
    intros [e|x] _; [apply safe_fail | by apply safe_ret]. }
  intros [e|raw] _.
  { apply total_ret. split; [done|]. split; [done|]. split; [|done]. apply cl_tcp. destruct (isProbeTimeout e); set_solver +. }
  eapply total_bind; [apply gives_attempt; unfold connectCOTP; apply ok_call|]. intros [e|conn] _.
  { apply total_ret. split; [done|]. split; [done|]. split; [|done]. apply cl_cotp. destruct (isProbeTimeout e); set_solver +. }
  eapply total_bind; [by apply gives_probeSetup|]. intros c Hc.
  eapply total_bind; [apply gives_attempt, ok_closeCOTP|]. intros _ _. by apply total_ret.
Qed.
End Probe.

(** ** What a probe sends *)

Section Sent.
Context {W : Type} `{!Transport W}.
Variables (k : option Conn) (size : Z).
Abbreviation emits m L := (Trace.emits (W := W) k size m L).
Abbreviation silent m := (Trace.silent (W := W) k size m).

Lemma silent_call {A} (f : W -> (error + A) * W) : silent (call (unlogged f)).
Proof.
  intros log [c w] Hst. exists []. rewrite app_nil_r. unfold call, unlogged. simpl.
  destruct (f (tr_env w)) as [[e|a] w']; by split.
Qed.

Lemma silent_observe {A} (f : W -> A * W) : silent (observe (unlogged f)).
Proof.
  intros log [c w] Hst. exists []. rewrite app_nil_r. unfold observe, unlogged. simpl.
  destruct (f (tr_env w)) as [a w']; by split.
Qed.

Lemma emits_WriteTSDU ctx conn req : emits (WriteTSDU ctx conn req) (fun _ n => n = [req]).
Proof.
  intros log [c w] Hst. exists [req]. unfold WriteTSDU, call. simpl.
  destruct (t_WriteTSDU ctx conn req (tr_env w)) as [[e|a] w']; simpl;
    (split; [|done]; destruct Hst as (? & ? & Hl); split; [done|]; split; [done|]; simpl in *; by rewrite Hl).
Qed.

Lemma silent_attempt {A} (m : M (Traced W) A) : silent m -> silent (attempt m).
Proof. intros H. eapply emits_weaken; [by apply emits_attempt|]. by intros [[e|a]| |] n. Qed.

Lemma silent_bind {A B} (m : M (Traced W) A) (f : A -> M (Traced W) B) :
  silent m -> (forall a, silent (f a)) -> silent (m ≫= f).
Proof. intros Hm Hf. by apply emits_silent_bind. Qed.

(** A bind after which nothing is sent keeps what was sent before. *)
Lemma emits_then_silent {A B} (m : M (Traced W) A) (f : A -> M (Traced W) B) (P : list bytes -> Prop) :
  emits m (fun _ n => P n) -> (forall a, silent (f a)) -> emits (m ≫= f) (fun _ n => P n).
Proof.
  intros Hm Hf. eapply emits_bind; [apply Hm | | done | done]. intros a n1 Hn1.
  eapply emits_weaken; [apply Hf|]. simpl. intros r n ->. by rewrite app_nil_r.
Qed.

Lemma emits_attempt_any {A} (m : M (Traced W) A) (P : list bytes -> Prop) :
  emits m (fun _ n => P n) -> emits (attempt m) (fun r n => P n).
Proof. intros H. eapply emits_weaken; [by apply emits_attempt|]. by intros [[e|a]| |] n. Qed.

(** One step of a silent goal. *)
Ltac quiet :=
  repeat (cbv beta iota zeta; first
    [ apply silent_bind; [|intros ?]
    | apply silent_attempt | apply silent_lift | apply silent_call | apply silent_observe | apply silent_check_ctx
    | match goal with |- context [if ?b then _ else _] => destruct b end
    | match goal with |- context [match ?x with _ => _ end] => destruct x end ]).

Lemma emits_trySZL ctx conn ref id :
  emits (trySZL ctx conn ref id) (fun _ n => n = [EncodeSZLRequest ref id 0]).
Proof.
  unfold trySZL. cbv zeta. apply (emits_then_silent _ _ (fun n => n = _)); [by apply (emits_attempt_any _ (fun n => n = _)), emits_WriteTSDU|].
  intros [e|[]]; [by apply emits_ret|]. apply silent_bind; [apply silent_attempt; unfold ReadTSDU; apply silent_call|].
  intros [e|a]; quiet; by apply emits_ret.
Qed.

(** At most three queries, all of them SZL reads. *)
Definition szl_query (ref : Z) (q : bytes) : Prop :=
  exists id, id ∈ [SZLModuleID; SZLCPUState; SZLProtectionInfo] /\ q = EncodeSZLRequest ref id 0.

Lemma emits_runFollowUp ctx conn ref strategy :
  emits (runFollowUp ctx conn ref strategy) (fun _ n => (length n <= 3)%nat /\ Forall (szl_query ref) n).
Proof.
  assert (Hone : forall id, id ∈ [SZLModuleID; SZLCPUState; SZLProtectionInfo] -> szl_query ref (EncodeSZLRequest ref id 0)).
  { intros id Hid. by exists id. }
  set (ids := [SZLModuleID; SZLCPUState; SZLProtectionInfo]) in *.
  assert (H1 : SZLModuleID ∈ ids) by set_solver +. assert (H2 : SZLCPUState ∈ ids) by set_solver +.
  assert (H3 : SZLProtectionInfo ∈ ids) by set_solver +.
  unfold runFollowUp. case_if; [|case_if; [|case_if]].
  1, 2: eapply (emits_then_silent _ _ (fun n => _ /\ _)); [|intros [[] e]; by apply emits_ret];
    eapply emits_weaken; [apply emits_trySZL|]; simpl; intros r n ->; split; [simpl; lia | by repeat constructor; apply Hone].
  2: by apply emits_ret; split; [simpl; lia | constructor].
  eapply emits_bind; [apply emits_trySZL|..]; simpl; [|intros; subst; split; [simpl; lia | by repeat constructor; apply Hone]..].
  intros [[] e] n1 ->; [apply emits_ret; split; [simpl; lia | by repeat constructor; apply Hone]|].
  eapply emits_bind; [apply emits_trySZL|..]; simpl; [|intros; subst; split; [simpl; lia | by repeat constructor; apply Hone]..].
  intros [[] e'] n2 ->; [apply emits_ret; split; [simpl; lia | by repeat constructor; apply Hone]|].
  eapply emits_bind; [apply emits_trySZL|..]; simpl; [|intros; subst; split; [simpl; lia | by repeat constructor; apply Hone]..].
  intros [[] e''] n3 ->; (apply emits_ret; split; [simpl; lia | by repeat constructor; apply Hone]).
Qed.

(** Nothing or the setup request. *)
Definition setup_requests (l : list bytes) : Prop :=
  l = [] \/ exists q, EncodeSetupCommRequest 1 1 1 480 = Ok q /\ l = [q].

(** A setup that succeeded has been sent. *)
Lemma emits_performS7Setup ctx conn :
  emits (performS7Setup ctx conn 1 1 1 480) (fun r l => setup_requests l /\ ((exists a, r = Ok a) -> l <> [])).
Proof.
  assert (H0 : forall r : res SetupCommResponse, (forall a, r <> Ok a) ->
    setup_requests [] /\ ((exists a, r = Ok a) -> @nil bytes <> [])).
  { intros r Hr. split; [by left|]. intros [a ->]. by destruct (Hr a). }
  unfold performS7Setup. apply emits_silent_bind; [apply silent_check_ctx| |by intros; apply H0..]. intros _.
  apply emits_attempt_lift; [intros q Hq|intros e _; by apply emits_fail, H0|by apply H0].
  eapply emits_weaken; [apply (emits_then_silent _ _ (fun n => n = [q])); [apply emits_WriteTSDU|]|].
  - intros []. apply silent_bind; [unfold ReadTSDU; apply silent_call|]. intros a. quiet; by apply emits_lift.
  - simpl. intros r n ->. split; [right; by exists q | done].
Qed.

(** All requests of a probe: the setup request, and in strict mode up to three
    SZL reads after it. *)
Definition probe_requests (strict : bool) (l : list bytes) : Prop :=
  exists setup queries, l = setup ++ queries /\ setup_requests setup /\
    (queries <> [] -> strict = true /\ setup <> []) /\ (length queries <= 3)%nat /\ Forall (szl_query 2) queries.

Lemma setup_probe_requests strict l : setup_requests l -> probe_requests strict l.
Proof.
  intros H. exists l, []. rewrite app_nil_r. split; [done|]. split; [done|]. split; [done|]. split; [simpl; lia | constructor].
Qed.

Lemma emits_probeSetup ctx req rack slot l r conn :
  emits (probeSetup ctx req rack slot l r conn) (fun _ n => probe_requests (pq_Strict req) n).
Proof.
  assert (H0 : probe_requests (pq_Strict req) []) by (apply setup_probe_requests; by left).
  unfold probeSetup. cbv zeta. apply emits_silent_bind; [apply silent_lift| |done..]. intros ctx'.
  eapply emits_bind; [apply emits_attempt, emits_performS7Setup|..]; cbv beta.
  2: by intros.
  2: { intros n [Hn _]. by apply setup_probe_requests. }
  intros [e|setup] n1 [Hn1 Hsent]; [apply emits_ret; rewrite app_nil_r; by apply setup_probe_requests|].
  specialize (Hsent ltac:(by eexists)).
  destruct (pq_Strict req); simpl negb; cbv iota; [|apply emits_ret; rewrite app_nil_r; by apply setup_probe_requests].
  apply emits_silent_bind; [apply silent_lift| |by intros; rewrite app_nil_r; apply setup_probe_requests..]. intros ctx2.
  apply (emits_then_silent _ _ (fun n2 => probe_requests true (n1 ++ n2))).
  - eapply emits_weaken; [apply emits_runFollowUp|]. simpl. intros x n [Hl HF]. by exists n1, n.
  - intros [[[] ?] ?]; by apply emits_ret.
Qed.

Lemma emits_probeOne ctx req rack slot :
  emits (probeOne ctx req rack slot) (fun _ n => probe_requests (pq_Strict req) n).
Proof.
  assert (H0 : probe_requests (pq_Strict req) []) by (apply setup_probe_requests; by left).
  unfold probeOne. cbv zeta.
  apply emits_silent_bind; [apply silent_attempt, silent_lift| |done..]. intros [e|l]; [by apply emits_ret|].
  apply emits_silent_bind; [apply silent_attempt, silent_lift| |done..]. intros [e|r]; [by apply emits_ret|].
  apply emits_silent_bind; [apply silent_attempt; unfold dialTCP; quiet; by apply emits_lift| |done..].
  intros [e|raw]; [by apply emits_ret|].
  apply emits_silent_bind; [apply silent_attempt; unfold connectCOTP; apply silent_call| |done..].
  intros [e|conn]; [by apply emits_ret|].
  apply (emits_then_silent _ _ (probe_requests (pq_Strict req))); [apply emits_probeSetup|].
  intros c. apply silent_bind; [|intros; by apply emits_ret]. apply silent_attempt. unfold closeCOTP.
  apply silent_bind; [apply silent_observe|]. intros [e|]; quiet; by apply emits_lift.
Qed.
End Sent.

(** ** The whole scan *)

Lemma zero_not_valid req : isValid req zeroCandidate = false.
Proof. unfold isValid. by destruct (pq_Strict req). Qed.

Lemma foldl_count (P : RackSlotCandidate -> bool) l n : foldl (fun n c => if P c then n + 1 else n) n l = n + len (List.filter P l).
Proof.
  revert n. induction l as [|c l IH]; intros n; simpl; [lia|]. rewrite IH. destruct (P c); simpl length; lia.
Qed.

Lemma count_if_filter P l : count_if P l = len (List.filter P l).
Proof. unfold count_if. rewrite foldl_count. lia. Qed.

Lemma filter_zero P l n :
  P zeroCandidate = false -> List.filter P (l ++ replicate n zeroCandidate) = List.filter P l.
Proof.
  intros H. rewrite List.filter_app. replace (List.filter P (replicate n zeroCandidate)) with (@nil RackSlotCandidate).
  { by rewrite app_nil_r. }
  induction n as [|n IH]; simpl; [done|]. by rewrite H.
Qed.

(** The stored candidates in front of the zero values. *)
Lemma probeResult_candidates req cs :
  (length cs <= length (dispatched req))%nat ->
  pr_Candidates (probeResult req ((Some <$> cs) ++ replicate (length (dispatched req) - length cs) None)) =
  cs ++ replicate (length (probeJobs req) - length cs) zeroCandidate.
Proof.
  intros Hl. unfold probeResult. cbn [pr_Candidates]. rewrite fmap_app, fmap_replicate.
  replace (default zeroCandidate <$> (Some <$> cs)) with cs by (rewrite <- list_fmap_compose; symmetry; apply list_fmap_id).
  cbn [default]. rewrite <- app_assoc, <- replicate_add. f_equal.
  assert (length (dispatched req) <= length (probeJobs req))%nat by (unfold dispatched; rewrite length_take; lia).
  rewrite !length_app, length_fmap, length_replicate. f_equal. lia.
Qed.

Lemma maxJobs_range req : 0 <= maxJobs req <= len (probeJobs req).
Proof. unfold maxJobs. case_if; b2p; lia. Qed.

Lemma parallelism_positive req : 1 <= pq_Parallelism (applyProbeDefaults req).
Proof.
  unfold applyProbeDefaults, by_mode. simpl. case_if; b2p; [|lia]. repeat case_if; lia.
Qed.

(** Every run of the pool stores candidates for the first pairs. *)
Section Scan.
Context {W : Type} `{!Transport W}.
Hypothesis Hfit : answers_fit (W := W).
Variable ctx : Ctx.
Hypothesis Hctx : is_nil ctx = false.

Lemma probeOutcome_ok req job c : probeOutcome (W := W) ctx req job c -> candidate_ok req job.1 job.2 c.
Proof.
  intros (w & st' & E).
  destruct (total_run _ _ _ (New (pq_Address req) [], w) (gives_probeOne Hfit ctx Hctx req job.1 job.2)) as (c' & st2 & E' & _ & H).
  { unfold counter_ok, client_pduRef_ok, is_u32. simpl. lia. }
  rewrite E in E'. by injection E' as <- _.
Qed.

Lemma probeOutcome_some (w : W) req job : exists c, probeOutcome (W := W) ctx req job c.
Proof.
  destruct (total_run _ _ _ (New (pq_Address req) [], w) (gives_probeOne Hfit ctx Hctx req job.1 job.2)) as (c & st' & E & _).
  { unfold counter_ok, client_pduRef_ok, is_u32. simpl. lia. }
  by exists c, w, st'.
Qed.

(** What a finished scan reports. *)
Definition scan_of (req : RackSlotProbeRequest) (cs : list RackSlotCandidate) (result : RackSlotProbeResult) : Prop :=
  (length cs <= length (dispatched req))%nat /\
  Forall2 (fun job c => candidate_ok req job.1 job.2 c) (take (length cs) (probeJobs req)) cs /\
  pr_Candidates result = cs ++ replicate (length (probeJobs req) - length cs) zeroCandidate /\
  pr_Valid result = List.filter (isValid req) cs /\
  pr_SetupAccepted result = len (List.filter setupSucceeded cs) /\
  pr_ConfirmedByQuery result = len (List.filter (has_status StatusValidQuery) cs) /\
  pr_TCPOnly result = len (List.filter (has_status StatusTCPOnly) cs) /\ pr_Flaky result = 0 /\
  pr_StoppedEarly result = negb (len (dispatched req) =? len (probeJobs req)).

(** No probe reports flaky. *)
Lemma no_flaky req jobs cs :
  Forall2 (fun job c => candidate_ok req job.1 job.2 c) jobs cs -> List.filter (has_status StatusFlaky) cs = [].
Proof.
  induction 1 as [|job c jobs cs (_ & _ & Hcl & _) _ IH]; [done|]. simpl. rewrite IH.
  replace (has_status StatusFlaky c) with false; [done|]. unfold has_status.
  destruct Hcl as [|s Hs|s Hs|s Hs| | |]; try done; by repeat (apply elem_of_cons in Hs as [->|Hs]; [done|]); apply not_elem_of_nil in Hs.
Qed.

Lemma take_dispatched req n : (n <= length (dispatched req))%nat -> take n (dispatched req) = take n (probeJobs req).
Proof. intros H. unfold dispatched in *. rewrite take_take. f_equal. rewrite length_take in H. lia. Qed.

Lemma len_dispatched req : len (dispatched req) = maxJobs req.
Proof. unfold dispatched. rewrite length_take. pose proof (maxJobs_range req). lia. Qed.

Lemma scan_result req s :
  1 <= pq_Parallelism req -> probe_pool (W := W) ctx req s ->
  exists cs, scan_of req cs (probeResult req (pool_results (dispatched req) s)) /\
    (p_ended s = false -> length cs = length (dispatched req) \/ Exists (fun c => stopsOn req c = true) cs).
Proof.
  intros Hpar [Hrun Hdone]. assert (Hcap : 0 <= pq_Parallelism req) by lia.
  destruct (results_prefix (dispatched req) _ _ _ _ s Hcap Hrun Hdone) as (cs & Hl & HF & E & Hall).
  pose proof (run_ok (dispatched req) _ _ _ _ s Hcap Hrun) as Hok.
  exists cs. rewrite E. pose proof (probeResult_candidates req cs Hl) as Hc.
  assert (HF' : Forall2 (fun job c => candidate_ok req job.1 job.2 c) (take (length cs) (probeJobs req)) cs).
  { rewrite take_dispatched in HF by done. eapply Forall2_impl; [apply HF|]. apply probeOutcome_ok. }
  split.
  - unfold scan_of. rewrite Hc. unfold probeResult in *. cbn [pr_Candidates] in Hc.
    cbn [pr_Valid pr_SetupAccepted pr_ConfirmedByQuery pr_TCPOnly pr_Flaky pr_StoppedEarly]. rewrite Hc, !count_if_filter.
    rewrite !filter_zero by (done || apply zero_not_valid). rewrite (no_flaky _ _ _ HF').
    do 8 (split; [done|]). rewrite len_dispatched. pose proof (maxJobs_range req). lia.
  - intros Hend. destruct Hall as [?|Hcan]; [by left|right].
    destruct (pool_why _ _ _ _ _ Hok Hcan) as [He|(i & r & Hi & Hst)]; [congruence|].
    apply Exists_exists. exists r. split; [|done].
    assert (Hlt : (i < length (dispatched req))%nat).
    { destruct (pool_outcomes _ _ _ _ _ Hok i r Hi) as (j & Hj & _). by eapply lookup_lt_Some. }
    pose proof (lookup_results (dispatched req) s i Hlt) as H. rewrite E, Hi in H.
    apply lookup_app_Some in H as [H|[_ H]].
    + rewrite list_lookup_fmap in H. destruct (cs !! i) eqn:Ec; [|done]. injection H as ->. by eapply list_elem_of_lookup_2.
    + by apply lookup_replicate in H as [? _].
Qed.

(** A scan of a valid request comes to a result, also with no end of the
    caller's context. *)
Lemma scan_exists_quiet (w : W) req :
  1 <= pq_Parallelism req -> exists s, probe_pool (W := W) ctx req s /\ p_ended s = false.
Proof.
  intros Hpar.
  destruct (pool_finishes (dispatched req) (pq_Parallelism req) (probeOutcome (W := W) ctx req) (stopsOn req) true start_pool)
    as (s & Hrun & Hdone & Hend); [lia | intros; by apply probeOutcome_some | apply rtc_refl|]. by exists s.
Qed.
End Scan.
(** ** A host for the witnesses *)

(** A CPU that accepts one TSAP, sets up with a PDU size of 240 and does not
    answer queries; it keeps the last request. *)
Record Host := mkHost { h_tsap : Z; h_req : bytes }.

#[export] Instance host_transport : Transport Host := {|
  t_dial _ _ _ w := (inr 0, w);
  t_cotpConnect _ _ _ remote _ w :=
    (if bool_decide (remote = put16 (h_tsap w)) then inr 7 else inl (External false "refused"), w);
  t_WriteTSDU _ _ req w := (inr tt, mkHost (h_tsap w) req);
  t_ReadTSDU _ _ w :=
    match h_req w with
    | _ :: x01 :: _ =>
        (inr ([x32; x03; x00; x00; x00; x01; x00; x08; x00; x00; x00; x00; xf0; x00; x00; x01; x00; x01; x00; xf0]), w)
    | _ => (inl (External true "i/o timeout"), w)
    end;
  t_Close _ w := (None, w);
  t_ctxErr _ w := (None, w);
  t_wait _ _ w := (false, w);
  t_duration _ := "";
|}.

Lemma host_answers_fit : answers_fit (W := Host).
Proof.
  intros ctx conn w a w'. simpl. destruct (h_req w) as [|? [|[] ?]]; try done. intros [= <- _]. vm_compute. discriminate.
Qed.

(** Rack 0, slots 1 and 2, in strict mode. *)
Definition host_request : RackSlotProbeRequest :=
  mkProbeRequest "plc" 0 0 0 1 2 0 0 0 false None None "" 0 0 true "" 0 0 false.

(** ** Theorems *)

(** C27: a probe reports what happened.  Over every network that delivers TSDUs
    of at most 65545 bytes, one probe returns a candidate for its pair, and the
    calls it made of the network and how they ended decide its fields.  A dial
    that failed gives stage tcp, a COTP handshake that failed stage cotp, each
    with status timeout if the error was one and else unreachable, or tcp-only.
    Without an accepted setup the stage is setup: timeout if the network said
    so; rejected if the peer's answer carries an S7 error (or breaks off within
    its parameters); cotp-only for any other answer.  An accepted setup gives
    the PDU size of the peer's answer, and outside of strict mode setup-only
    with confidence low.  In strict mode the queries of the chosen strategy are
    sent in order up to the first that the peer answers with an SZL list: then
    the candidate is valid-query, with confidence high and that query's kind,
    and valid-connect with confidence low if it answers none.  The TSAPs are
    those asked for, an opened connection is closed, and a pair without a TSAP
    is rejected without any call. *)
Theorem probeOne_classifies {W} `{!Transport W} ctx req rack slot c (w : Observed W) :
  answers_fit (W := W) -> is_nil ctx = false ->
  exists cand c' w' log, probeOne ctx req rack slot (c, w) = (Ok cand, (c', w')) /\
    ob_seen w' = ob_seen w ++ log /\ candidate_told req rack slot log cand.
Proof.
  intros Hf Hc. destruct (shows_probeOne Hf ctx Hc req rack slot (c, w)) as (log & Hlog & cand & Hr & Ht).
  destruct (probeOne ctx req rack slot (c, w)) as [r [c' w']]. simpl in Hlog, Hr. subst r. by exists cand, c', w', log.
Qed.

(** Witness of C27: slot 2 of the host, which does not answer the queries. *)
Lemma probeOne_classifies_witness :
  let req := applyProbeDefaults host_request in
  let c := New "plc" [] in
  exists cand c' w' log, probeOne (Caller 0) req 0 2 (c, mkObserved (mkHost 770 []) []) = (Ok cand, (c', w')) /\
    ob_seen w' = log /\ candidate_told req 0 2 log cand /\
    cd_Status cand = StatusValidConnect /\ cd_PDUSize cand = 240 /\ length log = 12%nat.
Proof.
  intros req c. destruct (probeOne_classifies (Caller 0) req 0 2 c (mkObserved (mkHost 770 []) [])) as (cand & c' & w' & log & E & Hl & H).
  - apply host_answers_fit.
  - reflexivity.
  - exists cand, c', w', log. split; [exact E|]. split; [exact Hl|]. split; [exact H|].
    assert (E1 : (probeOne (Caller 0) req 0 2 (c, mkObserved (mkHost 770 []) [])).1 = Ok cand) by (rewrite E; reflexivity).
    assert (E2 : length (ob_seen (probeOne (Caller 0) req 0 2 (c, mkObserved (mkHost 770 []) [])).2.2) = length log)
      by (rewrite E; simpl; rewrite Hl; reflexivity).
    vm_compute in E1, E2. injection E1 as <-. split; [reflexivity|]. split; [reflexivity|]. symmetry. exact E2.
Defined.

(** C28: a probe is read-only: over every network it hands to the transport at
    most one Setup Communication request, and only in strict mode, after it,
    at most three SZL reads (module identification, CPU state,
    protection). *)
Theorem probeOne_read_only {W} `{!Transport W} ctx req rack slot c (w : Traced W) :
  exists new, tr_log (probeOne ctx req rack slot (c, w)).2.2 = tr_log w ++ new /\ probe_requests (pq_Strict req) new.
Proof.
  destruct (emits_run _ _ _ _ c w (emits_probeOne (c_conn c) (c_pduSize c) ctx req rack slot) eq_refl eq_refl)
    as (new & ? & ?). by exists new.
Qed.

(** C29: a scan of a valid request always comes to an end, and whatever the
    network did and however the goroutines interleaved, it reports the pairs of
    the range in order: those probed, each with the candidate of its own pair,
    then zero values for the rest.  The valid candidates and the counts are
    those of the probed ones.  All pairs are probed, up to
    [MaxAttemptsPerHost], unless the caller's context ended or a candidate
    stopped the scan. *)
Theorem ProbeRackSlots_reports {W} `{!Transport W} ctx req0 (w : W) :
  let req := applyProbeDefaults req0 in
  answers_fit (W := W) -> is_nil ctx = false -> validateRackSlotProbeRequest t_duration req = Ok tt ->
  (exists result, ProbeRackSlots (W := W) ctx req0 (Ok (result, None))) /\
  forall result err, ProbeRackSlots (W := W) ctx req0 (Ok (result, err)) ->
    exists cs, scan_of req cs result /\
      (err = None -> length cs = length (dispatched req) \/ Exists (fun c => stopsOn req c = true) cs).
Proof.
  intros req Hf Hc Hv. pose proof (parallelism_positive req0) as Hp. fold req in Hp. split.
  - destruct (scan_exists_quiet Hf ctx Hc w req Hp) as (s & Hs & He). eexists. by apply (probe_finished ctx req0 s None).
  - intros result err H. inversion H as [|s err' req' Hv' Hpool Hend]; subst.
    destruct (scan_result Hf ctx Hc req s Hp Hpool) as (cs & Hcs & Hall). exists cs. split; [done|]. auto.
Qed.

(** Witness of C29: two slots of the host. *)
Lemma ProbeRackSlots_reports_witness :
  exists result cs, ProbeRackSlots (W := Host) (Caller 0) host_request (Ok (result, None)) /\
    scan_of (applyProbeDefaults host_request) cs result /\
    (length cs = 2%nat \/ Exists (fun c => stopsOn (applyProbeDefaults host_request) c = true) cs).
Proof.
  destruct (ProbeRackSlots_reports (Caller 0) host_request (mkHost 770 [])) as [[result Hr] Hall].
  - apply host_answers_fit.
  - reflexivity.
  - vm_compute. reflexivity.
  - destruct (Hall result None Hr) as (cs & Hcs & Hn). exists result, cs. split; [exact Hr|]. split; [exact Hcs|].
    exact (Hn eq_refl).
Defined.

(** The steps of the goroutines and of the dispatching loop of a scan. *)
Definition scan_step {W} `{!Transport W} (ctx : Ctx) (req : RackSlotProbeRequest) : pool -> pool -> Prop :=
  pool_internal (dispatched req) (pq_Parallelism req) (probeOutcome (W := W) ctx req) (stopsOn req) true.
Definition scan_run {W} `{!Transport W} (ctx : Ctx) (req : RackSlotProbeRequest) : pool -> Prop :=
  pool_run (dispatched req) (pq_Parallelism req) (probeOutcome (W := W) ctx req) (stopsOn req) true.

(** C30: a scan ends.  From any state that its goroutines reach, over any
    network, every schedule of them takes at most three steps per pair that is
    left, one per running goroutine and two more; and until the scan is over,
    some thread can go on: neither the channel of places nor the wait group
    blocks them for ever. *)
Theorem ProbeRackSlots_terminates {W} `{!Transport W} ctx req0 (w : W) s :
  let req := applyProbeDefaults req0 in
  answers_fit (W := W) -> is_nil ctx = false -> scan_run (W := W) ctx req s ->
  (forall n s', nsteps (scan_step (W := W) ctx req) n s s' ->
     (n <= 3 * (length (dispatched req) - p_next s) + base.size (p_running s) + 2)%nat) /\
  (forall s', rtc (scan_step (W := W) ctx req) s s' -> pool_done s' \/ exists s'', scan_step (W := W) ctx req s' s'').
Proof.
  intros req Hf Hc Hr. pose proof (parallelism_positive req0) as Hp. fold req in Hp. split.
  - intros n s' Hn. apply internal_run in Hn as [_ Hn]; [|lia|done]. unfold pool_pending in Hn. destruct (p_pc s); lia.
  - intros s' [n Hn]%rtc_nsteps. apply internal_run in Hn as [Hr' _]; [|lia|done].
    apply internal_progress; [lia | intros; by apply probeOutcome_some | done].
Qed.

(** Witness of C30: the start of the scan of two slots. *)
Lemma ProbeRackSlots_terminates_witness :
  (forall n s', nsteps (scan_step (W := Host) (Caller 0) (applyProbeDefaults host_request)) n start_pool s' -> (n <= 8)%nat) /\
  exists s'', scan_step (W := Host) (Caller 0) (applyProbeDefaults host_request) start_pool s''.
Proof.
  destruct (ProbeRackSlots_terminates (Caller 0) host_request (mkHost 770 []) start_pool) as [H1 H2].
  - apply host_answers_fit.
  - reflexivity.
  - apply rtc_refl.
  - split; [exact H1|]. destruct (H2 start_pool) as [[Hd _]|H]; [apply rtc_refl | discriminate Hd | exact H].
Defined.

(** A follow-up answer whose two lengths add up to 65536 or more makes the
    slice expression of [trySZL] panic: its upper bound is a 16-bit sum. *)
Lemma trySZL_panics {W} `{!Transport W} ctx conn ref id c (w w1 w2 : W) a hdr rest :
  t_WriteTSDU ctx conn (EncodeSZLRequest ref id 0) w = (inr tt, w1) -> t_ReadTSDU ctx conn w1 = (inr a, w2) ->
  ParseS7Header a = Ok (hdr, rest) -> PDURef hdr = ref -> ErrorClass hdr = x00 -> ErrorCode hdr = x00 ->
  65536 <= ParamLength hdr + DataLength hdr -> (trySZL ctx conn ref id (c, w)).1 = Panic.
Proof.
  intros Hw Hr Hp Href He1 He2 Hsum. pose proof Hp as Hp'.
  apply ParseS7Header_sound in Hp' as (r0 & r1 & _ & _ & _ & Hpl & Hdl & Hrest & _).
  unfold trySZL. cbv zeta.
  rewrite (bind_run_Ok _ _ _ (c, w1) (inr tt)) by (apply attempt_Ok; unfold WriteTSDU, call; simpl; by rewrite Hw).
  cbv iota. rewrite (bind_run_Ok _ _ _ (c, w2) (inr a)) by (apply attempt_Ok; unfold ReadTSDU, call; simpl; by rewrite Hr).
  cbv iota. rewrite (bind_run_Ok _ _ _ (c, w2) (inr (hdr, rest))) by (by apply attempt_lift_Ok).
  cbv iota beta. rewrite Href, Z.eqb_refl, He1, He2. simpl negb. cbv iota.
  change ((x00 ≠b x00) || (x00 ≠b x00)) with false. cbv iota. if_false (len rest <? ParamLength hdr + DataLength hdr).
  assert (E : slice rest (ParamLength hdr) (u16 (ParamLength hdr + DataLength hdr)) = Panic); [|rewrite E; reflexivity].
  unfold is_u16 in *. unfold slice, u16. replace (ParamLength hdr <=? _) with false; [by rewrite andb_false_r|].
  symmetry. apply Z.leb_gt. Z.div_mod_to_equations. lia.
Qed.
