(* ===== verification/Compare.v ===== *)
(** * The same read on several rack/slot candidates (client/compare.go)

    [CompareRead] connects, reads and closes once per candidate in a bounded
    pool of goroutines and says whether all candidates gave the same data.
    The request validation is the part of client/validation.go for it. *)

From S2P Require Import Prelude Go WireErrors Header ReadWrite Client ClientRW Triple Safety Pool Probe.

Local Open Scope string_scope.
Local Open Scope list_scope.
Local Open Scope Z_scope.

Record RackSlot := mkRackSlot {
  rs_Rack : Z;
  rs_Slot : Z;
}.

Record CompareReadRequest := mkCompareReadRequest {
  cr_Address : string;
  cr_Port : Z;
  cr_Candidates : list RackSlot;
  cr_Area : byte;
  cr_DBNumber : Z;
  cr_Offset : Z;
  cr_Size : Z;
  cr_Timeout : Z;
  cr_Parallelism : Z;
}.

Record CompareReadCandidate := mkCompareReadCandidate {
  cc_Rack : Z;
  cc_Slot : Z;
  cc_Result : ReadResult;
}.

Record CompareReadResult := mkCompareReadResult {
  co_Request : CompareReadRequest;
  co_ByCandidate : list CompareReadCandidate;
  co_RackSlotInsensitive : bool;
}.

Definition compareCandidateFailure (c : RackSlot) (size : Z) (err : option error) : CompareReadCandidate :=
  mkCompareReadCandidate (rs_Rack c) (rs_Slot c) (newFailedReadResult size err).

(** ** Validation *)

(** The loop over the candidates, with their index. *)
Fixpoint validateCandidates (i : Z) (l : list RackSlot) : res unit :=
  match l with
  | [] => nil_error
  | cand :: l =>
      match ValidateRackSlot (rs_Rack cand) (rs_Slot cand) with
      | Err err => Err (ValidationError ("candidate " +:+ dec i +:+ ": " +:+ Error err))
      | Panic => Panic
      | Ok _ => validateCandidates (i + 1) l
      end
  end.

(** [show] is the text of a duration. *)
Definition validateCompareReadRequest (show : Z -> string) (req : CompareReadRequest) : res unit :=
  if blank (cr_Address req) then Err (ValidationError "address must be non-empty")
  else if cr_Port req <? 0 then Err (ValidationError ("port must be >= 0, got " +:+ dec (cr_Port req)))
  else if cr_Timeout req <? 0 then Err (ValidationError ("timeout must be >= 0, got " +:+ show (cr_Timeout req)))
  else if cr_Size req <? 0 then Err (ValidationError ("size must be >= 0, got " +:+ dec (cr_Size req)))
  else if cr_Offset req <? 0 then Err (ValidationError ("offset must be >= 0, got " +:+ dec (cr_Offset req)))
  else if (cr_Area req =b AreaDB) && (cr_DBNumber req <? 0)
  then Err (ValidationError ("DB number must be >= 0, got " +:+ dec (cr_DBNumber req)))
  else validateCandidates 0 (cr_Candidates req).

(** ** The verdict *)

(** The index of the first candidate that succeeded, or -1. *)
Fixpoint firstOK (i : Z) (l : list CompareReadCandidate) : Z :=
  match l with
  | [] => -1
  | c :: l => if bool_decide (Status (cc_Result c) = ReadStatusSuccess) then i else firstOK (i + 1) l
  end.

(** The loop over all candidates: success with the data [ref]. *)
Fixpoint allSame (ref : bytes) (l : list CompareReadCandidate) : bool :=
  match l with
  | [] => true
  | c :: l =>
      if negb (bool_decide (Status (cc_Result c) = ReadStatusSuccess)) then false
      else if negb (bool_decide (ResultData (cc_Result c) = ref)) then false
      else allSame ref l
  end.

Definition rackSlotInsensitive (l : list CompareReadCandidate) : res bool :=
  if len l <? 2 then Ok false
  else
  let i := firstOK 0 l in
  if i <? 0 then Ok false
  else c ← idx l i; Ok (allSame (ResultData (cc_Result c)) l).

(** ** The reads *)

Section Compare.
Context {W : Type} `{!Transport W}.

(** The goroutine of a candidate, on its own client. *)
Definition compareOne (ctx : Ctx) (req : CompareReadRequest) (cand : RackSlot) : M W CompareReadCandidate :=
  r ← attempt (Connect ctx);
  match r with
  | inl err => attempt Close ;; mret (compareCandidateFailure cand (cr_Size req) (Some err))
  | inr _ =>
      r ← attempt (ReadArea ctx (mkAddress (cr_Area req) (cr_DBNumber req) (cr_Offset req) (cr_Size req)));
      attempt Close ;;
      match r with
      | inl err => mret (compareCandidateFailure cand (cr_Size req) (Some err))
      | inr res => mret (mkCompareReadCandidate (rs_Rack cand) (rs_Slot cand) res)
      end
  end.

Definition compareClient (req : CompareReadRequest) (cand : RackSlot) : Client :=
  New (cr_Address req)
    [ WithPort (if cr_Port req =? 0 then 102 else cr_Port req)
    ; WithRackSlot (rs_Rack cand) (rs_Slot cand)
    ; WithTimeout (if cr_Timeout req =? 0 then 5 * Second else cr_Timeout req) ].

Definition compareOutcome (ctx : Ctx) (req : CompareReadRequest) (cand : RackSlot) (c : CompareReadCandidate) : Prop :=
  exists (w : W) st', compareOne ctx req cand (compareClient req cand, w) = (Ok c, st').

Definition compareParallelism (req : CompareReadRequest) : Z :=
  if cr_Parallelism req <=? 0 then 1 else cr_Parallelism req.

(** The runs of the goroutines; the loop does not look at the context before
    it waits for a place, and no goroutine ends it. *)
Definition compare_pool (ctx : Ctx) (req : CompareReadRequest) (s : pool) : Prop :=
  pool_run (cr_Candidates req) (compareParallelism req) (compareOutcome ctx req) (fun _ => false) false s /\ pool_done s.

(** The entries: what the goroutines stored, and the error of the context for
    the candidates without one. *)
Definition compareEntries (req : CompareReadRequest) (stored : list (option CompareReadCandidate)) (err : option error)
  : list CompareReadCandidate :=
  zip_with (fun cand o => default (compareCandidateFailure cand (cr_Size req) err) o) (cr_Candidates req) stored.

Inductive CompareRead (ctx : Ctx) (req : CompareReadRequest) : res CompareReadResult -> Prop :=
  | compare_invalid e : validateCompareReadRequest t_duration req = Err e -> CompareRead ctx req (Err e)
  | compare_empty :
      validateCompareReadRequest t_duration req = Ok tt -> cr_Candidates req = [] ->
      CompareRead ctx req (Ok (mkCompareReadResult req [] false))
  | compare_finished s err entries :
      validateCompareReadRequest t_duration req = Ok tt -> cr_Candidates req <> [] -> compare_pool ctx req s ->
      (p_ended s = true -> is_Some err) ->
      entries = compareEntries req (pool_results (cr_Candidates req) s) err ->
      CompareRead ctx req (same ← rackSlotInsensitive entries; Ok (mkCompareReadResult req entries same)).
End Compare.

(** ** Lemmas *)

Lemma firstOK_spec i l :
  0 <= i ->
  (firstOK i l = -1 /\ Forall (fun c => Status (cc_Result c) <> ReadStatusSuccess) l) \/
  (i <= firstOK i l < i + len l /\ exists c, l !! Z.to_nat (firstOK i l - i) = Some c /\ Status (cc_Result c) = ReadStatusSuccess).
Proof.
  revert i. induction l as [|c l IH]; intros i Hi; [by left; split|]. cbn [firstOK]. case_if; b2p.
  - right. simpl length. split; [lia|]. exists c. by replace (Z.to_nat (i - i)) with O by lia.
  - destruct (IH (i + 1) ltac:(lia)) as [[-> HF]|(Hr & c' & Hc & Hs)]; [left; split; [done | by constructor]|right].
    simpl length. split; [lia|]. exists c'. split; [|done].
    by replace (Z.to_nat (firstOK (i + 1) l - i)) with (S (Z.to_nat (firstOK (i + 1) l - (i + 1)))) by lia.
Qed.

Lemma allSame_spec ref l :
  allSame ref l = true <-> Forall (fun c => Status (cc_Result c) = ReadStatusSuccess /\ ResultData (cc_Result c) = ref) l.
Proof.
  induction l as [|c l IH]; [done|]. cbn [allSame]. rewrite Forall_cons, <- IH.
  destruct (decide (Status (cc_Result c) = ReadStatusSuccess)) as [E1|E1]; [rewrite bool_decide_true by done|rewrite bool_decide_false by done; simpl; split; [done | intros [[? _] _]; done]].
  destruct (decide (ResultData (cc_Result c) = ref)) as [E2|E2]; [rewrite bool_decide_true by done|rewrite bool_decide_false by done]; simpl; [tauto|].
  split; [done | intros [[_ ?] _]; done].
Qed.

(** The verdict: at least two candidates, all of them successes with the same
    data. *)
Definition agree (l : list CompareReadCandidate) : Prop :=
  2 <= len l /\ exists d, Forall (fun c => Status (cc_Result c) = ReadStatusSuccess /\ ResultData (cc_Result c) = d) l.

Lemma rackSlotInsensitive_spec l : exists b, rackSlotInsensitive l = Ok b /\ (b = true <-> agree l).
Proof.
  unfold rackSlotInsensitive, agree. case_if; b2p; [exists false; split; [done|]; split; [done|lia]|].
  destruct (firstOK_spec 0 l ltac:(lia)) as [[E HF]|(Hr & c & Hc & Hs)].
  - rewrite E. exists false. split; [done|]. split; [done|]. intros (_ & d & Hd). destruct l as [|c l]; [simpl in *; lia|].
    apply Forall_cons in HF as [HF _]. by apply Forall_cons in Hd as [[? _] _].
  - if_arith. rewrite Z.sub_0_r in Hc. replace (idx l (firstOK 0 l)) with (Ok c).
    2: { symmetry. apply idx_lookup. split; [lia | done]. }
    cbn [mbind res_bind]. eexists. split; [done|]. rewrite allSame_spec. split.
    + intros H. split; [lia|]. by exists (ResultData (cc_Result c)).
    + intros (_ & d & Hd). rewrite Forall_forall in Hd. destruct (Hd c) as [_ E]; [by eapply list_elem_of_lookup_2|].
      rewrite E. by apply Forall_forall.
Qed.

(** The goroutine of a candidate always comes to an entry of its rack and slot,
    and its client is not connected any more. *)
Section CompareOne.
Context {W : Type} `{!Transport W}.
Hypothesis Hfit : answers_fit (W := W).
Variable ctx : Ctx.
Hypothesis Hctx : is_nil ctx = false.

Lemma Close_disconnects st : (Close (W := W) st).1 <> Panic -> c_conn (Close (W := W) st).2.1 = None.
Proof.
  destruct st as [c w]. unfold Close, closeConnLocked. rewrite (bind_run_Ok _ _ _ (c, w) (c_conn c)) by done.
  destruct (c_conn c) as [conn|] eqn:E; [|done]. rewrite bind_run. unfold attempt.
  by destruct (closeCOTP (Some conn) (c, w)) as [[r|e|] [c1 w1]].
Qed.

Lemma compareOne_total req cand :
  total (counter_ok (W := W)) (compareOne ctx req cand) (fun c => cc_Rack c = rs_Rack cand /\ cc_Slot c = rs_Slot cand).
Proof.
  unfold compareOne. eapply total_bind; [apply total_attempt, (ok_Connect ctx Hctx)|].
  intros [e|[]] _.
  - eapply total_bind; [apply total_attempt, ok_Close|]. intros _ _. by apply total_ret.
  - eapply total_bind; [apply total_attempt, (ok_ReadArea Hfit ctx Hctx)|]. intros r _.
    eapply total_bind; [apply total_attempt, ok_Close|]. intros _ _. destruct r; by apply total_ret.
Qed.

Lemma close_then_ret {A} (a c : A) st st' :
  ((attempt Close ;; mret a) : M W A) st = (Ok c, st') -> c_conn st'.1 = None.
Proof.
  rewrite bind_run. unfold attempt. pose proof (Close_disconnects st) as H.
  destruct (Close st) as [[u|e|] st1]; [intros [= _ <-]; by apply H..|done].
Qed.

Lemma compareOne_closes req cand st c st' : compareOne ctx req cand st = (Ok c, st') -> c_conn st'.1 = None.
Proof.
  unfold compareOne. rewrite bind_run. destruct (attempt (Connect ctx) st) as [[[e|[]]|e|] st1]; [apply close_then_ret| |done..].
  rewrite bind_run. destruct (attempt (ReadArea ctx _) st1) as [[[e|r]|e|] st2]; [apply close_then_ret..|done|done].
Qed.
End CompareOne.
