(* ===== verification/Discover.v ===== *)
(** * Discovery of S7 hosts in an IPv4 range (client/discover.go)

    The addresses of a CIDR, the probe of one host over a range of rack/slot
    pairs, and [Discover]: a feeder, a number of workers and a collector that
    communicate through channels.

    [net.ParseCIDR] is modelled for dotted IPv4 text; IPv6 text, which
    discovery only refuses, is a parameter.  [isPortOpen], which only tests
    call, is left out. *)

From S2P Require Import Prelude Go WireErrors Header Client ClientRW Triple Safety Probe.

Local Open Scope string_scope.
Local Open Scope list_scope.
Local Open Scope Z_scope.

(** ** Options *)

Record DiscoverResult := mkDiscoverResult {
  dr_IP : string;
  dr_Port : Z;
  dr_IsS7 : bool;
  dr_Rack : Z;
  dr_Slot : Z;
  dr_PDUSize : Z;
  dr_TSAP : string;
  dr_Error : string;
  dr_AbandonedReason : string;
}.

Definition zeroDiscoverResult : DiscoverResult := mkDiscoverResult "" 0 false 0 0 0 "" "" "".

Record discoverOpts := mkDiscoverOpts {
  do_timeout : Z;
  do_parallel : Z;
  do_rackMin : Z;
  do_rackMax : Z;
  do_slotMin : Z;
  do_slotMax : Z;
  do_rateMS : Z;
  do_safetyMode : SafetyMode;
  do_jitterMS : Z;
  do_maxAttemptsPerHost : Z;
}.

Definition DiscoverOption := discoverOpts -> discoverOpts.

Definition WithDiscoverTimeout (ms : Z) : DiscoverOption := fun o =>
  mkDiscoverOpts ms (do_parallel o) (do_rackMin o) (do_rackMax o) (do_slotMin o) (do_slotMax o) (do_rateMS o)
    (do_safetyMode o) (do_jitterMS o) (do_maxAttemptsPerHost o).
Definition WithDiscoverParallel (n : Z) : DiscoverOption := fun o =>
  mkDiscoverOpts (do_timeout o) n (do_rackMin o) (do_rackMax o) (do_slotMin o) (do_slotMax o) (do_rateMS o)
    (do_safetyMode o) (do_jitterMS o) (do_maxAttemptsPerHost o).
Definition WithDiscoverRackSlotRange (rackMin rackMax slotMin slotMax : Z) : DiscoverOption := fun o =>
  mkDiscoverOpts (do_timeout o) (do_parallel o) rackMin rackMax slotMin slotMax (do_rateMS o)
    (do_safetyMode o) (do_jitterMS o) (do_maxAttemptsPerHost o).
Definition WithDiscoverRateLimit (ms : Z) : DiscoverOption := fun o =>
  mkDiscoverOpts (do_timeout o) (do_parallel o) (do_rackMin o) (do_rackMax o) (do_slotMin o) (do_slotMax o) ms
    (do_safetyMode o) (do_jitterMS o) (do_maxAttemptsPerHost o).
Definition WithDiscoverSafetyMode (mode : SafetyMode) : DiscoverOption := fun o =>
  mkDiscoverOpts (do_timeout o) (do_parallel o) (do_rackMin o) (do_rackMax o) (do_slotMin o) (do_slotMax o) (do_rateMS o)
    mode (do_jitterMS o) (do_maxAttemptsPerHost o).
Definition WithDiscoverJitter (ms : Z) : DiscoverOption := fun o =>
  mkDiscoverOpts (do_timeout o) (do_parallel o) (do_rackMin o) (do_rackMax o) (do_slotMin o) (do_slotMax o) (do_rateMS o)
    (do_safetyMode o) ms (do_maxAttemptsPerHost o).
Definition WithDiscoverMaxAttemptsPerHost (n : Z) : DiscoverOption := fun o =>
  mkDiscoverOpts (do_timeout o) (do_parallel o) (do_rackMin o) (do_rackMax o) (do_slotMin o) (do_slotMax o) (do_rateMS o)
    (do_safetyMode o) (do_jitterMS o) n.

(** The options [Discover] starts with. *)
Definition discoverDefaults : discoverOpts := mkDiscoverOpts 2000 10 0 3 0 5 0 "" 0 0.

(** The safety presets, where the defaults are still in use. *)
Definition discoverPresets (o : discoverOpts) : discoverOpts :=
  let mode := if String.eqb (do_safetyMode o) "" then SafetyNormal else do_safetyMode o in
  let set timeout parallel rate :=
    mkDiscoverOpts timeout parallel (do_rackMin o) (do_rackMax o) (do_slotMin o) (do_slotMax o) rate mode
      (do_jitterMS o) (do_maxAttemptsPerHost o) in
  if String.eqb mode SafetyConservative then
    set (if do_timeout o =? 2000 then 5000 else do_timeout o) (if do_parallel o =? 10 then 3 else do_parallel o)
      (if do_rateMS o =? 0 then 50 else do_rateMS o)
  else if String.eqb mode SafetyAggressive then
    set (if do_timeout o =? 2000 then 1000 else do_timeout o) (if do_parallel o =? 10 then 15 else do_parallel o)
      (do_rateMS o)
  else set (do_timeout o) (do_parallel o) (do_rateMS o).

Definition validateDiscover (o : discoverOpts) : res unit :=
  if do_rackMin o >? do_rackMax o then
    Err (ValidationError ("discover: rack min (" +:+ dec (do_rackMin o) +:+ ") must be <= rack max (" +:+ dec (do_rackMax o) +:+ ")"))
  else if do_slotMin o >? do_slotMax o then
    Err (ValidationError ("discover: slot min (" +:+ dec (do_slotMin o) +:+ ") must be <= slot max (" +:+ dec (do_slotMax o) +:+ ")"))
  else if do_jitterMS o <? 0 then
    Err (ValidationError ("discover: jitter ms must be >= 0, got " +:+ dec (do_jitterMS o)))
  else if do_maxAttemptsPerHost o <? 0 then
    Err (ValidationError ("discover: max attempts per host must be >= 0, got " +:+ dec (do_maxAttemptsPerHost o)))
  else nil_error.

(** ** Addresses *)

(** [incIP], from the last byte on. *)
Fixpoint incBytes (l : bytes) : bytes :=
  match l with
  | [] => []
  | b :: l => let b' := z2b (b2z b + 1) in if b2z b' >? 0 then b' :: l else b' :: incBytes l
  end.
Definition incIP (ip : bytes) : bytes := rev (incBytes (rev ip)).

(** [net.CIDRMask] of four bytes and [IP.Mask]. *)
Definition maskByte (n : Z) : Z := if n >=? 8 then 0xff else if n <=? 0 then 0 else 256 - 2 ^ (8 - n).
Definition CIDRMask (ones : Z) : list Z := [maskByte ones; maskByte (ones - 8); maskByte (ones - 16); maskByte (ones - 24)].
Definition Mask (ip : bytes) (ones : Z) : bytes := zip_with (fun b m => z2b (Z.land (b2z b) m)) ip (CIDRMask ones).

(** [IPNet.Contains] for four bytes. *)
Definition Contains (net : bytes) (ones : Z) (ip : bytes) : bool := bool_decide (Mask net ones = Mask ip ones).

(** [IP.String] of four bytes. *)
Definition ipString (ip : bytes) : string := String.concat "." ((fun b => dec (b2z b)) <$> ip).

(** ** net.ParseCIDR *)

(** What the text stands for: an IPv4 network, or an IPv6 one, which may be
    the mapped form of IPv4. *)
Inductive Prefix :=
  | V4 (ip : bytes) (ones : Z)
  | V6 (mapped : bool).

Definition char_code (a : Ascii.ascii) : Z := Z.of_N (Ascii.N_of_ascii a).
Definition is_digit (a : Ascii.ascii) : bool := (48 <=? char_code a) && (char_code a <=? 57).

(** A decimal number of digits only, at least one. *)
Definition digits (l : list Ascii.ascii) : option Z :=
  match l with
  | [] => None
  | _ => if forallb is_digit l then Some (foldl (fun n a => n * 10 + (char_code a - 48)) 0 l) else None
  end.

(** The parts between separators. *)
Fixpoint split_on (sep : Z) (l : list Ascii.ascii) : list (list Ascii.ascii) :=
  match l with
  | [] => [[]]
  | a :: l =>
      if char_code a =? sep then [] :: split_on sep l
      else match split_on sep l with part :: parts => (a :: part) :: parts | [] => [[a]] end
  end.

(** A field of an IPv4 address: no leading zero, at most 255. *)
Definition parseField (l : list Ascii.ascii) : option byte :=
  match l with
  | a :: _ :: _ => if char_code a =? 48 then None else n ← digits l; if n <=? 255 then Some (z2b n) else None
  | _ => n ← digits l; if n <=? 255 then Some (z2b n) else None
  end.

Definition parseIPv4 (l : list Ascii.ascii) : option bytes :=
  ip ← mapM parseField (split_on 46 l);
  if (length ip =? 4)%nat then Some ip else None.

(** Whether the first of ['.'], [':'] and ['%'] is [':']. *)
Fixpoint colon_first (l : list Ascii.ascii) : bool :=
  match l with
  | [] => false
  | a :: l => if char_code a =? 58 then true else if (char_code a =? 46) || (char_code a =? 37) then false else colon_first l
  end.

(** The text before the first slash and after it. *)
Fixpoint cut_slash (l : list Ascii.ascii) : option (list Ascii.ascii * list Ascii.ascii) :=
  match l with
  | [] => None
  | a :: l => if char_code a =? 47 then Some ([], l) else p ← cut_slash l; Some (a :: p.1, p.2)
  end.

Section ParseCIDR.
(** IPv6 text: not valid, or valid and mapped after masking or not. *)
Variable parse6 : string -> option bool.

Definition ParseCIDR (cidr : string) : res Prefix :=
  let bad := Err (Plain ("invalid CIDR address: " +:+ cidr)) in
  match cut_slash (String.list_ascii_of_string cidr) with
  | None => bad
  | Some (addr, mask) =>
      if colon_first addr then match parse6 cidr with Some mapped => Ok (V6 mapped) | None => bad end
      else match parseIPv4 addr, digits mask with
           | Some ip, Some n => if n <=? 32 then Ok (V4 (Mask ip n) n) else bad
           | _, _ => bad
           end
  end.

Definition maxDiscoveryHostBits : Z := 20.

(** The network of an accepted CIDR, with its number of host bits. *)
Definition checkCIDR (cidr : string) : res (bytes * Z) :=
  match ParseCIDR cidr with
  | Err err => Err (ValidationError (Error err))
  | Panic => Panic
  | Ok (V6 mapped) =>
      if mapped then Err (ValidationError ("expected IPv4 mask, got 128 bits"))
      else Err (ValidationError ("discovery is IPv4-only; got IPv6 CIDR " +:+ cidr))
  | Ok (V4 ip ones) =>
      let hostBits := 32 - ones in
      if hostBits >? maxDiscoveryHostBits
      then Err (ValidationError ("CIDR too large for discovery (max /" +:+ dec (32 - maxDiscoveryHostBits) +:+ "): " +:+ cidr))
      else Ok (ip, hostBits)
  end.

(** The loop of [streamCIDR]: [send] takes an address and says whether to go
    on; true at the end when it did not. *)
Section Stream.
Context {S : Type} (send : string -> S -> bool * S).
Fixpoint streamLoop (n : nat) (idx total : Z) (skipEnds : bool) (ip : bytes) (s : S) : bool * S :=
  match n with
  | O => (false, s)
  | Datatypes.S n =>
      if skipEnds && ((idx =? 0) || (idx =? total - 1)) then
        streamLoop n (idx + 1) total skipEnds (if idx =? 0 then incIP ip else ip) s
      else
        let '(go, s) := send (ipString ip) s in
        if negb go then (true, s) else streamLoop n (idx + 1) total skipEnds (incIP ip) s
  end.

(** [streamCIDR]; the value says whether [send] stopped it, in which case the
    source returns the error of the context. *)
Definition streamCIDR (cidr : string) (s : S) : res bool * S :=
  match checkCIDR cidr with
  | Err e => (Err e, s)
  | Panic => (Panic, s)
  | Ok (ip, hostBits) =>
      let total := Z.shiftl 1 hostBits in
      let '(stopped, s) := streamLoop (Z.to_nat total) 0 total (total >? 2) (Mask ip (32 - hostBits)) s in
      (Ok stopped, s)
  end.
End Stream.

(** The loop of [expandCIDR]; [None] when the fuel runs out. *)
Fixpoint expandLoop (fuel : nat) (net : bytes) (ones : Z) (ip : bytes) (ips : list string) : option (list string) :=
  match fuel with
  | O => None
  | S fuel =>
      if Contains net ones ip then expandLoop fuel net ones (incIP ip) (ips ++ [ipString ip]) else Some ips
  end.

(** [expandCIDR] for an IPv4 network, from its loop on. *)
Definition expandNet (fuel : nat) (net : bytes) (ones : Z) : option (list string) :=
  ips ← expandLoop fuel net ones (Mask net ones) [];
  if len ips >? 2 then match slice ips 1 (len ips - 1) with Ok l => Some l | _ => None end else Some ips.
End ParseCIDR.

(** ** One host *)

Section ProbeS7.
Context {W : Type} `{!Transport W} `{!Entropy W}.

(** An operation on a client of its own. *)
Definition with_client {A} (c : Client) (m : M W A) : M W A := fun st =>
  let '(r, (_, w)) := m (c, st.2) in (r, (st.1, w)).

(** The text of the context's error; calling it on a nil error panics. *)
Definition ctxErrText (ctx : Ctx) : M W string :=
  e ← ctx_Err ctx;
  match e with Some err => mret (Error err) | None => lift Panic end.

(** [select] between the end of the context and a delay, when one is wanted:
    the text of the context's error if it ended. *)
Definition delayOrDone (ctx : Ctx) (wanted : bool) (d : Z) : M W (option string) :=
  if wanted then
    ended ← (if is_nil ctx then lift Panic else observe (t_wait ctx d));
    if ended : bool then t ← ctxErrText ctx; mret (Some t) else mret None
  else mret None.

(** The connection to one pair: the information of it, or nothing. *)
Definition tryHost (ctx : Ctx) (ip : string) (port timeoutMS rack slot : Z) : M W (option ConnectionInfo) :=
  with_client (New ip [WithPort port; WithRackSlot rack slot; WithTimeout (i64 (timeoutMS * Millisecond))])
    (r ← attempt (Connect ctx);
     match r with
     | inl _ => mret None
     | inr _ => info ← get Client_ConnectionInfo; attempt Close ;; mret (Some info)
     end).

(** The loops over racks and slots, from a rack and a slot on; [None] when they
    have not come to an end after [fuel] passes. *)
Fixpoint hostLoop (fuel : nat) (ctx : Ctx) (ip : string) (port : Z) (o : discoverOpts) (rack slot attempts : Z)
  : M W (option DiscoverResult) :=
  let abandoned reason msg := mret (Some (mkDiscoverResult ip port false 0 0 0 "" msg reason)) in
  match fuel with
  | O => mret None
  | S fuel =>
      if negb (rack <=? do_rackMax o) then abandoned "" "no valid COTP+S7 setup for tested rack/slot range"
      else if negb (slot <=? do_slotMax o) then hostLoop fuel ctx ip port o (i64 (rack + 1)) (do_slotMin o) attempts
      else if (do_maxAttemptsPerHost o >? 0) && (attempts >=? do_maxAttemptsPerHost o)
      then abandoned "max_attempts" "max attempts per host reached"
      else
      e ← ctx_Err ctx;
      match e with
      | Some err => abandoned "context_canceled" (Error err)
      | None =>
          jitter ← randomJitter (do_jitterMS o);
          e ← delayOrDone ctx (jitter >? 0) jitter;
          match e with
          | Some t => abandoned "context_canceled" t
          | None =>
              e ← delayOrDone ctx (do_rateMS o >? 0) (i64 (do_rateMS o * Millisecond));
              match e with
              | Some t => abandoned "context_canceled" t
              | None =>
                  r ← tryHost ctx ip port (do_timeout o) rack slot;
                  match r with
                  | None => hostLoop fuel ctx ip port o rack (i64 (slot + 1)) (attempts + 1)
                  | Some info =>
                      mret (Some (mkDiscoverResult ip port true (ci_Rack info) (ci_Slot info) (ci_PDUSize info)
                                    ("0x" +:+ fmt_04X (ci_RemoteTSAP info)) "" ""))
                  end
              end
          end
      end
  end.

(** The passes over the pairs: for every rack its slots and one to leave the
    inner loop, and one to leave the outer.  Loops that are not through then
    have gone beyond the largest [int] and started again from the smallest. *)
Definition hostPasses (o : discoverOpts) : nat :=
  Z.to_nat ((do_rackMax o - do_rackMin o + 1) * (do_slotMax o - do_slotMin o + 2) + 1).

Definition probeS7 (ctx : Ctx) (ip : string) (port : Z) (o : discoverOpts) : M W (option DiscoverResult) :=
  hostLoop (hostPasses o) ctx ip port o (do_rackMin o) (do_slotMin o) 0.
End ProbeS7.

(** ** Addresses as numbers *)

(** The number of an address. *)
Definition ipnum (ip : bytes) : Z := match ip with [a; b; c; d] => be32 a b c d | _ => 0 end.

Lemma put32_be32 a b c d : put32 (be32 a b c d) = [a; b; c; d].
Proof.
  unfold put32. rewrite be32_arith, !Z.shiftr_div_pow2 by lia. byte_ranges.
  f_equal; [|f_equal; [|f_equal; [|f_equal]]]; apply b2z_inj; rewrite b2z_z2b;
    change (2 ^ 24) with 16777216; change (2 ^ 16) with 65536; change (2 ^ 8) with 256; Z.div_mod_to_equations; lia.
Qed.

Lemma ipnum_put32 v : ipnum (put32 v) = u32 v.
Proof. apply be32_put32. Qed.

Lemma put32_ipnum ip : length ip = 4%nat -> put32 (ipnum ip) = ip.
Proof. destruct ip as [|a [|b [|c [|d [|]]]]]; try done. intros _. apply put32_be32. Qed.

Lemma put32_u32 v : put32 (u32 v) = put32 v.
Proof. rewrite <- ipnum_put32. by apply put32_ipnum. Qed.

Lemma carry_byte b : b2z (z2b (b2z b + 1)) = if b2z b =? 255 then 0 else b2z b + 1.
Proof. rewrite b2z_z2b. byte_ranges. case_if; b2p; Z.div_mod_to_equations; lia. Qed.

(** [incIP] adds one, modulo the address space. *)
Lemma ipnum_incIP ip : length ip = 4%nat -> length (incIP ip) = 4%nat /\ ipnum (incIP ip) = u32 (ipnum ip + 1).
Proof.
  destruct ip as [|a [|b [|c [|d [|]]]]]; try done. intros _. unfold incIP. simpl rev. cbn [incBytes].
  assert (Hc : forall x, (b2z (z2b (b2z x + 1)) >? 0) = negb (b2z x =? 255)).
  { intros x. rewrite carry_byte. byte_ranges. case_if; b2p; lia. }
  rewrite !Hc.
  destruct (b2z d =? 255) eqn:Ed; [|split; [done|]; simpl; rewrite !be32_arith, carry_byte, Ed; unfold u32; byte_ranges; b2p; rewrite Z.mod_small; lia].
  destruct (b2z c =? 255) eqn:Ec; [|split; [done|]; simpl; rewrite !be32_arith, !carry_byte, Ed, Ec; unfold u32; byte_ranges; b2p; rewrite Z.mod_small; lia].
  destruct (b2z b =? 255) eqn:Eb; [|split; [done|]; simpl; rewrite !be32_arith, !carry_byte, Ed, Ec, Eb; unfold u32; byte_ranges; b2p; rewrite Z.mod_small; lia].
  destruct (b2z a =? 255) eqn:Ea; (split; [done|]; simpl; rewrite !be32_arith, !carry_byte, Ed, Ec, Eb, Ea; unfold u32; byte_ranges; b2p; Z.div_mod_to_equations; lia).
Qed.

Lemma incIP_put32 v : incIP (put32 v) = put32 (v + 1).
Proof.
  destruct (ipnum_incIP (put32 v) eq_refl) as [Hl Hn]. rewrite <- (put32_ipnum _ Hl), Hn, ipnum_put32.
  rewrite put32_u32. rewrite <- put32_u32, <- (put32_u32 (v + 1)). f_equal. unfold u32. by rewrite Zplus_mod_idemp_l.
Qed.

(** Masking a byte clears its low bits. *)
Lemma mask_byte b n : 0 <= n <= 8 -> b2z (z2b (Z.land (b2z b) (maskByte n))) = b2z b - b2z b mod 2 ^ (8 - n).
Proof.
  intros Hn. assert (H : forallb (fun b => forallb (fun n => b2z (z2b (Z.land (b2z b) (maskByte n))) =? b2z b - b2z b mod 2 ^ (8 - n)) (seqZ 0 9))
    (z2b <$> seqZ 0 256) = true) by (vm_compute; reflexivity).
  rewrite forallb_forall in H. specialize (H b). rewrite forallb_forall in H.
  apply Z.eqb_eq, H; apply list_elem_of_In; [|apply elem_of_seqZ; lia].
  apply list_elem_of_fmap. exists (b2z b). split; [by rewrite z2b_b2z|]. apply elem_of_seqZ. pose proof (b2z_range b). lia.
Qed.

Lemma maskByte_clamp n : maskByte n = maskByte (Z.max 0 (Z.min 8 n)).
Proof. unfold maskByte. repeat case_if; b2p; try lia; by replace (Z.max 0 (Z.min 8 n)) with n by lia. Qed.

(** Clearing the low [m + j] bits of [x * 2 ^ m + y]. *)
Lemma clear_low x y m j : 0 <= m -> 0 <= j -> 0 <= y < 2 ^ m -> (x * 2 ^ m + y) mod 2 ^ (m + j) = x mod 2 ^ j * 2 ^ m + y.
Proof.
  intros Hm Hj Hy. rewrite Z.pow_add_r, Z.mul_comm by lia.
  rewrite (Z.mul_comm (2 ^ m) (2 ^ j)). pose proof (Z.pow_pos_nonneg 2 m). pose proof (Z.pow_pos_nonneg 2 j).
  symmetry. apply (Z.mod_unique _ _ (x / 2 ^ j)).
  - left. pose proof (Z.mod_pos_bound x (2 ^ j) ltac:(lia)). nia.
  - pose proof (Z.div_mod x (2 ^ j) ltac:(lia)). nia.
Qed.

Lemma mod_low x b k : 0 <= k <= 8 -> (x * 256 + b) mod 2 ^ k = b mod 2 ^ k.
Proof.
  intros Hk. replace 256 with (2 ^ (8 - k) * 2 ^ k) by (rewrite <- Z.pow_add_r by lia; by replace (8 - k + k) with 8 by lia).
  rewrite Z.mul_assoc, Z.add_comm. apply Z_mod_plus_full.
Qed.

(** [Mask] clears the host bits. *)
Lemma ipnum_Mask ip ones :
  length ip = 4%nat -> 0 <= ones <= 32 ->
  length (Mask ip ones) = 4%nat /\ ipnum (Mask ip ones) = ipnum ip - ipnum ip mod 2 ^ (32 - ones).
Proof.
  destruct ip as [|a [|b [|c [|d [|]]]]]; try done. intros _ Ho. unfold Mask, CIDRMask. cbn [zip_with length]. split; [done|].
  cbn [ipnum]. rewrite !be32_arith, (maskByte_clamp ones), (maskByte_clamp (ones - 8)), (maskByte_clamp (ones - 16)), (maskByte_clamp (ones - 24)).
  rewrite !mask_byte by lia. byte_ranges.
  assert (Hfull : forall x, 8 - Z.max 0 (Z.min 8 x) = 8 -> forall e, b2z e - b2z e mod 2 ^ (8 - Z.max 0 (Z.min 8 x)) = 0).
  { intros x -> e. byte_ranges. rewrite Z.mod_small; change (2 ^ 8) with 256; lia. }
  assert (Hnone : forall x, 8 - Z.max 0 (Z.min 8 x) = 0 -> forall e, b2z e - b2z e mod 2 ^ (8 - Z.max 0 (Z.min 8 x)) = b2z e).
  { intros x -> e. rewrite Z.mod_1_r. lia. }
  destruct (Z.le_gt_cases ones 8); [|destruct (Z.le_gt_cases ones 16); [|destruct (Z.le_gt_cases ones 24)]].
  - rewrite (Hfull (ones - 8)), (Hfull (ones - 16)), (Hfull (ones - 24)) by lia.
    replace (8 - Z.max 0 (Z.min 8 ones)) with (8 - ones) by lia. replace (32 - ones) with (24 + (8 - ones)) by lia.
    replace (b2z a * 16777216 + b2z b * 65536 + b2z c * 256 + b2z d) with (b2z a * 2 ^ 24 + (b2z b * 65536 + b2z c * 256 + b2z d)) by lia.
    rewrite clear_low by lia. lia.
  - rewrite (Hnone ones), (Hfull (ones - 16)), (Hfull (ones - 24)) by lia.
    replace (8 - Z.max 0 (Z.min 8 (ones - 8))) with (16 - ones) by lia. replace (32 - ones) with (16 + (16 - ones)) by lia.
    replace (b2z a * 16777216 + b2z b * 65536 + b2z c * 256 + b2z d) with ((b2z a * 256 + b2z b) * 2 ^ 16 + (b2z c * 256 + b2z d)) by lia.
    rewrite clear_low, mod_low by lia. lia.
  - rewrite (Hnone ones), (Hnone (ones - 8)), (Hfull (ones - 24)) by lia.
    replace (8 - Z.max 0 (Z.min 8 (ones - 16))) with (24 - ones) by lia. replace (32 - ones) with (8 + (24 - ones)) by lia.
    replace (b2z a * 16777216 + b2z b * 65536 + b2z c * 256 + b2z d) with (((b2z a * 256 + b2z b) * 256 + b2z c) * 2 ^ 8 + b2z d) by lia.
    rewrite clear_low, mod_low by lia. lia.
  - rewrite (Hnone ones), (Hnone (ones - 8)), (Hnone (ones - 16)) by lia.
    replace (8 - Z.max 0 (Z.min 8 (ones - 24))) with (32 - ones) by lia.
    replace (b2z a * 16777216 + b2z b * 65536 + b2z c * 256 + b2z d) with (((b2z a * 256 + b2z b) * 256 + b2z c) * 256 + b2z d) by lia.
    rewrite mod_low by lia. lia.
Qed.

Lemma ipnum_range ip : is_u32 (ipnum ip).
Proof. destruct ip as [|a [|b [|c [|d [|]]]]]; try (unfold is_u32; simpl; lia). apply be32_range. Qed.

(** A network contains the addresses of its block. *)
Lemma Contains_block net ones v :
  length net = 4%nat -> 0 <= ones <= 32 ->
  Contains net ones (put32 v) = (ipnum net / 2 ^ (32 - ones) =? u32 v / 2 ^ (32 - ones)).
Proof.
  intros Hl Ho. unfold Contains. destruct (ipnum_Mask net ones Hl Ho) as [L1 N1].
  destruct (ipnum_Mask (put32 v) ones eq_refl Ho) as [L2 N2]. rewrite ipnum_put32 in N2.
  pose proof (Z.pow_pos_nonneg 2 (32 - ones)). set (h := 2 ^ (32 - ones)) in *.
  pose proof (Z.div_mod (ipnum net) h ltac:(lia)). pose proof (Z.div_mod (u32 v) h ltac:(lia)).
  destruct (Z.eqb_spec (ipnum net / h) (u32 v / h)) as [E|E].
  - apply bool_decide_eq_true. rewrite <- (put32_ipnum _ L1), <- (put32_ipnum _ L2), N1, N2. f_equal. nia.
  - apply bool_decide_eq_false. intros Heq. rewrite Heq, N2 in N1. nia.
Qed.

(** ** The hosts of a network *)

(** Hand the addresses over until one is refused. *)
Section Feed.
Context {S : Type} (send : string -> S -> bool * S).
Fixpoint feed (l : list string) (s : S) : bool * S :=
  match l with
  | [] => (false, s)
  | a :: l => let '(go, s) := send a s in if negb go then (true, s) else feed l s
  end.

(** The addresses with the numbers [v] to [v + k - 1]. *)
Definition addresses (v k : Z) : list string := (fun x => ipString (put32 x)) <$> seqZ v k.

Lemma addresses_S v k : 0 <= k -> addresses v (k + 1) = ipString (put32 v) :: addresses (v + 1) k.
Proof.
  intros Hk. unfold addresses. rewrite seqZ_cons by lia.
  replace (Z.pred (k + 1)) with k by lia. by replace (Z.succ v) with (v + 1) by lia.
Qed.

(** The part of the loop between the skipped ends. *)
Lemma streamLoop_middle k m idx total skipEnds v s :
  (skipEnds = true -> 0 < idx /\ idx + Z.of_nat k <= total - 1) ->
  streamLoop send (k + m) idx total skipEnds (put32 v) s =
  let '(stopped, s') := feed (addresses v (Z.of_nat k)) s in
  if stopped : bool then (true, s')
  else streamLoop send m (idx + Z.of_nat k) total skipEnds (put32 (v + Z.of_nat k)) s'.
Proof.
  revert idx v s. induction k as [|k IH]; intros idx v s Hs.
  { simpl. by rewrite !Z.add_0_r. }
  replace (Z.of_nat (Datatypes.S k)) with (Z.of_nat k + 1) by lia. rewrite addresses_S by lia.
  cbn [Nat.add streamLoop feed].
  replace (skipEnds && ((idx =? 0) || (idx =? total - 1))) with false.
  2: { destruct skipEnds; [|done]. destruct (Hs eq_refl). lia. }
  destruct (send (ipString (put32 v)) s) as [go s']. destruct (negb go); [done|].
  rewrite incIP_put32, IH by (intros H; destruct (Hs H); lia).
  destruct (feed _ s') as [stopped s'']. destruct stopped; [done|]. f_equal; [lia|]. f_equal. lia.
Qed.

(** The first host and their number in a block of [2 ^ h] addresses. *)
Definition skipped (h : Z) : Z := if 2 ^ h >? 2 then 1 else 0.
Definition hosts (v h : Z) : list string := addresses (v + skipped h) (2 ^ h - 2 * skipped h).

Lemma streamLoop_hosts v h s :
  0 <= h -> streamLoop send (Z.to_nat (2 ^ h)) 0 (2 ^ h) (2 ^ h >? 2) (put32 v) s = feed (hosts v h) s.
Proof.
  intros Hh. pose proof (Z.pow_pos_nonneg 2 h ltac:(lia) Hh) as Hp. unfold hosts, skipped.
  destruct (2 ^ h >? 2) eqn:E; b2p.
  - replace (Z.to_nat (2 ^ h)) with (Datatypes.S (Z.to_nat (2 ^ h - 2) + 1)) by lia. cbn [streamLoop].
    rewrite incIP_put32. simpl andb. cbv iota. change (0 =? 0) with true. cbv iota.
    rewrite streamLoop_middle by lia. rewrite Z2Nat.id by lia. replace (2 ^ h - 2 * 1) with (2 ^ h - 2) by lia.
    destruct (feed _ s) as [stopped s']. destruct stopped; [done|]. cbn [streamLoop].
    replace (true && ((0 + 1 + (2 ^ h - 2) =? 0) || (0 + 1 + (2 ^ h - 2) =? 2 ^ h - 1))) with true by lia. done.
  - replace (Z.to_nat (2 ^ h)) with (Z.to_nat (2 ^ h) + 0)%nat by lia.
    rewrite streamLoop_middle by done. rewrite Z2Nat.id by lia. replace (2 ^ h - 2 * 0) with (2 ^ h) by lia.
    rewrite Z.add_0_r. by destruct (feed _ s) as [[] s'].
Qed.
End Feed.

(** [expandCIDR] collects the block and drops its ends. *)
Lemma expandLoop_block fuel net ones v k ips :
  length net = 4%nat -> 1 <= ones <= 32 -> ipnum net mod 2 ^ (32 - ones) = 0 ->
  0 <= k -> v + k = ipnum net + 2 ^ (32 - ones) -> ipnum net <= v -> (Z.to_nat k < fuel)%nat ->
  expandLoop fuel net ones (put32 v) ips = Some (ips ++ addresses v k).
Proof.
  intros Hl Ho Hal. pose proof (ipnum_range net) as Hr. unfold is_u32 in Hr.
  pose proof (Z.pow_pos_nonneg 2 (32 - ones) ltac:(lia) ltac:(lia)) as Hp.
  assert (Hsplit : 2 ^ (32 - ones) * 2 ^ ones = 4294967296) by (rewrite <- Z.pow_add_r by lia; by replace (32 - ones + ones) with 32 by lia).
  assert (Hones : 2 <= 2 ^ ones) by (change 2 with (2 ^ 1) at 1; apply Z.pow_le_mono_r; lia).
  set (h := 2 ^ (32 - ones)) in *. pose proof (Z.div_mod (ipnum net) h ltac:(lia)) as Hdm. rewrite Hal in Hdm.
  set (q := ipnum net / h) in *.
  assert (Hq : q < 2 ^ ones) by nia. assert (Hblock : h * (q + 1) <= 4294967296) by nia.
  revert v k ips. induction fuel as [|fuel IH]; intros v k ips Hk Hvk Hv Hf; [lia|]. cbn [expandLoop].
  rewrite Contains_block by (done || lia). fold h. fold q.
  destruct (decide (k = 0)) as [->|Hne].
  - replace (q =? u32 v / h) with false.
    { unfold addresses. rewrite seqZ_nil by lia. simpl. by rewrite app_nil_r. }
    symmetry. apply Z.eqb_neq. intros E. unfold u32 in E.
    assert (Hv' : v = h * (q + 1)) by lia.
    destruct (Z.eq_dec (q + 1) (2 ^ ones)) as [Eq|Eq].
    + rewrite Hv', Eq, Hsplit, Z_mod_same_full, Z.div_0_l in E by lia. lia.
    + rewrite Z.mod_small in E by nia. rewrite Hv', Z.mul_comm, Z_div_mult in E by lia. lia.
  - assert (Hlt : v < 4294967296) by lia.
    replace (q =? u32 v / h) with true.
    2: { symmetry. apply Z.eqb_eq. unfold u32. rewrite Z.mod_small by lia.
         apply (Z.div_unique _ _ _ (v - h * q)); lia. }
    rewrite incIP_put32, (IH (v + 1) (k - 1)) by lia. replace k with (k - 1 + 1) at 2 by lia.
    rewrite addresses_S by lia. by rewrite <- app_assoc.
Qed.

Lemma expandNet_hosts fuel net ones :
  length net = 4%nat -> 1 <= ones <= 32 -> ipnum net mod 2 ^ (32 - ones) = 0 -> 2 ^ (32 - ones) < Z.of_nat fuel ->
  expandNet fuel net ones = Some (hosts (ipnum net) (32 - ones)).
Proof.
  intros Hl Ho Hal Hf. unfold expandNet. destruct (ipnum_Mask net ones Hl ltac:(lia)) as [L N].
  rewrite Hal, Z.sub_0_r in N. rewrite <- (put32_ipnum _ L), N.
  pose proof (Z.pow_pos_nonneg 2 (32 - ones) ltac:(lia) ltac:(lia)) as Hp.
  rewrite (expandLoop_block _ _ _ _ (2 ^ (32 - ones))) by (done || lia). cbn [mbind option_bind app].
  assert (Hlen : len (addresses (ipnum net) (2 ^ (32 - ones))) = 2 ^ (32 - ones)).
  { unfold addresses. rewrite length_fmap, length_seqZ. lia. }
  rewrite Hlen. unfold hosts, skipped. case_if; b2p; [|by rewrite Z.add_0_r, Z.sub_0_r].
  rewrite slice_ok by lia. f_equal. unfold addresses. rewrite <- fmap_drop, <- fmap_take. f_equal.
  replace (2 ^ (32 - ones)) with (1 + (2 ^ (32 - ones) - 1)) at 2 by lia. rewrite seqZ_app by lia.
  rewrite drop_app_exact by (rewrite length_seqZ; lia).
  replace (2 ^ (32 - ones) - 1) with ((2 ^ (32 - ones) - 2) + 1) at 2 by lia. rewrite seqZ_app by lia.
  rewrite take_app_exact by (rewrite length_seqZ; lia). f_equal; lia.
Qed.

(** Without a network part every address belongs to the network, so
    [expandCIDR] does not come to an end. *)
Lemma expandNet_all fuel net : length net = 4%nat -> expandNet fuel net 0 = None.
Proof.
  intros Hl. unfold expandNet. replace (expandLoop fuel net 0 (Mask net 0) []) with (@None (list string)); [done|].
  assert (Hc : forall v, Contains net 0 (put32 v) = true).
  { intros v. rewrite Contains_block by (done || lia). pose proof (ipnum_range net) as Hr. unfold is_u32 in Hr.
    change (2 ^ (32 - 0)) with 4294967296. rewrite (Z.div_small (ipnum net)) by lia.
    rewrite Z.div_small; [done|]. apply Z.mod_pos_bound. lia. }
  destruct (ipnum_Mask net 0 Hl ltac:(lia)) as [L _]. rewrite <- (put32_ipnum _ L). generalize (ipnum (Mask net 0)). generalize (@nil string).
  induction fuel as [|fuel IH]; intros ips v; [done|]. cbn [expandLoop]. rewrite Hc, incIP_put32. apply IH.
Qed.

(** ** Connections that succeeded *)

Section Connected.
Context {W : Type} `{!Transport W}.

Lemma closeCOTP_client conn st : (closeCOTP (W := W) conn st).2.1 = st.1.
Proof.
  destruct conn as [conn|]; [|done]. unfold closeCOTP. rewrite bind_run. unfold observe.
  destruct (t_Close conn st.2) as [[e|] w']; [|done]. simpl. by destruct (errors_Is e CotpErrClosed).
Qed.

(** A client that was connected to a pair is at that pair. *)
Lemma connectOnce_pair ctx rack slot st u st' :
  connectOnce ctx rack slot st = (Ok u, st') -> c_rack st'.1 = rack /\ c_slot st'.1 = slot.
Proof.
  unfold connectOnce. intros H. apply bind_run_inv in H as (c & st1 & _ & H). cbv zeta in H.
  apply bind_run_inv in H as ([e|[local remote]] & st2 & _ & H); [done|]. apply bind_run_inv in H as (conn & st3 & _ & H).
  apply bind_run_inv in H as (sctx & st4 & _ & H). apply bind_run_inv in H as ([e|setup] & st5 & _ & H).
  { apply bind_run_inv in H as (? & ? & _ & H). done. }
  apply bind_run_inv in H as (old & st6 & _ & H). apply bind_run_inv in H as ([] & st7 & Hm & H).
  apply bind_run_inv in H as (r & st8 & Hc & H). injection H as _ <-.
  assert (E : st8.1 = st7.1).
  { unfold attempt in Hc. pose proof (closeCOTP_client old st7) as K. destruct (closeCOTP old st7) as [[a|e|] st9]; [by injection Hc as _ <-..|done]. }
  rewrite E. unfold modify in Hm. by injection Hm as <-.
Qed.

Lemma Connect_pair ctx st u st' :
  o_autoRackSlot (c_opts st.1) = false -> Connect ctx st = (Ok u, st') ->
  c_rack st'.1 = o_rack (c_opts st.1) /\ c_slot st'.1 = o_slot (c_opts st.1).
Proof.
  intros Ha. unfold Connect. intros H. apply bind_run_inv in H as (o & st1 & Ho & H). injection Ho as <- <-.
  rewrite Ha in H. do 3 (case_if_in H; [done|]). simpl negb in H. cbv iota in H.
  apply bind_run_inv in H as (x & st2 & _ & H). simpl andb in H. cbv iota in H. by apply connectOnce_pair in H.
Qed.
End Connected.

(** ** One host *)

(** The pairs of a range, rack by rack, and those from a pair on. *)
Definition rackPairs (o : discoverOpts) (rack slot : Z) : list (Z * Z) :=
  pair rack <$> seqZ slot (do_slotMax o - slot + 1).
Definition pairsFrom (o : discoverOpts) (rack : Z) : list (Z * Z) :=
  r ← seqZ rack (do_rackMax o - rack + 1); rackPairs o r (do_slotMin o).
Definition discoverPairs (o : discoverOpts) : list (Z * Z) := pairsFrom o (do_rackMin o).
Definition pairsLeft (o : discoverOpts) (rack slot : Z) : list (Z * Z) := rackPairs o rack slot ++ pairsFrom o (rack + 1).

Lemma pairsFrom_step o rack : rack <= do_rackMax o -> pairsFrom o rack = pairsLeft o rack (do_slotMin o).
Proof.
  intros H. unfold pairsFrom, pairsLeft. rewrite seqZ_cons by lia. rewrite bind_cons. f_equal. unfold pairsFrom. f_equal. f_equal; lia.
Qed.

Lemma pairsFrom_done o rack : do_rackMax o < rack -> pairsFrom o rack = [].
Proof. intros H. unfold pairsFrom. by rewrite (seqZ_nil rack) by lia. Qed.

Lemma pairsLeft_step o rack slot : slot <= do_slotMax o -> pairsLeft o rack slot = (rack, slot) :: pairsLeft o rack (slot + 1).
Proof.
  intros H. unfold pairsLeft, rackPairs. rewrite seqZ_cons by lia. rewrite fmap_cons. simpl. f_equal. f_equal. f_equal. f_equal; lia.
Qed.

Lemma pairsLeft_next o rack slot : do_slotMax o < slot -> pairsLeft o rack slot = pairsFrom o (rack + 1).
Proof. intros H. unfold pairsLeft, rackPairs. by rewrite (seqZ_nil slot) by lia. Qed.

(** Ranges that [int] can count beyond. *)
Definition pairs_fit (o : discoverOpts) : Prop :=
  MinInt64 <= do_rackMin o /\ do_rackMax o < MaxInt64 /\ MinInt64 <= do_slotMin o /\ do_slotMax o < MaxInt64.

(** The passes left at a pair. *)
Definition passesLeft (o : discoverOpts) (rack slot : Z) : Z :=
  if rack <=? do_rackMax o
  then (do_slotMax o - slot + 2) + (do_rackMax o - rack) * (do_slotMax o - do_slotMin o + 2) + 1 else 1.

(** The first [max] of the pairs left, when there is a limit. *)
Definition limited (o : discoverOpts) (attempts : Z) (pairs : list (Z * Z)) : list (Z * Z) :=
  if do_maxAttemptsPerHost o >? 0 then take (Z.to_nat (do_maxAttemptsPerHost o - attempts)) pairs else pairs.

Lemma limited_cons o attempts p pairs :
  (do_maxAttemptsPerHost o >? 0) && (attempts >=? do_maxAttemptsPerHost o) = false ->
  limited o attempts (p :: pairs) = p :: limited o (attempts + 1) pairs.
Proof.
  intros H. unfold limited. case_if; b2p; [|done].
  by replace (Z.to_nat (do_maxAttemptsPerHost o - attempts)) with (S (Z.to_nat (do_maxAttemptsPerHost o - (attempts + 1)))) by lia.
Qed.

Section Host.
Context {W : Type} `{!Transport W} `{!Entropy W}.
Variable ctx : Ctx.
Hypothesis Hctx : is_nil ctx = false.
Hypothesis Hdone : ctx_done_has_err (W := W) ctx.

Abbreviation gives m Q := (total (counter_ok (W := W)) m Q).

Lemma gives_observe {A} (f : W -> A * W) : gives (observe f) (fun _ => True).
Proof. intros [c w] Hst. unfold observe. simpl. by destruct (f w). Qed.

Lemma gives_ctx_Err : gives (ctx_Err ctx) (fun _ => True).
Proof. unfold ctx_Err. rewrite Hctx. apply gives_observe. Qed.

Lemma gives_randomJitter ms : gives (randomJitter ms) (fun _ => True).
Proof.
  unfold randomJitter. case_if; [by apply total_ret|]. eapply total_bind; [apply gives_observe|].
  intros [e|n] _; by apply total_ret.
Qed.

Lemma gives_delayOrDone b d : gives (delayOrDone ctx b d) (fun _ => True).
Proof.
  unfold delayOrDone. destruct b; [|by apply total_ret]. intros [c w] Hst. rewrite bind_run. rewrite Hctx. unfold observe. simpl.
  destruct (t_wait ctx d w) as [[] w1] eqn:Ew; [|by simpl]. unfold ctxErrText, ctx_Err. rewrite Hctx.
  rewrite bind_run, bind_run. unfold observe. simpl. destruct (t_ctxErr ctx w1) as [o w2] eqn:Ee.
  destruct (Hdone _ _ _ _ _ Ew Ee) as [e ->]. by simpl.
Qed.

(** The pair of a connection that succeeded. *)
Lemma gives_tryHost ip port timeout rack slot :
  gives (tryHost ctx ip port timeout rack slot) (fun o => forall info, o = Some info -> ci_Rack info = rack /\ ci_Slot info = slot).
Proof.
  intros [c w] Hst. unfold tryHost, with_client. simpl snd.
  set (cl := New ip _). rewrite !bind_run. unfold attempt.
  assert (Hcl : counter_ok (cl, w)) by (unfold counter_ok, client_pduRef_ok, is_u32; simpl; lia).
  pose proof (safe_run _ _ _ _ _ _ (ok_Connect ctx Hctx) Hcl (surjective_pairing (Connect ctx (cl, w)))) as (Hp & Hc1 & _).
  destruct (Connect ctx (cl, w)) as [[[]|e|] [c1 w1]] eqn:E; [|by simpl; split|done].
  rewrite !bind_run. unfold get. simpl. rewrite !bind_run. apply Connect_pair in E; [|done]. simpl in Hc1.
  pose proof (safe_run _ _ _ _ _ _ ok_Close Hc1 (surjective_pairing (Close (c1, w1)))) as (Hnp & _ & _).
  destruct (Close (c1, w1)) as [[u|e|] [c2 w2]]; [..|done]; simpl; (split; [done|]; intros info [= <-]; done).
Qed.

(** What the result of a host says. *)
Definition host_result (ip : string) (port : Z) (pairs : list (Z * Z)) (r : DiscoverResult) : Prop :=
  dr_IP r = ip /\ dr_Port r = port /\
  if dr_IsS7 r
  then (dr_Rack r, dr_Slot r) ∈ pairs /\ dr_Error r = "" /\ dr_AbandonedReason r = ""
  else dr_Rack r = 0 /\ dr_Slot r = 0 /\ dr_PDUSize r = 0 /\ dr_AbandonedReason r ∈ ["" ; "max_attempts"; "context_canceled"].

Definition some_result (P : DiscoverResult -> Prop) (x : option DiscoverResult) : Prop := exists r, x = Some r /\ P r.

Lemma abandoned_result ip port pairs msg reason :
  reason ∈ ["" ; "max_attempts"; "context_canceled"] ->
  some_result (host_result ip port pairs) (Some (mkDiscoverResult ip port false 0 0 0 "" msg reason)).
Proof. intros H. eexists. split; [done|]. split; [done|]. split; [done|]. simpl. by repeat (split; [done|]). Qed.

Lemma host_result_more ip port p pairs r : host_result ip port pairs r -> host_result ip port (p :: pairs) r.
Proof.
  intros (H1 & H2 & H3). split; [done|]. split; [done|]. destruct (dr_IsS7 r); [|done]. destruct H3 as [H3 ?].
  split; [set_solver +H3 | done].
Qed.

Lemma gives_hostLoop fuel ip port o rack slot attempts :
  0 <= attempts -> pairs_fit o -> do_slotMin o <= do_slotMax o -> MinInt64 <= rack <= do_rackMax o + 1 ->
  do_slotMin o <= slot <= do_slotMax o + 1 -> passesLeft o rack slot <= Z.of_nat fuel ->
  gives (hostLoop fuel ctx ip port o rack slot attempts)
    (some_result (host_result ip port (limited o attempts (if rack <=? do_rackMax o then pairsLeft o rack slot else [])))).
Proof.
  intros Ha Hfit Hw. revert rack slot attempts Ha. pose proof Hfit as (F1 & F2 & F3 & F4).
  induction fuel as [|fuel IH]; intros rack slot attempts Ha Hr Hs Hf; cbn [hostLoop];
    [unfold passesLeft in Hf; case_if_in Hf; b2p; nia|].
  case_if; b2p; [apply total_ret, abandoned_result; set_solver +|].
  unfold passesLeft in Hf. destruct (Z.leb_spec rack (do_rackMax o)); [|lia]. destruct (Z.leb_spec slot (do_slotMax o)); simpl negb; cbv iota.
  2: { rewrite i64_small by (unfold is_i64; lia). rewrite pairsLeft_next by lia.
       eapply triple_conseq; [apply (IH (rack + 1) (do_slotMin o) attempts); [lia..|unfold passesLeft; case_if; b2p; nia] | done|].
       intros [x| |] st; [|done..]. case_if; b2p; [by rewrite pairsFrom_step by lia | by rewrite pairsFrom_done by lia]. }
  destruct (_ && _) eqn:Emax; [apply total_ret, abandoned_result; set_solver +|].
  rewrite pairsLeft_step, limited_cons by (done || lia).
  eapply total_bind; [apply gives_ctx_Err|]. intros [e|] _; [apply total_ret, abandoned_result; set_solver +|].
  eapply total_bind; [apply gives_randomJitter|]. intros jitter _.
  eapply total_bind; [apply gives_delayOrDone|]. intros [t|] _; [apply total_ret, abandoned_result; set_solver +|].
  eapply total_bind; [apply gives_delayOrDone|]. intros [t|] _; [apply total_ret, abandoned_result; set_solver +|].
  eapply total_bind; [apply gives_tryHost|]. intros [info|] Hinfo.
  - apply total_ret. destruct (Hinfo info eq_refl) as [-> ->]. eexists. split; [done|]. split; [done|]. split; [done|]. simpl. split; [set_solver + | done].
  - rewrite i64_small by (unfold is_i64; lia).
    eapply triple_conseq; [apply (IH rack (slot + 1) (attempts + 1)); [lia..|unfold passesLeft; case_if; b2p; nia] | done|].
    intros [x| |] st; [|done..]. case_if; b2p; [|lia]. intros [Hst (r & -> & H1)]. split; [done|]. exists r. split; [done|]. by apply host_result_more.
Qed.
End Host.

(** With the largest [int] as the last rack the loops have no end of their own:
    only a connection, the limit of attempts or the context ends them. *)
Lemma hostLoop_endless {W} `{!Transport W} `{!Entropy W} fuel ctx ip port o rack slot attempts (st st' : Client * W) r :
  do_rackMax o = MaxInt64 -> is_i64 rack -> hostLoop fuel ctx ip port o rack slot attempts st = (Ok (Some r), st') ->
  dr_IsS7 r = true \/ dr_AbandonedReason r <> "".
Proof.
  intros Hmax. revert rack slot attempts st. induction fuel as [|fuel IH]; intros rack slot attempts st Hr; cbn [hostLoop]; [done|].
  rewrite Hmax. destruct (Z.leb_spec rack MaxInt64); [|unfold is_i64 in Hr; lia].
  case_if; [done|]. case_if; [by apply IH, i64_range|]. case_if; [intros [= <- _]; by right|].
  intros H1. apply bind_run_inv in H1 as ([e|] & st1 & _ & H1); [injection H1 as <- _; by right|].
  apply bind_run_inv in H1 as (jitter & st2 & _ & H1).
  apply bind_run_inv in H1 as ([t|] & st3 & _ & H1); [injection H1 as <- _; by right|].
  apply bind_run_inv in H1 as ([t|] & st4 & _ & H1); [injection H1 as <- _; by right|].
  apply bind_run_inv in H1 as ([info|] & st5 & _ & H1); [injection H1 as <- _; by left|]. by eapply IH.
Qed.
