(* ===== verification/Workers.v ===== *)
(** * The goroutines of Discover (client/discover.go)

    [Discover] has a feeder that sends the jobs into a buffered channel, a
    number of workers that take them, and a collector that stores the
    results by index until all workers have left.  The channel of results
    can hold all of them, so sending one never blocks; it is received
    before the channel is closed.  The channel of jobs has the capacity
    [parallel * 2], which wraps around; making it panics when that is negative
    or more than the runtime allows. *)

From S2P Require Import Prelude Go WireErrors Header Client ClientRW Probe Discover.

Inductive worker :=
  | Idle
  | Probing (i : nat)
  | Exited.

Section Workers.
(** The jobs, the number of workers, the capacity of the channel of jobs, and
    the results a job may have. *)
Context {J R : Type} (jobs : list J) (parallel capacity : Z) (outcome : J -> R -> Prop).

Record crew := mkCrew {
  d_next : nat;                  (* the jobs sent so far *)
  d_fed : bool;                  (* the channel of jobs is closed *)
  d_queue : list nat;            (* the jobs in it *)
  d_workers : gmap nat worker;
  d_results : gmap nat R;
  d_ended : bool;                (* the context has ended *)
}.

Definition start_crew : crew :=
  mkCrew 0 false [] (gset_to_gmap Idle (list_to_set (List.seq 0 (Z.to_nat parallel)))) ∅ false.

Definition set_worker (k : nat) (st : worker) (s : crew) : crew :=
  mkCrew (d_next s) (d_fed s) (d_queue s) (<[k := st]> (d_workers s)) (d_results s) (d_ended s).

Inductive crew_step (s : crew) : crew -> Prop :=
  | crew_cancel : d_ended s = false -> crew_step s (mkCrew (d_next s) (d_fed s) (d_queue s) (d_workers s) (d_results s) true)
  (* the feeder *)
  | crew_send :
      d_fed s = false -> (d_next s < length jobs)%nat -> len (d_queue s) < capacity ->
      crew_step s (mkCrew (S (d_next s)) false (d_queue s ++ [d_next s]) (d_workers s) (d_results s) (d_ended s))
  | crew_fed :
      d_fed s = false -> (length jobs <= d_next s)%nat ->
      crew_step s (mkCrew (d_next s) true (d_queue s) (d_workers s) (d_results s) (d_ended s))
  | crew_stop_feeding :
      d_fed s = false -> (d_next s < length jobs)%nat -> d_ended s = true ->
      crew_step s (mkCrew (d_next s) true (d_queue s) (d_workers s) (d_results s) (d_ended s))
  (* a worker *)
  | crew_take k i queue :
      d_workers s !! k = Some Idle -> d_queue s = i :: queue ->
      crew_step s (mkCrew (d_next s) (d_fed s) queue (<[k := Probing i]> (d_workers s)) (d_results s) (d_ended s))
  | crew_leave k :
      d_workers s !! k = Some Idle -> d_queue s = [] -> d_fed s = true -> crew_step s (set_worker k Exited s)
  | crew_result k i j r :
      d_workers s !! k = Some (Probing i) -> jobs !! i = Some j -> outcome j r ->
      crew_step s (mkCrew (d_next s) (d_fed s) (d_queue s) (<[k := Idle]> (d_workers s)) (<[i := r]> (d_results s)) (d_ended s))
  | crew_drop k i :
      d_workers s !! k = Some (Probing i) -> d_ended s = true -> crew_step s (set_worker k Exited s).

Definition crew_run (s : crew) : Prop := rtc crew_step start_crew s.
(** All workers have left. *)
Definition crew_done (s : crew) : Prop := map_Forall (fun _ st => st = Exited) (d_workers s).

(** ** Invariant *)

(** Where the job [i] is. *)
Definition located (s : crew) (i : nat) : Prop :=
  i ∈ d_queue s \/ (exists k, d_workers s !! k = Some (Probing i)) \/ is_Some (d_results s !! i).

Record crew_ok (s : crew) : Prop := {
  crew_workers : forall k, is_Some (d_workers s !! k) <-> (k < Z.to_nat parallel)%nat;
  crew_next : (d_next s <= length jobs)%nat;
  crew_located : forall i, located s i -> (i < d_next s)%nat;
  crew_all : d_ended s = false -> forall i, (i < d_next s)%nat -> located s i;
  crew_results : forall i r, d_results s !! i = Some r -> exists j, jobs !! i = Some j /\ outcome j r;
  crew_closed : d_ended s = false -> d_fed s = true -> d_next s = length jobs;
  crew_left : d_ended s = false -> forall k, d_workers s !! k = Some Exited -> d_fed s = true /\ d_queue s = [];
}.

Lemma start_crew_ok : crew_ok start_crew.
Proof.
  split; unfold located; simpl; try done; try lia.
  - intros k. rewrite lookup_gset_to_gmap.
    destruct (decide (k ∈ (list_to_set (List.seq 0 (Z.to_nat parallel)) : gset nat))) as [H|H].
    + rewrite option_guard_True by done. apply elem_of_list_to_set, elem_of_seq in H. split; [lia | by eexists].
    + rewrite option_guard_False by done. split; [by intros [? ?]|]. intros Hk. destruct H. apply elem_of_list_to_set, elem_of_seq. lia.
  - intros i [H|[[k H]|[? H]]]; [by apply not_elem_of_nil in H| |done].
    apply lookup_gset_to_gmap_Some in H as [_ H]. done.
  - intros _ k H. apply lookup_gset_to_gmap_Some in H as [_ H]. done.
Qed.

(** Moving one worker keeps the workers. *)
Lemma workers_insert (m : gmap nat worker) k st st' :
  (forall k, is_Some (m !! k) <-> (k < Z.to_nat parallel)%nat) -> m !! k = Some st ->
  forall k', is_Some (<[k := st']> m !! k') <-> (k' < Z.to_nat parallel)%nat.
Proof.
  intros H Hk k'. rewrite <- H. destruct (decide (k' = k)) as [->|Hne].
  - rewrite lookup_insert_eq, Hk. split; intros _; by eexists.
  - by rewrite lookup_insert_ne by done.
Qed.

(** The other probes are where they were. *)
Lemma probing_insert (m : gmap nat worker) k st st' i :
  m !! k = Some st -> (exists k', <[k := st']> m !! k' = Some (Probing i)) ->
  st' = Probing i \/ exists k', m !! k' = Some (Probing i).
Proof.
  intros Hk [k' [[-> ->]|[Hne H]]%lookup_insert_Some]; [by left | right; eauto].
Qed.

Lemma probing_keep (m : gmap nat worker) k st st' i :
  m !! k = Some st -> st <> Probing i -> (exists k', m !! k' = Some (Probing i)) ->
  exists k', <[k := st']> m !! k' = Some (Probing i).
Proof.
  intros Hk Hne [k' H]. exists k'. rewrite lookup_insert_ne; [done|]. intros <-. congruence.
Qed.

Lemma send_ok s :
  crew_ok s -> d_fed s = false -> (d_next s < length jobs)%nat ->
  crew_ok (mkCrew (S (d_next s)) false (d_queue s ++ [d_next s]) (d_workers s) (d_results s) (d_ended s)).
Proof.
  intros [H1 H2 H3 H4 H5 H6 H7] Hf Hn. split; simpl; try done.
  - intros i [[H|H%list_elem_of_singleton]%elem_of_app|H]; simpl in *; [|lia|].
    + assert (i < d_next s)%nat; [|lia]. apply H3. by left.
    + assert (i < d_next s)%nat; [|lia]. apply H3. by right.
  - intros He i Hi. destruct (decide (i = d_next s)) as [->|Hne].
    + left. simpl. apply elem_of_app. right. by apply list_elem_of_singleton.
    + destruct (H4 He i) as [H|H]; [lia | left; apply elem_of_app; by left | by right].
  - intros He k Hk. destruct (H7 He k Hk). congruence.
Qed.

Lemma take_ok s k i queue :
  crew_ok s -> d_workers s !! k = Some Idle -> d_queue s = i :: queue ->
  crew_ok (mkCrew (d_next s) (d_fed s) queue (<[k := Probing i]> (d_workers s)) (d_results s) (d_ended s)).
Proof.
  intros [H1 H2 H3 H4 H5 H6 H7] Hk Hq. split; simpl; try done.
  - by eapply workers_insert.
  - intros i' [H|[H|H]]; simpl in *.
    + apply H3. left. rewrite Hq. by right.
    + eapply probing_insert in H as [[= <-]|H]; [|apply H3; right; by left|done]. apply H3. left. rewrite Hq. by left.
    + apply H3. right. by right.
  - intros He i' Hi. destruct (H4 He i' Hi) as [H|[H|H]].
    + rewrite Hq in H. apply elem_of_cons in H as [->|H]; [right; left; exists k; apply lookup_insert_eq | by left].
    + right. left. by eapply probing_keep.
    + right. by right.
  - intros He k' [[<- H]|[_ H]]%lookup_insert_Some; [done|]. destruct (H7 He k' H) as [_ H']. by rewrite Hq in H'.
Qed.

Lemma leave_ok s k :
  crew_ok s -> d_workers s !! k = Some Idle -> d_queue s = [] -> d_fed s = true -> crew_ok (set_worker k Exited s).
Proof.
  intros [H1 H2 H3 H4 H5 H6 H7] Hk Hq Hf. split; simpl; try done.
  - by eapply workers_insert.
  - intros i [H|[H|H]]; simpl in *; apply H3; [by left| |by right; right].
    eapply probing_insert in H as [H|H]; [done | by right; left | done].
  - intros He i Hi. destruct (H4 He i Hi) as [H|[H|H]]; [by left| |by right; right].
    right. left. by eapply probing_keep.
Qed.

Lemma result_ok s k i j r :
  crew_ok s -> d_workers s !! k = Some (Probing i) -> jobs !! i = Some j -> outcome j r ->
  crew_ok (mkCrew (d_next s) (d_fed s) (d_queue s) (<[k := Idle]> (d_workers s)) (<[i := r]> (d_results s)) (d_ended s)).
Proof.
  intros [H1 H2 H3 H4 H5 H6 H7] Hk Hj Hr. split; simpl; try done.
  - by eapply workers_insert.
  - intros i' [H|[H|H]]; simpl in *.
    + apply H3. by left.
    + eapply probing_insert in H as [H|H]; [done | apply H3; by right; left | done].
    + destruct (decide (i' = i)) as [->|Hne]; [apply H3; right; left; by exists k|].
      rewrite lookup_insert_ne in H by done. apply H3. by right; right.
  - intros He i' Hi. destruct (decide (i' = i)) as [->|Hne].
    { right. right. simpl. rewrite lookup_insert_eq. by eexists. }
    destruct (H4 He i' Hi) as [H|[H|H]]; [by left| |right; right; simpl; by rewrite lookup_insert_ne].
    right. left. eapply probing_keep; [done | congruence | done].
  - intros i' r' [[<- <-]|[_ H]]%lookup_insert_Some; [by exists j | by apply H5].
  - intros He k' [[<- H]|[_ H]]%lookup_insert_Some; [done | by apply (H7 He k')].
Qed.

Lemma drop_ok s k i :
  crew_ok s -> d_workers s !! k = Some (Probing i) -> d_ended s = true -> crew_ok (set_worker k Exited s).
Proof.
  intros [H1 H2 H3 H4 H5 H6 H7] Hk He. split; simpl; try (rewrite He; done); try done.
  - by eapply workers_insert.
  - intros i' [H|[H|H]]; simpl in *; apply H3; [by left| |by right; right].
    eapply probing_insert in H as [H|H]; [done | by right; left | done].
Qed.

Lemma crew_step_ok s s' : crew_ok s -> crew_step s s' -> crew_ok s'.
Proof.
  intros Hs Hstep.
  destruct Hstep as [He0|Hf Hn Hq|Hf Hn|Hf Hn He|k i queue Hk Hq|k Hk Hq Hf|k i j r Hk Hj Hr|k i Hk He].
  - destruct Hs. by split.
  - by apply send_ok.
  - destruct Hs as [H1 H2 H3 H4 H5 H6 H7]. split; simpl; try done; [intros; lia|].
    intros He k Hk. split; [done|]. by apply (H7 He k).
  - destruct Hs as [H1 H2 H3 H4 H5 H6 H7]. split; simpl; try done; rewrite He; done.
  - by apply take_ok.
  - by apply leave_ok.
  - by eapply result_ok.
  - by eapply drop_ok.
Qed.

Lemma crew_run_ok s : crew_run s -> crew_ok s.
Proof.
  intros Hr. unfold crew_run in Hr. pose proof start_crew_ok as H0.
  induction Hr as [|a b c Hab _ IH]; [done|]. apply IH. by eapply crew_step_ok.
Qed.

(** When all workers have left and the context has not ended, every job has
    its result. *)
Lemma crew_complete s :
  0 < parallel -> crew_run s -> crew_done s -> d_ended s = false ->
  forall i j, jobs !! i = Some j -> exists r, d_results s !! i = Some r /\ outcome j r.
Proof.
  intros Hp Hr Hd He i j Hj. pose proof (crew_run_ok s Hr) as [H1 _ _ H4 H5 H6 H7].
  destruct (proj2 (H1 O)) as [st Hst]; [lia|]. pose proof (Hd _ _ Hst) as ->.
  destruct (H7 He O Hst) as [Hf Hq].
  destruct (H4 He i) as [H|[[k H]|[r H]]].
  - rewrite (H6 He Hf). by eapply lookup_lt_Some.
  - rewrite Hq in H. by apply not_elem_of_nil in H.
  - by apply Hd in H.
  - exists r. split; [done|]. destruct (H5 i r H) as (j' & Hj' & ?). rewrite Hj in Hj'. by injection Hj' as <-.
Qed.

(** ** Termination *)

#[local] Instance worker_eq_dec : EqDecision worker.
Proof. solve_decision. Defined.

Definition worker_rank (st : worker) : Z := match st with Idle => 1 | Probing _ => 2 | Exited => 0 end.

(** The steps left. *)
Definition crew_pending (s : crew) : Z :=
  3 * (len jobs - Z.of_nat (d_next s)) + 2 * len (d_queue s) + map_total worker_rank (d_workers s) +
  (if d_fed s then 0 else 1) + (if d_ended s then 0 else 1).

Lemma crew_pending_nonneg s : crew_ok s -> 0 <= crew_pending s.
Proof.
  intros Hs. pose proof (crew_next s Hs). unfold crew_pending.
  pose proof (map_total_nonneg worker_rank (d_workers s) ltac:(intros []; simpl; lia)). destruct (d_fed s), (d_ended s); lia.
Qed.

(** Every step uses one up. *)
Lemma crew_decreases s s' : crew_step s s' -> crew_pending s' < crew_pending s.
Proof.
  intros Hstep. unfold crew_pending, set_worker.
  destruct Hstep as [He0|Hf Hn Hq|Hf Hn|Hf Hn He|k i queue Hk Hq|k Hk Hq Hf|k i j r Hk Hj Hr|k i Hk He]; simpl;
    rewrite ?Hf, ?He0, ?Hq, ?length_app; simpl length; try rewrite (map_total_update _ _ _ _ _ Hk); simpl worker_rank; lia.
Qed.

(** So the runs are bounded. *)
Lemma crew_bounded n s s' : crew_run s -> nsteps crew_step n s s' -> Z.of_nat n <= crew_pending s.
Proof.
  intros Hr Hn. assert (H : Z.of_nat n + crew_pending s' <= crew_pending s /\ crew_ok s').
  { apply crew_run_ok in Hr. revert Hr. induction Hn as [s|n s s1 s' Hst Hn IH]; intros Hr; [split; [lia | done]|].
    pose proof (crew_decreases _ _ Hst). apply crew_step_ok in Hst; [|done]. destruct (IH Hst). split; [lia | done]. }
  destruct H as [H Hok]. pose proof (crew_pending_nonneg s' Hok). lia.
Qed.

(** As long as a worker has not left, a thread can take a step, whatever the
    context does. *)
Lemma crew_progress s :
  0 < capacity -> (forall j, j ∈ jobs -> exists r, outcome j r) -> crew_ok s ->
  crew_done s \/ exists s', crew_step s s' /\ d_ended s' = d_ended s.
Proof.
  intros Hp Hout Hs.
  destruct (decide (map_Forall (fun _ st => st = Exited) (d_workers s))) as [Hd|Hd]; [by left|right].
  apply map_not_Forall in Hd as (k & st & Hk & Hst); [|by apply _].
  destruct st as [|i|]; [|..|done].
  2: { assert (Hi : (i < d_next s)%nat) by (apply (crew_located s Hs); right; left; by exists k).
       pose proof (crew_next s Hs). destruct (lookup_lt_is_Some_2 jobs i ltac:(lia)) as [j Hj].
       destruct (Hout j) as [r Hr]; [by eapply list_elem_of_lookup_2|]. eexists. split; [by eapply crew_result | done]. }
  destruct (d_queue s) as [|i queue] eqn:Hq.
  2: { eexists. split; [by eapply crew_take | done]. }
  destruct (d_fed s) eqn:Hf.
  { eexists. split; [by eapply crew_leave | done]. }
  destruct (decide (d_next s < length jobs)%nat).
  - eexists. split; [apply crew_send; [done | done | rewrite Hq; simpl; lia] | done].
  - eexists. split; [apply crew_fed; [done | lia] | done].
Qed.

Lemma crew_finishes s :
  0 < capacity -> (forall j, j ∈ jobs -> exists r, outcome j r) -> crew_run s ->
  exists s', crew_run s' /\ crew_done s' /\ d_ended s' = d_ended s.
Proof.
  intros Hp Hout. remember (Z.to_nat (crew_pending s)) as n eqn:Hn. revert s Hn. induction n as [n IH] using lt_wf_ind.
  intros s -> Hr. pose proof (crew_run_ok s Hr) as Hs.
  destruct (crew_progress s Hp Hout Hs) as [Hd|(s1 & H1 & He)]; [by exists s|]. pose proof (crew_decreases _ _ H1) as Hlt.
  assert (Hr1 : crew_run s1) by (by eapply rtc_r). pose proof (crew_pending_nonneg s1 (crew_run_ok s1 Hr1)).
  destruct (IH (Z.to_nat (crew_pending s1)) ltac:(lia) s1 eq_refl Hr1) as (s' & H2 & H3 & H4). exists s'. by rewrite <- He.
Qed.
End Workers.

(** ** Discover *)

Section Discover.
Context {W : Type} `{!Transport W} `{!Entropy W}.
(** IPv6 text, for [ParseCIDR]. *)
Variable parse6 : string -> option bool.
(** The number of jobs a channel may be made for. *)
Variable maxChan : Z.

(** The callback that collects every address. *)
Definition collect (ip : string) (l : list string) : bool * list string := (true, l ++ [ip]).

Definition hostOutcome (ctx : Ctx) (o : discoverOpts) (ip : string) (r : DiscoverResult) : Prop :=
  exists (w : W) st', probeS7 ctx ip 102 o (New ip [], w) = (Ok (Some r), st').

Definition workersOf (o : discoverOpts) : Z := if do_parallel o <? 1 then 1 else do_parallel o.

(** [make(chan job, parallel*2)]: the capacity, or a panic. *)
Definition jobsCapacity (o : discoverOpts) : res Z :=
  let n := i64 (workersOf o * 2) in if (n <? 0) || (n >? maxChan) then Panic else Ok n.

(** The results, by index; the zero value where no result was stored. *)
Definition discoverResults (hosts : list string) (s : crew) : list DiscoverResult :=
  (fun i => default zeroDiscoverResult (d_results s !! i)) <$> List.seq 0 (length hosts).

(** [Discover]: the error of the options, of the CIDR or of the context that
    ended while the addresses were counted; otherwise the results of all
    addresses in order, with the error of the context, if it has ended. *)
Inductive Discover (ctx : Ctx) (cidr : string) (opts : list DiscoverOption)
  : res (list DiscoverResult * option error) -> Prop :=
  | discover_options e :
      validateDiscover (discoverPresets (fold_left (fun o f => f o) opts discoverDefaults)) = Err e ->
      Discover ctx cidr opts (Err e)
  | discover_cidr e :
      validateDiscover (discoverPresets (fold_left (fun o f => f o) opts discoverDefaults)) = Ok tt ->
      streamCIDR parse6 collect cidr [] = (Err e, []) -> Discover ctx cidr opts (Err e)
  | discover_cancelled hosts err :
      validateDiscover (discoverPresets (fold_left (fun o f => f o) opts discoverDefaults)) = Ok tt ->
      streamCIDR parse6 collect cidr [] = (Ok false, hosts) -> hosts <> [] -> Discover ctx cidr opts (Err err)
  | discover_panics hosts :
      let o := discoverPresets (fold_left (fun o f => f o) opts discoverDefaults) in
      validateDiscover o = Ok tt -> streamCIDR parse6 collect cidr [] = (Ok false, hosts) -> hosts <> [] ->
      jobsCapacity o = Panic -> Discover ctx cidr opts Panic
  | discover_finished hosts s err capacity :
      let o := discoverPresets (fold_left (fun o f => f o) opts discoverDefaults) in
      validateDiscover o = Ok tt -> streamCIDR parse6 collect cidr [] = (Ok false, hosts) ->
      jobsCapacity o = Ok capacity -> crew_run hosts (workersOf o) capacity (hostOutcome ctx o) s -> crew_done s -> (err = None -> d_ended s = false) ->
      Discover ctx cidr opts (Ok (discoverResults hosts s, err)).
End Discover.
