(* ===== verification/ScanProps.v ===== *)
(** * Properties of the scans (client/rangescan.go, client/compare.go, client/discover.go)

    What a range scan reports, when the comparison of candidates says that
    they agree, which addresses of a network discovery visits, and what its
    results say, for every behaviour of the network and every interleaving of
    the goroutines. *)

From S2P Require Import Prelude Go WireErrors Header ReadWrite Client ClientRW RangeScan Triple Safety Pool Probe ProbeProps Compare Discover Workers.

(** ** The range scan returns *)

Section RangeScan.
Context {W : Type} `{!Transport W}.
Hypothesis Hfit : answers_fit (W := W).
Variable ctx : Ctx.
Hypothesis Hctx : is_nil ctx = false.

Abbreviation gives m := (total (counter_ok (W := W)) m (fun _ => True)).

Lemma gives_pace d first : gives (pace ctx d first).
Proof. unfold pace. rewrite Hctx. case_if; [apply gives_observe | by apply total_ret]. Qed.

Lemma gives_probeReads n addr size delay first acc : gives (probeReads n ctx addr size delay first acc).
Proof.
  revert first acc. induction n as [|n IH]; intros first acc; cbn [probeReads]; [by apply total_ret|].
  eapply total_bind; [apply (gives_ctx_Err ctx Hctx)|]. intros [e|] _; [by apply total_ret|].
  eapply total_bind; [apply gives_pace|]. intros [] _.
  - eapply total_bind; [apply (gives_ctx_Err ctx Hctx)|]. intros e _. by apply total_ret.
  - eapply total_bind; [apply gives_attempt, (ok_ReadArea Hfit ctx Hctx)|]. intros r _. cbv zeta. apply IH.
Qed.

Lemma gives_probeOneOffset req offset size : gives (probeOneOffset ctx req offset size).
Proof.
  unfold probeOneOffset. cbv zeta. eapply total_bind; [apply gives_probeReads|]. intros [f|l] _; [by apply total_ret|].
  destruct (last l); [|by apply total_ret]. case_if; [|by apply total_ret].
  eapply total_bind; [apply gives_probeReads|]. intros [f|l'] _; by apply total_ret.
Qed.

Lemma gives_probeLoop req size offsets acc : gives (probeLoop ctx req size offsets acc).
Proof.
  revert acc. induction offsets as [|o offsets IH]; intros acc; cbn [probeLoop]; [by apply total_ret|].
  eapply total_bind; [apply (gives_ctx_Err ctx Hctx)|]. intros [e|] _; [by apply total_ret|].
  eapply total_bind; [apply gives_probeOneOffset|]. intros ob _. apply IH.
Qed.

Lemma ProbeReadableRanges_returns req c w conn :
  validateRangeProbeRequest req = Ok tt -> range_fits req -> c_conn c = Some conn -> client_pduRef_ok c ->
  exists out err st', ProbeReadableRanges ctx req (c, w) = (Ok (Some (out, err)), st').
Proof.
  intros Hv Hr Hc Hp. assert (Hle : rq_Start req <= rq_End req).
  { unfold validateRangeProbeRequest in Hv. case_if_in Hv; b2p; [done | lia]. }
  unfold ProbeReadableRanges. rewrite bind_run. unfold lift. rewrite Hv. cbv zeta. rewrite (scanOffsets_fits req Hle Hr).
  rewrite bind_run. replace ((if len (range_offsets req) >? 0 then require_conn else mret tt) (c, w)) with (@Ok unit tt, (c, w)).
  2: { case_if; [|done]. unfold require_conn. rewrite bind_run. unfold get. simpl. by rewrite Hc. }
  rewrite bind_run.
  destruct (total_run _ _ _ (c, w) (gives_probeLoop req (scanProbeSize req) (range_offsets req) []) Hp) as (r & st' & -> & _).
  destruct r as [err|obs]; [by eexists _, _, _|].
  destruct (ConsolidateSpans obs (scanStep req) (scanProbeSize req)) as [spans sum]. by eexists _, _, _.
Qed.
End RangeScan.

(** ** The comparison *)

Section Compare.
Context {W : Type} `{!Transport W}.
Hypothesis Hfit : answers_fit (W := W).
Variable ctx : Ctx.
Hypothesis Hctx : is_nil ctx = false.

Lemma parallelism_at_least_one req : 1 <= compareParallelism req.
Proof. unfold compareParallelism. case_if; b2p; lia. Qed.

Lemma compare_client_ok req cand (w : W) : counter_ok (compareClient req cand, w).
Proof. unfold counter_ok, client_pduRef_ok, is_u32. simpl. lia. Qed.

Lemma compareOutcome_pair req cand c :
  compareOutcome (W := W) ctx req cand c -> cc_Rack c = rs_Rack cand /\ cc_Slot c = rs_Slot cand.
Proof.
  intros (w & st' & E).
  destruct (total_run _ _ _ _ (compareOne_total Hfit ctx Hctx req cand) (compare_client_ok req cand w)) as (c' & st2 & E' & _ & H).
  rewrite E in E'. by injection E' as <- _.
Qed.

Lemma compareOutcome_some (w : W) req cand : exists c, compareOutcome (W := W) ctx req cand c.
Proof.
  destruct (total_run _ _ _ _ (compareOne_total Hfit ctx Hctx req cand) (compare_client_ok req cand w)) as (c & st' & E & _).
  by exists c, w, st'.
Qed.

Lemma compare_exists (w : W) req : exists s, compare_pool (W := W) ctx req s /\ p_ended s = false.
Proof.
  pose proof (parallelism_at_least_one req).
  destruct (pool_finishes (cr_Candidates req) (compareParallelism req) (compareOutcome (W := W) ctx req) (fun _ => false) false start_pool)
    as (s & Hrun & Hdone & Hend); [lia | intros; by apply compareOutcome_some | apply rtc_refl|]. by exists s.
Qed.

(** The entries of a finished run. *)
Lemma compare_entries req s err :
  compare_pool (W := W) ctx req s -> (p_ended s = true -> is_Some err) ->
  Forall2 (fun cand c => cc_Rack c = rs_Rack cand /\ cc_Slot c = rs_Slot cand /\
             (compareOutcome (W := W) ctx req cand c \/
              exists err, c = compareCandidateFailure cand (cr_Size req) (Some err)))
    (cr_Candidates req) (compareEntries req (pool_results (cr_Candidates req) s) err).
Proof.
  intros [Hrun Hdone] Hend. pose proof (parallelism_at_least_one req) as Hp.
  assert (Hcap : 0 <= compareParallelism req) by lia.
  pose proof (run_ok _ _ _ _ _ s Hcap Hrun) as Hok.
  unfold compareEntries. apply Forall2_same_length_lookup_2.
  { rewrite length_zip_with, length_results. lia. }
  intros i cand c Hcand Hc. apply lookup_zip_with_Some in Hc as (cand' & o & -> & Hcand' & Ho).
  rewrite Hcand in Hcand'. injection Hcand' as <-.
  rewrite lookup_results in Ho by (by eapply lookup_lt_Some). injection Ho as <-.
  destruct (p_results s !! i) as [c|] eqn:E; simpl.
  - destruct (pool_outcomes _ _ _ _ _ Hok i c E) as (cand' & Hcand' & Hout). rewrite Hcand in Hcand'. injection Hcand' as <-.
    destruct (compareOutcome_pair _ _ _ Hout). split; [done|]. split; [done|]. by left.
  - split; [done|]. split; [done|]. right.
    assert (He : p_ended s = true).
    { destruct Hdone as [Hpc Hempty]. destruct (pool_left _ _ _ _ _ Hok Hpc) as [Hcan|Hn].
      - destruct (pool_why _ _ _ _ _ Hok Hcan) as [?|(k & r & _ & ?)]; [done|done].
      - assert (Hs : i ∈ p_running s \/ is_Some (p_results s !! i)).
        { apply (pool_started _ _ _ _ _ Hok). rewrite Hn. by eapply lookup_lt_Some. }
        rewrite Hempty, E in Hs. destruct Hs as [H|[? H]]; [set_solver +H | done]. }
    destruct (Hend He) as [e ->]. by exists e.
Qed.
End Compare.

(** ** A host for the witnesses *)

(** A CPU that accepts a connection to slot 2 and refuses every read; random
    numbers are zero. *)
#[export] Instance host_entropy : Entropy Host := {| e_randInt _ w := (inr 0, w) |}.

Definition host_client : Client := set_connection (Some 7) 0 2 256 770 240 1 1 (New "plc" []).

(** ** Theorems *)

(** C31: a range scan of a range that [int] can hold (with a step and a probe
    beyond its end), on a connected client over a transport whose calls
    return, comes back with a result.  Unless the context
    ended, it has probed exactly the offsets [Start], [Start + Step], ...
    below [End], in order; its spans are runs of neighbouring probes with the
    same status, which together are all probes; no two neighbouring spans
    could have been one; and the summary holds every span in the list of its
    class. *)
Theorem ProbeReadableRanges_partitions {W} `{!Transport W} ctx req c (w : W) conn :
  answers_fit (W := W) -> is_nil ctx = false -> validateRangeProbeRequest req = Ok tt -> range_fits req ->
  c_conn c = Some conn -> client_pduRef_ok c ->
  exists out err st', ProbeReadableRanges ctx req (c, w) = (Ok (Some (out, err)), st') /\
    (err = None ->
     ob_Offset <$> rp_Probes out =
       (fun k => rq_Start req + k * scanStep req) <$>
         seqZ 0 (Z.max 0 ((rq_End req - rq_Start req + scanStep req - 1) / scanStep req)) /\
     Forall (fun o => ob_Request o = mkAddress (rq_Area req) (rq_DBNumber req) (ob_Offset o) (scanProbeSize req))
       (rp_Probes out) /\
     exists runs, mjoin runs = rp_Probes out /\
       Forall2 (span_of (scanStep req) (scanProbeSize req)) runs (rp_Spans out) /\
       maximal (scanStep req) runs /\ summary_of (rp_Spans out) (rp_Summary out)).
Proof.
  intros Hf Hc Hv Hr Hconn Hp.
  destruct (ProbeReadableRanges_returns Hf ctx Hc req c w conn Hv Hr Hconn Hp) as (out & err & st' & E).
  exists out, err, st'. split; [done|]. intros ->. by apply ProbeReadableRanges_spec in E.
Qed.

(** Witness of C31: offsets 0, 4 and 8 of a data block, each read failing. *)
Lemma ProbeReadableRanges_partitions_witness :
  let req := mkRangeProbeRequest AreaDB 1 0 10 4 2 0 0 0 0 0 in
  exists out st', ProbeReadableRanges (Caller 0) req (host_client, mkHost 770 []) = (Ok (Some (out, None)), st') /\
    ob_Offset <$> rp_Probes out = [0; 4; 8] /\ length (rp_Spans out) = 1%nat.
Proof.
  intros req.
  destruct (ProbeReadableRanges_partitions (Caller 0) req host_client (mkHost 770 []) 7) as (out & err & st' & E & H).
  - apply host_answers_fit.
  - reflexivity.
  - reflexivity.
  - split; [vm_compute; discriminate | split; [reflexivity | vm_compute; discriminate]].
  - reflexivity.
  - split; vm_compute; discriminate || reflexivity.
  - assert (E' : (ProbeReadableRanges (Caller 0) req (host_client, mkHost 770 [])).1 = Ok (Some (out, err))) by (rewrite E; reflexivity).
    assert (Herr : err = None) by (vm_compute in E'; injection E' as _ <-; reflexivity).
    subst err. exists out, st'. split; [exact E|]. destruct (H eq_refl) as (Hoff & _). split; [rewrite Hoff; vm_compute; reflexivity|].
    vm_compute in E'. injection E' as <-. reflexivity.
Defined.

(** C32: a comparison of candidates always comes to a result, and however the
    goroutines interleaved it has one entry per candidate, in their order and
    with their rack and slot: what a read over a connection of its own gave,
    or a failure with the error of the context that ended.  It reports
    [RackSlotInsensitive] exactly when there are at least two candidates and
    all of them succeeded with the same data.  (The comment on [CompareRead]
    and the API documentation do not ask for two candidates: for a single one
    that succeeds they promise true, and the code reports false.) *)
Theorem CompareRead_agrees {W} `{!Transport W} ctx req (w : W) :
  answers_fit (W := W) -> is_nil ctx = false -> validateCompareReadRequest t_duration req = Ok tt ->
  (exists out, CompareRead (W := W) ctx req (Ok out)) /\
  forall r, CompareRead (W := W) ctx req r ->
    exists out, r = Ok out /\ co_Request out = req /\
      Forall2 (fun cand c => cc_Rack c = rs_Rack cand /\ cc_Slot c = rs_Slot cand /\
                 (compareOutcome (W := W) ctx req cand c \/
                  exists err, c = compareCandidateFailure cand (cr_Size req) (Some err)))
        (cr_Candidates req) (co_ByCandidate out) /\
      (co_RackSlotInsensitive out = true <-> agree (co_ByCandidate out)).
Proof.
  intros Hf Hc Hv. split.
  - destruct (cr_Candidates req) as [|cand cands] eqn:E; [eexists; by apply compare_empty|].
    destruct (compare_exists Hf ctx Hc w req) as (s & Hs & He).
    destruct (rackSlotInsensitive_spec (compareEntries req (pool_results (cr_Candidates req) s) None)) as (b & Hb & _).
    eexists. pose proof (compare_finished ctx req s None _ Hv ltac:(by rewrite E) Hs ltac:(congruence) eq_refl) as H.
    rewrite Hb in H. exact H.
  - intros r Hr. destruct Hr as [e He|_ E|s err entries _ _ Hs Hend ->]; [congruence| |].
    + exists (mkCompareReadResult req [] false). split; [done|]. split; [done|]. rewrite E. split; [constructor|].
      unfold agree. simpl. split; [done | lia].
    + destruct (rackSlotInsensitive_spec (compareEntries req (pool_results (cr_Candidates req) s) err)) as (b & Hb & Hspec).
      rewrite Hb. eexists. split; [reflexivity|]. split; [done|]. split; [|done]. by eapply compare_entries.
Qed.

(** Witness of C32: two slots of the host; the read of slot 2 fails, slot 1 is
    refused. *)
Lemma CompareRead_agrees_witness :
  let req := mkCompareReadRequest "plc" 0 [mkRackSlot 0 1; mkRackSlot 0 2] AreaDB 1 0 4 0 2 in
  exists out, CompareRead (W := Host) (Caller 0) req (Ok out) /\ length (co_ByCandidate out) = 2%nat /\
    (co_RackSlotInsensitive out = true <-> agree (co_ByCandidate out)).
Proof.
  intros req. destruct (CompareRead_agrees (Caller 0) req (mkHost 770 [])) as [[out Hout] Hall].
  - apply host_answers_fit.
  - reflexivity.
  - vm_compute. reflexivity.
  - exists out. split; [exact Hout|]. destruct (Hall _ Hout) as (out' & E & _ & HF & Hag). injection E as <-.
    split; [|exact Hag]. apply Forall2_length in HF. symmetry. exact HF.
Defined.

(** ** Addresses *)

Lemma digits_nonneg l n : digits l = Some n -> 0 <= n.
Proof.
  unfold digits. destruct l as [|a l]; [done|]. case_if; [|done]. intros [= <-].
  assert (H : forall l n, 0 <= n -> forallb is_digit l = true -> 0 <= foldl (fun n a => n * 10 + (char_code a - 48)) n l).
  { clear. induction l as [|a l IH]; intros n Hn H; [done|]. simpl in *. apply andb_prop in H as [Ha H].
    apply IH; [|done]. unfold is_digit in Ha. lia. }
  apply (H (a :: l) 0); [lia | done].
Qed.

Lemma parseIPv4_length l ip : parseIPv4 l = Some ip -> length ip = 4%nat.
Proof.
  unfold parseIPv4. destruct (mapM parseField (split_on 46 l)); [|done]. simpl. case_if; [|done]. intros [= <-]. by apply Nat.eqb_eq.
Qed.

(** An accepted CIDR is a network of at most 20 host bits, with those bits
    clear. *)
Lemma checkCIDR_network parse6 cidr ip h :
  checkCIDR parse6 cidr = Ok (ip, h) -> length ip = 4%nat /\ 0 <= h <= maxDiscoveryHostBits /\ ipnum ip mod 2 ^ h = 0.
Proof.
  unfold checkCIDR, ParseCIDR. destruct (cut_slash _) as [[addr mask]|]; [|done].
  destruct (colon_first addr); [destruct (parse6 cidr) as [[]|]; done|].
  destruct (parseIPv4 addr) as [raw|] eqn:Ea; [|done]. destruct (digits mask) as [n|] eqn:Ed; [|done].
  apply parseIPv4_length in Ea. apply digits_nonneg in Ed. case_if; [|done]. case_if; [done|]. intros [= <- <-]. b2p.
  destruct (ipnum_Mask raw n Ea ltac:(lia)) as [Hl ->]. split; [done|]. split; [lia|].
  pose proof (Z.pow_pos_nonneg 2 (32 - n) ltac:(lia) ltac:(lia)).
  rewrite Zminus_mod, Zmod_mod, Z.sub_diag. apply Z.mod_0_l. lia.
Qed.

Lemma Mask_network ip h :
  length ip = 4%nat -> 0 <= h <= 32 -> ipnum ip mod 2 ^ h = 0 -> Mask ip (32 - h) = put32 (ipnum ip).
Proof.
  intros Hl Hh Hm. destruct (ipnum_Mask ip (32 - h) Hl ltac:(lia)) as [L N]. rewrite <- (put32_ipnum _ L), N.
  replace (32 - (32 - h)) with h by lia. by rewrite Hm, Z.sub_0_r.
Qed.

(** C33: [streamCIDR] hands over exactly the hosts of an accepted network, one
    by one in ascending order until one is refused: all addresses of the
    block, without the first and the last when it has more than two; at most
    2 ^ 20.  [expandCIDR] computes the same list. *)
Theorem streamCIDR_hosts parse6 {S} (send : string -> S -> bool * S) cidr s ip h fuel :
  checkCIDR parse6 cidr = Ok (ip, h) -> 2 ^ h < Z.of_nat fuel ->
  streamCIDR parse6 send cidr s = (let '(stopped, s') := feed send (hosts (ipnum ip) h) s in (Ok stopped, s')) /\
  expandNet fuel ip (32 - h) = Some (hosts (ipnum ip) h) /\
  len (hosts (ipnum ip) h) = (if 2 ^ h >? 2 then 2 ^ h - 2 else 2 ^ h) /\ 1 <= len (hosts (ipnum ip) h) <= 2 ^ 20.
Proof.
  intros Hc Hf. destruct (checkCIDR_network _ _ _ _ Hc) as (Hl & Hh & Hm). unfold maxDiscoveryHostBits in Hh.
  pose proof (Z.pow_pos_nonneg 2 h ltac:(lia) ltac:(lia)) as Hp.
  assert (Hle : 2 ^ h <= 2 ^ 20) by (apply Z.pow_le_mono_r; lia).
  assert (Hlen : len (hosts (ipnum ip) h) = if 2 ^ h >? 2 then 2 ^ h - 2 else 2 ^ h).
  { unfold hosts, addresses, skipped. rewrite length_fmap, length_seqZ. case_if; b2p; lia. }
  split; [|split; [|split; [done|]]].
  - unfold streamCIDR. rewrite Hc, Z.shiftl_1_l, Mask_network by (done || lia). by rewrite streamLoop_hosts by lia.
  - assert (E : 32 - (32 - h) = h) by lia. rewrite expandNet_hosts; rewrite ?E; [done | done | lia | done | done].
  - rewrite Hlen. case_if; b2p; lia.
Qed.

(** Witness of C33: the six hosts of a /29. *)
Lemma streamCIDR_hosts_witness :
  let parse6 := fun _ => None in
  streamCIDR parse6 collect "192.168.10.250/29" [] =
    (Ok false, ["192.168.10.249"; "192.168.10.250"; "192.168.10.251"; "192.168.10.252"; "192.168.10.253"; "192.168.10.254"]) /\
  expandNet 9 [xc0; xa8; x0a; xf8] (32 - 3) =
    Some ["192.168.10.249"; "192.168.10.250"; "192.168.10.251"; "192.168.10.252"; "192.168.10.253"; "192.168.10.254"].
Proof.
  intros parse6.
  destruct (streamCIDR_hosts parse6 collect "192.168.10.250/29" [] [xc0; xa8; x0a; xf8] 3 9) as (H1 & H2 & _).
  - vm_compute. reflexivity.
  - vm_compute. reflexivity.
  - split; [rewrite H1; vm_compute; reflexivity | rewrite H2; vm_compute; reflexivity].
Defined.

(** ** Discovery *)

Lemma collect_hosts l acc : feed collect l acc = (false, acc ++ l).
Proof. revert acc. induction l as [|a l IH]; intros acc; simpl; [by rewrite app_nil_r|]. rewrite IH. by rewrite <- app_assoc. Qed.

Lemma streamCIDR_collect parse6 cidr ip h :
  checkCIDR parse6 cidr = Ok (ip, h) -> streamCIDR parse6 collect cidr [] = (Ok false, hosts (ipnum ip) h).
Proof.
  intros Hc. destruct (checkCIDR_network _ _ _ _ Hc) as (Hl & Hh & Hm). unfold maxDiscoveryHostBits in Hh.
  unfold streamCIDR. rewrite Hc, Z.shiftl_1_l, Mask_network by (done || lia). rewrite streamLoop_hosts by lia.
  by rewrite collect_hosts.
Qed.

Lemma workers_positive o : 1 <= workersOf o.
Proof. unfold workersOf. case_if; b2p; lia. Qed.

(** The channel of jobs can be made. *)
Lemma jobsCapacity_ok o maxChan :
  workersOf o * 2 <= maxChan <= MaxInt64 -> jobsCapacity maxChan o = Ok (workersOf o * 2).
Proof.
  intros H. pose proof (workers_positive o). unfold jobsCapacity. rewrite i64_small by (unfold is_i64, MinInt64; lia). cbv zeta. by if_arith.
Qed.

Section Discovery.
Context {W : Type} `{!Transport W} `{!Entropy W}.
Variable ctx : Ctx.
Hypothesis Hctx : is_nil ctx = false.
Hypothesis Hdone : ctx_done_has_err (W := W) ctx.

(** The pairs that are tried on a host. *)
Definition tried (o : discoverOpts) : list (Z * Z) := limited o 0 (discoverPairs o).

Lemma host_client_ok ip (w : W) : counter_ok (New ip [], w).
Proof. unfold counter_ok, client_pduRef_ok, is_u32. simpl. lia. Qed.

Variable o : discoverOpts.
Hypothesis Hvalid : validateDiscover o = Ok tt.
Hypothesis Hpairs : pairs_fit o.

Lemma gives_probeS7 ip :
  total (counter_ok (W := W)) (probeS7 ctx ip 102 o) (some_result (host_result ip 102 (tried o))).
Proof.
  assert (do_rackMin o <= do_rackMax o /\ do_slotMin o <= do_slotMax o) as [Hr Hs].
  { unfold validateDiscover in Hvalid. do 2 (case_if_in Hvalid; b2p; [done|]). lia. }
  pose proof Hpairs as (H1 & _). unfold probeS7, tried, discoverPairs. rewrite pairsFrom_step by lia.
  eapply triple_conseq; [apply (gives_hostLoop ctx Hctx Hdone (hostPasses o)); [lia | done | lia..|] | done|].
  - unfold hostPasses, passesLeft. case_if; b2p; nia.
  - intros [x| |] st; [|done..]. by destruct (Z.leb_spec (do_rackMin o) (do_rackMax o)); [|lia].
Qed.

Lemma hostOutcome_result ip r : hostOutcome (W := W) ctx o ip r -> host_result ip 102 (tried o) r.
Proof.
  intros (w & st' & E). destruct (total_run _ _ _ _ (gives_probeS7 ip) (host_client_ok ip w)) as (r' & st2 & E' & _ & r2 & -> & H).
  rewrite E in E'. by injection E' as <- _.
Qed.

Lemma hostOutcome_some (w : W) ip : exists r, hostOutcome (W := W) ctx o ip r.
Proof.
  destruct (total_run _ _ _ _ (gives_probeS7 ip) (host_client_ok ip w)) as (x & st' & E & _ & r & -> & _). by exists r, w, st'.
Qed.

(** An entry of the results: the zero value only if the context ended. *)
Definition entry_ok (err : option error) (ip : string) (r : DiscoverResult) : Prop :=
  host_result ip 102 (tried o) r \/ (r = zeroDiscoverResult /\ is_Some err).

Lemma crew_entries l capacity s err :
  crew_run l (workersOf o) capacity (hostOutcome (W := W) ctx o) s -> crew_done s -> (err = None -> d_ended s = false) ->
  Forall2 (entry_ok err) l (discoverResults l s).
Proof.
  intros Hrun Hd Hend. pose proof (workers_positive o). assert (Hp : 0 < workersOf o) by lia. pose proof (crew_run_ok _ _ _ _ s Hrun) as Hok.
  unfold discoverResults. apply Forall2_same_length_lookup_2; [by rewrite length_fmap, length_seq|].
  intros i ip r Hip Hr. rewrite list_lookup_fmap, lookup_seq_lt in Hr by (by eapply lookup_lt_Some). injection Hr as <-. simpl.
  destruct (d_results s !! i) as [r|] eqn:E; simpl.
  - left. destruct (crew_results _ _ _ s Hok i r E) as (ip' & Hip' & Hout). rewrite Hip in Hip'. injection Hip' as <-.
    by apply hostOutcome_result.
  - right. split; [done|]. destruct err as [e|]; [by eexists|].
    destruct (crew_complete _ _ _ _ s Hp Hrun Hd (Hend eq_refl) i ip Hip) as (r & Hr & _). congruence.
Qed.

Lemma crew_exists (w : W) l capacity :
  0 < capacity ->
  exists s, crew_run l (workersOf o) capacity (hostOutcome (W := W) ctx o) s /\ crew_done s /\ d_ended s = false.
Proof.
  intros Hcap. destruct (crew_finishes l (workersOf o) capacity (hostOutcome (W := W) ctx o) (start_crew (workersOf o))) as (s & ? & ? & ?);
    [lia | intros; by apply hostOutcome_some | apply rtc_refl|]. by exists s.
Qed.
End Discovery.

(** C34: discovery covers a network.  For an accepted network, valid options
    with racks and slots below the largest [int], a number of workers for which
    the channel of jobs can be made, and probes whose network calls return:
    feeder and workers take at most [crew_pending] steps in any interleaving,
    and until all workers have left one of them can take a step, whether the
    context ends or not; then [Discover] returns what they stored.  It never
    panics, and its results stand in the order of the hosts: each is the
    outcome of its own address, an S7 device only with a pair that was tried
    (at most [MaxAttemptsPerHost] of them), and a zero value only if the
    context ended.  Without its end there is such a result. *)
Theorem Discover_covers {W} `{!Transport W} `{!Entropy W} parse6 maxChan ctx cidr opts ip h (w : W) :
  let o := discoverPresets (fold_left (fun o f => f o) opts discoverDefaults) in
  let step := crew_step (hosts (ipnum ip) h) (workersOf o * 2) (hostOutcome (W := W) ctx o) in
  is_nil ctx = false -> ctx_done_has_err (W := W) ctx -> validateDiscover o = Ok tt -> pairs_fit o ->
  workersOf o * 2 <= maxChan <= MaxInt64 -> checkCIDR parse6 cidr = Ok (ip, h) ->
  (forall s, rtc step (start_crew (workersOf o)) s ->
     (forall n s', nsteps step n s s' -> Z.of_nat n <= crew_pending (hosts (ipnum ip) h) s) /\
     ((exists s', step s s' /\ d_ended s' = d_ended s) \/
      exists err, Discover (W := W) parse6 maxChan ctx cidr opts (Ok (discoverResults (hosts (ipnum ip) h) s, err)))) /\
  (exists results, Discover (W := W) parse6 maxChan ctx cidr opts (Ok (results, None))) /\
  forall r, Discover (W := W) parse6 maxChan ctx cidr opts r ->
    match r with
    | Ok (results, err) => Forall2 (entry_ok o err) (hosts (ipnum ip) h) results
    | Err _ => True
    | Panic => False
    end.
Proof.
  intros o step Hc Hd Hv Hp Hcap Hcidr. pose proof (streamCIDR_collect parse6 cidr ip h Hcidr) as Hs.
  pose proof (jobsCapacity_ok o maxChan Hcap) as Hjobs. pose proof (workers_positive o) as Hw. split; [|split].
  - intros s Hrun. split; [intros n s' Hn; by eapply crew_bounded|].
    destruct (crew_progress (hosts (ipnum ip) h) (workersOf o) (workersOf o * 2) (hostOutcome (W := W) ctx o) s) as [Hdone|Hst];
      [lia | intros; by apply (hostOutcome_some ctx Hc Hd o Hv Hp w) | by eapply crew_run_ok | right | by left].
    exists (if d_ended s then Some (Plain "") else None).
    by eapply (discover_finished parse6 maxChan ctx cidr opts _ s _ (workersOf o * 2)); [..|destruct (d_ended s)].
  - destruct (crew_exists ctx Hc Hd o Hv Hp w (hosts (ipnum ip) h) (workersOf o * 2)) as (s & Hrun & Hdone & He); [lia|].
    eexists. by eapply (discover_finished parse6 maxChan ctx cidr opts (hosts (ipnum ip) h) s None).
  - intros r Hr. inversion Hr as [| | |l o' Hv' Hl Hne Hpanic|l s err cap o' Hv' Hl Hcap' Hrun Hdone Hend]; subst; [done..| |].
    + rewrite (Hjobs : jobsCapacity maxChan o' = _) in Hpanic. done.
    + rewrite Hs in Hl. injection Hl as <-. rewrite (Hjobs : jobsCapacity maxChan o' = _) in Hcap'. injection Hcap' as <-. by eapply (crew_entries ctx Hc Hd o Hv Hp).
Qed.

(** Witness of C34: the two hosts of a /31; a channel of jobs may take the
    address space of a process. *)
Lemma Discover_covers_witness :
  let o := discoverPresets discoverDefaults in
  let maxChan := 2 ^ 48 / 24 in
  exists results, Discover (W := Host) (fun _ => None) maxChan (Caller 0) "10.0.0.6/31" [] (Ok (results, None)) /\
    Forall2 (entry_ok o None) ["10.0.0.6"; "10.0.0.7"] results.
Proof.
  intros o maxChan.
  destruct (Discover_covers (fun _ => None) maxChan (Caller 0) "10.0.0.6/31" [] [x0a; x00; x00; x06] 1 (mkHost 770 []))
    as (_ & [results Hr] & Hall).
  - reflexivity.
  - intros d w w' w'' e Hw. discriminate Hw.
  - reflexivity.
  - vm_compute. repeat split; discriminate || reflexivity.
  - vm_compute. split; discriminate.
  - vm_compute. reflexivity.
  - exists results. split; [exact Hr|]. exact (Hall _ Hr).
Defined.

(** Options that pass the validation and make the channel panic: twice the
    number of workers is a negative [int]. *)
Lemma Discover_panics maxChan :
  let o := discoverPresets (WithDiscoverParallel (2 ^ 62) discoverDefaults) in
  validateDiscover o = Ok tt /\ jobsCapacity maxChan o = Panic.
Proof. split; [reflexivity | vm_compute; reflexivity]. Qed.
