(* ===== verification/Capture.v ===== *)
(** * Reading recorded traffic (internal/capture/capture.go)

    From the bytes of a pcap or pcapng file to the S7 PDUs of its
    conversations: frames, TCP segments per direction, reassembly in sequence
    order, TPKT packets and COTP data TPDUs.  [ReadFile], which only opens and
    reads the file, is left out.

    Sorting is stable insertion sort, as [sort.SliceStable] has one possible
    result; the map of connections is a finite map, and the order that
    [conversations] gives it does not depend on the order of iteration
    ([sort_by_unique]).  A loop that ran out of fuel would panic, so that no
    theorem about a result can hide it. *)

From Stdlib Require Import Sorted.
From S2P Require Import Prelude Go WireErrors.

Local Open Scope string_scope.
Local Open Scope list_scope.
Local Open Scope Z_scope.

(** ** encoding/binary with a byte order *)

Inductive ByteOrder := LittleEndian | BigEndian.

Definition bo_Uint16 (bo : ByteOrder) (l : bytes) : res Z :=
  match bo with
  | BigEndian => Uint16 l
  | LittleEndian => b1 ← idx l 1; b0 ← idx l 0; mret (be16 b1 b0)
  end.
Definition bo_Uint32 (bo : ByteOrder) (l : bytes) : res Z :=
  match bo with
  | BigEndian => Uint32 l
  | LittleEndian => b3 ← idx l 3; b2 ← idx l 2; b1 ← idx l 1; b0 ← idx l 0; mret (be32 b3 b2 b1 b0)
  end.

(** ** Data *)

Definition S7Port : Z := 102.

Record PDU := mkPDU {
  FromClient : bool;
  Frame : Z;
  Data : bytes;
}.

Record Conversation := mkConversation {
  Conv_Client : string;
  Conv_Server : string;
  ConnectRequests : Z;
  ConnectConfirms : Z;
  Gaps : Z;
  Dropped : Z;
  PDUs : list PDU;
}.

Definition ErrFormat : error := Plain "capture: unsupported or malformed capture file".

Definition linkEthernet : Z := 1.
Definition etherIPv4 : Z := 0x0800.
Definition etherVLAN : Z := 0x8100.
Definition protoTCP : Z := 6.

Record packet := mkPacket {
  link : Z;
  pk_data : bytes;
}.

Record segment := mkSegment {
  frame_of : Z;
  seq : Z;
  payload : bytes;
}.

Record flow := mkFlow {
  src : string;
  dst : string;
  syn : bool;
  isn : Z;
  segs : list segment;
}.

(** Client and server, as ["ip:port"]. *)
Definition connKey : Type := string * string.

Record conn := mkConn {
  key : connKey;
  firstFrame : Z;
  up : flow;
  down : flow;
}.

Definition assembler : Type := gmap connKey conn.
Definition newAssembler : assembler := ∅.

Record chunk := mkChunk {
  ck_data : bytes;
  ck_frames : list Z;
}.

(** ** Packets of a file *)

(** The loop of [pcapPackets]; a pass takes at least the 16 bytes of a
    record header. *)
Fixpoint pcapLoop (fuel : nat) (b : bytes) (bo : ByteOrder) (lnk : Z) (off : Z) (out : list packet) : res (list packet) :=
  match fuel with
  | O => Panic
  | S fuel =>
      if off <? len b then
        if len b - off <? 16 then Err ErrFormat
        else
        n ← (slice b (off + 8) (off + 12) ≫= bo_Uint32 bo);
        let off := off + 16 in
        if n >? len b - off then Err ErrFormat
        else
        d ← slice b off (off + n);
        pcapLoop fuel b bo lnk (off + n) (out ++ [mkPacket lnk d])
      else Ok out
  end.

Definition pcapPackets (b : bytes) (bo : ByteOrder) : res (list packet) :=
  if len b <? 24 then Err ErrFormat
  else
  v ← (slice b 20 24 ≫= bo_Uint32 bo);
  pcapLoop (S (length b)) b bo (Z.land v 0x0fffffff) 24 [].

(** One block of a pcapng file: the interfaces and packets after it. *)
Definition pcapngBlock (typ : Z) (bo : ByteOrder) (links : list Z) (out : list packet) (body : bytes)
  : res (list Z * list packet) :=
  if typ =? 1 then
    if len body <? 2 then Err ErrFormat
    else l ← bo_Uint16 bo body; mret (links ++ [l], out)
  else if typ =? 6 then
    if len body <? 20 then Err ErrFormat
    else
    ifc ← bo_Uint32 bo body;
    capLen ← (slice_from body 12 ≫= bo_Uint32 bo);
    if (ifc >=? len links) || (capLen >? len body - 20) then Err ErrFormat
    else
    l ← idx links ifc;
    d ← slice body 20 (20 + capLen);
    mret (links, out ++ [mkPacket l d])
  else if typ =? 3 then
    if (len body <? 4) || (len links =? 0) then Err ErrFormat
    else
    v ← bo_Uint32 bo body;
    let capLen := Z.min v (len body - 4) in
    l ← idx links 0;
    d ← slice body 4 (4 + capLen);
    mret (links, out ++ [mkPacket l d])
  else mret (links, out).

(** The byte order of a section, from the magic of its header. *)
Definition sectionOrder (magic : Z) : res ByteOrder :=
  if magic =? 0x1a2b3c4d then Ok LittleEndian
  else if magic =? 0x4d3c2b1a then Ok BigEndian
  else Err ErrFormat.

(** The loop of [pcapngPackets]; a pass takes at least the 12 bytes of a
    block. *)
Fixpoint pcapngLoop (fuel : nat) (b : bytes) (bo : ByteOrder) (links : list Z) (off : Z) (out : list packet)
  : res (list packet) :=
  match fuel with
  | O => Panic
  | S fuel =>
      if off <? len b then
        if len b - off <? 12 then Err ErrFormat
        else
        typ ← (slice_from b off ≫= bo_Uint32 bo);
        '(bo, links) ← (if typ =? 0x0a0d0d0a then
                          magic ← (slice_from b (off + 8) ≫= bo_Uint32 LittleEndian);
                          bo ← sectionOrder magic;
                          mret (bo, [])
                        else mret (bo, links));
        n ← (slice_from b (off + 4) ≫= bo_Uint32 bo);
        if (n <? 12) || negb (n mod 4 =? 0) || (n >? len b - off) then Err ErrFormat
        else
        body ← slice b (off + 8) (off + n - 4);
        '(links, out) ← pcapngBlock typ bo links out body;
        pcapngLoop fuel b bo links (off + n) out
      else Ok out
  end.

Definition pcapngPackets (b : bytes) : res (list packet) :=
  pcapngLoop (S (length b)) b LittleEndian [] 0 [].

Definition packets (b : bytes) : res (list packet) :=
  if len b <? 4 then Err ErrFormat
  else
  magic ← bo_Uint32 LittleEndian b;
  if (magic =? 0xa1b2c3d4) || (magic =? 0xa1b23c4d) then pcapPackets b LittleEndian
  else if (magic =? 0xd4c3b2a1) || (magic =? 0x4d3cb2a1) then pcapPackets b BigEndian
  else if magic =? 0x0a0d0d0a then pcapngPackets b
  else Err ErrFormat.

(** ** Frames *)

(** ["%d.%d.%d.%d"] of four bytes. *)
Definition dotted (l : bytes) (i : Z) : res string :=
  a ← idx l i; b ← idx l (i + 1); c ← idx l (i + 2); d ← idx l (i + 3);
  mret (dec (b2z a) +:+ "." +:+ dec (b2z b) +:+ "." +:+ dec (b2z c) +:+ "." +:+ dec (b2z d)).

(** ["%s:%d"] *)
Definition endpoint (ip : string) (port : Z) : string := ip +:+ ":" +:+ dec port.

(** A new SYN starts a flow again; payload is appended. *)
Definition addSegment (f : flow) (num seq flags : Z) (payload : bytes) : flow :=
  if negb (Z.land flags 0x02 =? 0) then mkFlow (src f) (dst f) true seq []
  else if len payload >? 0
  then mkFlow (src f) (dst f) (syn f) (isn f) (segs f ++ [mkSegment num seq payload])
  else f.

Definition newConn (k : connKey) (num : Z) : conn :=
  mkConn k num (mkFlow k.1 k.2 false 0 []) (mkFlow k.2 k.1 false 0 []).

(** The TCP part of [frame]: the segment [t] between the addresses. *)
Definition tcpFrame (a : assembler) (num : Z) (srcIP dstIP : string) (t : bytes) : res assembler :=
  if len t <? 20 then Ok a
  else
  sport ← (slice t 0 2 ≫= Uint16);
  dport ← (slice t 2 4 ≫= Uint16);
  t12 ← idx t 12;
  let thl := Z.shiftr (b2z t12) 4 * 4 in
  if (thl <? 20) || (thl >? len t) then Ok a
  else
  let toServer := dport =? S7Port in
  if negb toServer && negb (sport =? S7Port) then Ok a
  else
  let k : connKey := if toServer then (endpoint srcIP sport, endpoint dstIP dport)
                     else (endpoint dstIP dport, endpoint srcIP sport) in
  let c := default (newConn k num) (a !! k) in
  sq ← (slice t 4 8 ≫= Uint32);
  t13 ← idx t 13;
  pl ← slice_from t thl;
  let c := if toServer then mkConn (key c) (firstFrame c) (addSegment (up c) num sq (b2z t13) pl) (down c)
           else mkConn (key c) (firstFrame c) (up c) (addSegment (down c) num sq (b2z t13) pl) in
  Ok (<[k := c]> a).

(** The IPv4 part of [frame]. *)
Definition ipFrame (a : assembler) (num : Z) (d : bytes) : res assembler :=
  d0 ← idx d 0;
  if negb (Z.shiftr (b2z d0) 4 =? 4) then Ok a
  else
  let ihl := Z.land (b2z d0) 0x0f * 4 in
  total ← (slice d 2 4 ≫= Uint16);
  if (ihl <? 20) || (total <? ihl) || (total >? len d) then Ok a
  else
  d9 ← idx d 9;
  if negb (b2z d9 =? protoTCP) then Ok a
  else
  frag ← (slice d 6 8 ≫= Uint16);
  if negb (Z.land frag 0x3fff =? 0) then Err (Plain "fragmented IPv4 is not supported")
  else
  srcIP ← dotted d 12;
  dstIP ← dotted d 16;
  t ← slice d ihl total;
  tcpFrame a num srcIP dstIP t.

Definition frame (a : assembler) (num : Z) (p : packet) : res assembler :=
  if negb (link p =? linkEthernet)
  then Err (Plain ("link type " +:+ dec (link p) +:+ ": only Ethernet is supported"))
  else
  let d := pk_data p in
  if len d <? 14 then Ok a
  else
  etherType ← (slice d 12 14 ≫= Uint16);
  d ← slice_from d 14;
  if etherType =? etherVLAN then
    if len d <? 4 then Ok a
    else
    etherType ← (slice d 2 4 ≫= Uint16);
    d ← slice_from d 4;
    if negb (etherType =? etherIPv4) || (len d <? 20) then Ok a else ipFrame a num d
  else if negb (etherType =? etherIPv4) || (len d <? 20) then Ok a else ipFrame a num d.

(** ** Reassembly *)

(** [sort.SliceStable] with [key i < key j]. *)
Section Sort.
Context {A : Type} (key : A -> Z).
Fixpoint insert_by (x : A) (l : list A) : list A :=
  match l with
  | [] => [x]
  | y :: l' => if key x <=? key y then x :: l else y :: insert_by x l'
  end.
Definition sort_by (l : list A) : list A := foldr insert_by [] l.
End Sort.

Definition seqDiff (a b : Z) : Z :=
  let d := u32 (a - b) in
  if d >=? Z.shiftl 1 31 then d - Z.shiftl 1 32 else d.

(** The loop of [stream]: the runs before the last one, the last run and the
    next offset expected. *)
Fixpoint streamLoop (base : Z) (segs : list segment) (done : list chunk) (cur : chunk) (next : Z) : res (list chunk) :=
  match segs with
  | [] => Ok (done ++ [cur])
  | s :: segs =>
      let start := seqDiff (seq s) base in
      let stop := start + len (payload s) in
      if stop <=? next then streamLoop base segs done cur next
      else if start >? next
      then streamLoop base segs (done ++ [cur])
             (mkChunk (payload s) (replicate (length (payload s)) (frame_of s))) stop
      else
        p ← slice_from (payload s) (next - start);
        streamLoop base segs done
          (mkChunk (ck_data cur ++ p) (ck_frames cur ++ replicate (length p) (frame_of s))) stop
  end.

Definition stream (f : flow) : res (list chunk) :=
  match segs f with
  | [] => Ok []
  | s0 :: _ =>
      let base := if syn f then u32 (isn f + 1) else seq s0 in
      streamLoop base (sort_by (fun s => seqDiff (seq s) base) (segs f)) [] (mkChunk [] []) 0
  end.

(** ** TPKT and COTP *)

(** The counters and PDUs that [pdus] returns. *)
Record tally := mkTally {
  t_out : list PDU;
  t_cr : Z;
  t_cc : Z;
  t_dropped : Z;
}.

(** The state after one TPKT packet: [frameNo] is the frame of its last
    byte. *)
Definition tpduStep (off : Z) (tpdu : bytes) (frameNo : res Z) (fromClient : bool) (acc : tally) (tsdu : bytes)
  : res (tally * bytes) :=
  t0 ← idx tpdu 0;
  let li := b2z t0 in
  if (li + 1 >? len tpdu) || (li <? 1)
  then Err (Plain ("COTP length indicator " +:+ dec li +:+ " at stream offset " +:+ dec off))
  else
  t1 ← idx tpdu 1;
  let code := Z.land (b2z t1) 0xf0 in
  if code =? 0xe0 then Ok (mkTally (t_out acc) (t_cr acc + 1) (t_cc acc) (t_dropped acc), tsdu)
  else if code =? 0xd0 then Ok (mkTally (t_out acc) (t_cr acc) (t_cc acc + 1) (t_dropped acc), tsdu)
  else if code =? 0xf0 then
    if li <? 2
    then Err (Plain ("COTP DT length indicator " +:+ dec li +:+ " at stream offset " +:+ dec off))
    else
    user ← slice_from tpdu (li + 1);
    let tsdu := tsdu ++ user in
    t2 ← idx tpdu 2;
    if negb (Z.land (b2z t2) 0x80 =? 0) then
      match tsdu with
      | x32 :: _ =>
          fr ← frameNo;
          Ok (mkTally (t_out acc ++ [mkPDU fromClient fr tsdu]) (t_cr acc) (t_cc acc) (t_dropped acc), [])
      | _ => Ok (acc, [])
      end
    else Ok (acc, tsdu)
  else Ok (acc, tsdu).

Definition drop_some (n : Z) (acc : tally) : tally :=
  mkTally (t_out acc) (t_cr acc) (t_cc acc) (t_dropped acc + n).

(** The loop of [pdus]; a pass takes at least the 7 bytes of a packet. *)
Fixpoint pdusLoop (fuel : nat) (c : chunk) (fromClient : bool) (off : Z) (acc : tally) (tsdu : bytes) : res tally :=
  match fuel with
  | O => Panic
  | S fuel =>
      if off <? len (ck_data c) then
        let cut := Ok (drop_some (if len tsdu >? 0 then 2 else 1) acc) in
        if len (ck_data c) - off <? 4 then cut
        else
        n ← (slice_from (ck_data c) (off + 2) ≫= Uint16);
        if n >? len (ck_data c) - off then cut
        else
        version ← idx (ck_data c) off;
        if negb (b2z version =? 3)
        then Err (Plain ("TPKT version " +:+ dec (b2z version) +:+ " at stream offset " +:+ dec off))
        else if n <? 7
        then Err (Plain ("TPKT length " +:+ dec n +:+ " at stream offset " +:+ dec off))
        else
        tpdu ← slice (ck_data c) (off + 4) (off + n);
        '(acc, tsdu) ← tpduStep off tpdu (idx (ck_frames c) (off + n - 1)) fromClient acc tsdu;
        pdusLoop fuel c fromClient (off + n) acc tsdu
      else Ok (drop_some (if len tsdu >? 0 then 1 else 0) acc)
  end.

Definition pdus (c : chunk) (fromClient : bool) : res tally :=
  pdusLoop (S (length (ck_data c))) c fromClient 0 (mkTally [] 0 0 0) [].

(** The runs of a flow, their tallies added up. *)
Fixpoint runsLoop (runs : list chunk) (fromClient : bool) (acc : tally) : res tally :=
  match runs with
  | [] => Ok acc
  | r :: runs =>
      p ← pdus r fromClient;
      runsLoop runs fromClient
        (mkTally (t_out acc ++ t_out p) (t_cr acc + t_cr p) (t_cc acc + t_cc p) (t_dropped acc + t_dropped p))
  end.

(** [flowPDUs]: the tally and the number of gaps. *)
Definition flowPDUs (f : flow) (fromClient : bool) : res (tally * Z) :=
  runs ← stream f;
  t ← runsLoop runs fromClient (mkTally [] 0 0 0);
  Ok (t, if len runs >? 0 then len runs - 1 else 0).

(** ** Conversations *)

(** [fmt.Errorf("%s -> %s: %w", ...)] *)
Definition in_flow {A} (from to : string) (m : res A) : res A :=
  match m with Err e => Err (errorf1 (from +:+ " -> " +:+ to +:+ ": ") e "") | m => m end.

Definition conversation (c : conn) : res Conversation :=
  '(u, g1) ← in_flow (key c).1 (key c).2 (flowPDUs (up c) true);
  '(d, g2) ← in_flow (key c).2 (key c).1 (flowPDUs (down c) false);
  Ok (mkConversation (key c).1 (key c).2 (t_cr u + t_cr d) (t_cc u + t_cc d) (g1 + g2)
        (t_dropped u + t_dropped d) (sort_by Frame (t_out u ++ t_out d))).

Fixpoint conversationsLoop (conns : list conn) (out : list Conversation) : res (list Conversation) :=
  match conns with
  | [] => Ok out
  | c :: conns => v ← conversation c; conversationsLoop conns (out ++ [v])
  end.

Definition conversations (a : assembler) : res (list Conversation) :=
  conversationsLoop (sort_by firstFrame (map_to_list a).*2) [].

(** ** Read *)

Fixpoint framesLoop (frames : list packet) (num : Z) (a : assembler) : res assembler :=
  match frames with
  | [] => Ok a
  | f :: frames =>
      match frame a num f with
      | Err e => Err (errorf1 ("frame " +:+ dec num +:+ ": ") e "")
      | Panic => Panic
      | Ok a => framesLoop frames (num + 1) a
      end
  end.

Definition Read (b : bytes) : res (list Conversation) :=
  frames ← packets b;
  a ← framesLoop frames 1 newAssembler;
  conversations a.

Definition Count (convs : list Conversation) (keep : PDU -> bool) : Z :=
  foldl (fun n c => foldl (fun n p => if keep p then n + 1 else n) n (PDUs c)) 0 convs.

(** ** No panic, and enough fuel *)

(** Words out of a buffer that is long enough. *)
Lemma bo_Uint16_ok bo (l : bytes) : 2 <= len l -> exists v, bo_Uint16 bo l = Ok v /\ is_u16 v.
Proof.
  intros H. destruct l as [|a [|b l]]; simpl in H; [lia..|].
  destruct bo; simpl; eexists; (split; [done | apply be16_range]).
Qed.

Lemma bo_Uint32_ok bo (l : bytes) : 4 <= len l -> exists v, bo_Uint32 bo l = Ok v /\ is_u32 v.
Proof.
  intros H. destruct l as [|a [|b [|c [|d l]]]]; simpl in H; [lia..|].
  destruct bo; simpl; eexists; (split; [done | apply be32_range]).
Qed.

Lemma slice_bo32 bo (l : bytes) lo hi :
  0 <= lo -> lo + 4 <= hi -> hi <= len l -> exists v, (slice l lo hi ≫= bo_Uint32 bo) = Ok v /\ is_u32 v.
Proof.
  intros. rewrite slice_ok by lia. apply bo_Uint32_ok. rewrite length_take, length_drop. lia.
Qed.

Lemma slice_from_bo32 bo (l : bytes) lo :
  0 <= lo -> lo + 4 <= len l -> exists v, (slice_from l lo ≫= bo_Uint32 bo) = Ok v /\ is_u32 v.
Proof. intros. by apply slice_bo32. Qed.

Lemma slice_from_16 (l : bytes) lo :
  0 <= lo -> lo + 2 <= len l -> exists v, (slice_from l lo ≫= Uint16) = Ok v /\ is_u16 v.
Proof.
  intros. rewrite slice_from_ok by lia. apply (bo_Uint16_ok BigEndian). rewrite length_drop. lia.
Qed.

(** Read the word that the guards before it allow. *)
Ltac word L := 
  let v := fresh "v" in let E := fresh "E" in let Hv := fresh "Hv" in
  destruct L as (v & E & Hv); [b2p; lia.. |]; rewrite E; clear E; cbn [mbind res_bind]; unfold is_u16, is_u32 in Hv.

Lemma pcapLoop_no_panic fuel b bo lnk off out :
  0 <= off -> len b - off < Z.of_nat fuel -> (0 < fuel)%nat -> no_panic (pcapLoop fuel b bo lnk off out).
Proof.
  revert off out. induction fuel as [|fuel IH]; intros off out H0 Hf Hp; [lia|]. cbn [pcapLoop].
  case_if; [|np]. case_if; [np|]. word (slice_bo32 bo b (off + 8) (off + 12)). case_if; [np|]. b2p.
  rewrite slice_ok by lia. cbn [mbind res_bind]. apply IH; lia.
Qed.

Lemma pcapngBlock_no_panic typ bo links out body : no_panic (pcapngBlock typ bo links out body).
Proof.
  unfold pcapngBlock. repeat case_if; try np.
  - word (bo_Uint16_ok bo body). np.
  - word (bo_Uint32_ok bo body). word (slice_from_bo32 bo body 12). case_if; [np|]. repeat np_step.
  - word (bo_Uint32_ok bo body). b2p. repeat np_step.
Qed.

Lemma sectionOrder_no_panic v : no_panic (sectionOrder v).
Proof. unfold sectionOrder. repeat case_if; np. Qed.

Lemma pcapngLoop_no_panic fuel b bo links off out :
  0 <= off -> len b - off < Z.of_nat fuel -> (0 < fuel)%nat -> no_panic (pcapngLoop fuel b bo links off out).
Proof.
  revert bo links off out. induction fuel as [|fuel IH]; intros bo links off out H0 Hf Hp; [lia|]. cbn [pcapngLoop].
  case_if; [|np]. case_if; [np|]. word (slice_from_bo32 bo b off).
  apply no_panic_bind.
  { case_if; [|np]. word (slice_from_bo32 LittleEndian b (off + 8)).
    apply no_panic_bind; [apply sectionOrder_no_panic | intros; np]. }
  intros [bo' links'] _. word (slice_from_bo32 bo' b (off + 4)). case_if; [np|]. b2p.
  rewrite slice_ok by lia. cbn [mbind res_bind].
  apply no_panic_bind; [apply pcapngBlock_no_panic|]. intros [links2 out2] _. apply IH; lia.
Qed.

Lemma packets_no_panic b : no_panic (packets b).
Proof.
  unfold packets. case_if; [np|]. word (bo_Uint32_ok LittleEndian b).
  assert (Hpcap : forall bo, no_panic (pcapPackets b bo)).
  { intros bo. unfold pcapPackets. case_if; [np|]. word (slice_bo32 bo b 20 24). apply pcapLoop_no_panic; lia. }
  repeat case_if; try apply Hpcap; [|np]. apply pcapngLoop_no_panic; lia.
Qed.

Lemma dotted_no_panic l i : 0 <= i -> i + 4 <= len l -> no_panic (dotted l i).
Proof. intros. unfold dotted. repeat np_step. Qed.

Lemma tcpFrame_no_panic a num s d t : no_panic (tcpFrame a num s d t).
Proof.
  unfold tcpFrame. case_if; [np|]. b2p. np_step; [np_step|]. np_step; [np_step|]. np_step; [np_step|].
  case_if; [np|]. case_if; [np|]. b2p.
  destruct (Uint32_slice_ok t 4 8) as (v & -> & _); [lia..|]. cbn [mbind res_bind].
  np_step; [np_step|]. rewrite slice_from_ok by lia. np.
Qed.

Lemma ipFrame_no_panic a num d : 20 <= len d -> no_panic (ipFrame a num d).
Proof.
  intros H. unfold ipFrame. np_step; [np_step|]. case_if; [np|]. np_step; [np_step|].
  case_if; [np|]. np_step; [np_step|]. case_if; [np|]. np_step; [np_step|]. case_if; [np|]. b2p.
  apply no_panic_bind; [apply dotted_no_panic; lia|]. intros ? _.
  apply no_panic_bind; [apply dotted_no_panic; lia|]. intros ? _.
  np_step; [np_step|]. apply tcpFrame_no_panic.
Qed.

Lemma frame_no_panic a num p : no_panic (frame a num p).
Proof.
  unfold frame. case_if; [np|]. case_if; [np|]. b2p. np_step; [np_step|].
  rewrite slice_from_ok by lia. cbn [mbind res_bind]. set (d := drop _ _). case_if.
  - case_if; [np|]. b2p. np_step; [np_step|]. rewrite slice_from_ok by lia. cbn [mbind res_bind].
    case_if; [np|]. apply ipFrame_no_panic. b2p. lia.
  - case_if; [np|]. apply ipFrame_no_panic. b2p. lia.
Qed.

(** Every byte of a run has its frame. *)
Definition chunk_ok (c : chunk) : Prop := length (ck_frames c) = length (ck_data c).

Lemma streamLoop_ok base segs done cur next :
  Forall chunk_ok done -> chunk_ok cur ->
  exists runs, streamLoop base segs done cur next = Ok runs /\ Forall chunk_ok runs.
Proof.
  revert done cur next. induction segs as [|s segs IH]; intros done cur next Hd Hc; cbn [streamLoop].
  { exists (done ++ [cur]). split; [done|]. by apply Forall_app_2; [|constructor]. }
  case_if; [by apply IH|]. case_if.
  - apply IH; [by apply Forall_app_2; [|constructor] | apply length_replicate].
  - b2p. rewrite slice_from_ok by lia. cbn [mbind res_bind]. apply IH; [done|].
    unfold chunk_ok in *. simpl. rewrite !length_app, length_replicate. by rewrite Hc.
Qed.

Lemma stream_ok f : exists runs, stream f = Ok runs /\ Forall chunk_ok runs.
Proof. unfold stream. destruct (segs f); [by exists [] | by apply streamLoop_ok]. Qed.

Lemma tpduStep_no_panic off tpdu frameNo fromClient acc tsdu :
  3 <= len tpdu -> no_panic frameNo -> no_panic (tpduStep off tpdu frameNo fromClient acc tsdu).
Proof.
  intros Hl Hf. unfold tpduStep. np_step; [np_step|]. case_if; [np|]. np_step; [np_step|].
  case_if; [np|]. case_if; [np|]. case_if; [|np]. case_if; [np|]. b2p.
  rewrite slice_from_ok by lia. cbn [mbind res_bind]. np_step; [np_step|]. case_if; [|np].
  destruct (tsdu ++ _) as [|[] ?]; try np. apply no_panic_bind; [done | intros; np].
Qed.

Lemma pdusLoop_no_panic fuel c fromClient off acc tsdu :
  chunk_ok c -> 0 <= off -> len (ck_data c) - off < Z.of_nat fuel -> (0 < fuel)%nat ->
  no_panic (pdusLoop fuel c fromClient off acc tsdu).
Proof.
  intros Hc. revert off acc tsdu. induction fuel as [|fuel IH]; intros off acc tsdu H0 Hf Hp; [lia|].
  cbn [pdusLoop]. case_if; [|np]. case_if; [np|]. word (slice_from_16 (ck_data c) (off + 2)).
  case_if; [np|]. np_step; [np_step|]. case_if; [np|]. case_if; [np|]. b2p.
  rewrite slice_ok by lia. cbn [mbind res_bind]. apply no_panic_bind.
  - apply tpduStep_no_panic; [rewrite length_take, length_drop; lia|].
    apply no_panic_idx. unfold chunk_ok in Hc. lia.
  - intros [acc' tsdu'] _. apply IH; lia.
Qed.

Lemma pdus_no_panic c fromClient : chunk_ok c -> no_panic (pdus c fromClient).
Proof. intros Hc. apply pdusLoop_no_panic; [done | lia..]. Qed.

Lemma runsLoop_no_panic runs fromClient acc : Forall chunk_ok runs -> no_panic (runsLoop runs fromClient acc).
Proof.
  intros H. revert acc. induction H as [|r runs Hr _ IH]; intros acc; cbn [runsLoop]; [np|].
  apply no_panic_bind; [by apply pdus_no_panic | intros p _; apply IH].
Qed.

Lemma flowPDUs_no_panic f fromClient : no_panic (flowPDUs f fromClient).
Proof.
  unfold flowPDUs. destruct (stream_ok f) as (runs & -> & Hr). cbn [mbind res_bind].
  apply no_panic_bind; [by apply runsLoop_no_panic | intros; np].
Qed.

Lemma in_flow_no_panic {A} from to (m : res A) : no_panic m -> no_panic (in_flow from to m).
Proof. destruct m; [np..|done]. Qed.

Lemma conversation_no_panic c : no_panic (conversation c).
Proof.
  unfold conversation. apply no_panic_bind; [apply in_flow_no_panic, flowPDUs_no_panic|]. intros [u g1] _.
  apply no_panic_bind; [apply in_flow_no_panic, flowPDUs_no_panic|]. intros [d g2] _. np.
Qed.

Lemma conversations_no_panic a : no_panic (conversations a).
Proof.
  unfold conversations. generalize (@nil Conversation). induction (sort_by _ _) as [|c conns IH]; intros out; [np|].
  cbn [conversationsLoop]. apply no_panic_bind; [apply conversation_no_panic | intros v _; apply IH].
Qed.

Lemma framesLoop_no_panic frames num a : no_panic (framesLoop frames num a).
Proof.
  revert num a. induction frames as [|f frames IH]; intros num a; [np|]. cbn [framesLoop].
  pose proof (frame_no_panic a num f). destruct (frame a num f); [apply IH | np | done].
Qed.

Lemma Read_no_panic b : no_panic (Read b).
Proof.
  unfold Read. apply no_panic_bind; [apply packets_no_panic|]. intros frames _.
  apply no_panic_bind; [apply framesLoop_no_panic|]. intros a _. apply conversations_no_panic.
Qed.

(** ** Sorting *)

Section SortLemmas.
Context {A : Type} (key : A -> Z).
(** The order of the keys. *)
Definition key_le (x y : A) : Prop := key x <= key y.

Lemma insert_by_perm x l : insert_by key x l ≡ₚ x :: l.
Proof.
  induction l as [|y l IH]; [done|]. simpl. case_if; [done|]. rewrite IH. constructor.
Qed.

Lemma sort_by_perm l : sort_by key l ≡ₚ l.
Proof. induction l as [|x l IH]; [done|]. unfold sort_by in *. simpl. by rewrite insert_by_perm, IH. Qed.

Lemma insert_by_sorted x l : StronglySorted key_le l -> StronglySorted key_le (insert_by key x l).
Proof.
  induction 1 as [|y l Hs IH Hy]; simpl; [by repeat constructor|]. case_if; b2p.
  - constructor; [by constructor|]. constructor; [unfold key_le; lia|]. eapply Forall_impl; [apply Hy|]. unfold key_le. lia.
  - constructor; [done|]. rewrite insert_by_perm. constructor; [unfold key_le; lia | done].
Qed.

Lemma sort_by_sorted l : StronglySorted key_le (sort_by key l).
Proof. induction l as [|x l IH]; [constructor|]. by apply insert_by_sorted. Qed.

(** A sorted list without equal keys is determined by its elements. *)
Lemma sorted_unique l1 l2 :
  StronglySorted key_le l1 -> StronglySorted key_le l2 -> l1 ≡ₚ l2 -> NoDup (key <$> l1) -> l1 = l2.
Proof.
  intros H1. revert l2. induction H1 as [|x l1 Hs1 IH Hx]; intros l2 H2 Hp Hnd.
  { by apply Permutation_nil_l in Hp as ->. }
  destruct H2 as [|y l2 Hs2 Hy]; [by apply Permutation_nil_r in Hp|].
  apply NoDup_cons in Hnd as [Hni Hnd].
  assert (Hxy : x = y).
  { assert (Hin : y ∈ x :: l1) by (rewrite Hp; constructor).
    assert (Hin' : x ∈ y :: l2) by (rewrite <- Hp; constructor).
    apply elem_of_cons in Hin as [->|Hin]; [done|]. apply elem_of_cons in Hin' as [->|Hin']; [done|].
    rewrite Forall_forall in Hx, Hy. specialize (Hx _ Hin). specialize (Hy _ Hin'). unfold key_le in *.
    destruct Hni. apply list_elem_of_fmap. exists y. split; [lia | done]. }
  subst y. f_equal. apply IH; [done | by apply (Permutation.Permutation_cons_inv Hp) | done].
Qed.

(** The order of a list with distinct keys does not matter to its sorting. *)
Lemma sort_by_unique l1 l2 : l1 ≡ₚ l2 -> NoDup (key <$> l1) -> sort_by key l1 = sort_by key l2.
Proof.
  intros Hp Hnd. apply sorted_unique; [apply sort_by_sorted.. | by rewrite !sort_by_perm | by rewrite sort_by_perm].
Qed.

Lemma sort_by_id l : StronglySorted key_le l -> sort_by key l = l.
Proof.
  induction 1 as [|x l Hs IH Hx]; [done|]. unfold sort_by in *. simpl. rewrite IH.
  destruct Hx as [|y l Hy _]; [done|]. simpl. unfold key_le in Hy. by if_arith.
Qed.
End SortLemmas.

(** ** The order of the conversations *)

(** Connections begin with different frames, all before [num]. *)
Record assembler_ok (num : Z) (a : assembler) : Prop := {
  ok_before : forall k c, a !! k = Some c -> firstFrame c < num;
  ok_distinct : forall k1 k2 c1 c2, a !! k1 = Some c1 -> a !! k2 = Some c2 -> firstFrame c1 = firstFrame c2 -> k1 = k2;
}.

Lemma assembler_ok_mono num num' a : num <= num' -> assembler_ok num a -> assembler_ok num' a.
Proof. intros Hle [H1 H2]. split; [|done]. intros k c Hk. specialize (H1 k c Hk). lia. Qed.

(** A frame leaves the connections as they are, or changes one whose first
    frame it is or that was there. *)
Definition touches (num : Z) (a a' : assembler) : Prop :=
  a' = a \/ exists k c, a' = <[k := c]> a /\ firstFrame c = default num (firstFrame <$> a !! k).

Lemma touches_ok num a a' : assembler_ok num a -> touches num a a' -> assembler_ok (num + 1) a'.
Proof.
  intros Ha [->|(k & c & -> & Hc)]; [by apply (assembler_ok_mono num); [lia|]|].
  assert (Hfresh : forall k' c', k <> k' -> a !! k' = Some c' -> firstFrame c' <> firstFrame c).
  { intros k' c' Hne Hk' Heq. destruct (a !! k) as [c0|] eqn:E; simpl in Hc.
    - apply Hne. eapply (ok_distinct num a Ha); [done..|]. congruence.
    - pose proof (ok_before num a Ha k' c' Hk'). lia. }
  split.
  - intros k' c' [[<- <-]|[_ H]]%lookup_insert_Some.
    + rewrite Hc. destruct (a !! k) as [c0|] eqn:E; simpl; [|lia]. pose proof (ok_before num a Ha k c0 E). lia.
    + pose proof (ok_before num a Ha k' c' H). lia.
  - intros k1 k2 c1 c2 [[<- <-]|[N1 L1]]%lookup_insert_Some [[<- <-]|[N2 L2]]%lookup_insert_Some Heq; try done.
    + by destruct (Hfresh _ _ N2 L2).
    + by destruct (Hfresh _ _ N1 L1).
    + by eapply (ok_distinct num a Ha).
Qed.

(** Take one layer off a computation that gave a result. *)
Ltac ok_step H :=
  match type of H with
  | (if _ then _ else _) = Ok _ => case_if_in H
  | (_ ≫= _) = Ok _ => let v := fresh "v" in apply bind_Ok_inv in H as (v & _ & H)
  | Ok _ = Ok _ => injection H as <-
  | Err _ = Ok _ => discriminate H
  end.

Lemma frame_touches num a p a' : frame a num p = Ok a' -> touches num a a'.
Proof.
  assert (Htcp : forall s d t, tcpFrame a num s d t = Ok a' -> touches num a a').
  { intros s d t H. unfold tcpFrame in H. repeat ok_step H; try (by left). right. do 2 eexists. split; [reflexivity|].
    repeat case_if; cbn [firstFrame]; by destruct (a !! _). }
  assert (Hip : forall d, ipFrame a num d = Ok a' -> touches num a a').
  { intros d H. unfold ipFrame in H. repeat ok_step H; try (by left). by eapply Htcp. }
  intros H. unfold frame in H. repeat ok_step H; try (by left); by eapply Hip.
Qed.

Lemma framesLoop_ok frames num a a' :
  assembler_ok num a -> framesLoop frames num a = Ok a' -> exists num', assembler_ok num' a'.
Proof.
  revert num a. induction frames as [|f frames IH]; intros num a Ha; cbn [framesLoop].
  { intros [= <-]. by exists num. }
  destruct (frame a num f) eqn:E; [|discriminate..]. apply IH. by eapply touches_ok, frame_touches.
Qed.

(** Whatever order the map is iterated in, the connections are sorted the
    same. *)
Lemma conversations_order num a conns :
  assembler_ok num a -> conns ≡ₚ (map_to_list a).*2 ->
  sort_by firstFrame conns = sort_by firstFrame (map_to_list a).*2.
Proof.
  intros Ha Hp. symmetry. apply sort_by_unique; [done|]. rewrite <- list_fmap_compose.
  apply NoDup_fmap_2_strong; [|apply NoDup_map_to_list].
  intros [k1 c1] [k2 c2] H1 H2 Heq. apply elem_of_map_to_list in H1, H2. simpl in Heq.
  assert (k1 = k2) as <- by (by eapply (ok_distinct num a Ha)). congruence.
Qed.
