(* ===== verification/Reassembly.v ===== *)
(** * What the capture reader recovers (internal/capture/capture.go)

    A direction of a TCP connection sends one byte string; the recording
    holds segments of it, in any order, repeated and overlapping, and some may
    be missing.  [stream] gives back the runs of bytes that the segments
    cover, and [pdus] the S7 PDUs that were framed in TPKT and COTP. *)

From Stdlib Require Import Sorted.
From S2P Require Import Prelude Go WireErrors Capture.

(** ** Sequence numbers *)

Lemma seqDiff_offset base off : 0 <= off < 2147483648 -> seqDiff (u32 (base + off)) base = off.
Proof.
  intros H. unfold seqDiff, u32. change (Z.shiftl 1 31) with 2147483648. change (Z.shiftl 1 32) with 4294967296.
  rewrite Zminus_mod_idemp_l. replace (base + off - base) with off by lia.
  rewrite Z.mod_small by lia. by if_arith.
Qed.

(** Serial arithmetic: on either side of the base, across the wrap. *)
Lemma seqDiff_antisym a b :
  is_u32 a -> is_u32 b -> seqDiff a b <> -2147483648 -> seqDiff b a = - seqDiff a b.
Proof.
  unfold is_u32, seqDiff, u32. change (Z.shiftl 1 31) with 2147483648. change (Z.shiftl 1 32) with 4294967296.
  intros Ha Hb. rewrite !Z.geb_leb. Z.div_mod_to_equations. repeat case_if; b2p; lia.
Qed.

(** ** Runs *)

Section Stream.
(** The bytes sent and the sequence number of the first one. *)
Variables (s : bytes) (base : Z).

Definition start (sg : segment) : Z := seqDiff (seq sg) base.
Definition stop (sg : segment) : Z := start sg + len (payload sg).
(** The bytes [lo] to [hi]. *)
Definition part (lo hi : Z) : bytes := take (Z.to_nat (hi - lo)) (drop (Z.to_nat lo) s).

(** A segment carries bytes that were sent. *)
Definition piece (sg : segment) : Prop :=
  0 <= start sg /\ stop sg <= len s /\ payload sg = part (start sg) (stop sg).

(** The segment of the bytes [lo] to [hi], received in the frame [fr]; its
    sequence number may have wrapped. *)
Definition segment_at (fr lo hi : Z) : segment := mkSegment fr (u32 (base + lo)) (part lo hi).

Definition covers (sg : segment) (k : Z) : Prop := start sg <= k < stop sg.

(** [c] is the run of the bytes from [iv.1] to [iv.2], each byte with the
    frame of a segment that carries it. *)
Definition run_of (all : list segment) (iv : Z * Z) (c : chunk) : Prop :=
  ck_data c = part iv.1 iv.2 /\ len (ck_frames c) = iv.2 - iv.1 /\
  forall k, iv.1 <= k < iv.2 ->
    exists sg, sg ∈ all /\ covers sg k /\ ck_frames c !! Z.to_nat (k - iv.1) = Some (frame_of sg).

(** Intervals of the stream, in order, with gaps between them. *)
Definition separated (ivs : list (Z * Z)) : Prop :=
  StronglySorted (fun a b : Z * Z => a.2 < b.1) ivs /\ Forall (fun iv : Z * Z => 0 <= iv.1 <= iv.2 /\ iv.2 <= len s) ivs.

Definition covered_by (ivs : list (Z * Z)) (k : Z) : Prop := exists iv : Z * Z, iv ∈ ivs /\ iv.1 <= k < iv.2.

Lemma len_part lo hi : 0 <= lo <= hi -> hi <= len s -> len (part lo hi) = hi - lo.
Proof. intros. unfold part. rewrite length_take, length_drop. lia. Qed.

Lemma segment_at_piece fr lo hi :
  len s < 2147483648 -> 0 <= lo < hi -> hi <= len s ->
  piece (segment_at fr lo hi) /\ start (segment_at fr lo hi) = lo /\ stop (segment_at fr lo hi) = hi.
Proof.
  intros Hs Hlo Hhi.
  assert (Hst : start (segment_at fr lo hi) = lo) by (unfold start; simpl; apply seqDiff_offset; lia).
  assert (Hsp : stop (segment_at fr lo hi) = hi) by (unfold stop; rewrite Hst; simpl; rewrite len_part; lia).
  split; [|done]. unfold piece. rewrite Hst, Hsp. split; [lia|]. by split.
Qed.

Lemma part_app lo mid hi : 0 <= lo <= mid -> mid <= hi -> part lo mid ++ part mid hi = part lo hi.
Proof.
  intros H1 H2. unfold part.
  rewrite <- (take_drop (Z.to_nat (mid - lo)) (take (Z.to_nat (hi - lo)) (drop (Z.to_nat lo) s))).
  rewrite take_take, skipn_firstn_comm, drop_drop. f_equal; [f_equal; lia|]. f_equal; [lia|]. f_equal. lia.
Qed.

Lemma drop_part lo hi n : 0 <= lo -> 0 <= n -> drop (Z.to_nat n) (part lo hi) = part (lo + n) hi.
Proof.
  intros. unfold part. rewrite skipn_firstn_comm, drop_drop. f_equal; [lia|]. f_equal. lia.
Qed.

Lemma sorted_snoc {A} (R : A -> A -> Prop) l x :
  StronglySorted R l -> Forall (fun a => R a x) l -> StronglySorted R (l ++ [x]).
Proof.
  intros Hl. induction Hl as [|a l Hl IH Ha]; intros Hx; simpl; [by repeat constructor|].
  apply Forall_cons in Hx as [Hax Hx]. constructor; [by apply IH|]. by apply Forall_app_2; [|constructor].
Qed.

Lemma covered_snoc ivs iv k : covered_by (ivs ++ [iv]) k <-> covered_by ivs k \/ iv.1 <= k < iv.2.
Proof.
  unfold covered_by. setoid_rewrite elem_of_app. setoid_rewrite list_elem_of_singleton. split.
  - intros (iv' & [Hin| ->] & Hk); [left; eauto | by right].
  - intros [(iv' & Hin & Hk)|Hk]; eauto.
Qed.

(** What is known between two segments: the runs before the current one and
    the current one cover exactly the segments seen. *)
Record progress (all seen : list segment) (ivs : list (Z * Z)) (done : list chunk) (lo next : Z) (cur : chunk) : Prop := {
  pr_done : Forall2 (run_of all) ivs done;
  pr_cur : run_of all (lo, next) cur;
  pr_sep : separated (ivs ++ [(lo, next)]);
  pr_head : exists hi rest, ivs ++ [(lo, next)] = (0, hi) :: rest;
  pr_seen : forall k, covered_by (ivs ++ [(lo, next)]) k <-> exists sg, sg ∈ seen /\ covers sg k;
}.

Lemma progress_bounds all seen ivs done lo next cur :
  progress all seen ivs done lo next cur -> 0 <= lo <= next /\ next <= len s.
Proof. intros [_ _ [_ HF] _ _]. apply Forall_app in HF as [_ HF]. by apply Forall_cons in HF as [H _]. Qed.

(** A segment that brings nothing new. *)
Lemma progress_skip all seen ivs done lo next cur sg :
  progress all seen ivs done lo next cur -> lo <= start sg -> stop sg <= next ->
  progress all (seen ++ [sg]) ivs done lo next cur.
Proof.
  intros [H1 H2 H3 H4 H5] Hlo Hst. split; try done. intros k. rewrite H5. setoid_rewrite elem_of_app.
  setoid_rewrite list_elem_of_singleton. split; [intros (x & ? & ?); eauto|].
  intros (x & [Hx| ->] & Hk); [eauto|]. apply H5, covered_snoc. right. unfold covers in Hk. simpl. lia.
Qed.

(** A segment that goes on the current run. *)
Lemma progress_extend all seen ivs done lo next cur sg :
  progress all seen ivs done lo next cur -> sg ∈ all -> piece sg ->
  lo <= start sg <= next -> next < stop sg ->
  progress all (seen ++ [sg]) ivs done lo (stop sg)
    (mkChunk (ck_data cur ++ drop (Z.to_nat (next - start sg)) (payload sg))
       (ck_frames cur ++ replicate (length (drop (Z.to_nat (next - start sg)) (payload sg))) (frame_of sg))).
Proof.
  intros Hp Hin (Hp1 & Hp2 & Hp3) Hlo Hst. pose proof (progress_bounds _ _ _ _ _ _ _ Hp) as Hb.
  destruct Hp as [H1 (Hd & Hf & Hfr) [Hso HF] (hi & rest & Hhd) H5]. simpl in *.
  assert (Hdrop : drop (Z.to_nat (next - start sg)) (payload sg) = part next (stop sg)).
  { rewrite Hp3, drop_part by lia. f_equal. lia. }
  assert (Hlen : length (part next (stop sg)) = Z.to_nat (stop sg - next)).
  { pose proof (len_part next (stop sg) ltac:(lia) ltac:(lia)). lia. }
  rewrite Hdrop, Hlen. split.
  - done.
  - split; [simpl; rewrite Hd; apply part_app; lia|]. split; [simpl; rewrite length_app, length_replicate; lia|].
    simpl. intros k Hk. destruct (Z.lt_ge_cases k next) as [Hlt|Hge].
    + destruct (Hfr k ltac:(lia)) as (x & Hx & Hc & Hl). exists x. split; [done|]. split; [done|].
      by apply lookup_app_l_Some.
    + exists sg. split; [done|]. split; [unfold covers; lia|].
      rewrite lookup_app_r by lia. apply lookup_replicate_2. lia.
  - split.
    + clear - Hso. induction ivs as [|iv ivs IH]; simpl in *; [by repeat constructor|].
      apply StronglySorted_inv in Hso as [Hso Hiv]. constructor; [by apply IH|].
      apply Forall_app in Hiv as [Ha Hb]. apply Forall_app_2; [done|]. apply Forall_cons in Hb as [Hb _].
      by constructor.
    + apply Forall_app in HF as [HF _]. apply Forall_app_2; [done|]. constructor; [simpl; lia | done].
  - destruct ivs as [|iv ivs]; simpl in *; [injection Hhd as -> _ _|injection Hhd as -> _]; eauto.
  - intros k. rewrite covered_snoc. setoid_rewrite elem_of_app. setoid_rewrite list_elem_of_singleton.
    specialize (H5 k). rewrite covered_snoc in H5. simpl in *. split.
    + intros [Hk|Hk]; [destruct H5 as [H5 _]; destruct H5 as (x & ? & ?); eauto|].
      destruct (Z.lt_ge_cases k next); [destruct H5 as [H5 _]; destruct H5 as (x & ? & ?); eauto; right; lia|].
      exists sg. split; [by right | unfold covers; lia].
    + intros (x & [Hx| ->] & Hk); [|right; unfold covers in Hk; lia].
      destruct H5 as [_ H5]. destruct H5 as [H5|H5]; [eauto|by left|right; lia].
Qed.

(** A segment after a gap. *)
Lemma progress_gap all seen ivs done lo next cur sg :
  progress all seen ivs done lo next cur -> sg ∈ all -> piece sg -> next < start sg -> start sg <= stop sg ->
  progress all (seen ++ [sg]) (ivs ++ [(lo, next)]) (done ++ [cur]) (start sg) (stop sg)
    (mkChunk (payload sg) (replicate (length (payload sg)) (frame_of sg))).
Proof.
  intros Hp Hin (Hp1 & Hp2 & Hp3) Hgap Hst. pose proof (progress_bounds _ _ _ _ _ _ _ Hp) as Hb.
  destruct Hp as [H1 H2 [Hso HF] (hi & rest & Hhd) H5].
  assert (Hlen : len (payload sg) = stop sg - start sg) by (unfold stop; lia).
  split.
  - by apply Forall2_app; [|constructor].
  - split; [done|]. split; [simpl; rewrite length_replicate; lia|]. simpl. intros k Hk. exists sg.
    split; [done|]. split; [done|]. apply lookup_replicate_2. lia.
  - split.
    + apply sorted_snoc; [done|]. clear - Hso Hgap Hb. induction ivs as [|iv ivs IH]; simpl in *.
      { by repeat constructor. }
      apply StronglySorted_inv in Hso as [Hso Hiv]. constructor; [|by apply IH].
      apply Forall_app in Hiv as [_ Hiv]. apply Forall_cons in Hiv as [Hiv _]. simpl in *. lia.
    + apply Forall_app_2; [done|]. constructor; [simpl; lia | done].
  - rewrite Hhd. simpl. eauto.
  - intros k. rewrite covered_snoc, H5. setoid_rewrite elem_of_app. setoid_rewrite list_elem_of_singleton.
    simpl. split.
    + intros [(x & ? & ?)|Hk]; [eauto|]. exists sg. split; [by right | done].
    + intros (x & [Hx| ->] & Hk); [left; eauto | by right].
Qed.

Lemma streamLoop_runs all segs seen ivs done lo next cur :
  all = seen ++ segs -> Forall piece all -> StronglySorted (key_le start) segs -> Forall (fun sg => lo <= start sg) segs ->
  progress all seen ivs done lo next cur ->
  exists ivs' runs, streamLoop base segs done cur next = Ok runs /\ Forall2 (run_of all) ivs' runs /\ separated ivs' /\
    (exists hi rest, ivs' = (0, hi) :: rest) /\
    forall k, covered_by ivs' k <-> exists sg, sg ∈ all /\ covers sg k.
Proof.
  intros Hall HP Hsort. revert seen ivs done lo next cur Hall.
  induction Hsort as [|sg segs Hsort IH Hle]; intros seen ivs done lo next cur Hall Hlo Hpr; cbn [streamLoop].
  { rewrite app_nil_r in Hall. subst seen. destruct Hpr as [H1 H2 H3 H4 H5].
    exists (ivs ++ [(lo, next)]), (done ++ [cur]). split; [done|]. split; [by apply Forall2_app; [|constructor]|]. done. }
  assert (Hin : sg ∈ all) by (rewrite Hall, elem_of_app, elem_of_cons; auto).
  assert (Hpc : piece sg) by (by rewrite Forall_forall in HP; apply HP).
  apply Forall_cons in Hlo as [Hlo1 Hlo].
  assert (Hall' : all = (seen ++ [sg]) ++ segs) by (by rewrite <- app_assoc).
  fold (start sg). fold (stop sg). case_if; b2p.
  { eapply (IH (seen ++ [sg])); [done..|]. by apply progress_skip. }
  case_if; b2p.
  - apply (IH (seen ++ [sg]) (ivs ++ [(lo, next)]) _ (start sg)); [done | apply Hle |].
    by apply progress_gap; try done; unfold stop; lia.
  - rewrite slice_from_ok by (unfold stop in *; lia). cbn [mbind res_bind].
    apply (IH (seen ++ [sg]) ivs _ lo); [done.. |]. apply progress_extend; [done.. | lia | lia].
Qed.

(** The flow that recorded the stream: its segments are pieces, and its base
    is the number of the first byte. *)
Definition recorded (f : flow) : Prop :=
  segs f <> [] /\ Forall piece (segs f) /\ base = (if syn f then u32 (isn f + 1) else default base (seq <$> head (segs f))).

(** The runs of a recorded flow are the maximal intervals its segments cover
    (the first one, from zero, may be empty). *)
Lemma stream_runs f :
  recorded f ->
  exists ivs runs, stream f = Ok runs /\ Forall2 (run_of (segs f)) ivs runs /\ separated ivs /\
    (exists hi rest, ivs = (0, hi) :: rest) /\
    forall k, covered_by ivs k <-> exists sg, sg ∈ segs f /\ covers sg k.
Proof.
  intros (Hne & HP & Hbase). unfold stream. destruct (segs f) as [|s0 l] eqn:E; [done|]. simpl in Hbase.
  replace (if syn f then u32 (isn f + 1) else seq s0) with base by (by rewrite Hbase at 1).
  fold start. rewrite <- E in *. clear Hne Hbase E s0 l. set (sorted := sort_by start (segs f)).
  assert (Hperm : sorted ≡ₚ segs f) by apply sort_by_perm.
  assert (HP' : Forall piece sorted) by (by rewrite Hperm).
  destruct (streamLoop_runs sorted sorted [] [] [] 0 0 (mkChunk [] [])) as (ivs & runs & H1 & H2 & H3 & H4 & H5).
  - done.
  - done.
  - apply sort_by_sorted.
  - eapply Forall_impl; [apply HP'|]. intros sg (? & _). done.
  - split; [constructor | | | by exists 0, [] | ].
    + split; [done|]. split; [done|]. simpl. lia.
    + split; [by repeat constructor|]. constructor; [simpl; lia | constructor].
    + intros k. split; [intros (iv & ->%list_elem_of_singleton & Hk); simpl in Hk; lia | intros (sg & H & _); set_solver +H].
  - exists ivs, runs. split; [done|]. split; [|split; [done|split; [done|]]].
    + eapply Forall2_impl; [apply H2|]. intros iv c (Ha & Hb & Hc). split; [done|]. split; [done|].
      intros k Hk. destruct (Hc k Hk) as (sg & Hin & ?). exists sg. by rewrite <- Hperm.
    + intros k. rewrite H5. by setoid_rewrite Hperm.
Qed.

(** With every byte covered there is one run: the stream. *)
Lemma stream_complete f :
  s <> [] -> recorded f -> (forall k, 0 <= k < len s -> exists sg, sg ∈ segs f /\ covers sg k) ->
  exists c, stream f = Ok [c] /\ ck_data c = s /\ length (ck_frames c) = length s /\
    forall k, 0 <= k < len s -> exists sg, sg ∈ segs f /\ covers sg k /\ ck_frames c !! Z.to_nat k = Some (frame_of sg).
Proof.
  intros Hne Hrec Hcov. destruct (stream_runs f Hrec) as (ivs & runs & H1 & H2 & [Hsort HF] & (hi & rest & ->) & H5).
  apply Forall_cons in HF as [Hhi HF]. simpl in Hhi. apply StronglySorted_inv in Hsort as [Hsort Hgt].
  assert (Hlen : 0 < len s) by (destruct s; [done | simpl; lia]).
  assert (Hend : hi = len s).
  { destruct (Z.lt_ge_cases hi (len s)) as [Hlt|]; [|lia].
    assert (Hk : covered_by ((0, hi) :: rest) hi) by (apply H5, Hcov; lia).
    destruct Hk as (iv & [->|Hin]%elem_of_cons & Hk); [simpl in Hk; lia|].
    rewrite Forall_forall in Hgt. specialize (Hgt iv Hin). simpl in Hgt. lia. }
  subst hi. destruct rest as [|iv rest].
  2: { apply Forall_cons in HF as [Hiv _]. apply Forall_cons in Hgt as [Hgt _]. simpl in *. lia. }
  apply Forall2_cons_inv_l in H2 as (c & runs' & (Hd & Hf & Hk) & Hnil & ->). apply Forall2_nil_inv_l in Hnil as ->.
  simpl in *. exists c. split; [done|]. split.
  { rewrite Hd. unfold part. rewrite drop_0, take_ge; [done | lia]. }
  split; [lia|]. intros k Hk'. destruct (Hk k Hk') as (sg & ? & ? & Hl). exists sg. split; [done|]. split; [done|].
  by rewrite <- Hl, Z.sub_0_r.
Qed.
End Stream.

(** ** TPKT and COTP framing *)

Definition tpkt (tpdu : bytes) : bytes := [x03; x00] ++ put16 (4 + len tpdu) ++ tpdu.

(** A COTP data TPDU, the last one of its TSDU or not. *)
Definition dt (eot : bool) (user : bytes) : bytes := [x02; xf0; if eot then x80 else x00] ++ user.

(** What a direction sends: a connect request, a connect confirm or an S7 PDU
    in fragments. *)
Inductive message :=
  | ConnectRequest (tpdu : bytes)
  | ConnectConfirm (tpdu : bytes)
  | Fragments (frs : list bytes) (last : bytes).

Definition encode_fragments (frs : list bytes) : bytes := mjoin ((fun u => tpkt (dt false u)) <$> frs).

Definition encode_message (m : message) : bytes :=
  match m with
  | ConnectRequest tpdu | ConnectConfirm tpdu => tpkt tpdu
  | Fragments frs last => encode_fragments frs ++ tpkt (dt true last)
  end.

Definition encode_messages (ms : list message) : bytes := mjoin (encode_message <$> ms).

(** A connection TPDU of the given code, with a length indicator within its
    bounds. *)
Definition connect_wf (code : Z) (tpdu : bytes) : Prop :=
  3 <= len tpdu <= 65531 /\
  exists li c rest, tpdu = li :: c :: rest /\ 1 <= b2z li < len tpdu /\ Z.land (b2z c) 0xf0 = code.

Definition message_wf (m : message) : Prop :=
  match m with
  | ConnectRequest tpdu => connect_wf 0xe0 tpdu
  | ConnectConfirm tpdu => connect_wf 0xd0 tpdu
  | Fragments frs last =>
      Forall (fun u : bytes => len u <= 65528) (frs ++ [last]) /\ exists rest, mjoin frs ++ last = x32 :: rest
  end.

(** The S7 PDUs among the messages. *)
Definition s7_pdus (ms : list message) : list bytes :=
  omap (fun m => match m with Fragments frs last => Some (mjoin frs ++ last) | _ => None end) ms.
Definition count_messages (P : message -> bool) (ms : list message) : Z := len (filter (fun m => P m = true) ms).
Definition is_request (m : message) : bool := match m with ConnectRequest _ => true | _ => false end.
Definition is_confirm (m : message) : bool := match m with ConnectConfirm _ => true | _ => false end.

Lemma len_tpkt tpdu : len (tpkt tpdu) = 4 + len tpdu.
Proof. unfold tpkt. rewrite !length_app. unfold put16. simpl length. lia. Qed.

(** One pass of the loop of [pdus] over a packet in the middle of the run. *)
Lemma pdusLoop_packet fuel c fromClient pre tpdu post acc tsdu :
  ck_data c = pre ++ tpkt tpdu ++ post -> 3 <= len tpdu <= 65531 ->
  pdusLoop (S fuel) c fromClient (len pre) acc tsdu =
  ('(acc, tsdu) ← tpduStep (len pre) tpdu (idx (ck_frames c) (len pre + len (tpkt tpdu) - 1)) fromClient acc tsdu;
   pdusLoop fuel c fromClient (len pre + len (tpkt tpdu)) acc tsdu).
Proof.
  intros Hd Hl. cbn [pdusLoop]. rewrite Hd, !length_app. pose proof (len_tpkt tpdu).
  if_arith. if_arith.
  replace (slice_from (pre ++ tpkt tpdu ++ post) (len pre + 2) ≫= Uint16) with (Ok (4 + len tpdu)).
  2: { rewrite slice_from_ok by (rewrite !length_app; lia).
       replace (Z.to_nat (len pre + 2)) with (length pre + 2)%nat by lia. rewrite <- drop_drop, drop_app_exact by lia.
       unfold tpkt. rewrite <- !app_assoc, drop_app_exact by done. cbn [mbind res_bind]. rewrite Uint16_put16, Z.mod_small by lia. done. }
  cbn [mbind res_bind]. if_arith.
  replace (idx (pre ++ tpkt tpdu ++ post) (len pre)) with (@Ok byte x03).
  2: { by rewrite idx_app_r, Z.sub_diag by lia. }
  cbn [mbind res_bind]. change (negb (b2z x03 =? 3)) with false. cbn iota. if_arith.
  replace (slice (pre ++ tpkt tpdu ++ post) (len pre + 4) (len pre + (4 + len tpdu))) with (Ok tpdu).
  2: { unfold tpkt. replace (pre ++ _ ++ post) with ((pre ++ [x03; x00] ++ put16 (4 + len tpdu)) ++ tpdu ++ post) by (by rewrite <- !app_assoc).
       symmetry. apply slice_app_mid; rewrite !length_app, length_put16; simpl length; lia. }
  cbn [mbind res_bind]. by rewrite H.
Qed.

Lemma tpduStep_dt off eot user frameNo fromClient acc tsdu :
  tpduStep off (dt eot user) frameNo fromClient acc tsdu =
  if eot then
    match tsdu ++ user with
    | x32 :: _ =>
        fr ← frameNo;
        Ok (mkTally (t_out acc ++ [mkPDU fromClient fr (tsdu ++ user)]) (t_cr acc) (t_cc acc) (t_dropped acc), [])
    | _ => Ok (acc, [])
    end
  else Ok (acc, tsdu ++ user).
Proof.
  unfold tpduStep. change (idx (dt eot user) 0) with (@Ok byte x02). change (idx (dt eot user) 1) with (@Ok byte xf0).
  change (idx (dt eot user) 2) with (@Ok byte (if eot then x80 else x00)).
  assert (Hl : len (dt eot user) = 3 + len user) by (unfold dt; rewrite length_app; simpl length; lia).
  assert (Hu : slice_from (dt eot user) (b2z x02 + 1) = Ok user).
  { rewrite slice_from_ok by (rewrite Hl; change (b2z x02) with 2; lia). done. }
  cbn [mbind res_bind]. rewrite Hl, Hu. change (b2z x02) with 2. if_arith. cbn iota.
  change (Z.land (b2z xf0) 0xf0) with 0xf0. cbn [Z.eqb Z.ltb Z.compare Pos.eqb Pos.compare Pos.compare_cont]. cbn [mbind res_bind].
  by destruct eot.
Qed.

(** A connection TPDU only counts. *)
Lemma tpduStep_connect off code tpdu frameNo fromClient acc tsdu :
  connect_wf code tpdu -> code = 0xe0 \/ code = 0xd0 ->
  tpduStep off tpdu frameNo fromClient acc tsdu =
  Ok (mkTally (t_out acc) (t_cr acc + if code =? 0xe0 then 1 else 0) (t_cc acc + if code =? 0xd0 then 1 else 0)
        (t_dropped acc), tsdu).
Proof.
  intros (Hl & li & c & rest & -> & Hli & Hc) Hcode. unfold tpduStep.
  change (idx (li :: c :: rest) 0) with (Ok li). change (idx (li :: c :: rest) 1) with (Ok c).
  cbn [mbind res_bind]. if_arith. rewrite Hc. destruct Hcode as [-> | ->]; simpl; by rewrite Z.add_0_r.
Qed.

(** ** The PDUs of a run *)

(** The packets of a message. *)
Definition packets_of (m : message) : nat := match m with Fragments frs _ => S (length frs) | _ => 1%nat end.
Definition packets_in (ms : list message) : nat := sum_list (packets_of <$> ms).

(** The offsets of the last bytes of the S7 PDUs, from [off] on. *)
Fixpoint pdu_ends (off : Z) (ms : list message) : list Z :=
  match ms with
  | [] => []
  | m :: ms =>
      let e := off + len (encode_message m) in
      match m with Fragments _ _ => (e - 1) :: pdu_ends e ms | _ => pdu_ends e ms end
  end.

Lemma encode_messages_cons m ms : encode_messages (m :: ms) = encode_message m ++ encode_messages ms.
Proof. done. Qed.

Lemma encode_fragments_cons u frs : encode_fragments (u :: frs) = tpkt (dt false u) ++ encode_fragments frs.
Proof. done. Qed.

Lemma packets_enough ms : (packets_in ms <= length (encode_messages ms))%nat.
Proof.
  induction ms as [|m ms IH]; [done|]. rewrite encode_messages_cons, length_app.
  change (packets_in (m :: ms)) with (packets_of m + packets_in ms)%nat.
  assert (packets_of m <= length (encode_message m))%nat; [|lia].
  destruct m as [tpdu|tpdu|frs last]; cbn [packets_of encode_message]; try (pose proof (len_tpkt tpdu); lia).
  rewrite length_app. pose proof (len_tpkt (dt true last)).
  assert (length frs <= length (encode_fragments frs))%nat; [|lia].
  clear. induction frs as [|u frs IH]; [done|]. rewrite encode_fragments_cons, length_app.
  simpl length at 1. pose proof (len_tpkt (dt false u)). lia.
Qed.

Lemma len_dt eot u : len (dt eot u) = 3 + len u.
Proof. unfold dt. rewrite length_app. simpl length. lia. Qed.

(** The fragments before the last one are collected. *)
Lemma pdusLoop_fragments frs fuel c fromClient pre post acc tsdu :
  Forall (fun u : bytes => len u <= 65528) frs ->
  ck_data c = pre ++ encode_fragments frs ++ post ->
  pdusLoop (length frs + fuel) c fromClient (len pre) acc tsdu =
  pdusLoop fuel c fromClient (len pre + len (encode_fragments frs)) acc (tsdu ++ mjoin frs).
Proof.
  intros HF. revert pre tsdu. induction HF as [|u frs Hu HF IH]; intros pre tsdu Hd.
  { change (mjoin []) with (@nil byte). by rewrite Z.add_0_r, app_nil_r. }
  rewrite encode_fragments_cons, <- app_assoc in Hd. rewrite encode_fragments_cons. cbn [length Nat.add].
  change (mjoin (u :: frs)) with (u ++ mjoin frs).
  rewrite (pdusLoop_packet _ _ _ _ _ _ _ _ Hd) by (rewrite len_dt; lia).
  rewrite tpduStep_dt. cbn [mbind res_bind].
  replace (len pre + len (tpkt (dt false u))) with (len (pre ++ tpkt (dt false u))) by (rewrite length_app; lia).
  rewrite IH by (by rewrite <- app_assoc). rewrite !length_app, <- app_assoc. f_equal. lia.
Qed.

(** All messages of a run that begins with the first one. *)
Lemma pdusLoop_messages ms fuel c fromClient pre acc :
  chunk_ok c -> Forall message_wf ms -> ck_data c = pre ++ encode_messages ms ->
  exists new, Data <$> new = s7_pdus ms /\ Forall (fun p => FromClient p = fromClient) new /\
    Forall2 (fun p k => idx (ck_frames c) k = Ok (Frame p)) new (pdu_ends (len pre) ms) /\
    pdusLoop (packets_in ms + S fuel) c fromClient (len pre) acc [] =
    Ok (mkTally (t_out acc ++ new) (t_cr acc + count_messages is_request ms)
          (t_cc acc + count_messages is_confirm ms) (t_dropped acc)).
Proof.
  intros Hc HF. revert pre acc. induction HF as [|m ms Hm HF IH]; intros pre acc Hd.
  { exists []. split; [done|]. split; [done|]. split; [constructor|]. cbn [packets_in sum_list fmap list_fmap Nat.add pdusLoop].
    rewrite Hd, app_nil_r. if_arith. simpl. unfold drop_some. rewrite app_nil_r, !Z.add_0_r. done. }
  rewrite encode_messages_cons in Hd.
  assert (Hd' : ck_data c = (pre ++ encode_message m) ++ encode_messages ms) by (by rewrite <- app_assoc).
  assert (Hlen : len pre + len (encode_message m) = len (pre ++ encode_message m)) by (rewrite length_app; lia).
  change (packets_in (m :: ms) + S fuel)%nat with (packets_of m + packets_in ms + S fuel)%nat.
  rewrite <- Nat.add_assoc. cbn [pdu_ends s7_pdus omap list_omap]. rewrite Hlen.
  destruct m as [tpdu|tpdu|frs last]; cbn [packets_of encode_message Nat.add] in *.
  - destruct (IH _ (mkTally (t_out acc) (t_cr acc + 1) (t_cc acc) (t_dropped acc)) Hd') as (new & H1 & H2 & H3 & H4).
    exists new. split; [done|]. split; [done|]. split; [done|].
    rewrite (pdusLoop_packet _ _ _ _ _ _ _ _ Hd) by (destruct Hm; lia).
    rewrite (tpduStep_connect _ _ _ _ _ _ _ Hm) by (by left). cbn [mbind res_bind].
    rewrite Hlen. simpl. rewrite Z.add_0_r, H4. cbn [t_out t_cr t_cc t_dropped]. do 2 f_equal.
    unfold count_messages. rewrite filter_cons. simpl. lia.
  - destruct (IH _ (mkTally (t_out acc) (t_cr acc) (t_cc acc + 1) (t_dropped acc)) Hd') as (new & H1 & H2 & H3 & H4).
    exists new. split; [done|]. split; [done|]. split; [done|].
    rewrite (pdusLoop_packet _ _ _ _ _ _ _ _ Hd) by (destruct Hm; lia).
    rewrite (tpduStep_connect _ _ _ _ _ _ _ Hm) by (by right). cbn [mbind res_bind].
    rewrite Hlen. simpl. rewrite Z.add_0_r, H4. cbn [t_out t_cr t_cc t_dropped]. do 2 f_equal.
    unfold count_messages. rewrite filter_cons. simpl. lia.
  - destruct Hm as [HFr (rest & Hx32)]. apply Forall_app in HFr as [HFr Hlast]. apply Forall_cons in Hlast as [Hlast _].
    set (body := encode_fragments frs) in *.
    assert (Hfr : exists fr, idx (ck_frames c) (len (pre ++ body ++ tpkt (dt true last)) - 1) = Ok fr).
    { apply idx_ok. unfold chunk_ok in Hc. rewrite Hc, Hd', !length_app. pose proof (len_tpkt (dt true last)). lia. }
    destruct Hfr as [fr Hfr].
    destruct (IH _ (mkTally (t_out acc ++ [mkPDU fromClient fr (mjoin frs ++ last)]) (t_cr acc) (t_cc acc) (t_dropped acc)) Hd')
      as (new & H1 & H2 & H3 & H4).
    exists (mkPDU fromClient fr (mjoin frs ++ last) :: new).
    split; [simpl; by f_equal|]. split; [by constructor|]. split; [by constructor|].
    replace (S (length frs + (packets_in ms + S fuel)))%nat with (length frs + S (packets_in ms + S fuel))%nat by lia.
    rewrite <- app_assoc in Hd. rewrite (pdusLoop_fragments _ _ _ _ _ _ _ _ HFr Hd). fold body. rewrite app_nil_l.
    replace (len pre + len body) with (len (pre ++ body)) by (rewrite length_app; lia).
    rewrite (pdusLoop_packet _ _ _ _ (dt true last) (encode_messages ms)); [|by rewrite <- !app_assoc|rewrite len_dt; lia].
    rewrite tpduStep_dt, Hx32. replace (len (pre ++ body) + len (tpkt (dt true last))) with (len (pre ++ body ++ tpkt (dt true last)))
      by (rewrite !length_app; lia).
    rewrite Hfr, <- Hx32. cbn [mbind res_bind]. rewrite H4. cbn [t_out t_cr t_cc t_dropped]. by rewrite <- app_assoc.
Qed.

(** ** Flows and conversations *)

(** [f] is a recording, without missing bytes, of a direction that sent the
    messages [ms], the first byte with the number [base]. *)
Definition complete_recording (ms : list message) (base : Z) (f : flow) : Prop :=
  ms <> [] /\ Forall message_wf ms /\ recorded (encode_messages ms) base f /\
  forall k, 0 <= k < len (encode_messages ms) -> exists sg, sg ∈ segs f /\ covers base sg k.

(** The PDUs found are those sent, in order, each with the frame that
    delivered its last byte. *)
Definition pdus_of (ms : list message) (base : Z) (f : flow) (fromClient : bool) (new : list PDU) : Prop :=
  Data <$> new = s7_pdus ms /\ Forall (fun p => FromClient p = fromClient) new /\
  Forall2 (fun p k => exists sg, sg ∈ segs f /\ covers base sg k /\ Frame p = frame_of sg) new (pdu_ends 0 ms).

Lemma encode_messages_nonempty ms : ms <> [] -> encode_messages ms <> [].
Proof.
  intros Hne. destruct ms as [|m ms]; [done|]. rewrite encode_messages_cons.
  destruct m as [tpdu|tpdu|frs last]; [done..|]. cbn [encode_message].
  intros H. apply (f_equal length) in H. rewrite !length_app in H. pose proof (len_tpkt (dt true last)). simpl length in H. lia.
Qed.

Lemma pdu_ends_range off ms : 0 <= off -> Forall (fun k => 0 <= k < off + len (encode_messages ms)) (pdu_ends off ms).
Proof.
  revert off. induction ms as [|m ms IH]; intros off Hoff; [constructor|]. cbn [pdu_ends].
  rewrite encode_messages_cons, length_app.
  assert (H : Forall (fun k => 0 <= k < off + (len (encode_message m) + len (encode_messages ms))) (pdu_ends (off + len (encode_message m)) ms)).
  { eapply Forall_impl; [apply IH; lia|]. simpl. lia. }
  destruct m as [tpdu|tpdu|frs last]; try (eapply Forall_impl; [apply H|]; simpl; lia).
  constructor; [|eapply Forall_impl; [apply H|]; simpl; lia]. cbn [encode_message]. rewrite length_app.
  pose proof (len_tpkt (dt true last)). lia.
Qed.

Lemma flowPDUs_recovers ms base f fromClient :
  complete_recording ms base f ->
  exists new, pdus_of ms base f fromClient new /\
    flowPDUs f fromClient = Ok (mkTally new (count_messages is_request ms) (count_messages is_confirm ms) 0, 0).
Proof.
  intros (Hne & Hwf & Hrec & Hcov). pose proof (encode_messages_nonempty ms Hne) as Hne'.
  destruct (stream_complete _ _ _ Hne' Hrec Hcov) as (c & Hst & Hd & Hlen & Hfr).
  assert (Hc : chunk_ok c) by (unfold chunk_ok; by rewrite Hd).
  pose proof (packets_enough ms) as Hpk.
  destruct (pdusLoop_messages ms (length (encode_messages ms) - packets_in ms) c fromClient [] (mkTally [] 0 0 0) Hc Hwf Hd)
    as (new & H1 & H2 & H3 & H4).
  exists new. split.
  - split; [done|]. split; [done|]. pose proof (pdu_ends_range 0 ms ltac:(lia)) as Hr. change (len []) with 0 in H3.
    clear - H3 Hr Hfr. revert Hr. generalize dependent (pdu_ends 0 ms). intros ends H3 Hr. induction H3 as [|p k new ks Hp _ IH]; [constructor|]. apply Forall_cons in Hr as [Hk Hr].
    constructor; [|by apply IH]. destruct (Hfr k ltac:(lia)) as (sg & ? & ? & Hl). exists sg. split; [done|]. split; [done|].
    apply idx_lookup in Hp as [_ Hp]. rewrite Hl in Hp. by injection Hp.
  - unfold flowPDUs. rewrite Hst. cbn [mbind res_bind runsLoop]. unfold pdus. rewrite Hd.
    replace (S (length (encode_messages ms))) with (packets_in ms + S (length (encode_messages ms) - packets_in ms))%nat by lia.
    change (len []) with 0 in H4. rewrite H4. done.
Qed.

(** Sorting keeps the order of the elements that a predicate selects. *)
Lemma filter_insert_by {A} (key : A -> Z) (P : A -> Prop) `{forall x, Decision (P x)} x l :
  StronglySorted (key_le key) l ->
  filter P (insert_by key x l) = if decide (P x) then insert_by key x (filter P l) else filter P l.
Proof.
  induction 1 as [|y l Hs IH Hy]; simpl; [by rewrite filter_cons|]. case_if; b2p.
  - rewrite filter_cons. case_decide; [|done].
    assert (Hall : Forall (key_le key x) (filter P (y :: l))).
    { apply Forall_forall. intros z [_ Hz]%list_elem_of_filter. apply elem_of_cons in Hz as [->|Hz]; [done|].
      rewrite Forall_forall in Hy. specialize (Hy z Hz). unfold key_le in *. lia. }
    destruct (filter P (y :: l)) as [|z l'] eqn:E; [done|]. apply Forall_cons in Hall as [Hz _]. simpl.
    unfold key_le in Hz. by if_arith.
  - rewrite !filter_cons, IH. destruct (decide (P y)), (decide (P x)); simpl; try done. by if_arith.
Qed.

Lemma filter_sort_by {A} (key : A -> Z) (P : A -> Prop) `{forall x, Decision (P x)} l :
  filter P (sort_by key l) = sort_by key (filter P l).
Proof.
  induction l as [|x l IH]; [done|]. change (sort_by key (x :: l)) with (insert_by key x (sort_by key l)).
  rewrite filter_insert_by by apply sort_by_sorted. rewrite filter_cons, IH. by case_decide.
Qed.

Lemma filter_none {A} (P : A -> Prop) `{forall x, Decision (P x)} l : Forall (fun x => ~ P x) l -> filter P l = [].
Proof. induction 1 as [|x l Hx _ IH]; [done|]. rewrite filter_cons. by case_decide. Qed.
Lemma filter_all {A} (P : A -> Prop) `{forall x, Decision (P x)} l : Forall P l -> filter P l = l.
Proof. induction 1 as [|x l Hx _ IH]; [done|]. rewrite filter_cons, IH. by case_decide. Qed.

(** Both directions of a connection: the PDUs are merged by frame, and those of
    a direction stay in the order of that direction's frames. *)
Lemma conversation_recovers c ms1 base1 ms2 base2 :
  complete_recording ms1 base1 (up c) -> complete_recording ms2 base2 (down c) ->
  exists u d conv, pdus_of ms1 base1 (up c) true u /\ pdus_of ms2 base2 (down c) false d /\
    conversation c = Ok conv /\ Gaps conv = 0 /\ Dropped conv = 0 /\
    ConnectRequests conv = count_messages is_request ms1 + count_messages is_request ms2 /\
    ConnectConfirms conv = count_messages is_confirm ms1 + count_messages is_confirm ms2 /\
    PDUs conv ≡ₚ u ++ d /\ StronglySorted (key_le Frame) (PDUs conv) /\
    (StronglySorted (key_le Frame) u -> filter (fun p => FromClient p = true) (PDUs conv) = u) /\
    (StronglySorted (key_le Frame) d -> filter (fun p => FromClient p = false) (PDUs conv) = d).
Proof.
  intros H1 H2. destruct (flowPDUs_recovers _ _ _ true H1) as (u & Hu & E1).
  destruct (flowPDUs_recovers _ _ _ false H2) as (d & Hd & E2). exists u, d. eexists.
  split; [done|]. split; [done|]. unfold conversation. rewrite E1, E2. split; [reflexivity|].
  cbn [Gaps Dropped ConnectRequests ConnectConfirms PDUs t_out t_cr t_cc t_dropped].
  destruct Hu as (_ & Fu & _), Hd as (_ & Fd & _).
  assert (Fu' : Forall (fun p => ~ FromClient p = false) u) by (eapply Forall_impl; [apply Fu|]; congruence).
  assert (Fd' : Forall (fun p => ~ FromClient p = true) d) by (eapply Forall_impl; [apply Fd|]; congruence).
  do 4 (split; [done|]). split; [apply sort_by_perm|]. split; [apply sort_by_sorted|]. split; intros Hs.
  - rewrite filter_sort_by, filter_app, (filter_all _ u), (filter_none _ d), app_nil_r by done. by apply sort_by_id.
  - rewrite filter_sort_by, filter_app, (filter_none _ u), (filter_all _ d), app_nil_l by done. by apply sort_by_id.
Qed.
