(* ===== verification/Recording.v ===== *)
(** * Recordings of a connection (internal/capture/capture.go)

    A pcap file of Ethernet frames that carry the TCP segments of one
    connection, and what [Read] makes of it: the decoding of the file, of the
    frames and of the segments is inverse to writing them. *)

From Stdlib Require Import Sorted.
From S2P Require Import Prelude Go WireErrors Capture Reassembly.

(** ** Files *)

(** The bytes of a 32-bit number in a byte order. *)
Definition bo_put32 (bo : ByteOrder) (v : Z) : bytes :=
  match bo with BigEndian => put32 v | LittleEndian => rev (put32 v) end.

Lemma bo_Uint32_put32 bo v rest : bo_Uint32 bo (bo_put32 bo v ++ rest) = Ok (u32 v).
Proof. destruct bo; unfold bo_Uint32, bo_put32, put32; simpl; [by rewrite be32_put32|]. apply (Uint32_put32 v rest). Qed.

Lemma length_bo_put32 bo v : length (bo_put32 bo v) = 4%nat.
Proof. by destruct bo. Qed.

(** A record: time stamps, captured and original length, data. *)
Definition pcap_record (bo : ByteOrder) (d : bytes) : bytes :=
  bo_put32 bo 0 ++ bo_put32 bo 0 ++ bo_put32 bo (len d) ++ bo_put32 bo (len d) ++ d.

(** A file: magic, version, zone, accuracy, snap length, link type and the
    records. *)
Definition pcap_file (bo : ByteOrder) (lnk : Z) (frames : list bytes) : bytes :=
  bo_put32 bo 0xa1b2c3d4 ++ bo_put32 bo 0x00020004 ++ bo_put32 bo 0 ++ bo_put32 bo 0 ++ bo_put32 bo 65535 ++
  bo_put32 bo lnk ++ mjoin (pcap_record bo <$> frames).

Lemma len_pcap_record bo d : len (pcap_record bo d) = 16 + len d.
Proof. unfold pcap_record. rewrite !length_app, !length_bo_put32. lia. Qed.

Lemma slice_at (pre mid post : bytes) lo hi : lo = len pre -> hi = len pre + len mid -> slice (pre ++ mid ++ post) lo hi = Ok mid.
Proof. apply slice_app_mid. Qed.

Lemma pcapLoop_records frames fuel b bo lnk pre out :
  b = pre ++ mjoin (pcap_record bo <$> frames) -> Forall (fun d : bytes => is_u32 (len d)) frames ->
  (length frames < fuel)%nat ->
  pcapLoop fuel b bo lnk (len pre) out = Ok (out ++ (mkPacket lnk <$> frames)).
Proof.
  intros Hb HF. revert fuel pre out Hb. induction HF as [|d frames Hd HF IH]; intros fuel pre out Hb Hf.
  { destruct fuel as [|fuel]; [simpl in Hf; lia|]. cbn [pcapLoop]. rewrite Hb, app_nil_r. if_arith. simpl. by rewrite app_nil_r. }
  destruct fuel as [|fuel]; [simpl in Hf; lia|]. cbn [pcapLoop].
  rewrite fmap_cons in Hb. change (mjoin (?x :: ?l)) with (x ++ mjoin l) in Hb.
  set (rest := mjoin (pcap_record bo <$> frames)) in *.
  assert (Hlen : len b = len pre + (16 + len d) + len rest).
  { rewrite Hb, !length_app. pose proof (len_pcap_record bo d). lia. }
  rewrite Hlen. if_arith. if_arith. unfold is_u32 in Hd.
  replace (slice b (len pre + 8) (len pre + 12)) with (Ok (bo_put32 bo (len d))).
  2: { rewrite Hb. unfold pcap_record. rewrite <- !app_assoc. rewrite (app_assoc (bo_put32 bo 0)), (app_assoc pre). symmetry.
       apply slice_at; rewrite !length_app, !length_bo_put32; lia. }
  cbn [mbind res_bind]. rewrite <- (app_nil_r (bo_put32 bo (len d))), bo_Uint32_put32, u32_small by done. cbn [mbind res_bind].
  if_arith. replace (slice b (len pre + 16) (len pre + 16 + len d)) with (Ok d).
  2: { rewrite Hb. unfold pcap_record. rewrite <- !app_assoc.
       rewrite (app_assoc (bo_put32 bo (len d)) (bo_put32 bo (len d))), (app_assoc (bo_put32 bo 0) (_ ++ _)), (app_assoc (bo_put32 bo 0)), (app_assoc pre).
       symmetry. apply slice_at; rewrite !length_app, !length_bo_put32; lia. }
  cbn [mbind res_bind].
  replace (len pre + 16 + len d) with (len (pre ++ pcap_record bo d)) by (rewrite length_app; pose proof (len_pcap_record bo d); lia).
  rewrite (IH fuel (pre ++ pcap_record bo d)) by (by rewrite <- app_assoc || (simpl in Hf; lia)). by rewrite <- app_assoc.
Qed.

(** A pass for every record: there are no more records than bytes. *)
Lemma records_enough bo frames n :
  (length (mjoin (pcap_record bo <$> frames)) <= n)%nat -> (length frames <= n)%nat.
Proof.
  revert n. induction frames as [|d frames IH]; intros n Hn; [apply Nat.le_0_l|].
  rewrite fmap_cons in Hn. change (mjoin (?x :: ?l)) with (x ++ mjoin l) in Hn. rewrite length_app in Hn.
  pose proof (len_pcap_record bo d). specialize (IH (n - 1)%nat). cbn [length]. lia.
Qed.

Lemma packets_pcap_file bo lnk frames :
  0 <= lnk < 268435456 -> Forall (fun d : bytes => is_u32 (len d)) frames ->
  packets (pcap_file bo lnk frames) = Ok (mkPacket lnk <$> frames).
Proof.
  intros Hl HF. set (b := pcap_file bo lnk frames).
  set (hdr := bo_put32 bo 0xa1b2c3d4 ++ bo_put32 bo 0x00020004 ++ bo_put32 bo 0 ++ bo_put32 bo 0 ++ bo_put32 bo 65535).
  set (recs := mjoin (pcap_record bo <$> frames)).
  assert (Hb : b = (hdr ++ bo_put32 bo lnk) ++ recs) by (unfold b, pcap_file, hdr; by rewrite <- !app_assoc).
  assert (Hhl : length hdr = 20%nat) by (unfold hdr; by rewrite !length_app, !length_bo_put32).
  assert (Hlen : len b = 24 + len recs) by (rewrite Hb, !length_app, length_bo_put32; lia).
  assert (Hpcap : pcapPackets b bo = Ok (mkPacket lnk <$> frames)).
  { unfold pcapPackets. if_arith. rewrite Hb at 1. rewrite <- app_assoc, slice_at by (rewrite ?length_bo_put32; lia).
    cbn [mbind res_bind]. rewrite <- (app_nil_r (bo_put32 bo lnk)), bo_Uint32_put32, u32_small by (unfold is_u32; lia). cbn [mbind res_bind].
    replace (Z.land lnk 0x0fffffff) with lnk
      by (change 0x0fffffff with (Z.ones 28); rewrite Z.land_ones, Z.mod_small by lia; done).
    replace 24 with (len (hdr ++ bo_put32 bo lnk)) by (rewrite length_app, length_bo_put32; lia).
    apply (pcapLoop_records frames); [done..|]. apply Nat.lt_succ_r, (records_enough bo). rewrite Hb, length_app. fold recs. lia. }
  unfold packets. if_arith.
  replace (bo_Uint32 LittleEndian b) with (Ok (match bo with LittleEndian => 0xa1b2c3d4 | BigEndian => 0xd4c3b2a1 end)).
  - by destruct bo.
  - unfold b, pcap_file. by destruct bo.
Qed.

(** ** Frames *)

(** An IPv4 address. *)
Record addr := mkAddr { a0 : byte; a1 : byte; a2 : byte; a3 : byte }.
Definition addr_bytes (a : addr) : bytes := [a0 a; a1 a; a2 a; a3 a].
Definition addr_text (a : addr) : string :=
  dec (b2z (a0 a)) +:+ "." +:+ dec (b2z (a1 a)) +:+ "." +:+ dec (b2z (a2 a)) +:+ "." +:+ dec (b2z (a3 a)).

(** A TCP segment of the connection: its direction, sequence number, flags and
    payload. *)
Record wire := mkWire { w_up : bool; w_seq : Z; w_flags : byte; w_payload : bytes }.

(** Headers without options; a payload that fits an IPv4 packet. *)
Definition tcp (sport dport : Z) (w : wire) : bytes :=
  put16 sport ++ put16 dport ++ put32 (w_seq w) ++ put32 0 ++ [x50; w_flags w; x00; x00; x00; x00; x00; x00] ++ w_payload w.
Definition ipv4 (from to : addr) (t : bytes) : bytes :=
  [x45; x00] ++ put16 (20 + len t) ++ [x00; x00; x40; x00; x40; x06; x00; x00] ++ addr_bytes from ++ addr_bytes to ++ t.
Definition ethernet (d : bytes) : bytes := replicate 12 x00 ++ put16 etherIPv4 ++ d.

Section Connection.
(** The client's address and port, and the server's address. *)
Variables (client server : addr) (port : Z).
Hypothesis Hport : is_u16 port /\ port <> S7Port.

Definition conn_key : connKey := (endpoint (addr_text client) port, endpoint (addr_text server) S7Port).

Definition encode_wire (w : wire) : bytes :=
  ethernet (if w_up w then ipv4 client server (tcp port S7Port w) else ipv4 server client (tcp S7Port port w)).

Definition wire_wf (w : wire) : Prop := is_u32 (w_seq w) /\ len (w_payload w) <= 65495.

(** What a segment does to the connection. *)
Definition deliver (num : Z) (w : wire) (c : conn) : conn :=
  let add f := addSegment f num (w_seq w) (b2z (w_flags w)) (w_payload w) in
  if w_up w then mkConn (key c) (firstFrame c) (add (up c)) (down c)
  else mkConn (key c) (firstFrame c) (up c) (add (down c)).

Lemma len_tcp sport dport w : len (tcp sport dport w) = 20 + len (w_payload w).
Proof. unfold tcp. rewrite !length_app, !length_put16, !length_put32. simpl length. lia. Qed.

(** A word inside a buffer. *)
Lemma slice_word16 pre v post lo hi :
  lo = len pre -> hi = lo + 2 -> (slice (pre ++ put16 v ++ post) lo hi ≫= Uint16) = Ok (v mod 65536).
Proof.
  intros -> ->. rewrite slice_at by done. cbn [mbind res_bind]. rewrite <- (app_nil_r (put16 v)). apply Uint16_put16.
Qed.

Lemma tcpFrame_decodes a num s d sport dport w :
  is_u16 sport -> is_u16 dport -> sport <> dport -> sport = S7Port \/ dport = S7Port -> is_u32 (w_seq w) ->
  let k : connKey := if dport =? S7Port then (endpoint s sport, endpoint d dport) else (endpoint d dport, endpoint s sport) in
  let w' := mkWire (dport =? S7Port) (w_seq w) (w_flags w) (w_payload w) in
  tcpFrame a num s d (tcp sport dport w) = Ok (<[k := deliver num w' (default (newConn k num) (a !! k))]> a).
Proof.
  intros Hs Hd Hne Hor Hq. pose proof (len_tcp sport dport w) as Hl. unfold tcpFrame. if_arith. unfold is_u16 in *.
  assert ((slice (tcp sport dport w) 0 2 ≫= Uint16) = Ok (sport mod 65536)) as -> by (by apply (slice_word16 [] sport)).
  assert ((slice (tcp sport dport w) 2 4 ≫= Uint16) = Ok (dport mod 65536)) as -> by (by apply (slice_word16 (put16 sport) dport)).
  cbn [mbind res_bind]. rewrite !Z.mod_small by lia.
  change (idx (tcp sport dport w) 12) with (@Ok byte x50). change (idx (tcp sport dport w) 13) with (@Ok byte (w_flags w)).
  cbn [mbind res_bind]. change (Z.shiftr (b2z x50) 4 * 4) with 20. if_arith.
  replace (negb (dport =? S7Port) && negb (sport =? S7Port)) with false by (destruct Hor as [-> | ->]; by rewrite Z.eqb_refl, ?andb_false_r).
  replace (slice (tcp sport dport w) 4 8 ≫= Uint32) with (Ok (w_seq w)).
  2: { change (tcp sport dport w) with ((put16 sport ++ put16 dport) ++ put32 (w_seq w) ++ (put32 0 ++ [x50; w_flags w; x00; x00; x00; x00; x00; x00] ++ w_payload w)).
       rewrite slice_at by done. cbn [mbind res_bind]. rewrite <- (app_nil_r (put32 (w_seq w))), Uint32_put32. by rewrite u32_small. }
  rewrite slice_from_ok by lia. cbn [mbind res_bind]. change (drop (Z.to_nat 20) (tcp sport dport w)) with (w_payload w).
  by destruct (dport =? S7Port).
Qed.

Lemma dotted_addr pre x post : dotted (pre ++ addr_bytes x ++ post) (len pre) = Ok (addr_text x).
Proof.
  assert (Hi : forall (i : nat) b, addr_bytes x !! i = Some b -> idx (pre ++ addr_bytes x ++ post) (len pre + Z.of_nat i) = Ok b).
  { intros i b Hb. apply idx_lookup. split; [lia|]. rewrite lookup_app_r by lia.
    replace (Z.to_nat (len pre + Z.of_nat i) - length pre)%nat with i by lia. by apply lookup_app_l_Some. }
  pose proof (Hi 0%nat (a0 x) eq_refl) as H0. pose proof (Hi 1%nat (a1 x) eq_refl) as H1.
  pose proof (Hi 2%nat (a2 x) eq_refl) as H2. pose proof (Hi 3%nat (a3 x) eq_refl) as H3.
  rewrite Z.add_0_r in H0. change (Z.of_nat 1) with 1 in H1. change (Z.of_nat 2) with 2 in H2. change (Z.of_nat 3) with 3 in H3.
  unfold dotted. by rewrite H0, H1, H2, H3.
Qed.

Lemma ipFrame_decodes a num from to t :
  len t <= 65515 -> ipFrame a num (ipv4 from to t) = tcpFrame a num (addr_text from) (addr_text to) t.
Proof.
  intros Ht. assert (Hl : len (ipv4 from to t) = 20 + len t) by (unfold ipv4, addr_bytes; rewrite !length_app, !length_put16; simpl length; lia).
  unfold ipFrame. change (idx (ipv4 from to t) 0) with (@Ok byte x45). change (idx (ipv4 from to t) 9) with (@Ok byte x06).
  cbn [mbind res_bind]. change (negb (Z.shiftr (b2z x45) 4 =? 4)) with false. change (Z.land (b2z x45) 0x0f * 4) with 20. cbn iota.
  assert ((slice (ipv4 from to t) 2 4 ≫= Uint16) = Ok ((20 + len t) mod 65536)) as -> by (by apply (slice_word16 [x45; x00])).
  cbn [mbind res_bind]. rewrite Z.mod_small by lia. if_arith.
  change (negb (b2z x06 =? protoTCP)) with false. cbn iota.
  change (slice (ipv4 from to t) 6 8) with (slice (([x45; x00] ++ put16 (20 + len t) ++ [x00; x00]) ++ [x40; x00] ++ ([x40; x06; x00; x00] ++ addr_bytes from ++ addr_bytes to ++ t)) 6 8).
  rewrite slice_at by done. change (Uint16 [x40; x00]) with (@Ok Z 0x4000). cbn [mbind res_bind].
  change (negb (Z.land 0x4000 0x3fff =? 0)) with false. cbn iota.
  set (h := [x45; x00] ++ put16 (20 + len t) ++ [x00; x00; x40; x00; x40; x06; x00; x00]).
  change (dotted (ipv4 from to t) 12) with (dotted (h ++ addr_bytes from ++ (addr_bytes to ++ t)) (len h)).
  change (dotted (ipv4 from to t) 16) with (dotted ((h ++ addr_bytes from) ++ addr_bytes to ++ t) (len (h ++ addr_bytes from))).
  rewrite !dotted_addr. cbn [mbind res_bind]. rewrite slice_ok by lia.
  change (drop (Z.to_nat 20) (ipv4 from to t)) with t. cbn [mbind res_bind]. by rewrite take_ge by lia.
Qed.

Lemma frame_ethernet a num d : 20 <= len d -> frame a num (mkPacket linkEthernet (ethernet d)) = ipFrame a num d.
Proof.
  intros Hd. assert (Hl : len (ethernet d) = 14 + len d) by (unfold ethernet; rewrite !length_app, length_put16, length_replicate; lia).
  unfold frame. change (negb (link _ =? linkEthernet)) with false. cbn [pk_data]. cbn iota zeta. if_arith.
  assert ((slice (ethernet d) 12 14 ≫= Uint16) = Ok (etherIPv4 mod 65536)) as -> by (by apply (slice_word16 (replicate 12 x00) etherIPv4)).
  cbn [mbind res_bind]. rewrite slice_from_ok by lia.
  change (drop (Z.to_nat 14) (ethernet d)) with d. cbn [mbind res_bind].
  change (etherIPv4 mod 65536 =? etherVLAN) with false. change (negb (etherIPv4 mod 65536 =? etherIPv4)) with false. cbn iota.
  cbn [orb]. by if_arith.
Qed.

Lemma frame_decodes a num w :
  wire_wf w ->
  frame a num (mkPacket linkEthernet (encode_wire w)) =
  Ok (<[conn_key := deliver num w (default (newConn conn_key num) (a !! conn_key))]> a).
Proof.
  intros [Hq Hp]. destruct Hport as [Hu Hne]. assert (is_u16 S7Port) by done.
  unfold encode_wire. destruct w as [[] sq fl pl]; cbn [w_up w_seq w_payload] in *;
    (rewrite frame_ethernet by (unfold ipv4, addr_bytes; rewrite !length_app, !length_put16; simpl length; lia));
    rewrite ipFrame_decodes by (rewrite len_tcp; simpl; lia).
  - rewrite tcpFrame_decodes; auto.
  - rewrite tcpFrame_decodes; auto. by rewrite (proj2 (Z.eqb_neq port S7Port)).
Qed.

Fixpoint deliver_all (num : Z) (ws : list wire) (c : conn) : conn :=
  match ws with [] => c | w :: ws => deliver_all (num + 1) ws (deliver num w c) end.

Lemma framesLoop_delivers ws num c :
  Forall wire_wf ws ->
  framesLoop ((mkPacket linkEthernet ∘ encode_wire) <$> ws) num ({[conn_key := c]} : gmap connKey conn) =
  Ok ({[conn_key := deliver_all num ws c]} : gmap connKey conn).
Proof.
  intros HF. revert num c. induction HF as [|w ws Hw _ IH]; intros num c; [done|]. cbn [fmap list_fmap framesLoop].
  unfold compose at 1. rewrite frame_decodes by done. unfold assembler. rewrite lookup_singleton_eq. simpl default.
  rewrite insert_singleton_eq. apply IH.
Qed.

Definition recording (bo : ByteOrder) (ws : list wire) : bytes := pcap_file bo linkEthernet (encode_wire <$> ws).

Lemma len_encode_wire w : len (encode_wire w) = 54 + len (w_payload w).
Proof.
  unfold encode_wire, ethernet, ipv4, addr_bytes. destruct (w_up w);
    rewrite !length_app, length_replicate, !length_put16; pose proof (len_tcp port S7Port w); pose proof (len_tcp S7Port port w); simpl length; lia.
Qed.

(** A recording of the connection is read as its conversation. *)
Lemma Read_recording bo w ws :
  Forall wire_wf (w :: ws) ->
  Read (recording bo (w :: ws)) = (v ← conversation (deliver_all 1 (w :: ws) (newConn conn_key 1)); Ok [v]).
Proof.
  intros HF. unfold Read, recording. rewrite packets_pcap_file; [|done|].
  2: { apply Forall_fmap. eapply Forall_impl; [apply HF|]. intros x [_ Hx]. unfold compose, is_u32. rewrite len_encode_wire. lia. }
  cbn [mbind res_bind]. rewrite <- list_fmap_compose. cbn [fmap list_fmap framesLoop]. apply Forall_cons in HF as [Hw HF].
  unfold compose at 1, newAssembler. rewrite frame_decodes by done. unfold assembler. rewrite lookup_empty. simpl default.
  rewrite insert_empty, framesLoop_delivers by done. cbn [mbind res_bind]. unfold conversations.
  unfold assembler. rewrite map_to_list_singleton. cbn [fmap list_fmap snd sort_by foldr insert_by conversationsLoop app].
  by destruct (conversation _).
Qed.

(** ** A recorded connection *)

(** The streams of the two directions and the initial sequence numbers. *)
Variables (s1 s2 : bytes) (isn1 isn2 : Z).

Definition sent (dir : bool) : bytes := if dir then s1 else s2.
Definition first_seq (dir : bool) : Z := u32 ((if dir then isn1 else isn2) + 1).

(** One segment sent: its direction and the bytes of the stream. *)
Definition data_wire (x : bool * (Z * Z)) : wire :=
  mkWire x.1 (u32 (first_seq x.1 + x.2.1)) x18 (part (sent x.1) x.2.1 x.2.2).

(** SYN, SYN-ACK and the data segments. *)
Definition handshake_wires : list wire := [mkWire true isn1 x02 []; mkWire false isn2 x12 []].
Definition connection_wires (xs : list (bool * (Z * Z))) : list wire := handshake_wires ++ (data_wire <$> xs).

(** The segments of a direction among the data segments, the first one in the
    frame [num]. *)
Fixpoint dir_segs (dir : bool) (num : Z) (xs : list (bool * (Z * Z))) : list segment :=
  match xs with
  | [] => []
  | x :: xs =>
      let rest := dir_segs dir (num + 1) xs in
      if Bool.eqb x.1 dir then segment_at (sent dir) (first_seq dir) num x.2.1 x.2.2 :: rest else rest
  end.

(** A segment holds bytes of the stream, and not too many. *)
Definition segment_in (x : bool * (Z * Z)) : Prop := 0 <= x.2.1 < x.2.2 /\ x.2.2 <= len (sent x.1) /\ x.2.2 - x.2.1 <= 65495.

Lemma deliver_all_data xs num c :
  Forall segment_in xs ->
  deliver_all num (data_wire <$> xs) c =
  mkConn (key c) (firstFrame c)
    (mkFlow (src (up c)) (dst (up c)) (syn (up c)) (isn (up c)) (segs (up c) ++ dir_segs true num xs))
    (mkFlow (src (down c)) (dst (down c)) (syn (down c)) (isn (down c)) (segs (down c) ++ dir_segs false num xs)).
Proof.
  intros HF. revert num c. induction HF as [|[dir [lo hi]] xs (Hlo & Hhi & _) _ IH]; intros num c.
  { destruct c as [? ? [] []]; simpl. by rewrite !app_nil_r. }
  cbn [fmap list_fmap deliver_all]. rewrite IH. simpl in Hlo, Hhi.
  assert (Hpos : (len (part (sent dir) lo hi) >? 0) = true) by (rewrite len_part by lia; b2p; lia).
  destruct dir; unfold deliver, data_wire, addSegment; simpl w_payload; simpl w_up;
    change (negb (Z.land (b2z (w_flags _)) 0x02 =? 0)) with false; simpl; simpl in Hpos; rewrite Hpos; simpl; by rewrite <- app_assoc.
Qed.

Lemma elem_of_dir_segs dir num xs sg :
  sg ∈ dir_segs dir num xs <->
  exists i lo hi, xs !! i = Some (dir, (lo, hi)) /\ sg = segment_at (sent dir) (first_seq dir) (num + Z.of_nat i) lo hi.
Proof.
  revert num. induction xs as [|[d [lo hi]] xs IH]; intros num; simpl.
  { split; [by intros ?%elem_of_nil | by intros (i & lo & hi & [=] & _)]. }
  assert (Hshift : (exists i lo' hi', xs !! i = Some (dir, (lo', hi')) /\ sg = segment_at (sent dir) (first_seq dir) (num + 1 + Z.of_nat i) lo' hi') <->
    exists i lo' hi', ((d, (lo, hi)) :: xs) !! S i = Some (dir, (lo', hi')) /\ sg = segment_at (sent dir) (first_seq dir) (num + Z.of_nat (S i)) lo' hi').
  { split; intros (i & lo' & hi' & H1 & H2); exists i, lo', hi'; (split; [done|]); rewrite H2; f_equal; lia. }
  destruct (Bool.eqb d dir) eqn:E.
  - apply Bool.eqb_prop in E as ->. rewrite elem_of_cons, IH, Hshift. split.
    + intros [->|(i & H)]; [|by exists (S i)]. exists 0%nat, lo, hi. split; [done|]. f_equal. lia.
    + intros ([|i] & lo' & hi' & H1 & H2); [left|right; by exists i, lo', hi']. injection H1 as <- <-. rewrite H2. f_equal. lia.
  - rewrite IH, Hshift. split; [intros (i & H); by exists (S i)|].
    intros ([|i] & lo' & hi' & H1 & H2); [|by exists i, lo', hi']. injection H1 as -> _ _. by rewrite Bool.eqb_reflx in E.
Qed.

(** The flow of a direction after the recording. *)
Definition dir_flow (dir : bool) (from to : string) (xs : list (bool * (Z * Z))) : flow :=
  mkFlow from to true (if dir then isn1 else isn2) (dir_segs dir 3 xs).

Lemma deliver_connection xs :
  Forall segment_in xs ->
  deliver_all 1 (connection_wires xs) (newConn conn_key 1) =
  mkConn conn_key 1 (dir_flow true conn_key.1 conn_key.2 xs) (dir_flow false conn_key.2 conn_key.1 xs).
Proof.
  intros HF. unfold connection_wires, handshake_wires. cbn [app deliver_all].
  change (1 + 1 + 1) with 3. by rewrite deliver_all_data.
Qed.

(** Every byte of the streams is in some segment. *)
Definition all_recorded (xs : list (bool * (Z * Z))) : Prop :=
  forall dir k, 0 <= k < len (sent dir) -> exists lo hi, (dir, (lo, hi)) ∈ xs /\ lo <= k < hi.

Lemma dir_flow_complete dir from to ms xs :
  sent dir = encode_messages ms -> ms <> [] -> Forall message_wf ms -> len (sent dir) < 2147483648 ->
  Forall segment_in xs -> all_recorded xs ->
  complete_recording ms (first_seq dir) (dir_flow dir from to xs).
Proof.
  intros Hs Hne Hwf Hlen HF Hall.
  assert (Hpc : forall i lo hi, xs !! i = Some (dir, (lo, hi)) ->
    let sg := segment_at (sent dir) (first_seq dir) (3 + Z.of_nat i) lo hi in
    piece (sent dir) (first_seq dir) sg /\ start (first_seq dir) sg = lo /\ stop (first_seq dir) sg = hi).
  { intros i lo hi Hi. pose proof (Forall_lookup_1 _ _ _ _ HF Hi) as (H1 & H2 & _). by apply segment_at_piece. }
  assert (Hcov : forall k, 0 <= k < len (sent dir) -> exists sg, sg ∈ dir_segs dir 3 xs /\ covers (first_seq dir) sg k).
  { intros k Hk. destruct (Hall dir k Hk) as (lo & hi & [i Hi]%list_elem_of_lookup & Hin).
    eexists. split; [apply elem_of_dir_segs; by eauto|]. destruct (Hpc i lo hi Hi) as (_ & E1 & E2). unfold covers. by rewrite E1, E2. }
  rewrite Hs in Hcov. split; [done|]. split; [done|]. split; [|done]. unfold recorded. cbn [segs dir_flow syn isn]. split.
  { intros E. rewrite E in Hcov. destruct (Hcov 0) as (sg & Hin & _); [|by apply elem_of_nil in Hin].
    pose proof (encode_messages_nonempty ms Hne). destruct (encode_messages ms); [done | simpl; lia]. }
  split; [|by destruct dir]. apply Forall_forall. intros sg (i & lo & hi & Hi & ->)%elem_of_dir_segs.
  rewrite <- Hs. by destruct (Hpc i lo hi Hi).
Qed.

(** The frame of a PDU is that of a segment with its last byte. *)
Definition framed_by (dir : bool) (xs : list (bool * (Z * Z))) (p : PDU) (k : Z) : Prop :=
  exists i lo hi, xs !! i = Some (dir, (lo, hi)) /\ lo <= k < hi /\ Frame p = 3 + Z.of_nat i.

Lemma pdus_of_framed dir from to ms xs fromClient new :
  len (sent dir) < 2147483648 -> Forall segment_in xs ->
  pdus_of ms (first_seq dir) (dir_flow dir from to xs) fromClient new ->
  Data <$> new = s7_pdus ms /\ Forall2 (framed_by dir xs) new (pdu_ends 0 ms).
Proof.
  intros Hlen HF (H1 & _ & H3). split; [done|]. eapply Forall2_impl; [apply H3|].
  intros p k (sg & (i & lo & hi & Hi & ->)%elem_of_dir_segs & Hc & Hfr). exists i, lo, hi. split; [done|].
  pose proof (Forall_lookup_1 _ _ _ _ HF Hi) as (G1 & G2 & _).
  destruct (segment_at_piece (sent dir) (first_seq dir) (3 + Z.of_nat i) lo hi Hlen G1 G2) as (_ & E1 & E2).
  unfold covers in Hc. by rewrite E1, E2 in Hc.
Qed.

(** Reading the recording of a connection gives back what was sent. *)
Lemma Read_recovers bo xs ms1 ms2 :
  s1 = encode_messages ms1 -> s2 = encode_messages ms2 -> ms1 <> [] -> ms2 <> [] ->
  Forall message_wf ms1 -> Forall message_wf ms2 -> len s1 < 2147483648 -> len s2 < 2147483648 ->
  is_u32 isn1 -> is_u32 isn2 -> Forall segment_in xs -> all_recorded xs ->
  exists u d conv, Read (recording bo (connection_wires xs)) = Ok [conv] /\
    (Conv_Client conv, Conv_Server conv) = conn_key /\ Gaps conv = 0 /\ Dropped conv = 0 /\
    ConnectRequests conv = count_messages is_request ms1 + count_messages is_request ms2 /\
    ConnectConfirms conv = count_messages is_confirm ms1 + count_messages is_confirm ms2 /\
    PDUs conv ≡ₚ u ++ d /\ StronglySorted (key_le Frame) (PDUs conv) /\
    (Data <$> u = s7_pdus ms1 /\ Forall2 (framed_by true xs) u (pdu_ends 0 ms1)) /\
    (Data <$> d = s7_pdus ms2 /\ Forall2 (framed_by false xs) d (pdu_ends 0 ms2)) /\
    (StronglySorted (key_le Frame) u -> filter (fun p => FromClient p = true) (PDUs conv) = u) /\
    (StronglySorted (key_le Frame) d -> filter (fun p => FromClient p = false) (PDUs conv) = d).
Proof.
  intros E1 E2 N1 N2 W1 W2 L1 L2 I1 I2 HF Hall.
  assert (Hwf : Forall wire_wf (connection_wires xs)).
  { assert (H0 : len (@nil byte) <= 65495) by (simpl; lia). do 2 (constructor; [by split|]).
    apply Forall_fmap. eapply Forall_impl; [apply HF|]. intros [dir [lo hi]] (G1 & G2 & G3). simpl in *.
    split; [unfold is_u32, u32; simpl; apply Z.mod_pos_bound; lia|]. simpl. rewrite len_part; lia. }
  pose proof (dir_flow_complete true conn_key.1 conn_key.2 ms1 xs E1 N1 W1 L1 HF Hall) as C1.
  pose proof (dir_flow_complete false conn_key.2 conn_key.1 ms2 xs E2 N2 W2 L2 HF Hall) as C2.
  destruct (conversation_recovers (mkConn conn_key 1 _ _) ms1 _ ms2 _ C1 C2) as (u & d & conv & Hu & Hd & Hc & R).
  exists u, d, conv. unfold connection_wires, handshake_wires in *. cbn [app] in *. rewrite Read_recording by done.
  change (_ :: _ :: (data_wire <$> xs)) with (connection_wires xs). rewrite deliver_connection, Hc by done. split; [done|].
  assert (Hk : (Conv_Client conv, Conv_Server conv) = conn_key).
  { unfold conversation in Hc. apply bind_Ok_inv in Hc as ([] & _ & Hc). apply bind_Ok_inv in Hc as ([] & _ & Hc). by injection Hc as <-. }
  apply pdus_of_framed in Hu; [|done..]. apply pdus_of_framed in Hd; [|done..]. tauto.
Qed.
End Connection.
