(* ===== verification/CaptureProps.v ===== *)
(** * The capture reader: theorems (internal/capture/capture.go)

    [Read] is total and deterministic on every file; reassembly gives the
    maximal runs of what was recorded; a recording of a whole connection is
    read as the PDUs that were sent. *)

From Stdlib Require Import Sorted.
From S2P Require Import Prelude Go WireErrors Capture Reassembly Recording.

(** C35: reading any bytes as a capture never panics (so every slice and index
    is in bounds and every loop ends within its fuel), and its result depends
    neither on the order in which Go iterates over the map of connections nor
    on the unstable sort: whatever list of the connections, sorted by first
    frame, comes out of [conversations]' sorting, the result is the same. *)
Theorem Read_deterministic b :
  no_panic (Read b) /\
  forall frames a conns, packets b = Ok frames -> framesLoop frames 1 newAssembler = Ok a ->
    conns ≡ₚ (map_to_list a).*2 -> StronglySorted (key_le firstFrame) conns ->
    conversationsLoop conns [] = Read b.
Proof.
  split; [apply Read_no_panic|]. intros frames a conns Hp Hf Hperm Hs.
  destruct (framesLoop_ok frames 1 newAssembler a) as [num Ha]; [|done|].
  { split; [intros k c H | intros k1 k2 c1 c2 H]; unfold newAssembler, assembler in H; by rewrite lookup_empty in H. }
  unfold Read. rewrite Hp. cbn [mbind res_bind]. rewrite Hf. cbn [mbind res_bind]. unfold conversations. f_equal.
  rewrite <- (sort_by_id firstFrame conns) by done. by apply (conversations_order num).
Qed.

(** C36: reassembly of one direction, with any order, repetition and overlap
    of segments, missing segments and sequence numbers that wrap: the runs are
    exactly the maximal intervals of the stream that the segments cover, in
    order and with gaps between them (the first, from the start, may be
    empty), and every byte carries the frame of a segment that has it. *)
Theorem stream_gives_runs s base f :
  recorded s base f ->
  exists ivs runs, stream f = Ok runs /\ Forall2 (run_of s base (segs f)) ivs runs /\ separated s ivs /\
    (exists hi rest, ivs = (0, hi) :: rest) /\
    forall k, covered_by ivs k <-> exists sg, sg ∈ segs f /\ covers base sg k.
Proof. apply stream_runs. Qed.

(** Three segments out of order, the sequence numbers wrapping, a gap. *)
Definition example_flow : flow :=
  mkFlow "a" "b" true 4294967290 [segment_at [x01; x02; x03; x04; x05; x06; x07; x08; x09] 4294967291 9 4 7;
    segment_at [x01; x02; x03; x04; x05; x06; x07; x08; x09] 4294967291 7 0 3;
    segment_at [x01; x02; x03; x04; x05; x06; x07; x08; x09] 4294967291 8 5 9].

(** Witness of C36. *)
Lemma stream_gives_runs_witness :
  recorded [x01; x02; x03; x04; x05; x06; x07; x08; x09] 4294967291 example_flow /\
  exists runs, stream example_flow = Ok runs /\ len runs = 2.
Proof.
  assert (H : recorded [x01; x02; x03; x04; x05; x06; x07; x08; x09] 4294967291 example_flow).
  { split; [done|]. split; [|done]. repeat constructor; apply segment_at_piece; simpl; lia. }
  split; [done|]. destruct (stream_gives_runs _ _ _ H) as (ivs & runs & Hs & _). exists runs. split; [done|].
  vm_compute in Hs. by injection Hs as <-.
Defined.

(** C37: reading back the recording of a connection.  The two sides exchanged
    the messages [ms1] and [ms2] (COTP connection TPDUs and S7 PDUs in
    fragments); the pcap file, of either byte order, holds their handshake and
    the segments [xs] of the two streams as Ethernet frames, in any order,
    repeated and overlapping, such that every byte is in some segment.  Then
    [Read] finds exactly one conversation, of the right end points, without gaps
    or drops; its PDUs are those sent, each with the number of a frame that has
    its last byte, merged by frame; and a direction whose PDUs complete in order
    keeps its order. *)
Theorem Read_roundtrip client server port isn1 isn2 bo xs ms1 ms2 :
  let s1 := encode_messages ms1 in
  let s2 := encode_messages ms2 in
  is_u16 port /\ port <> S7Port -> is_u32 isn1 -> is_u32 isn2 ->
  ms1 <> [] -> ms2 <> [] -> Forall message_wf ms1 -> Forall message_wf ms2 ->
  len s1 < 2147483648 -> len s2 < 2147483648 ->
  Forall (segment_in s1 s2) xs -> all_recorded s1 s2 xs ->
  exists u d conv,
    Read (recording client server port bo (connection_wires s1 s2 isn1 isn2 xs)) = Ok [conv] /\
    (Conv_Client conv, Conv_Server conv) = conn_key client server port /\ Gaps conv = 0 /\ Dropped conv = 0 /\
    ConnectRequests conv = count_messages is_request ms1 + count_messages is_request ms2 /\
    ConnectConfirms conv = count_messages is_confirm ms1 + count_messages is_confirm ms2 /\
    PDUs conv ≡ₚ u ++ d /\ StronglySorted (key_le Frame) (PDUs conv) /\
    (Data <$> u = s7_pdus ms1 /\ Forall2 (framed_by true xs) u (pdu_ends 0 ms1)) /\
    (Data <$> d = s7_pdus ms2 /\ Forall2 (framed_by false xs) d (pdu_ends 0 ms2)) /\
    (StronglySorted (key_le Frame) u -> filter (fun p => FromClient p = true) (PDUs conv) = u) /\
    (StronglySorted (key_le Frame) d -> filter (fun p => FromClient p = false) (PDUs conv) = d).
Proof. intros s1 s2 Hp I1 I2 N1 N2 W1 W2 L1 L2 HF Hall. by apply Read_recovers. Qed.

(** A connect request and a PDU in two fragments; a confirm and a PDU. *)
Definition example_up : list message :=
  [ConnectRequest [x06; xe0; x00; x00; x00; x01; x00]; Fragments [[x32; x01; x02]] [x03; x04]].
Definition example_down : list message :=
  [ConnectConfirm [x06; xd0; x00; x01; x00; x02; x00]; Fragments [] [x32; x03; x05]].
(** Out of order, overlapping and repeated. *)
Definition example_segments : list (bool * (Z * Z)) :=
  [(true, (0, 11)); (false, (0, 11)); (true, (20, 30)); (true, (8, 22)); (true, (20, 30)); (false, (11, 21))].
Definition example_capture : bytes :=
  recording (mkAddr x0a x00 x00 x01) (mkAddr x0a x00 x00 x02) 1025 LittleEndian
    (connection_wires (encode_messages example_up) (encode_messages example_down) 4294967290 7 example_segments).

Example example_capture_read :
  Read example_capture =
  Ok [mkConversation "10.0.0.1:1025" "10.0.0.2:102" 1 1 0 0
        [mkPDU true 5 [x32; x01; x02; x03; x04]; mkPDU false 8 [x32; x03; x05]]].
Proof. vm_compute. reflexivity. Qed.

(** Witness of C37. *)
Lemma Read_roundtrip_witness :
  exists conv, Read example_capture = Ok [conv] /\ Dropped conv = 0 /\ len (PDUs conv) = 2.
Proof.
  destruct (Read_roundtrip (mkAddr x0a x00 x00 x01) (mkAddr x0a x00 x00 x02) 1025 4294967290 7 LittleEndian
              example_segments example_up example_down) as (u & d & conv & Hr & _ & _ & Hd & _ & _ & Hp & _ & [Hu _] & [Hv _] & _).
  - split; [done | discriminate].
  - done.
  - done.
  - discriminate.
  - discriminate.
  - repeat constructor; try (simpl; lia); try (by eexists _, _, _); by eexists.
  - repeat constructor; try (simpl; lia); try (by eexists _, _, _); by eexists.
  - vm_compute. reflexivity.
  - vm_compute. reflexivity.
  - repeat constructor; vm_compute; try reflexivity; discriminate.
  - intros [] k Hk.
    + change (0 <= k < 30) in Hk. destruct (Z.lt_ge_cases k 11); [exists 0, 11 | destruct (Z.lt_ge_cases k 22); [exists 8, 22 | exists 20, 30]];
        (split; [apply (bool_decide_unpack _); vm_compute; done | lia]).
    + change (0 <= k < 21) in Hk. destruct (Z.lt_ge_cases k 11); [exists 0, 11 | exists 11, 21];
        (split; [apply (bool_decide_unpack _); vm_compute; done | lia]).
  - exists conv. split; [apply Hr|]. split; [apply Hd|]. rewrite Hp, length_app.
    apply (f_equal length) in Hu, Hv. rewrite length_fmap in Hu, Hv. rewrite Hu, Hv. done.
Defined.

(** Witness of C35: the connections of a file with one of them. *)
Lemma Read_deterministic_witness :
  exists frames a, packets example_capture = Ok frames /\ framesLoop frames 1 newAssembler = Ok a /\
    conversationsLoop (map_to_list a).*2 [] = Read example_capture.
Proof.
  destruct (Read_deterministic example_capture) as [_ H].
  assert (E : (frames ← packets example_capture; a ← framesLoop frames 1 newAssembler; Ok (length (map_to_list a).*2)) = Ok 1%nat)
    by (vm_compute; reflexivity).
  apply bind_Ok_inv in E as (frames & E1 & E). apply bind_Ok_inv in E as (a & E2 & E). injection E as E.
  exists frames, a. split; [done|]. split; [done|]. apply (H frames a); [done..|].
  destruct (map_to_list a).*2 as [|c [|c' l]]; [discriminate| by repeat constructor | discriminate].
Defined.
