(* ===== verification/Cpu.v ===== *)
(** * What a CPU answers to user data and upload requests

    The client's view of a CPU, as relations on an arbitrary environment: a
    user data response of several packets ([serves]) and an upload of several
    segments, with answers that get lost on the way ([delivers], [uploads]).
    The answers have the layout documented in wire/pdu_szl.go and
    wire/pdu_blocks.go.  The lemmas say what the client's loops make of them;
    [Cpu] at the end is a concrete environment. *)

From S2P Require Import Prelude Go WireErrors Header Client Userdata ClientSZL ClientBlocks Triple Safety.

(** ** Answers *)

Definition userdata_answer (ref : Z) (group subfunc seq : byte) (more : bool) (payload : bytes) : bytes :=
  s7Header ROSCTRUserdata ref 12 (4 + len payload) ++
    userdata_param group subfunc seq more ++ userdata_data payload.

Definition start_answer (ref id : Z) (announced : bytes) : bytes :=
  let param := [FuncUploadStart; x00; x00; x00] ++ put32 id ++ [z2b (len announced)] ++ announced in
  s7Header ROSCTRAckData ref (len param) 0 ++ [x00; x00] ++ param ++ [].

Definition upload_answer (ref : Z) (done : bool) (seg : bytes) : bytes :=
  let param := [FuncUpload; if done then x00 else x01] in
  let data := put16 (len seg) ++ [x00; xfb] ++ seg in
  s7Header ROSCTRAckData ref (len param) (len data) ++ [x00; x00] ++ param ++ data.

Definition valid_ref (ref : Z) : Prop := 1 <= ref <= MaxUint16.

Lemma sections_userdata ref group subfunc seq more payload :
  valid_ref ref -> 16 + len payload <= MaxUint16 ->
  sections (userdata_answer ref group subfunc seq more payload) ref =
  Ok (userdata_param group subfunc seq more, userdata_data payload).
Proof.
  unfold valid_ref, MaxUint16. intros Hr Hl. unfold sections, userdata_answer.
  assert (Hp : len (userdata_param group subfunc seq more) = 12) by done.
  assert (Hd : len (userdata_data payload) = 4 + len payload)
    by (unfold userdata_data; rewrite !length_app, length_put16; simpl length; lia).
  rewrite ParseS7Header_plain; [|done|unfold is_u16; lia..|rewrite length_app; lia].
  cbn [PDURef ErrorClass ErrorCode ParamLength DataLength]. rewrite Z.eqb_refl, andb_false_r.
  simpl (_ || _). cbv iota. rewrite length_app. if_arith.
  rewrite slice_to_app by lia. rewrite bind_Ok, u16_small by (unfold is_u16; lia).
  pose proof (slice_app_mid (userdata_param group subfunc seq more) (userdata_data payload) []
    12 (12 + (4 + len payload))) as Hs.
  rewrite app_nil_r in Hs. by rewrite Hs by lia.
Qed.

Lemma ParseStartUploadResponse_answer id announced :
  is_u32 id -> len announced <= 255 ->
  ParseStartUploadResponse ([FuncUploadStart; x00; x00; x00] ++ put32 id ++ [z2b (len announced)] ++ announced) =
  Ok (mkStartUpload id (default (-1) (Atoi announced))).
Proof.
  intros Hid Hl. unfold ParseStartUploadResponse.
  set (pre := [FuncUploadStart; x00; x00; x00] ++ put32 id ++ [z2b (len announced)]).
  replace ([FuncUploadStart; x00; x00; x00] ++ put32 id ++ [z2b (len announced)] ++ announced)
    with (pre ++ announced) by (unfold pre; by rewrite <- !app_assoc).
  assert (Hpre : len pre = 9) by done. rewrite length_app. if_arith.
  change (idx (pre ++ announced) 0) with (Ok FuncUploadStart). rewrite bind_Ok. simpl (_ ≠b _). cbv iota.
  rewrite slice_Uint32 by lia.
  change (idx (pre ++ announced) 4) with (Ok (z2b (Z.shiftr id 24))).
  change (idx (pre ++ announced) (4 + 1)) with (Ok (z2b (Z.shiftr id 16))).
  change (idx (pre ++ announced) (4 + 2)) with (Ok (z2b (Z.shiftr id 8))).
  change (idx (pre ++ announced) (4 + 3)) with (Ok (z2b id)).
  rewrite !bind_Ok, be32_put32, u32_small by done. if_arith.
  change (idx (pre ++ announced) 8) with (Ok (z2b (len announced))). rewrite bind_Ok, b2z_z2b_small by lia.
  cbv zeta. if_arith.
  pose proof (slice_app_mid pre announced [] 9 (9 + len announced)) as Hs. rewrite app_nil_r in Hs.
  by rewrite Hs by lia.
Qed.

Lemma ParseUploadResponse_answer (done : bool) seg :
  len seg <= MaxUint16 ->
  ParseUploadResponse [FuncUpload; if done then x00 else x01] (put16 (len seg) ++ [x00; xfb] ++ seg) =
  Ok (mkUploadChunk done seg).
Proof.
  unfold MaxUint16. intros Hl. unfold ParseUploadResponse.
  set (pre := put16 (len seg) ++ [x00; xfb]).
  replace (put16 (len seg) ++ [x00; xfb] ++ seg) with (pre ++ seg) by (unfold pre; by rewrite <- app_assoc).
  set (st := if done then x00 else x01).
  assert (Hpre : len pre = 4) by done. change (len [FuncUpload; st] <? 2) with false. cbv iota.
  change (idx [FuncUpload; st] 0) with (Ok FuncUpload). change (idx [FuncUpload; st] 1) with (Ok st).
  rewrite bind_Ok. change (FuncUpload ≠b FuncUpload) with false. cbv iota.
  rewrite length_app. if_arith. rewrite slice_Uint16 by lia.
  change (idx (pre ++ seg) 0) with (Ok (z2b (Z.shiftr (len seg) 8))).
  change (idx (pre ++ seg) (0 + 1)) with (Ok (z2b (len seg))).
  rewrite !bind_Ok, be16_put16, Z.mod_small by lia. if_arith.
  pose proof (slice_app_mid pre seg [] 4 (4 + len seg)) as Hs. rewrite app_nil_r in Hs.
  rewrite Hs by lia. rewrite bind_Ok. unfold st. by destruct done.
Qed.

(** ** Exchanges *)

Section Exchanges.
Context {W : Type} `{!Transport W}.
Variable ctx : Ctx.
Variable conn : Conn.

(** A session that sends requests of up to [n] bytes over [conn]. *)
Definition session_for (n : Z) (c : Client) : Prop :=
  c_conn c = Some conn /\ (c_pduSize c <= 0 \/ n <= c_pduSize c) /\ client_pduRef_ok c.

(** The request is written and its answer does not arrive. *)
Definition lost (req : bytes) (w : W) (e : error) (w' : W) : Prop :=
  exists w1 w2, t_WriteTSDU ctx conn req w = (inr tt, w1) /\ t_ctxErr ctx w1 = (None, w2) /\
    t_ReadTSDU ctx conn w2 = (inl e, w').

Hypothesis Hctx : is_nil ctx = false.

Lemma session_set_pduRef n c p : session_for n c -> client_pduRef_ok (set_pduRef p c) -> session_for n (set_pduRef p c).
Proof. by intros (? & ? & ?) ?. Qed.

Lemma session_exchange n c req ref (w : W) a w' :
  session_for n c -> len req <= n -> exchange ctx conn req w a w' ->
  sendReceive ctx req ref (c, w) = (sections a ref, (c, w')).
Proof. intros (Hc & Hs & _) Hl. apply sendReceive_exchange; [done..|lia]. Qed.

Lemma session_lost n c req ref (w : W) e w' :
  session_for n c -> len req <= n -> lost req w e w' ->
  sendReceive ctx req ref (c, w) = (Err e, (c, w')).
Proof.
  intros (Hc & Hs & _) Hl (w1 & w2 & Hw & He & Hr). unfold sendReceive.
  rewrite (bind_run_Ok _ _ _ (c, w) (c_conn c)) by done.
  rewrite (bind_run_Ok _ _ _ (c, w) (c_pduSize c)) by done. rewrite Hc.
  replace ((c_pduSize c >? 0) && (len req >? c_pduSize c)) with false by lia. cbv iota.
  rewrite (bind_run_Ok _ _ _ (c, w1) tt) by (unfold WriteTSDU, call; simpl; by rewrite Hw).
  rewrite (bind_run_Ok _ _ _ (c, w2) tt) by by apply check_ctx_ok.
  rewrite bind_run. unfold ReadTSDU, call. simpl. by rewrite Hr.
Qed.

Lemma session_nextPDURef n c (w : W) :
  session_for n c ->
  exists ref p, nextPDURef (c, w) = (Ok ref, (set_pduRef p c, w)) /\ valid_ref ref /\ session_for n (set_pduRef p c).
Proof.
  intros Hs. pose proof Hs as (_ & _ & Hp). destruct (nextPDURef_ok c w Hp) as (ref & p & Hn & Hr & Hp').
  exists ref, p. split; [done|]. split; [done|]. by apply session_set_pduRef.
Qed.

(** ** A response of several packets *)

Record packet := mkPacket { pk_seq : byte; pk_payload : bytes }.

Definition more_follows (ps : list packet) : bool := match ps with [] => false | _ => true end.

(** Follow-ups that quote the last sequence number are answered with the
    next packet, whatever their reference; the last one is marked so. *)
Inductive serves (group subfunc : byte) : byte -> list packet -> W -> W -> Prop :=
  | serves_done seq w : serves group subfunc seq [] w w
  | serves_next seq pk ps w w1 w2 :
      16 + len (pk_payload pk) <= MaxUint16 ->
      (forall ref, valid_ref ref ->
        exchange ctx conn (EncodeUserdataFollowUp ref group subfunc seq) w
          (userdata_answer ref group subfunc (pk_seq pk) (more_follows ps) (pk_payload pk)) w1) ->
      serves group subfunc (pk_seq pk) ps w1 w2 -> serves group subfunc seq (pk :: ps) w w2.

Definition payloads (ps : list packet) : bytes := mjoin (pk_payload <$> ps).

Lemma followUps_serves group subfunc seq ps (w w' : W) budget c payload :
  b2z group < 16 -> session_for 26 c -> serves group subfunc seq ps w w' ->
  exists r p w1, followUps budget ctx group subfunc (mkUserdataParam group subfunc seq (more_follows ps) 0) payload (c, w) =
      (r, (set_pduRef p c, w1)) /\
    if (length ps <=? budget)%nat
    then r = Ok (payload ++ payloads ps) /\ w1 = w'
    else exists e, r = Err e /\ errors_Is e ErrProtocolFailure = true.
Proof.
  intros Hg Hc Hs. revert budget c payload Hc.
  induction Hs as [seq w|seq pk ps w w1 w2 Hl Hx Hs IH]; intros budget c payload Hc.
  - exists (Ok payload), (c_pduRef c), w. split; [destruct budget; by destruct c|]. simpl. by rewrite app_nil_r.
  - destruct budget as [|budget].
    { eexists _, (c_pduRef c), w. split; [by destruct c|]. simpl. by eexists. }
    cbn [followUps ud_More more_follows negb ud_Sequence].
    destruct (session_nextPDURef 26 c w Hc) as (ref & p & Hn & Hr & Hc1). rewrite (bind_run_Ok _ _ _ _ _ Hn).
    rewrite (bind_run_Ok _ _ _ (set_pduRef p c, w1)
               (userdata_param group subfunc (pk_seq pk) (more_follows ps), userdata_data (pk_payload pk))).
    2: { etransitivity; [eapply (session_exchange 26); [exact Hc1 | | exact (Hx ref Hr)]; done|].
         by rewrite sections_userdata. }
    rewrite (bind_run_Ok _ _ _ (set_pduRef p c, w1) (inr (mkUserdataParam group subfunc (pk_seq pk) (more_follows ps) 0)))
      by by apply attempt_lift_Ok, ParseUserdataParam_answer.
    rewrite (bind_run_Ok _ _ _ (set_pduRef p c, w1) (pk_payload pk))
      by (apply lift_Ok, ParseUserdataData_answer; lia).
    destruct (IH budget (set_pduRef p c) (payload ++ pk_payload pk) Hc1) as (r & q & w3 & -> & Hres).
    exists r, q, w3. split; [done|]. simpl (_ <=? S budget)%nat.
    destruct (length ps <=? budget)%nat; [|done]. destruct Hres as [-> ->]. split; [|done].
    unfold payloads. change (mjoin (pk_payload <$> pk :: ps)) with (pk_payload pk ++ mjoin (pk_payload <$> ps)).
    by rewrite app_assoc.
Qed.

Lemma userdata_serves group subfunc req ref pk ps (w w1 w2 : W) c :
  b2z group < 16 -> session_for (Z.max 26 (len req)) c -> valid_ref ref ->
  16 + len (pk_payload pk) <= MaxUint16 ->
  exchange ctx conn req w (userdata_answer ref group subfunc (pk_seq pk) (more_follows ps) (pk_payload pk)) w1 ->
  serves group subfunc (pk_seq pk) ps w1 w2 ->
  exists r p w3, userdata ctx req ref group subfunc (c, w) = (r, (set_pduRef p c, w3)) /\
    if len ps <=? maxUserdataFollowUps
    then r = Ok (userdata_data (pk_payload pk), payloads (pk :: ps)) /\ w3 = w2
    else exists e, r = Err e /\ errors_Is e ErrProtocolFailure = true.
Proof.
  intros Hg Hc Hr Hl Hx Hs. unfold userdata.
  rewrite (bind_run_Ok _ _ _ (c, w1)
             (userdata_param group subfunc (pk_seq pk) (more_follows ps), userdata_data (pk_payload pk))).
  2: { etransitivity; [eapply session_exchange; [exact Hc | | exact Hx]; lia|]. by rewrite sections_userdata. }
  rewrite (bind_run_Ok _ _ _ (c, w1) (inr (mkUserdataParam group subfunc (pk_seq pk) (more_follows ps) 0)))
    by by apply attempt_lift_Ok, ParseUserdataParam_answer.
  rewrite (bind_run_Ok _ _ _ (c, w1) (pk_payload pk))
    by (apply lift_Ok, ParseUserdataData_answer; lia).
  assert (Hc26 : session_for 26 c) by (destruct Hc as (? & ? & ?); split; [done|]; split; [lia | done]).
  destruct (followUps_serves group subfunc (pk_seq pk) ps w1 w2 (Z.to_nat maxUserdataFollowUps) c
    (pk_payload pk) Hg Hc26 Hs) as (r & p & w3 & Hrun & Hres).
  replace (length ps <=? Z.to_nat maxUserdataFollowUps)%nat with (len ps <=? maxUserdataFollowUps) in Hres
    by (unfold maxUserdataFollowUps; lia).
  destruct (len ps <=? maxUserdataFollowUps).
  - destruct Hres as [-> ->]. rewrite (bind_run_Ok _ _ _ _ _ Hrun). by eexists _, p, _.
  - destruct Hres as (e & -> & He). rewrite bind_run, Hrun. eexists _, p, w3. split; [done|]. by exists e.
Qed.
(** ** An upload of several segments *)

(** A segment arrives within [tries] requests, the earlier ones being lost
    without a protocol error. *)
Inductive delivers (id : Z) (done : bool) (seg : bytes) : nat -> W -> W -> Prop :=
  | delivers_now tries w w0 w1 :
      t_ctxErr ctx w = (None, w0) ->
      (forall ref, valid_ref ref -> exchange ctx conn (EncodeUploadRequest ref id) w0 (upload_answer ref done seg) w1) ->
      delivers id done seg (S tries) w w1
  | delivers_later tries e w w0 w1 w2 :
      t_ctxErr ctx w = (None, w0) ->
      (forall ref, valid_ref ref -> lost (EncodeUploadRequest ref id) w0 e w1) ->
      isUploadProtocolError (Some e) = false ->
      delivers id done seg tries w1 w2 -> delivers id done seg (S tries) w w2.

Inductive uploads (id : Z) : list bytes -> W -> W -> Prop :=
  | uploads_last seg w w' :
      6 + len seg <= MaxUint16 -> delivers id true seg 3 w w' -> uploads id [seg] w w'
  | uploads_more seg segs w w1 w2 :
      6 + len seg <= MaxUint16 -> delivers id false seg 3 w w1 ->
      uploads id segs w1 w2 -> uploads id (seg :: segs) w w2.

Lemma uploadSegment_delivers id done seg tries (w w' : W) c i received lastErr :
  6 + len seg <= MaxUint16 -> session_for 18 c -> delivers id done seg tries w w' ->
  exists p, uploadSegment tries ctx id i received lastErr (c, w) =
      (Ok (mkUploadChunk done seg), (set_pduRef p c, w')) /\ session_for 18 (set_pduRef p c).
Proof.
  intros Hl Hc Hd. revert c lastErr Hc.
  induction Hd as [tries w w0 w1 He Hx|tries e w w0 w1 w2 He Hx Hp Hd IH]; intros c lastErr Hc; cbn [uploadSegment].
  - rewrite (bind_run_Ok _ _ _ (c, w0) tt) by by apply check_ctx_ok.
    destruct (session_nextPDURef 18 c w0 Hc) as (ref & p & Hn & Hr & Hc1). rewrite (bind_run_Ok _ _ _ _ _ Hn).
    assert (Hs : sendReceive ctx (EncodeUploadRequest ref id) ref (set_pduRef p c, w0) =
      (Ok ([FuncUpload; if done then x00 else x01], put16 (len seg) ++ [x00; xfb] ++ seg), (set_pduRef p c, w1))).
    { etransitivity; [eapply (session_exchange 18); [exact Hc1 | | exact (Hx ref Hr)]; done|].
      unfold valid_ref, MaxUint16 in *. rewrite (sections_ack ref x00 [FuncUpload; if done then x00 else x01]
        (put16 (len seg) ++ [x00; xfb] ++ seg) (upload_answer ref done seg)); try done.
      - unfold is_u16. lia.
      - unfold MaxUint16. rewrite !length_app, length_put16. simpl length. lia. }
    rewrite (bind_run_Ok _ _ _ _ _ (attempt_Ok _ _ _ _ Hs)).
    rewrite (bind_run_Ok _ _ _ (set_pduRef p c, w1) (inr (mkUploadChunk done seg)))
      by (apply attempt_lift_Ok, ParseUploadResponse_answer; lia).
    by exists p.
  - rewrite (bind_run_Ok _ _ _ (c, w0) tt) by by apply check_ctx_ok.
    destruct (session_nextPDURef 18 c w0 Hc) as (ref & p & Hn & Hr & Hc1). rewrite (bind_run_Ok _ _ _ _ _ Hn).
    assert (Hs : sendReceive ctx (EncodeUploadRequest ref id) ref (set_pduRef p c, w0) = (Err e, (set_pduRef p c, w1))).
    { eapply (session_lost 18); [exact Hc1 | | exact (Hx ref Hr)]; done. }
    rewrite (bind_run_Ok _ _ _ _ _ (attempt_Err _ _ _ _ Hs)), Hp.
    destruct (IH (set_pduRef p c) (Some e) Hc1) as (q & Hrun & Hq). rewrite Hrun. by exists q.
Qed.

Lemma uploadLoop_uploads id segs (w w' : W) chunks c i payload count :
  session_for 18 c -> uploads id segs w w' -> (length segs <= chunks)%nat -> 0 <= count ->
  exists p count', uploadLoop chunks ctx id i payload count (c, w) =
    (Ok (payload ++ mjoin segs, count'), (set_pduRef p c, w')) /\ client_pduRef_ok (set_pduRef p c).
Proof.
  intros Hc Hu. revert chunks c i payload count Hc.
  induction Hu as [seg w w' Hl Hd|seg segs w w1 w2 Hl Hd Hu IH]; intros chunks c i payload count Hc Hn Hcount;
    (destruct chunks as [|chunks]; [simpl in Hn; lia|]); cbn [uploadLoop];
    change (Z.to_nat maxUploadRetries) with 3%nat;
    destruct (uploadSegment_delivers _ _ _ _ _ _ c i (len payload) None Hl Hc Hd) as (p & Hrun & Hp);
    rewrite (bind_run_Ok _ _ _ _ _ Hrun); cbn [uc_Data uc_Done].
  - assert (Hp' : (payload ++ seg = if len seg >? 0 then payload ++ seg else payload)).
    { case_if; [done|]. b2p. destruct seg; [by rewrite app_nil_r | simpl in *; lia]. }
    exists p, (if len seg >? 0 then count + 1 else count). change (mjoin [seg]) with (seg ++ []).
    rewrite app_nil_r, Hp'. split; [by case_if|]. by destruct Hp as (_ & _ & ?).
  - assert (Hp' : (if len seg >? 0 then (payload ++ seg, count + 1) else (payload, count)) =
                  (payload ++ seg, if len seg >? 0 then count + 1 else count)).
    { case_if; [done|]. b2p. destruct seg; [by rewrite app_nil_r | simpl in *; lia]. }
    rewrite Hp'. destruct (IH chunks (set_pduRef p c) (i + 1) (payload ++ seg)
      (if len seg >? 0 then count + 1 else count)) as (q & count' & Hrun' & Hq); [done | simpl in Hn; lia | case_if; lia|].
    exists q, count'. rewrite Hrun'. change (mjoin (seg :: segs)) with (seg ++ mjoin segs). by rewrite app_assoc.
Qed.
Lemma UploadBlock_uploads bt num id announced segs (w w1 w2 : W) c :
  answers_fit (W := W) -> session_for 28 c -> validBlockType bt = true -> 0 <= num <= 65535 ->
  is_u32 id -> len announced <= 255 ->
  (forall ref start, valid_ref ref -> EncodeStartUploadRequest ref bt num = Ok start ->
     exchange ctx conn start w (start_answer ref id announced) w1) ->
  uploads id segs w1 w2 -> len segs <= maxUploadChunks -> mjoin segs <> [] ->
  exists st', UploadBlock ctx bt num (c, w) = (Ok (mkBlockData (listed_block bt num x00 x00) (mjoin segs)), st').
Proof.
  intros Hfit Hc Hbt Hnum Hid Hann Hstart Hu Hn Hne. unfold UploadBlock. if_arith.
  destruct (session_nextPDURef 28 c w Hc) as (ref & p & Hr & Href & Hc1). rewrite (bind_run_Ok _ _ _ _ _ Hr).
  destruct (EncodeStartUploadRequest ref bt num) as [start|e|] eqn:Es.
  2, 3: unfold EncodeStartUploadRequest in Es; rewrite blockAddress_ok in Es by (try done; unfold MaxUploadBlockNumber; lia);
    rewrite bind_Ok in Es; cbv zeta in Es; rewrite encodeMessage_ok in Es by (unfold MaxUint16; simpl length; lia); done.
  rewrite (bind_run_Ok _ _ _ (set_pduRef p c, w) (inr start)) by by apply attempt_lift_Ok.
  set (param := [FuncUploadStart; x00; x00; x00] ++ put32 id ++ [z2b (len announced)] ++ announced).
  rewrite (bind_run_Ok _ _ _ (set_pduRef p c, w1) (param, [])).
  2: { etransitivity; [eapply (session_exchange 28); [exact Hc1 | | by apply Hstart]|].
       { apply length_EncodeStartUploadRequest in Es. lia. }
       unfold valid_ref, MaxUint16 in *. rewrite (sections_ack ref x00 param [] (start_answer ref id announced)); try done.
       - unfold is_u16. lia.
       - unfold MaxUint16, param. rewrite !length_app, length_put32. simpl length. lia. }
  rewrite (bind_run_Ok _ _ _ (set_pduRef p c, w1) (inr (mkStartUpload id (default (-1) (Atoi announced)))))
    by by apply attempt_lift_Ok, ParseStartUploadResponse_answer.
  cbn [su_UploadID].
  assert (Hc18 : session_for 18 (set_pduRef p c)) by (destruct Hc1 as (? & ? & ?); split; [done|]; split; [lia | done]).
  assert (Hbody : exists q, uploadBody ctx bt num id (set_pduRef p c, w1) =
    (Ok (mkBlockData (listed_block bt num x00 x00) (mjoin segs)), (set_pduRef q c, w2)) /\ client_pduRef_ok (set_pduRef q c)).
  { unfold uploadBody.
    destruct (uploadLoop_uploads id segs w1 w2 (Z.to_nat maxUploadChunks) (set_pduRef p c) 0 [] 0) as (q & count & Hrun & Hq);
      [done..|lia|lia|]. rewrite (bind_run_Ok _ _ _ _ _ Hrun). exists q. split; [|done].
    simpl (_ ++ _). replace (len (mjoin segs) =? 0) with false; [done|].
    destruct (mjoin segs); [done | simpl length; lia]. }
  destruct Hbody as (q & Hbody & Hq). unfold with_defer. rewrite Hbody.
  destruct (endUpload id (set_pduRef q c, w2)) as [r st'] eqn:Ee.
  destruct (safe_run _ _ _ (set_pduRef q c, w2) _ _ (ok_endUpload Hfit ctx Hctx id) Hq Ee) as (Hok & _).
  destruct r; [by exists st'..|done].
Qed.
End Exchanges.

(** ** A concrete CPU *)

(** The last request, the packets of the next user data response and the
    segments of the block, each with the mark of an answer that gets lost. *)
Record Cpu := mkCpu { cpu_req : bytes; cpu_packets : list packet; cpu_segments : list (bool * bytes) }.

Definition byte_of (l : bytes) (i : nat) : byte := default x00 (l !! i).

Definition cpu_answer (w : Cpu) : (error + bytes) * Cpu :=
  let req := cpu_req w in
  let ref := be16 (byte_of req 4) (byte_of req 5) in
  let idle := mkCpu [] (cpu_packets w) (cpu_segments w) in
  if byte_of req 1 =b ROSCTRUserdata then
    match cpu_packets w with
    | [] => (inl (External true "i/o timeout"), idle)
    | pk :: ps =>
        (inr (userdata_answer ref (z2b (Z.land (b2z (byte_of req 15)) 15)) (byte_of req 16) (pk_seq pk)
                (more_follows ps) (pk_payload pk)), mkCpu [] ps (cpu_segments w))
    end
  else if byte_of req 10 =b FuncUploadStart then (inr (start_answer ref 7 [x30; x39]), idle)
  else if byte_of req 10 =b FuncUpload then
    match cpu_segments w with
    | [] => (inl (External true "i/o timeout"), idle)
    | (lost, seg) :: segs =>
        (if lost : bool then inl (External true "i/o timeout")
         else inr (upload_answer ref (match segs with [] => true | _ => false end) seg),
         mkCpu [] (cpu_packets w) segs)
    end
  else (inr (s7Header ROSCTRAckData ref 1 0 ++ [x00; x00] ++ [FuncUploadEnd]), idle).

(** What the receiver's buffer holds of an answer. *)
Definition received (r : (error + bytes) * Cpu) : (error + bytes) * Cpu :=
  match r with (inr a, w) => (inr (take (Z.to_nat maxTSDU) a), w) | _ => r end.

#[export] Instance cpu_transport : Transport Cpu := {|
  t_dial _ _ _ w := (inr 0, w);
  t_cotpConnect _ _ _ _ _ w := (inr 7, w);
  t_WriteTSDU _ _ req w := (inr tt, mkCpu req (cpu_packets w) (cpu_segments w));
  t_ReadTSDU _ _ w := received (cpu_answer w);
  t_Close _ w := (None, w);
  t_ctxErr _ w := (None, w);
  t_wait _ _ w := (false, w);
  t_duration _ := ""
|}.

Lemma cpu_answers_fit : answers_fit (W := Cpu).
Proof.
  intros ctx conn w a w'. simpl. destruct (cpu_answer w) as [[e|b] w1]; [done|]. intros [= <- _].
  unfold maxTSDU. rewrite length_take. lia.
Qed.

Lemma cpu_read (w w' : Cpu) a : cpu_answer w = (inr a, w') -> len a <= maxTSDU -> received (cpu_answer w) = (inr a, w').
Proof. intros -> Ha. simpl. rewrite take_ge; [done|]. lia. Qed.

(** A connected client. *)
Definition cpu_client : Client := set_connection (Some 7) 0 1 256 769 240 1 1 (New "plc" []).

Lemma cpu_session n : n <= 240 -> session_for 7 n cpu_client.
Proof. intros. split; [done|]. split; [simpl; lia|]. unfold client_pduRef_ok, is_u32. simpl. lia. Qed.

Lemma be16_ref ref : valid_ref ref -> be16 (z2b (Z.shiftr ref 8)) (z2b ref) = ref.
Proof. unfold valid_ref, MaxUint16. intros. rewrite be16_put16, Z.mod_small; lia. Qed.

(** The answer arrives whole when it is short enough. *)
Lemma cpu_exchange ctx conn req ps segs a ps' segs' :
  cpu_answer (mkCpu req ps segs) = (inr a, mkCpu [] ps' segs') -> len a <= maxTSDU ->
  exchange ctx conn req (mkCpu [] ps segs) a (mkCpu [] ps' segs').
Proof.
  intros Ha Hl. exists (mkCpu req ps segs), (mkCpu req ps segs). split; [done|]. split; [done|].
  by apply cpu_read.
Qed.

Lemma length_userdata_answer ref group subfunc seq more payload :
  len (userdata_answer ref group subfunc seq more payload) = 26 + len payload.
Proof. unfold userdata_answer, userdata_param, userdata_data. rewrite !length_app. simpl length. lia. Qed.

Lemma length_upload_answer ref done seg : len (upload_answer ref done seg) = 18 + len seg.
Proof. unfold upload_answer. rewrite !length_app. simpl length. lia. Qed.

Lemma cpu_serves ctx group subfunc seq ps segs :
  b2z group < 16 -> Forall (fun pk => 16 + len (pk_payload pk) <= MaxUint16) ps ->
  serves ctx 7 group subfunc seq ps (mkCpu [] ps segs) (mkCpu [] [] segs).
Proof.
  intros Hg HF. revert seq. induction ps as [|pk ps IH]; intros seq; [constructor|].
  apply Forall_cons in HF as [Hl HF]. eapply serves_next; [done | | by apply IH].
  intros ref Hr. apply cpu_exchange.
  - unfold cpu_answer. cbn [cpu_req cpu_packets cpu_segments].
    change (byte_of (EncodeUserdataFollowUp ref group subfunc seq) 1) with x07.
    change (byte_of (EncodeUserdataFollowUp ref group subfunc seq) 4) with (z2b (Z.shiftr ref 8)).
    change (byte_of (EncodeUserdataFollowUp ref group subfunc seq) 5) with (z2b ref).
    change (byte_of (EncodeUserdataFollowUp ref group subfunc seq) 15) with (type_group UserdataTypeRequest group).
    change (byte_of (EncodeUserdataFollowUp ref group subfunc seq) 16) with subfunc.
    change (x07 =b ROSCTRUserdata) with true. cbv iota. by rewrite be16_ref, type_group_group.
  - rewrite length_userdata_answer. unfold maxTSDU, MaxUint16 in *. lia.
Qed.

Lemma cpu_first ctx group subfunc ref data pk ps segs :
  b2z group < 16 -> len data <= MaxUint16 -> valid_ref ref -> 16 + len (pk_payload pk) <= MaxUint16 ->
  exchange ctx 7 (userdataRequest ref group subfunc data) (mkCpu [] (pk :: ps) segs)
    (userdata_answer ref group subfunc (pk_seq pk) (more_follows ps) (pk_payload pk)) (mkCpu [] ps segs).
Proof.
  intros Hg Hd Hr Hl. rewrite userdataRequest_eq by done. apply cpu_exchange.
  - unfold cpu_answer. cbn [cpu_req cpu_packets cpu_segments].
    set (req := s7Header _ _ _ _ ++ _).
    change (byte_of req 1) with x07. change (byte_of req 4) with (z2b (Z.shiftr ref 8)).
    change (byte_of req 5) with (z2b ref). change (byte_of req 15) with (type_group UserdataTypeRequest group).
    change (byte_of req 16) with subfunc. change (x07 =b ROSCTRUserdata) with true. cbv iota.
    by rewrite be16_ref, type_group_group.
  - rewrite length_userdata_answer. unfold maxTSDU, MaxUint16 in *. lia.
Qed.

(** A segment, preceded by lost ones. *)
Lemma cpu_delivers ctx id ps seg segs lost tries :
  18 + len seg <= maxTSDU -> (lost < tries)%nat ->
  delivers ctx 7 id (match segs with [] => true | _ => false end) seg tries
    (mkCpu [] ps (replicate lost (true, seg) ++ (false, seg) :: segs)) (mkCpu [] ps segs).
Proof.
  intros Hl. revert tries. induction lost as [|k IH]; intros tries Ht; (destruct tries as [|tries]; [lia|]).
  - eapply delivers_now; [done|]. intros ref Hr. apply cpu_exchange.
    + unfold cpu_answer. cbn [cpu_req cpu_packets cpu_segments replicate app].
      change (byte_of (EncodeUploadRequest ref id) 1) with x01.
      change (byte_of (EncodeUploadRequest ref id) 4) with (z2b (Z.shiftr ref 8)).
      change (byte_of (EncodeUploadRequest ref id) 5) with (z2b ref).
      change (byte_of (EncodeUploadRequest ref id) 10) with FuncUpload.
      change (x01 =b ROSCTRUserdata) with false. change (FuncUpload =b FuncUploadStart) with false.
      change (FuncUpload =b FuncUpload) with true. cbv iota. by rewrite be16_ref.
    + by rewrite length_upload_answer.
  - eapply delivers_later; [done | | |apply (IH tries); lia].
    + intros ref Hr. eexists _, _. split; [done|]. split; [done|]. simpl.
      unfold received, cpu_answer. cbn [cpu_req cpu_packets cpu_segments replicate app].
      change (byte_of (EncodeUploadRequest ref id) 1) with x01.
      change (byte_of (EncodeUploadRequest ref id) 10) with FuncUpload.
      change (x01 =b ROSCTRUserdata) with false. change (FuncUpload =b FuncUploadStart) with false.
      change (FuncUpload =b FuncUpload) with true. cbv iota. done.
    + done.
Qed.

Lemma cpu_start ctx bt num ps segs ref start :
  valid_ref ref -> EncodeStartUploadRequest ref bt num = Ok start ->
  exchange ctx 7 start (mkCpu [] ps segs) (start_answer ref 7 [x30; x39]) (mkCpu [] ps segs).
Proof.
  intros Hr Hs. unfold EncodeStartUploadRequest in Hs. apply bind_Ok_inv in Hs as (addr & _ & Hs). cbv zeta in Hs.
  apply encodeMessage_inv in Hs as (_ & _ & ->). apply cpu_exchange; [|vm_compute; discriminate].
  unfold cpu_answer. cbn [cpu_req cpu_packets cpu_segments]. set (req := s7Header _ _ _ _ ++ _).
  change (byte_of req 1) with x01. change (byte_of req 4) with (z2b (Z.shiftr ref 8)).
  change (byte_of req 5) with (z2b ref). change (byte_of req 10) with FuncUploadStart.
  change (x01 =b ROSCTRUserdata) with false. change (FuncUploadStart =b FuncUploadStart) with true.
  cbv iota. by rewrite be16_ref.
Qed.
