(* ===== verification/Peer.v ===== *)
(** * What a client relies on: the memory-peer interface

    [S7Peer W] states what a server promises over a transport: each Read Var
    or Write Var request on a live connection is answered from one memory,
    as [read_answer] and [write_outcome] say; [S7Reader] is the part of it that
    reading needs.  The theorems about the chunked
    reads and writes of the client are proved against the interface; the
    session handler discharges it in [Loopback]. *)

From S2P Require Import Prelude Go WireErrors Header ReadWrite ServerCodec Memory Session Client ClientRW.

(** ** The abstract memory service *)

(** A byte read of an area: its bytes, or the item code that refuses it. *)
Definition read_outcome (m : memory) (addr : S7AnyAddress) : bytes + byte :=
  match keyOf (Area addr) (DBNumber addr) with
  | Ok k =>
      match m !! k with
      | None => inr RetCodeNotAvailable
      | Some _ =>
          if timerOrCounter (Area addr) then inr RetCodeAddressFault
          else match bytes_at m k (Start addr) (Size addr) with
               | Some b => inl b
               | None => inr RetCodeAddressFault
               end
      end
  | _ => inr RetCodeNotAvailable
  end.

Definition read_answer (m : memory) (addr : S7AnyAddress) : ReadVarResult :=
  match read_outcome m addr with
  | inl b => mkReadVarResult RetCodeSuccess DataTransportSizeByte (len b * 8) b
  | inr code => refused code
  end.

(** A byte write: the item code and the memory after it. *)
Definition write_outcome (m : memory) (addr : S7AnyAddress) (value : bytes) (code : byte) (m' : memory) : Prop :=
  match read_outcome m addr with
  | inr c => code = c /\ m' = m
  | inl _ =>
      exists k r, keyOf (Area addr) (DBNumber addr) = Ok k /\ m !! k = Some r /\
        if readOnly r then code = RetCodeAccessFault /\ m' = m
        else code = RetCodeSuccess /\ overwritten m m' k (Start addr) value
  end.

(** A bit read. *)
Definition bit_outcome (m : memory) (addr : S7AnyBitAddress) : bool + byte :=
  match keyOf (BitArea addr) (BitDBNumber addr) with
  | Ok k =>
      match m !! k with
      | None => inr RetCodeNotAvailable
      | Some _ =>
          if timerOrCounter (BitArea addr) then inr RetCodeAddressFault
          else match byte_at m k (Z.to_nat (ByteOffset addr)) with
               | Some b => inl (Z.testbit (b2z b) (BitOffset addr))
               | None => inr RetCodeAddressFault
               end
      end
  | _ => inr RetCodeNotAvailable
  end.

Definition bit_answer (m : memory) (addr : S7AnyBitAddress) : ReadVarResult :=
  match bit_outcome m addr with
  | inl v => mkReadVarResult RetCodeSuccess DataTransportSizeBit 1 [if v then x01 else x00]
  | inr code => refused code
  end.

Definition write_bit_outcome (m : memory) (addr : S7AnyBitAddress) (value : bool) (code : byte) (m' : memory) : Prop :=
  match bit_outcome m addr with
  | inr c => code = c /\ m' = m
  | inl _ =>
      exists k r, keyOf (BitArea addr) (BitDBNumber addr) = Ok k /\ m !! k = Some r /\
        if readOnly r then code = RetCodeAccessFault /\ m' = m
        else code = RetCodeSuccess /\
             bit_written m m' k (Z.to_nat (ByteOffset addr)) (BitOffset addr) value
  end.

(** Answers of one item. *)
Definition ack_read (ref : Z) (r : ReadVarResult) : bytes :=
  s7Header ROSCTRAckData ref 2 (len (readVarData [r])) ++ [x00; x00] ++ [FuncReadVar; x01] ++ readVarData [r].

Definition ack_write (ref : Z) (code : byte) : bytes :=
  s7Header ROSCTRAckData ref 2 1 ++ [x00; x00] ++ [FuncWriteVar; x01] ++ [code].

(** ** The interface *)

(** What reading relies on. *)
Class S7Reader (W : Type) `{!Transport W} := {
  peer_memory : W -> memory;
  peer_pdu : Conn -> W -> Z;
  (** the connection is up and the context will not end it *)
  live : Ctx -> Conn -> W -> Prop;

  live_not_nil : forall ctx conn w, live ctx conn w -> is_nil ctx = false;
  live_ctxErr : forall ctx conn w, live ctx conn w ->
    exists w', t_ctxErr ctx w = (None, w') /\ live ctx conn w' /\
      peer_memory w' = peer_memory w /\ peer_pdu conn w' = peer_pdu conn w;
  live_wait : forall ctx conn w d, live ctx conn w ->
    exists w', t_wait ctx d w = (false, w') /\ live ctx conn w' /\
      peer_memory w' = peer_memory w /\ peer_pdu conn w' = peer_pdu conn w;

  peer_read : forall ctx conn w ref addr req, live ctx conn w ->
    1 <= ref <= MaxUint16 -> 1 <= Size addr -> 18 + Size addr <= peer_pdu conn w ->
    EncodeReadVarRequest ref [addr] = Ok req ->
    exists w', exchange ctx conn req w (ack_read ref (read_answer (peer_memory w) addr)) w' /\
      live ctx conn w' /\ peer_memory w' = peer_memory w /\ peer_pdu conn w' = peer_pdu conn w;

  peer_read_bit : forall ctx conn w ref addr req, live ctx conn w ->
    1 <= ref <= MaxUint16 -> 19 <= peer_pdu conn w ->
    EncodeReadVarBitRequest ref addr = Ok req ->
    exists w', exchange ctx conn req w (ack_read ref (bit_answer (peer_memory w) addr)) w' /\
      live ctx conn w' /\ peer_memory w' = peer_memory w /\ peer_pdu conn w' = peer_pdu conn w;
}.

(** And writing. *)
Class S7Peer (W : Type) `{!Transport W} := {
  peer_reader :: S7Reader W;

  peer_write : forall ctx conn w ref addr value req, live ctx conn w ->
    1 <= ref <= MaxUint16 -> 1 <= len value -> Size addr = len value ->
    EncodeWriteVarRequest ref addr value = Ok req ->
    exists w' code, exchange ctx conn req w (ack_write ref code) w' /\
      live ctx conn w' /\ peer_pdu conn w' = peer_pdu conn w /\
      write_outcome (peer_memory w) addr value code (peer_memory w');

  peer_write_bit : forall ctx conn w ref addr value req, live ctx conn w ->
    1 <= ref <= MaxUint16 ->
    EncodeWriteVarBitRequest ref addr value = Ok req ->
    exists w' code, exchange ctx conn req w (ack_write ref code) w' /\
      live ctx conn w' /\ peer_pdu conn w' = peer_pdu conn w /\
      write_bit_outcome (peer_memory w) addr value code (peer_memory w');
}.

(** ** Memory algebra of chunked accesses *)

Lemma bytes_at_split m k s n1 n2 b :
  0 <= n1 -> 0 <= n2 -> bytes_at m k s (n1 + n2) = Some b ->
  exists b1 b2, b = b1 ++ b2 /\ bytes_at m k s n1 = Some b1 /\ bytes_at m k (s + n1) n2 = Some b2.
Proof.
  intros H1 H2 H. apply bytes_at_Some in H as (r & Hr & H).
  apply slice_Ok_inv in H as (Hs & Hl & _ & ->).
  exists (take (Z.to_nat n1) (drop (Z.to_nat s) (data r))),
         (take (Z.to_nat n2) (drop (Z.to_nat (s + n1)) (data r))).
  split_and!.
  - replace (Z.to_nat (s + (n1 + n2) - s)) with (Z.to_nat n1 + Z.to_nat n2)%nat by lia.
    rewrite <- take_take_drop, drop_drop. do 3 f_equal. lia.
  - apply bytes_at_Some. exists r. split; [done|]. rewrite slice_ok by lia. do 3 f_equal. lia.
  - apply bytes_at_Some. exists r. split; [done|]. rewrite slice_ok by lia. do 3 f_equal. lia.
Qed.

Lemma bytes_at_byte_at m k s n b (i : nat) :
  bytes_at m k s n = Some b -> s <= Z.of_nat i < s + n ->
  byte_at m k i = b !! Z.to_nat (Z.of_nat i - s).
Proof.
  intros H Hi. apply bytes_at_Some in H as (r & Hr & H). apply slice_Ok_inv in H as (Hs & Hl & _ & ->).
  unfold byte_at. rewrite Hr. simpl. rewrite lookup_take_lt by lia. rewrite lookup_drop. f_equal. lia.
Qed.

(** A span is determined by its bytes and the shape of the memory. *)
Lemma bytes_at_intro m m0 k s b :
  shape m = shape m0 -> 0 <= s -> (exists r, m0 !! k = Some r /\ s + len b <= len (data r)) ->
  (forall i : nat, s <= Z.of_nat i < s + len b -> byte_at m k i = b !! Z.to_nat (Z.of_nat i - s)) ->
  bytes_at m k s (len b) = Some b.
Proof.
  intros Hsh Hs (r & Hr & Hl) Hb. destruct (shape_lookup _ _ _ _ Hsh Hr) as (r' & Hr' & Hlen & _).
  apply bytes_at_Some. exists r'. split; [done|]. rewrite slice_ok by lia. f_equal.
  apply list_eq. intros i. destruct (decide (i < length b)%nat).
  - rewrite lookup_take_lt by lia. rewrite lookup_drop.
    pose proof (Hb (Z.to_nat s + i)%nat ltac:(lia)) as Hb'.
    unfold byte_at in Hb'. rewrite Hr' in Hb'. simpl in Hb'. rewrite Hb'. f_equal. lia.
  - rewrite (lookup_ge_None_2 b) by lia. apply lookup_ge_None_2. rewrite length_take. lia.
Qed.

Lemma overwritten_trans m m1 m2 k s d1 d2 :
  overwritten m m1 k s d1 -> overwritten m1 m2 k (s + len d1) d2 -> overwritten m m2 k s (d1 ++ d2).
Proof.
  intros (Hs1 & Hb1 & Hf1) (Hs2 & Hb2 & Hf2).
  assert (H0 : 0 <= s) by (apply bytes_at_len in Hb1; lia).
  split_and!; [congruence | |].
  - pose proof Hb2 as Hb2'. apply bytes_at_Some in Hb2' as (r & Hr & Hsl).
    apply slice_Ok_inv in Hsl as (_ & Hl & _).
    apply (bytes_at_intro m2 m2); [done | done | exists r; rewrite length_app; split; [done|lia] |].
    intros i Hi. rewrite length_app in Hi. destruct (Z.ltb_spec (Z.of_nat i) (s + len d1)).
    + rewrite lookup_app_l by lia. rewrite (Hf2 k i) by lia. apply (bytes_at_byte_at _ _ _ (len d1)); [done | lia].
    + rewrite lookup_app_r by lia. rewrite (bytes_at_byte_at _ _ _ _ _ i Hb2) by lia. f_equal. lia.
  - intros k' i Hi. rewrite length_app in Hi.
    rewrite Hf2; [apply Hf1|]; destruct Hi as [?|?]; auto; right; lia.
Qed.

Lemma overwritten_nil m k r s :
  m !! k = Some r -> 0 <= s <= len (data r) -> overwritten m m k s [].
Proof.
  intros Hr Hs. split_and!; [done | | done]. apply bytes_at_Some. exists r. split; [done|].
  simpl length. rewrite Z.add_0_r, slice_ok by lia. by rewrite Z.sub_diag.
Qed.

Lemma write_outcome_shape m addr value code m' :
  write_outcome m addr value code m' -> shape m' = shape m.
Proof.
  unfold write_outcome. destruct (read_outcome m addr); [|by intros [_ ->]].
  intros (k & r & _ & _ & H). destruct (readOnly r); [by destruct H as [_ ->] | apply H].
Qed.

Lemma write_bit_outcome_shape m addr value code m' :
  write_bit_outcome m addr value code m' -> shape m' = shape m.
Proof.
  unfold write_bit_outcome. destruct (bit_outcome m addr); [|by intros [_ ->]].
  intros (k & r & _ & _ & H). destruct (readOnly r); [by destruct H as [_ ->] | apply H].
Qed.

(** ** The client over a peer *)

Section OverReader.
Context {W : Type} `{!Transport W} `{!S7Reader W}.

(** The connection stays up and nothing changes at the peer. *)
Definition stays (ctx : Ctx) (conn : Conn) (w w' : W) : Prop :=
  live ctx conn w' /\ peer_memory w' = peer_memory w /\ peer_pdu conn w' = peer_pdu conn w.

(** A connected client: its PDU size is the one the peer granted. *)
Definition connected (ctx : Ctx) (conn : Conn) (c : Client) (w : W) : Prop :=
  c_conn c = Some conn /\ c_pduSize c = peer_pdu conn w /\ client_pduRef_ok c /\ live ctx conn w.

(** The client only advances its reference counter. *)
Definition advanced (c c' : Client) : Prop := exists p, c' = set_pduRef p c.

#[export] Instance advanced_trans : Transitive advanced.
Proof. intros c1 c2 c3 [p ->] [q ->]. by exists q. Qed.

#[export] Instance advanced_refl : Reflexive advanced.
Proof. intros c. exists (c_pduRef c). by destruct c. Qed.

Lemma check_ctx_live ctx conn c w :
  live ctx conn w -> exists w', check_ctx ctx (c, w) = (Ok tt, (c, w')) /\ stays ctx conn w w'.
Proof.
  intros H. destruct (live_ctxErr _ _ _ H) as (w' & He & Hst). exists w'. split; [|done].
  apply check_ctx_ok; [by eapply live_not_nil | done].
Qed.

Lemma ctx_Err_live ctx conn c w :
  live ctx conn w -> exists w', ctx_Err ctx (c, w) = (Ok None, (c, w')) /\ stays ctx conn w w'.
Proof.
  intros H. destruct (live_ctxErr _ _ _ H) as (w' & He & Hst). exists w'. split; [|done].
  unfold ctx_Err, observe. rewrite (live_not_nil _ _ _ H). simpl. by rewrite He.
Qed.

Lemma pace_live ctx conn rate first c w :
  live ctx conn w -> exists w', pace ctx rate first (c, w) = (Ok false, (c, w')) /\ stays ctx conn w w'.
Proof.
  intros H. unfold pace. case_if.
  - destruct (live_wait _ _ _ rate H) as (w' & Hw & Hst). exists w'. split; [|done].
    rewrite (live_not_nil _ _ _ H). unfold observe. simpl. by rewrite Hw.
  - exists w. by split_and!.
Qed.

Lemma stays_trans ctx conn w1 w2 w3 :
  stays ctx conn w1 w2 -> stays ctx conn w2 w3 -> stays ctx conn w1 w3.
Proof. intros (_ & ? & ?) (? & ? & ?). split_and!; [done | congruence..]. Qed.

Lemma connected_stays ctx conn c w w' :
  connected ctx conn c w -> stays ctx conn w w' -> connected ctx conn c w'.
Proof. intros (? & ? & ? & _) (? & _ & ?). split_and!; [done | congruence | done | done]. Qed.

Lemma connected_set_pduRef ctx conn c w p :
  connected ctx conn c w -> client_pduRef_ok (set_pduRef p c) -> connected ctx conn (set_pduRef p c) w.
Proof. intros (? & ? & _ & ?) ?. by split_and!. Qed.

Lemma read_outcome_bytes m addr k b :
  keyOf (Area addr) (DBNumber addr) = Ok k -> timerOrCounter (Area addr) = false ->
  bytes_at m k (Start addr) (Size addr) = Some b -> read_outcome m addr = inl b.
Proof.
  intros Hk Ht Hb. unfold read_outcome. rewrite Hk, Ht, Hb.
  apply bytes_at_Some in Hb as (r & -> & _). done.
Qed.

Lemma read_outcome_len m addr b : read_outcome m addr = inl b -> len b = Size addr.
Proof.
  unfold read_outcome. destruct (keyOf _ _) as [k| |]; [|done..]. destruct (m !! k); [|done].
  case_if; [done|]. destruct (bytes_at m k _ _) eqn:E; [|done]. intros [= <-].
  by apply bytes_at_len in E as [? _].
Qed.

Lemma read_outcome_code m addr code : read_outcome m addr = inr code -> code <> RetCodeSuccess.
Proof.
  unfold read_outcome. repeat (match goal with
    | |- context [match ?x with _ => _ end] => destruct x end; try done); by intros [= <-].
Qed.

Lemma read_answer_ok m addr :
  Size addr <= 8191 -> result_ok (read_answer m addr).
Proof.
  intros Hs. unfold read_answer. destruct (read_outcome m addr) as [b|code] eqn:E.
  - apply read_outcome_len in E. unfold result_ok, is_u16. simpl. split_and!; [lia | lia | | done].
    intros _. unfold NormalizeResponseDataLength. simpl. f_equal. Z.div_mod_to_equations. lia.
  - apply result_ok_refused. by eapply read_outcome_code.
Qed.

(** The client parses a one-item answer back to its item. *)
Lemma sections_ack_read ref r :
  1 <= ref <= MaxUint16 -> result_ok r -> len (RData r) <= 8191 ->
  exists param dat, sections (ack_read ref r) ref = Ok (param, dat) /\
    ParseReadVarResponse param dat = Ok [item_of r].
Proof.
  unfold MaxUint16. intros Href Hok Hl. exists [FuncReadVar; x01], (readVarData [r]).
  assert (Hd : len (readVarData [r]) = 4 + len (RData r)).
  { rewrite len_readVarData_cons. simpl. lia. }
  split.
  - eapply (sections_ack _ x00); [unfold is_u16; lia | done | done |].
    rewrite Hd. unfold MaxUint16. simpl length. lia.
  - apply (ParseReadVarResponse_data [r]); [by constructor | simpl; lia].
Qed.

(** One chunk of a read. *)
Lemma readChunks_step ctx conn c w addr reqLen rate n chunks offset result first :
  connected ctx conn c w -> 1 <= n -> n <= 8191 ->
  ReadVarRequestOverhead + n <= peer_pdu conn w ->
  s7any_in_range (mkS7AnyAddress (a_Area addr) (a_DBNumber addr) offset n) ->
  exists c' w', advanced c c' /\ connected ctx conn c' w' /\ stays ctx conn w w' /\
    readChunks ctx addr reqLen rate (n :: chunks) offset result first (c, w) =
    match read_outcome (peer_memory w) (mkS7AnyAddress (a_Area addr) (a_DBNumber addr) offset n) with
    | inl b => readChunks ctx addr reqLen rate chunks (offset + n) (result ++ b) false (c', w')
    | inr code =>
        (Ok (partial ReadStatusRejected reqLen result (ItemReturnCodeString code) None
               (ItemReturnCodeString code) code), (c', w'))
    end.
Proof.
  intros Hc Hn Hn' Hpdu Hr. change ReadVarRequestOverhead with 24 in Hpdu. cbn [readChunks].
  set (s7 := mkS7AnyAddress _ _ _ _) in *.
  destruct (ctx_Err_live ctx conn c w) as (w1 & E1 & S1); [apply Hc|].
  rewrite (bind_run_Ok _ _ _ _ _ E1). cbv iota.
  destruct (pace_live ctx conn rate first c w1) as (w2 & E2 & S2); [apply S1|].
  rewrite (bind_run_Ok _ _ _ _ _ E2). cbv iota.
  pose proof (stays_trans _ _ _ _ _ S1 S2) as S12. pose proof (connected_stays _ _ _ _ _ Hc S12) as Hc2.
  destruct (nextPDURef_ok c w2) as (ref & p & E3 & Href & Hp); [apply Hc2|].
  rewrite (bind_run_Ok _ _ _ _ _ E3). set (c' := set_pduRef p c) in *.
  pose proof (connected_set_pduRef _ _ _ _ _ Hc2 Hp) as Hc3. fold c' in Hc3.
  pose proof (EncodeReadVarRequest_one ref s7 Hr) as E4. set (req := s7Header _ _ _ _ ++ _) in E4.
  rewrite (bind_run_Ok _ _ _ (c', w2) (inr req)) by (unfold attempt, lift; by rewrite E4). cbv iota.
  pose proof S12 as (_ & Hm & Hpe).
  destruct (peer_read ctx conn w2 ref s7 req) as (w3 & Hex & S3); [apply Hc3 | done | done | |done|].
  { rewrite Hpe. simpl. lia. }
  assert (Hans : len (RData (read_answer (peer_memory w2) s7)) <= 8191).
  { unfold read_answer. destruct (read_outcome (peer_memory w2) s7) eqn:E; simpl; [|lia].
    apply read_outcome_len in E. simpl in E. lia. }
  destruct (sections_ack_read ref (read_answer (peer_memory w2) s7)) as (param & dat & Es & Ep);
    [done | by apply read_answer_ok | done |].
  assert (Hsr : sendReceive ctx req ref (c', w2) = (Ok (param, dat), (c', w3))).
  { rewrite <- Es. apply (sendReceive_exchange _ _ _ _ _ conn); [apply (live_not_nil _ conn w2), Hc3 | apply Hc3 | | done].
    right. destruct Hc3 as (_ & -> & _). rewrite Hpe. simpl. lia. }
  rewrite (bind_run_Ok _ _ _ (c', w3) (inr (param, dat))) by (unfold attempt; by rewrite Hsr). cbv iota.
  rewrite (bind_run_Ok _ _ _ (c', w3) (inr [item_of (read_answer (peer_memory w2) s7)]))
    by (unfold attempt, lift; by rewrite Ep). cbv iota.
  exists c', w3. split; [by exists p|].
  split; [by eapply connected_stays|]. split; [by eapply stays_trans|].
  rewrite Hm. unfold read_answer. destruct (read_outcome (peer_memory w) s7) as [b|code] eqn:E.
  - cbn [item_of ReturnCode RReturnCode]. change (ReturnCodeError RetCodeSuccess) with nil_error. cbv iota.
    cbn [Data item_of RData]. apply read_outcome_len in E. simpl in E. by if_arith.
  - apply read_outcome_code in E. cbn [item_of ReturnCode RReturnCode refused].
    rewrite ReturnCodeError_err by done. cbv iota. by rewrite ItemReturnCodeString_text.
Qed.

Definition with_span (addr : Address) (start size : Z) : S7AnyAddress :=
  mkS7AnyAddress (a_Area addr) (a_DBNumber addr) start size.

(** A span can be read exactly when its two parts can, and the code of a
    refusal does not depend on the split. *)
Lemma read_outcome_split m addr s n1 n2 :
  0 <= s -> 0 <= n1 -> 0 <= n2 ->
  read_outcome m (with_span addr s (n1 + n2)) =
    match read_outcome m (with_span addr s n1) with
    | inr c => inr c
    | inl b1 => match read_outcome m (with_span addr (s + n1) n2) with
                | inl b2 => inl (b1 ++ b2)
                | inr c => inr c
                end
    end.
Proof.
  intros Hs H1 H2. unfold read_outcome, with_span. simpl.
  destruct (keyOf _ _) as [k| |]; [|done..]. destruct (m !! k) as [r|] eqn:Er; [|done].
  case_if; [done|].
  destruct (bytes_at m k s (n1 + n2)) as [b|] eqn:E.
  - apply bytes_at_split in E as (b1 & b2 & -> & -> & ->); done.
  - destruct (bytes_at m k s n1) as [b1|] eqn:E1; [|done].
    destruct (bytes_at m k (s + n1) n2) as [b2|] eqn:E2; [|done]. exfalso.
    apply bytes_at_Some in E2 as (r' & Hr' & E2). apply slice_Ok_inv in E2 as (_ & ? & _).
    enough (bytes_at m k s (n1 + n2) <> None) by done.
    unfold bytes_at. rewrite Hr'. simpl. rewrite slice_ok by lia. done.
Qed.

(** The chunk loop over a peer delivers the whole span or the code that
    refuses it, with the bytes of the chunks before the refused one. *)
Lemma readChunks_peer ctx conn c w addr reqLen rate chunks offset result first bound :
  connected ctx conn c w -> chunks <> [] ->
  Forall (fun n => 1 <= n <= bound) chunks -> bound <= 8191 ->
  ReadVarRequestOverhead + bound <= peer_pdu conn w ->
  0 <= a_DBNumber addr <= MaxS7AnyDBNumber ->
  0 <= offset -> offset + sumZ chunks <= MaxS7AnyByteOffset + 1 ->
  exists c' w' r, advanced c c' /\ connected ctx conn c' w' /\ stays ctx conn w w' /\
    readChunks ctx addr reqLen rate chunks offset result first (c, w) = (Ok r, (c', w')) /\
    match read_outcome (peer_memory w) (with_span addr offset (sumZ chunks)) with
    | inl b => r = finishRead reqLen (result ++ b)
    | inr code => exists p,
        r = partial ReadStatusRejected reqLen (result ++ p) (ItemReturnCodeString code) None
              (ItemReturnCodeString code) code /\
        (p = [] \/ read_outcome (peer_memory w) (with_span addr offset (len p)) = inl p)
    end.
Proof.
  intros Hc Hne HF Hb Hpdu Hdb. revert c w offset result first Hc Hpdu.
  induction chunks as [|n chunks IH]; intros c w offset result first Hc Hpdu Ho Hend; [done|].
  apply Forall_cons in HF as [Hn HF]. simpl in Hend.
  assert (Hs0 : 0 <= sumZ chunks) by (apply sumZ_nonneg; eapply Forall_impl; [exact HF|]; simpl; lia).
  rewrite MaxS7AnyByteOffset_value in *.
  destruct (readChunks_step ctx conn c w addr reqLen rate n chunks offset result first)
    as (c1 & w1 & A1 & C1 & S1 & ->); [done | lia | lia | lia | |].
  { unfold s7any_in_range, MaxS7AnyCount. rewrite MaxS7AnyByteOffset_value. simpl. lia. }
  fold (with_span addr offset n). simpl sumZ. fold (sumZ chunks).
  pose proof S1 as (_ & Hm1 & Hp1).
  destruct (decide (chunks = [])) as [->|Hne'].
  { simpl (_ + sumZ []). rewrite Z.add_0_r. exists c1, w1.
    destruct (read_outcome (peer_memory w) (with_span addr offset n)) as [b|code] eqn:E.
    - eexists. split_and!; try done; apply S1.
    - eexists. split; [done|]. split; [done|]. split; [done|]. split; [done|].
      exists []. rewrite app_nil_r. auto. }
  rewrite read_outcome_split by lia.
  destruct (read_outcome (peer_memory w) (with_span addr offset n)) as [b|code] eqn:E.
  2: { exists c1, w1. eexists. split; [done|]. split; [done|]. split; [done|]. split; [done|].
       exists []. rewrite app_nil_r. auto. }
  destruct (IH Hne' HF c1 w1 (offset + n) (result ++ b) false C1) as (c2 & w2 & r & A2 & C2 & S2 & Hrun & Hr);
    [congruence | lia | lia |].
  exists c2, w2, r. split; [by transitivity c1|]. split; [done|]. split; [by eapply stays_trans|].
  split; [done|]. rewrite Hm1 in Hr.
  destruct (read_outcome (peer_memory w) (with_span addr (offset + n) (sumZ chunks))) as [b2|code].
  - by rewrite Hr, <- app_assoc.
  - destruct Hr as (p & -> & Hp). exists (b ++ p). rewrite <- app_assoc. split; [done|]. right.
    pose proof (read_outcome_len _ _ _ E) as Hlb. simpl in Hlb. rewrite length_app.
    destruct Hp as [->|Hp].
    + simpl length. rewrite app_nil_r, Nat.add_0_r, Hlb. done.
    + replace (Z.of_nat (length b + length p)) with (n + len p) by lia.
      by rewrite read_outcome_split, E, Hp by lia.
Qed.

Lemma planReadChunks_nonempty total m : 1 <= total -> planReadChunks total m <> [].
Proof.
  intros Ht Hn. destruct (planReadChunks_spec total m) as (_ & Hs & _). rewrite Hn in Hs. simpl in Hs. lia.
Qed.

Lemma ReadArea_peer ctx conn c w addr :
  connected ctx conn c w -> ReadVarRequestOverhead < peer_pdu conn w <= 8215 ->
  0 <= a_DBNumber addr <= MaxS7AnyDBNumber -> 0 <= a_Start addr -> 1 <= a_Size addr ->
  a_Start addr + a_Size addr <= MaxS7AnyByteOffset + 1 ->
  exists c' w' r, advanced c c' /\ connected ctx conn c' w' /\ stays ctx conn w w' /\
    ReadArea ctx addr (c, w) = (Ok r, (c', w')) /\
    match read_outcome (peer_memory w) (with_span addr (a_Start addr) (a_Size addr)) with
    | inl b => r = mkReadResult ReadStatusSuccess (a_Size addr) (a_Size addr) b [] "" None "" x00
    | inr code => exists p,
        r = partial ReadStatusRejected (a_Size addr) p (ItemReturnCodeString code) None
              (ItemReturnCodeString code) code /\
        (p = [] \/ read_outcome (peer_memory w) (with_span addr (a_Start addr) (len p)) = inl p)
    end.
Proof.
  change ReadVarRequestOverhead with 24. intros Hc Hpdu Hdb Hst Hsz Hend.
  unfold ReadArea.
  rewrite (bind_run_Ok _ _ _ (c, w) tt).
  2: { unfold lift. f_equal. apply validateAddress_ok. split_and!; lia. }
  rewrite (bind_run_Ok _ _ _ (c, w) tt).
  2: { unfold lift. f_equal. by apply validateRangeEnd_ok. }
  rewrite (bind_run_Ok _ _ _ (c, w) (c_pduSize c)) by done.
  rewrite (bind_run_Ok _ _ _ (c, w) (o_rateLimit (c_opts c))) by done.
  change ReadVarRequestOverhead with 24. pose proof Hc as (_ & -> & _).
  rewrite Z.max_l by lia. cbv zeta. if_arith.
  destruct (planReadChunks_spec (a_Size addr) (peer_pdu conn w - 24)) as (HF & Hs & _).
  replace (peer_pdu conn w - 24 <=? 0) with false in HF by lia. rewrite Z.max_r in Hs by lia.
  destruct (readChunks_peer ctx conn c w addr (a_Size addr) (o_rateLimit (c_opts c))
    (planReadChunks (a_Size addr) (peer_pdu conn w - 24)) (a_Start addr) [] true (peer_pdu conn w - 24))
    as (c' & w' & r & A & C & S & Hrun & Hr); [done | by apply planReadChunks_nonempty | done | lia | | done | done | lia |].
  { change ReadVarRequestOverhead with 24. lia. }
  exists c', w', r. split; [done|]. split; [done|]. split; [done|]. split; [done|]. rewrite Hs in Hr.
  destruct (read_outcome _ _) as [b|code] eqn:E; [|done]. rewrite Hr. simpl.
  apply read_outcome_len in E. simpl in E. unfold finishRead, ClassifyReadOutcome, partial.
  rewrite E. if_arith. if_arith. by if_arith.
Qed.
End OverReader.

Section OverPeer.
Context {W : Type} `{!Transport W} `{!S7Peer W}.

(** One chunk of a write. *)
Lemma writeChunks_step ctx conn c w addr dat rate n chunks offset first chunk :
  connected ctx conn c w -> 1 <= n -> n <= MaxWriteVarBytes ->
  WriteVarRequestOverhead + n + n mod 2 <= peer_pdu conn w ->
  slice dat offset (offset + n) = Ok chunk ->
  s7any_in_range (with_span addr (a_Start addr + offset) n) ->
  exists c' w' code, advanced c c' /\ connected ctx conn c' w' /\
    peer_pdu conn w' = peer_pdu conn w /\
    write_outcome (peer_memory w) (with_span addr (a_Start addr + offset) n) chunk code (peer_memory w') /\
    writeChunks ctx addr dat rate (n :: chunks) offset first (c, w) =
      (if code =b RetCodeSuccess
       then writeChunks ctx addr dat rate chunks (offset + n) false (c', w')
       else (Err (S7Error x00 code (ItemReturnCodeString code)), (c', w'))).
Proof.
  intros Hc Hn Hn' Hpdu Hsl Hr. change WriteVarRequestOverhead with 28 in Hpdu. cbn [writeChunks].
  destruct (check_ctx_live ctx conn c w) as (w1 & E1 & S1); [apply Hc|].
  rewrite (bind_run_Ok _ _ _ _ _ E1).
  destruct (pace_live ctx conn rate first c w1) as (w2 & E2 & S2); [apply S1|].
  rewrite (bind_run_Ok _ _ _ _ _ E2). cbv iota.
  pose proof (stays_trans _ _ _ _ _ S1 S2) as S12. pose proof (connected_stays _ _ _ _ _ Hc S12) as Hc2.
  rewrite (bind_run_Ok _ _ _ (c, w2) chunk) by (unfold lift; by rewrite Hsl).
  apply slice_Ok_inv in Hsl as (_ & _ & Hlc & _). replace (len chunk) with n by lia.
  fold (with_span addr (a_Start addr + offset) n). set (s7 := with_span addr _ n) in *. cbv zeta.
  destruct (nextPDURef_ok c w2) as (ref & p & E3 & Href & Hp); [apply Hc2|].
  rewrite (bind_run_Ok _ _ _ _ _ E3). set (c' := set_pduRef p c) in *.
  pose proof (connected_set_pduRef _ _ _ _ _ Hc2 Hp) as Hc3. fold c' in Hc3.
  destruct (EncodeWriteVarRequest ref s7 chunk) as [req| |] eqn:E4;
    [|rewrite EncodeWriteVarRequest_ok in E4 by (done || lia); done..].
  rewrite (bind_run_Ok _ _ _ (c', w2) (inr req)) by done. cbv iota.
  pose proof S12 as (_ & Hm & Hpe).
  destruct (peer_write ctx conn w2 ref s7 chunk req) as (w3 & code & Hex & Hl3 & Hp3 & Hout);
    [apply Hc3 | done | lia | simpl; lia | done |].
  assert (Hsec : sections (ack_write ref code) ref = Ok ([FuncWriteVar; x01], [code])).
  { apply (sections_ack _ x00); [unfold is_u16, MaxUint16 in *; lia | done | done |].
    unfold MaxUint16. simpl. lia. }
  assert (Hsr : sendReceive ctx req ref (c', w2) = (Ok ([FuncWriteVar; x01], [code]), (c', w3))).
  { rewrite <- Hsec. apply (sendReceive_exchange _ _ _ _ _ conn); [apply (live_not_nil _ conn w2), Hc3 | apply Hc3 | | done].
    right. destruct Hc3 as (_ & -> & _). rewrite Hpe, (length_EncodeWriteVarRequest _ _ _ _ E4).
    change WriteVarRequestOverhead with 28. replace (len chunk) with n by lia. lia. }
  rewrite (bind_run_Ok _ _ _ _ _ Hsr). cbv iota.
  exists c', w3, code. split; [by exists p|]. split.
  { destruct Hc3 as (? & ? & ? & _). split_and!; [done | congruence | done | done]. }
  split; [congruence|]. rewrite <- Hm. split; [done|].
  rewrite bind_run. unfold lift. change x01 with (z2b (len [code])) at 1.
  rewrite (ParseWriteVarResponse_codes [code]) by (simpl; lia).
  simpl firstCodeError. unfold ReturnCodeError. by case_if.
Qed.

(** A chunk whose request is longer than the PDU is refused by the client
    itself and nothing is sent. *)
Lemma writeChunks_too_long ctx conn c w addr dat rate n chunks offset first :
  connected ctx conn c w -> 0 < c_pduSize c -> 1 <= n -> n <= MaxWriteVarBytes ->
  c_pduSize c < WriteVarRequestOverhead + n + n mod 2 ->
  0 <= offset -> offset + n <= len dat ->
  s7any_in_range (with_span addr (a_Start addr + offset) n) ->
  exists e c' w', writeChunks ctx addr dat rate (n :: chunks) offset first (c, w) = (Err e, (c', w')) /\
    errors_Is e ErrRequestExceedsPDU = true /\ peer_memory w' = peer_memory w.
Proof.
  intros Hc Hpos Hn Hn' Hpdu Ho Hend Hr. cbn [writeChunks].
  destruct (check_ctx_live ctx conn c w) as (w1 & E1 & S1); [apply Hc|].
  rewrite (bind_run_Ok _ _ _ _ _ E1).
  destruct (pace_live ctx conn rate first c w1) as (w2 & E2 & S2); [apply S1|].
  rewrite (bind_run_Ok _ _ _ _ _ E2). cbv iota.
  pose proof (stays_trans _ _ _ _ _ S1 S2) as S12. pose proof (connected_stays _ _ _ _ _ Hc S12) as Hc2.
  destruct (slice dat offset (offset + n)) as [chunk| |] eqn:Hsl; [|rewrite slice_ok in Hsl by lia; done..].
  rewrite (bind_run_Ok _ _ _ (c, w2) chunk) by done.
  apply slice_Ok_inv in Hsl as (_ & _ & Hlc & _). replace (len chunk) with n by lia.
  fold (with_span addr (a_Start addr + offset) n). cbv zeta.
  destruct (nextPDURef_ok c w2) as (ref & p & E3 & Href & Hp); [apply Hc2|].
  rewrite (bind_run_Ok _ _ _ _ _ E3). set (c' := set_pduRef p c).
  destruct (EncodeWriteVarRequest ref (with_span addr (a_Start addr + offset) n) chunk) as [req| |] eqn:E4;
    [|rewrite EncodeWriteVarRequest_ok in E4 by (done || lia); done..].
  rewrite (bind_run_Ok _ _ _ (c', w2) (inr req)) by done. cbv iota.
  pose proof (length_EncodeWriteVarRequest _ _ _ _ E4) as Hlr. replace (len chunk) with n in Hlr by lia.
  destruct Hc as (Hconn & Hsz & _).
  rewrite bind_run. unfold sendReceive.
  rewrite (bind_run_Ok _ _ _ (c', w2) (c_conn c)) by done.
  rewrite (bind_run_Ok _ _ _ (c', w2) (c_pduSize c)) by done. rewrite Hconn.
  replace ((c_pduSize c >? 0) && (len req >? c_pduSize c)) with true by lia. cbv iota.
  eexists _, c', w2. split; [done|]. split; [done|]. apply S12.
Qed.

(** An area a client may write. *)
Definition writable (m : memory) (area : byte) (dbn : Z) (k : areaKey) (r : region) : Prop :=
  keyOf area dbn = Ok k /\ m !! k = Some r /\ readOnly r = false /\ timerOrCounter area = false.

Lemma writable_overwritten m m' area dbn k r s d :
  writable m area dbn k r -> overwritten m m' k s d ->
  exists r', writable m' area dbn k r' /\ length (data r') = length (data r).
Proof.
  intros (Hk & Hr & Hro & Ht) (Hs & _). destruct (shape_lookup _ _ _ _ Hs Hr) as (r' & Hr' & Hl & Ho).
  exists r'. split; [|done]. split_and!; [done | done | congruence | done].
Qed.

(** A span inside a writable area is accepted and written. *)
Lemma write_outcome_writable m addr s n value code m' k r :
  writable m (a_Area addr) (a_DBNumber addr) k r -> 0 <= s -> 0 <= n -> s + n <= len (data r) ->
  write_outcome m (with_span addr s n) value code m' ->
  code = RetCodeSuccess /\ overwritten m m' k s value.
Proof.
  intros (Hk & Hr & Hro & Ht) H0 H1 H2. unfold write_outcome.
  erewrite read_outcome_bytes; [|exact Hk|exact Ht|].
  2: { apply bytes_at_Some. exists r. split; [done|]. simpl. by apply slice_ok; lia. }
  intros (k' & r' & Hk' & Hr' & H). simpl in Hk'. rewrite Hk in Hk'. apply Ok_inj in Hk' as <-.
  rewrite Hr in Hr'. injection Hr' as <-. by rewrite Hro in H.
Qed.

Lemma writeChunks_peer ctx conn c w addr rate chunks pre rest first bound k r :
  connected ctx conn c w -> Forall (fun n => 1 <= n <= bound) chunks -> bound <= MaxWriteVarBytes ->
  (forall n, 1 <= n <= bound -> WriteVarRequestOverhead + n + n mod 2 <= peer_pdu conn w) ->
  writable (peer_memory w) (a_Area addr) (a_DBNumber addr) k r ->
  0 <= a_DBNumber addr <= MaxS7AnyDBNumber -> 0 <= a_Start addr ->
  sumZ chunks = len rest -> a_Start addr + len (pre ++ rest) <= len (data r) ->
  a_Start addr + len (pre ++ rest) <= MaxS7AnyByteOffset + 1 ->
  exists c' w', writeChunks ctx addr (pre ++ rest) rate chunks (len pre) first (c, w) = (Ok tt, (c', w')) /\
    advanced c c' /\ connected ctx conn c' w' /\ peer_pdu conn w' = peer_pdu conn w /\
    overwritten (peer_memory w) (peer_memory w') k (a_Start addr + len pre) rest.
Proof.
  intros Hc HF Hb Hfit Hwr Hdb Hst. revert c w pre rest first r Hc Hfit Hwr.
  induction chunks as [|n chunks IH]; intros c w pre rest first r Hc Hfit Hwr Hsum Hend Hmax.
  { destruct rest; [|simpl in Hsum; lia]. rewrite app_nil_r in *. exists c, w. split; [done|].
    split; [done|]. split; [done|]. split; [done|]. eapply overwritten_nil; [apply Hwr | lia]. }
  apply Forall_cons in HF as [Hn HF]. simpl in Hsum. fold (sumZ chunks) in Hsum.
  assert (Hs0 : 0 <= sumZ chunks) by (apply sumZ_nonneg; eapply Forall_impl; [exact HF|]; simpl; lia).
  rewrite length_app in Hend, Hmax. rewrite MaxS7AnyByteOffset_value in Hmax.
  change MaxWriteVarBytes with 8191 in Hb.
  set (chunk := take (Z.to_nat n) rest). set (rest' := drop (Z.to_nat n) rest).
  assert (Hrest : rest = chunk ++ rest') by (unfold chunk, rest'; by rewrite take_drop).
  assert (Hlc : len chunk = n) by (unfold chunk; rewrite length_take; lia).
  assert (Hlr : len rest' = len rest - n) by (unfold rest'; rewrite length_drop; lia).
  destruct (writeChunks_step ctx conn c w addr (pre ++ rest) rate n chunks (len pre) first chunk)
    as (c1 & w1 & code & A1 & C1 & P1 & Ho & ->);
    [done | lia | change MaxWriteVarBytes with 8191; lia | by apply Hfit | | |].
  { rewrite Hrest. apply slice_app_mid; lia. }
  { unfold s7any_in_range, MaxS7AnyCount. rewrite MaxS7AnyByteOffset_value. simpl. lia. }
  eapply write_outcome_writable in Ho as [-> Ho]; [|exact Hwr|lia..].
  simpl (_ =b _). cbv iota.
  destruct (writable_overwritten _ _ _ _ _ _ _ _ Hwr Ho) as (r1 & Hwr1 & Hlr1).
  destruct (IH HF c1 w1 (pre ++ chunk) rest' false r1) as (c2 & w2 & Hrun & A2 & C2 & P2 & Ho2).
  - done.
  - intros n' Hn'. rewrite P1. by apply Hfit.
  - done.
  - lia.
  - rewrite <- app_assoc, <- Hrest, length_app. lia.
  - rewrite <- app_assoc, <- Hrest, length_app, MaxS7AnyByteOffset_value. lia.
  - rewrite <- app_assoc, <- Hrest in Hrun. rewrite length_app in Hrun, Ho2.
    replace (Z.of_nat (length pre + length chunk)) with (len pre + n) in Hrun by lia.
    exists c2, w2. split; [done|]. split; [by transitivity c1|]. split; [done|]. split; [congruence|].
    rewrite Hrest. eapply overwritten_trans; [exact Ho|].
    replace (a_Start addr + len pre + len chunk) with (a_Start addr + Z.of_nat (length pre + length chunk)) by lia.
    done.
Qed.

(** A chunk of an even PDU always fits with its fill byte. *)
Lemma even_pdu_fits pdu n :
  Z.even pdu = true -> 1 <= n <= pdu - WriteVarRequestOverhead ->
  WriteVarRequestOverhead + n + n mod 2 <= pdu.
Proof.
  change WriteVarRequestOverhead with 28. intros He Hn. apply Z.even_spec in He as [q ->].
  Z.div_mod_to_equations. lia.
Qed.

Lemma WriteArea_prefix ctx conn c w addr dat :
  connected ctx conn c w -> WriteVarRequestOverhead < peer_pdu conn w ->
  0 <= a_DBNumber addr <= MaxS7AnyDBNumber -> 0 <= a_Start addr <= MaxS7AnyByteOffset -> 0 <= a_Size addr ->
  a_Start addr + len dat <= MaxS7AnyByteOffset + 1 ->
  exists w', stays ctx conn w w' /\
    WriteArea ctx addr dat (c, w) =
      writeChunks ctx addr dat (o_rateLimit (c_opts c))
        (planReadChunks (len dat) (peer_pdu conn w - WriteVarRequestOverhead)) 0 true (c, w').
Proof.
  intros Hc Hp Hdb Hst Hsz Hend. unfold WriteArea.
  rewrite (bind_run_Ok _ _ _ (c, w) tt).
  2: { unfold lift. f_equal. apply validateAddress_ok. split_and!; lia. }
  rewrite (bind_run_Ok _ _ _ (c, w) tt).
  2: { unfold lift. f_equal. by apply validateRangeEnd_ok. }
  destruct (check_ctx_live ctx conn c w) as (w1 & E1 & S1); [apply Hc|].
  rewrite (bind_run_Ok _ _ _ _ _ E1).
  rewrite (bind_run_Ok _ _ _ (c, w1) (c_pduSize c)) by done.
  rewrite (bind_run_Ok _ _ _ (c, w1) (o_rateLimit (c_opts c))) by done.
  exists w1. split; [done|]. destruct Hc as (_ & -> & _). cbv zeta. by if_arith.
Qed.

Lemma WriteArea_peer ctx conn c w addr dat k r :
  connected ctx conn c w ->
  WriteVarRequestOverhead < peer_pdu conn w <= 8218 -> Z.even (peer_pdu conn w) = true ->
  writable (peer_memory w) (a_Area addr) (a_DBNumber addr) k r ->
  0 <= a_DBNumber addr <= MaxS7AnyDBNumber -> 0 <= a_Start addr <= MaxS7AnyByteOffset -> 0 <= a_Size addr ->
  a_Start addr + len dat <= MaxS7AnyByteOffset + 1 -> a_Start addr + len dat <= len (data r) ->
  exists c' w', WriteArea ctx addr dat (c, w) = (Ok tt, (c', w')) /\
    advanced c c' /\ connected ctx conn c' w' /\ peer_pdu conn w' = peer_pdu conn w /\
    overwritten (peer_memory w) (peer_memory w') k (a_Start addr) dat.
Proof.
  intros Hc Hp He Hwr Hdb Hst Hsz Hend Hreg.
  destruct (WriteArea_prefix ctx conn c w addr dat) as (w1 & S1 & ->); [done | lia | done..|].
  pose proof S1 as (_ & Hm & Hpe). rewrite <- Hm in *. rewrite <- Hpe in *.
  destruct (planReadChunks_spec (len dat) (peer_pdu conn w1 - WriteVarRequestOverhead)) as (HF & Hs & _).
  replace (peer_pdu conn w1 - WriteVarRequestOverhead <=? 0) with false in HF by lia.
  rewrite Z.max_r in Hs by lia.
  destruct (writeChunks_peer ctx conn c w1 addr (o_rateLimit (c_opts c))
    (planReadChunks (len dat) (peer_pdu conn w1 - WriteVarRequestOverhead)) [] dat true
    (peer_pdu conn w1 - WriteVarRequestOverhead) k r)
    as (c' & w' & Hrun & A & C & P & Ho); try done.
  - by eapply connected_stays.
  - change MaxWriteVarBytes with 8191. change WriteVarRequestOverhead with 28 in *.
    apply Z.even_spec in He as [q Hq]. lia.
  - intros n Hn. by apply even_pdu_fits.
  - lia.
  - exists c', w'. split; [done|]. split; [done|]. split; [done|]. split; [done|].
    by rewrite Z.add_0_r in Ho.
Qed.

(** A write whose spans are all refused with one code stops at its first chunk
    with that code and changes nothing. *)
Lemma WriteArea_refused_peer ctx conn c w addr dat code :
  connected ctx conn c w ->
  WriteVarRequestOverhead < peer_pdu conn w <= 8218 -> Z.even (peer_pdu conn w) = true ->
  0 <= a_DBNumber addr <= MaxS7AnyDBNumber -> 0 <= a_Start addr <= MaxS7AnyByteOffset -> 0 <= a_Size addr ->
  dat <> [] -> a_Start addr + len dat <= MaxS7AnyByteOffset + 1 ->
  (forall n v code' m', 1 <= n <= len dat ->
     write_outcome (peer_memory w) (with_span addr (a_Start addr) n) v code' m' ->
     code' = code /\ m' = peer_memory w) -> code <> RetCodeSuccess ->
  exists c' w', WriteArea ctx addr dat (c, w) =
      (Err (S7Error x00 code (ItemReturnCodeString code)), (c', w')) /\
    connected ctx conn c' w' /\ peer_memory w' = peer_memory w.
Proof.
  intros Hc Hp He Hdb Hst Hsz Hne Hend Hout Hcode.
  destruct (WriteArea_prefix ctx conn c w addr dat) as (w1 & S1 & ->); [done | lia | done..|].
  pose proof S1 as (_ & Hm & Hpe). rewrite <- Hm in *. rewrite <- Hpe in *.
  change WriteVarRequestOverhead with 28 in *. rewrite MaxS7AnyByteOffset_value in *.
  assert (Hld : 1 <= len dat) by (destruct dat; [done | simpl length; lia]).
  destruct (planReadChunks_spec (len dat) (peer_pdu conn w1 - 28)) as (HF & Hs & _).
  destruct (planReadChunks (len dat) (peer_pdu conn w1 - 28)) as [|n chunks] eqn:Ec;
    [simpl in Hs; lia|].
  apply Forall_cons in HF as [Hn HF]. replace (peer_pdu conn w1 - 28 <=? 0) with false in * by lia.
  assert (Hs0 : 0 <= sumZ chunks) by (apply sumZ_nonneg; eapply Forall_impl; [exact HF|]; simpl; lia).
  simpl in Hs. fold (sumZ chunks) in Hs.
  pose proof He as He'. apply Z.even_spec in He' as [q Hq].
  destruct (writeChunks_step ctx conn c w1 addr dat (o_rateLimit (c_opts c)) n chunks 0 true
              (take (Z.to_nat n) dat)) as (c1 & w2 & code' & A1 & C1 & P1 & Ho & ->).
  - by eapply connected_stays.
  - lia.
  - change MaxWriteVarBytes with 8191. lia.
  - by apply even_pdu_fits.
  - rewrite slice_ok by lia. rewrite drop_0. do 2 f_equal. lia.
  - unfold s7any_in_range, MaxS7AnyCount. rewrite MaxS7AnyByteOffset_value. simpl. lia.
  - rewrite Z.add_0_r in Ho. apply Hout in Ho as [-> Ho]; [|lia]. exists c1, w2. rewrite (beq_ne _ _ Hcode). split_and!; try done; apply C1.
Qed.

Lemma write_outcome_unknown m addr s n v code m' :
  (forall k, keyOf (a_Area addr) (a_DBNumber addr) = Ok k -> m !! k = None) ->
  write_outcome m (with_span addr s n) v code m' -> code = RetCodeNotAvailable /\ m' = m.
Proof.
  intros Hk. unfold write_outcome, read_outcome, with_span. simpl.
  destruct (keyOf _ _) as [k| |]; [|done..]. by rewrite (Hk k).
Qed.

Lemma write_outcome_readonly m addr s n v code m' k r :
  keyOf (a_Area addr) (a_DBNumber addr) = Ok k -> m !! k = Some r -> readOnly r = true ->
  timerOrCounter (a_Area addr) = false -> 0 <= s -> 0 <= n -> s + n <= len (data r) ->
  write_outcome m (with_span addr s n) v code m' -> code = RetCodeAccessFault /\ m' = m.
Proof.
  intros Hk Hr Hro Ht H0 H1 H2. unfold write_outcome.
  erewrite read_outcome_bytes; [|exact Hk|exact Ht|].
  2: { apply bytes_at_Some. exists r. split; [done|]. simpl. by apply slice_ok; lia. }
  intros (k' & r' & Hk' & Hr' & H). simpl in Hk'. rewrite Hk in Hk'. apply Ok_inj in Hk' as <-.
  rewrite Hr in Hr'. injection Hr' as <-. by rewrite Hro in H.
Qed.

(** ** Bits *)

Lemma bit_outcome_code m addr code : bit_outcome m addr = inr code -> code <> RetCodeSuccess.
Proof.
  unfold bit_outcome. repeat (match goal with
    | |- context [match ?x with _ => _ end] => destruct x end; try done); by intros [= <-].
Qed.

Lemma bit_answer_ok m addr : result_ok (bit_answer m addr) /\ len (RData (bit_answer m addr)) <= 1.
Proof.
  unfold bit_answer. destruct (bit_outcome m addr) as [v|code] eqn:E.
  - unfold result_ok, is_u16. simpl. split_and!; [lia.. | done | done | lia].
  - split; [apply result_ok_refused; by eapply bit_outcome_code | simpl; lia].
Qed.

Lemma validateBitAddress_ok addr :
  validateBitAddress addr = nil_error ->
  s7anybit_in_range (wireBitAddress addr).
Proof.
  unfold validateBitAddress. case_if; [done|]. case_if; [done|]. case_if; [done|].
  intros H. apply bind_Ok_inv in H as ([] & H & _). unfold as_validation, ValidateS7AnyBitAddress in H.
  destruct (decide (s7anybit_in_range (mkS7AnyBitAddress x00 (b_DBNumber addr) (b_ByteOffset addr) (b_BitOffset addr))))
    as [Hr|Hr]; [exact Hr|].
  destruct (EncodeS7AnyBit_err _ Hr) as (e & He & _). by rewrite He in H.
Qed.

Lemma encode_bit_requests ref addr value :
  s7anybit_in_range addr ->
  let item := putS7Any TransportSizeBit 1 (BitDBNumber addr) (BitArea addr)
                (ByteOffset addr * 8 + BitOffset addr) in
  EncodeReadVarBitRequest ref addr = Ok (s7Header ROSCTRJob ref 14 0 ++ [FuncReadVar; x01] ++ item) /\
  EncodeWriteVarBitRequest ref addr value =
    Ok (s7Header ROSCTRJob ref 14 6 ++ [FuncWriteVar; x01] ++ item ++
        [x00; DataTransportSizeBit; x00; x01; if value then x01 else x00; x00]).
Proof.
  intros Hr item. unfold EncodeReadVarBitRequest, EncodeWriteVarBitRequest.
  rewrite (EncodeS7AnyBit_ok _ Hr), !bind_Ok. fold item.
  rewrite !encodeMessage_ok by done. rewrite app_nil_r. by rewrite <- !app_assoc.
Qed.

(** The client's way to a bit exchange. *)
Lemma bit_prologue ctx conn c w (addr : BitAddress) :
  connected ctx conn c w -> validateBitAddress addr = nil_error ->
  exists ref p w1, 1 <= ref <= MaxUint16 /\ stays ctx conn w w1 /\
    connected ctx conn (set_pduRef p c) w1 /\
    forall A (k : Z -> M W A),
      (lift (validateBitAddress addr) ;; require_conn ;; check_ctx ctx ;; ref ← nextPDURef; k ref) (c, w) =
      k ref (set_pduRef p c, w1).
Proof.
  intros Hc Hv. destruct (check_ctx_live ctx conn c w) as (w1 & E1 & S1); [apply Hc|].
  pose proof (connected_stays _ _ _ _ _ Hc S1) as Hc1.
  destruct (nextPDURef_ok c w1) as (ref & p & E2 & Href & Hp); [apply Hc1|].
  exists ref, p, w1. split; [done|]. split; [done|]. split; [by apply connected_set_pduRef|]. intros A k.
  rewrite (bind_run_Ok _ _ _ (c, w) tt) by (unfold lift; by rewrite Hv).
  rewrite (bind_run_Ok _ _ _ (c, w) tt).
  2: { unfold require_conn. rewrite (bind_run_Ok _ _ _ (c, w) (c_conn c)) by done.
       by destruct Hc as (-> & _). }
  rewrite (bind_run_Ok _ _ _ _ _ E1). by rewrite (bind_run_Ok _ _ _ _ _ E2).
Qed.

Lemma ReadBit_peer ctx conn c w addr :
  connected ctx conn c w -> 24 <= peer_pdu conn w -> validateBitAddress addr = nil_error ->
  exists c' w', advanced c c' /\ connected ctx conn c' w' /\ stays ctx conn w w' /\
    ReadBit ctx addr (c, w) =
      (match bit_outcome (peer_memory w) (wireBitAddress addr) with
       | inl v => Ok v
       | inr code => Err (S7Error x00 code (ItemReturnCodeString code))
       end, (c', w')).
Proof.
  intros Hc Hpdu Hv. pose proof (validateBitAddress_ok _ Hv) as Hr.
  destruct (bit_prologue ctx conn c w addr Hc Hv) as (ref & p & w1 & Href & S1 & Hc1 & Hrun).
  unfold ReadBit. rewrite Hrun. clear Hrun. set (c' := set_pduRef p c) in *.
  destruct (encode_bit_requests ref (wireBitAddress addr) true Hr) as [E _]. cbv zeta in E.
  set (req := s7Header _ _ _ _ ++ _) in E.
  rewrite (bind_run_Ok _ _ _ (c', w1) (inr req)) by (unfold attempt, lift; by rewrite E). cbv iota.
  pose proof S1 as (_ & Hm & Hpe).
  destruct (peer_read_bit ctx conn w1 ref (wireBitAddress addr) req) as (w2 & Hex & S2);
    [apply Hc1 | done | lia | done |].
  destruct (bit_answer_ok (peer_memory w1) (wireBitAddress addr)) as [Hok Hl].
  destruct (sections_ack_read ref (bit_answer (peer_memory w1) (wireBitAddress addr)) Href Hok)
    as (param & dat & Es & Ep); [lia|].
  assert (Hsr : sendReceive ctx req ref (c', w1) = (Ok (param, dat), (c', w2))).
  { rewrite <- Es. apply (sendReceive_exchange _ _ _ _ _ conn); [apply (live_not_nil _ conn w1), Hc1 | apply Hc1 | | done].
    right. destruct Hc1 as (_ & -> & _). rewrite Hpe. simpl. lia. }
  rewrite (bind_run_Ok _ _ _ _ _ Hsr). cbv iota.
  rewrite (bind_run_Ok _ _ _ (c', w2) (inr [item_of (bit_answer (peer_memory w1) (wireBitAddress addr))]))
    by (unfold attempt, lift; by rewrite Ep). cbv iota.
  exists c', w2. split; [by exists p|]. split; [by eapply connected_stays|]. split; [by eapply stays_trans|].
  rewrite Hm. unfold bit_answer. destruct (bit_outcome (peer_memory w) (wireBitAddress addr)) as [v|code] eqn:Eb.
  - by destruct v.
  - apply bit_outcome_code in Eb. change (negb (len [item_of (refused code)] =? 1)) with false. cbv iota.
    rewrite (bind_run_Ok _ _ _ (c', w2) (item_of (refused code))) by done.
    rewrite bind_run. unfold lift. simpl ReturnCode. by rewrite ReturnCodeError_err.
Qed.

Lemma WriteBit_peer ctx conn c w addr value :
  connected ctx conn c w -> 30 <= peer_pdu conn w -> validateBitAddress addr = nil_error ->
  exists c' w' code, advanced c c' /\ connected ctx conn c' w' /\
    peer_pdu conn w' = peer_pdu conn w /\
    write_bit_outcome (peer_memory w) (wireBitAddress addr) value code (peer_memory w') /\
    WriteBit ctx addr value (c, w) = (ReturnCodeError code, (c', w')).
Proof.
  intros Hc Hpdu Hv. pose proof (validateBitAddress_ok _ Hv) as Hr.
  destruct (bit_prologue ctx conn c w addr Hc Hv) as (ref & p & w1 & Href & S1 & Hc1 & Hrun).
  unfold WriteBit. rewrite Hrun. clear Hrun. set (c' := set_pduRef p c) in *.
  destruct (encode_bit_requests ref (wireBitAddress addr) value Hr) as [_ E]. cbv zeta in E.
  set (req := s7Header _ _ _ _ ++ _) in E.
  rewrite (bind_run_Ok _ _ _ (c', w1) (inr req)) by (unfold attempt, lift; by rewrite E). cbv iota.
  pose proof S1 as (_ & Hm & Hpe).
  destruct (peer_write_bit ctx conn w1 ref (wireBitAddress addr) value req) as (w2 & code & Hex & Hl2 & Hp2 & Ho);
    [apply Hc1 | done | done |].
  assert (Hsec : sections (ack_write ref code) ref = Ok ([FuncWriteVar; x01], [code])).
  { apply (sections_ack _ x00); [unfold is_u16, MaxUint16 in *; lia | done | done |].
    unfold MaxUint16. simpl. lia. }
  assert (Hsr : sendReceive ctx req ref (c', w1) = (Ok ([FuncWriteVar; x01], [code]), (c', w2))).
  { rewrite <- Hsec. apply (sendReceive_exchange _ _ _ _ _ conn); [apply (live_not_nil _ conn w1), Hc1 | apply Hc1 | | done].
    right. destruct Hc1 as (_ & -> & _). rewrite Hpe. simpl. lia. }
  rewrite (bind_run_Ok _ _ _ _ _ Hsr). cbv iota. unfold lift.
  change x01 with (z2b (len [code])) at 1. rewrite (ParseWriteVarResponse_codes [code]) by (simpl; lia).
  exists c', w2, code. split; [by exists p|]. split.
  { destruct Hc1 as (? & ? & ? & _). split_and!; [done | congruence | done | done]. }
  split; [congruence|]. rewrite <- Hm. split; [done|].
  simpl firstCodeError. unfold ReturnCodeError. by case_if.
Qed.

End OverPeer.
