(* ===== verification/Loopback.v ===== *)
(** * A session behind a transport discharges the peer interface

    [resolve] on the items a client writes is the abstract memory service of
    [Peer]; [handle] answers one-item jobs accordingly; and a network whose
    far end runs [handle] on every TSDU (the body of [serveConn]) is an
    [S7Peer].  The instance is the concrete environment of the end-to-end
    theorems and of their witnesses. *)

From S2P Require Import Prelude Go WireErrors Header ReadWrite ServerCodec Memory Session Client ClientRW Peer.

(** ** One-item jobs *)

Lemma shiftr3 s : Z.shiftr (s * 8) 3 = s.
Proof. rewrite Z.shiftr_div_pow2 by lia. change (2 ^ 3) with 8. by rewrite Z.div_mul. Qed.

Lemma land7_add s b : 0 <= b < 8 -> Z.land (s * 8 + b) 7 = b /\ Z.shiftr (s * 8 + b) 3 = s.
Proof.
  intros Hb. rewrite Z.shiftr_div_pow2 by lia. change 7 with (Z.ones 3).
  rewrite land_mod by lia. change (2 ^ 3) with 8. Z.div_mod_to_equations. lia.
Qed.

(** A byte item resolves as the memory service says. *)
Lemma resolve_bytes m addr :
  s7any_in_range addr -> 1 <= Size addr ->
  match read_outcome m addr with
  | inl b => exists k r, keyOf (Area addr) (DBNumber addr) = Ok k /\ m !! k = Some r /\
      timerOrCounter (Area addr) = false /\
      slice (data r) (Start addr) (Start addr + Size addr) = Ok b /\
      resolve m (spec_of addr) =
        (Some (mkTarget k r (Start addr) 0 (Size addr) false TransportSizeByte (Area addr)), RetCodeSuccess)
  | inr c => resolve m (spec_of addr) = (None, c)
  end.
Proof.
  intros Hr Hs. unfold read_outcome, resolve, spec_of. cbn [Syntax SpecArea SpecDBNumber TransportSize Count StartBit].
  simpl (_ ≠b _). cbv iota. destruct (keyOf _ _) as [k| |] eqn:Ek; [|done..].
  destruct (m !! k) as [r|] eqn:Er; [|done].
  change (elementSize TransportSizeByte) with 1. change (1 =? 0) with false. cbv iota zeta.
  change (TransportSizeByte =b transportTimer) with false. change (TransportSizeByte =b transportCounter) with false.
  change (TransportSizeByte =b TransportSizeBit) with false. cbn [orb andb negb]. rewrite xorb_false_r, orb_false_r.
  destruct (timerOrCounter (Area addr)) eqn:Et; [done|].
  rewrite Z.mul_1_l. if_arith. rewrite Z_mod_mult. cbn [negb Z.eqb]. rewrite shiftr3.
  destruct (land7_add (Start addr) 0) as [Hl _]; [lia|]. rewrite Z.add_0_r in Hl. rewrite Hl.
  unfold s7any_in_range in Hr.
  destruct (bytes_at m k (Start addr) (Size addr)) as [b|] eqn:Eb.
  - apply bytes_at_Some in Eb as (r' & Hr' & Eb). rewrite Er in Hr'. injection Hr' as <-.
    pose proof (slice_Ok_inv _ _ _ _ Eb) as (_ & ? & _). if_arith. by exists k, r.
  - case_if; [done|]. exfalso. unfold bytes_at in Eb. rewrite Er in Eb. simpl in Eb.
    by rewrite slice_ok in Eb by lia.
Qed.

Lemma readItem_bytes m addr :
  s7any_in_range addr -> 1 <= Size addr -> Size addr <= 8191 ->
  readItem m (spec_of addr) [] = Ok (read_answer m addr).
Proof.
  intros Hr Hs Hl. pose proof (resolve_bytes m addr Hr Hs) as H. unfold readItem, read_answer.
  change (Syntax (spec_of addr) =b SyntaxIDDBRead) with false. cbv iota.
  destruct (read_outcome m addr) as [b|c] eqn:E.
  - destruct H as (k & r & _ & _ & _ & Hsl & ->). unfold readResult. simpl. rewrite Hsl. simpl.
    apply read_outcome_len in E. unfold mret, res_ret. do 2 f_equal. rewrite lengthField_ok by lia. lia.
  - by rewrite H.
Qed.

(** A bit item likewise. *)
Lemma resolve_bit m addr :
  s7anybit_in_range addr ->
  match bit_outcome m addr with
  | inl v => exists k r b, keyOf (BitArea addr) (BitDBNumber addr) = Ok k /\ m !! k = Some r /\
      timerOrCounter (BitArea addr) = false /\
      data r !! Z.to_nat (ByteOffset addr) = Some b /\ v = Z.testbit (b2z b) (BitOffset addr) /\
      resolve m (bit_spec_of addr) =
        (Some (mkTarget k r (ByteOffset addr) (BitOffset addr) 1 true TransportSizeBit (BitArea addr)), RetCodeSuccess)
  | inr c => resolve m (bit_spec_of addr) = (None, c)
  end.
Proof.
  intros Hr. unfold bit_outcome, resolve, bit_spec_of.
  cbn [Syntax SpecArea SpecDBNumber TransportSize Count StartBit].
  simpl (_ ≠b _). cbv iota. destruct (keyOf _ _) as [k| |] eqn:Ek; [|done..].
  destruct (m !! k) as [r|] eqn:Er; [|done].
  change (elementSize TransportSizeBit) with 1. change (1 =? 0) with false. cbv iota zeta.
  change (TransportSizeBit =b transportTimer) with false. change (TransportSizeBit =b transportCounter) with false.
  change (TransportSizeBit =b TransportSizeBit) with true. cbn [orb andb negb]. rewrite xorb_false_r, orb_false_r.
  destruct (timerOrCounter (BitArea addr)) eqn:Et; [done|].
  change (1 * 1 =? 0) with false. change (1 * 1 >? 1) with false. cbn [orb]. cbv iota. rewrite Z.mul_1_l.
  unfold s7anybit_in_range in Hr.
  destruct (land7_add (ByteOffset addr) (BitOffset addr)) as [-> ->]; [lia|].
  unfold byte_at. rewrite Er. simpl mbind.
  destruct (data r !! Z.to_nat (ByteOffset addr)) as [b|] eqn:Eb.
  - pose proof (lookup_lt_Some _ _ _ Eb). if_arith. by exists k, r, b.
  - apply lookup_ge_None_1 in Eb. by if_arith.
Qed.

Lemma land1_byte x : z2b (Z.land x 1) = if Z.testbit x 0 then x01 else x00.
Proof.
  change 1 with (Z.ones 1). rewrite Z.land_ones by lia. change (2 ^ 1) with 2.
  rewrite Z.bit0_odd. pose proof (Zmod_odd x) as H. destruct (Z.odd x); by rewrite H.
Qed.

Lemma readItem_bit m addr :
  s7anybit_in_range addr -> readItem m (bit_spec_of addr) [] = Ok (bit_answer m addr).
Proof.
  intros Hr. pose proof (resolve_bit m addr Hr) as H. unfold readItem, bit_answer.
  change (Syntax (bit_spec_of addr) =b SyntaxIDDBRead) with false. cbv iota.
  destruct (bit_outcome m addr) as [v|c] eqn:E; [|by rewrite H].
  destruct H as (k & r & b & _ & _ & _ & Hb & -> & ->). unfold readResult. simpl.
  pose proof (lookup_lt_Some _ _ _ Hb). unfold s7anybit_in_range in Hr.
  assert (Hsl : slice (data r) (ByteOffset addr) (ByteOffset addr + 1) = Ok [b]).
  { rewrite slice_ok by lia. f_equal. replace (Z.to_nat (ByteOffset addr + 1 - ByteOffset addr)) with 1%nat by lia.
    by rewrite (drop_S _ _ _ Hb). }
  rewrite Hsl. simpl. unfold mret, res_ret. rewrite land1_byte.
  by rewrite Z.shiftr_spec, Z.add_0_l by lia.
Qed.

(** ** The handler on one-item jobs *)

Lemma framed_job ref param dat :
  is_u16 ref -> len param <= MaxUint16 -> len dat <= MaxUint16 ->
  well_framed (s7Header ROSCTRJob ref (len param) (len dat) ++ param ++ dat) ROSCTRJob ref param dat.
Proof. intros Hr Hp Hd. split; [done|]. split; [done|]. split; [done|]. by exists x00, x00. Qed.

Lemma read_one s ref addr_spec param r :
  session_ok s -> ParseReadVarRequest param = Ok [addr_spec] ->
  Syntax addr_spec <> SyntaxIDDBRead -> readItem (regions s) addr_spec [] = Ok r ->
  18 + len (RData r) <= pduSize s ->
  read s ref param = Ok (ack_read ref r).
Proof.
  intros Hs Hp Hsyn Hr Hfit.
  destruct (read_spec s ref param [addr_spec] Hs Hp) as (rss & results & _ & Hm & Hres & Hlen & Hread & _).
  apply Forall2_cons_inv_l in Hm as (rs & ? & Hrm & Hnil & ->). apply Forall2_nil_inv_l in Hnil as ->.
  unfold ranges_match in Hrm. rewrite (beq_ne _ _ Hsyn) in Hrm. subst rs.
  cbn [readItems] in Hres. rewrite Hr in Hres. simpl in Hres. apply Ok_inj in Hres as <-.
  destruct Hs as (_ & ? & ?).
  assert (Hd : len (readVarData [r]) = 4 + len (RData r)) by (rewrite len_readVarData_cons; simpl; lia).
  rewrite Hread. change (AckDataHeaderSize + 2) with 14. cbv zeta. if_arith.
  rewrite EncodeReadVarResponse_ok; [done | simpl; lia | unfold MaxUint16; lia].
Qed.

Lemma dispatch_read s ref param dat fn rest a :
  param = fn :: rest -> fn = FuncReadVar -> read s ref param = Ok a ->
  dispatch s ROSCTRJob ref param dat = Ok (s, Some a, true).
Proof.
  intros -> -> Hr. unfold dispatch. simpl (IsUserdata _). simpl (negb (IsJob _)). cbv iota. simpl length.
  if_arith. simpl idx. simpl. by rewrite Hr.
Qed.

Lemma EncodeReadVarRequest_range ref addr req :
  EncodeReadVarRequest ref [addr] = Ok req -> s7any_in_range addr.
Proof.
  unfold EncodeReadVarRequest. case_if; [done|]. intros H. apply bind_Ok_inv in H as (items & H & _).
  cbn [encodeItems] in H. apply bind_Ok_inv in H as (it & H & _). by eapply EncodeS7Any_Ok_inv.
Qed.

Lemma handle_read_bytes s ref addr req :
  session_ok s -> 1 <= ref <= MaxUint16 -> 1 <= Size addr -> 18 + Size addr <= pduSize s ->
  EncodeReadVarRequest ref [addr] = Ok req ->
  handle s req = Ok (s, Some (ack_read ref (read_answer (regions s) addr)), true).
Proof.
  unfold MaxUint16. intros Hs Href Hsz Hpdu E. pose proof (EncodeReadVarRequest_range _ _ _ E) as Hr.
  rewrite EncodeReadVarRequest_one in E by done. apply Ok_inj in E as <-.
  set (param := [FuncReadVar; x01] ++ _).
  rewrite (handle_framed s _ ROSCTRJob ref param []).
  2: { rewrite <- (app_nil_r param). apply (framed_job ref param []); unfold is_u16, MaxUint16; simpl; lia. }
  pose proof Hs as (_ & ? & ?).
  assert (Hl : len (RData (read_answer (regions s) addr)) <= Size addr).
  { unfold read_answer. destruct (read_outcome (regions s) addr) eqn:Eo; simpl; [|lia].
    apply read_outcome_len in Eo. lia. }
  eapply dispatch_read; [done | done|].
  eapply (read_one _ _ (spec_of addr)); [done | | done | apply readItem_bytes; [done | done | lia] | lia].
  unfold param, ParseReadVarRequest, s7any_in_range, MaxS7AnyDBNumber, MaxS7AnyCount in *.
  rewrite MaxS7AnyByteOffset_value in Hr. apply parseVarSpecs_S7Any; unfold is_u16; lia.
Qed.

Lemma handle_read_bit s ref addr req :
  session_ok s -> 1 <= ref <= MaxUint16 -> 19 <= pduSize s ->
  EncodeReadVarBitRequest ref addr = Ok req ->
  handle s req = Ok (s, Some (ack_read ref (bit_answer (regions s) addr)), true).
Proof.
  unfold MaxUint16. intros Hs Href Hpdu E.
  assert (Hr : s7anybit_in_range addr).
  { destruct (decide (s7anybit_in_range addr)) as [|Hn]; [done|].
    destruct (EncodeS7AnyBit_err _ Hn) as (e & He & _). unfold EncodeReadVarBitRequest in E. by rewrite He in E. }
  destruct (encode_bit_requests ref addr true Hr) as [E' _]. rewrite E in E'. apply Ok_inj in E' as ->.
  set (param := [FuncReadVar; x01] ++ _).
  rewrite (handle_framed s _ ROSCTRJob ref param []).
  2: { rewrite <- (app_nil_r param). apply (framed_job ref param []); unfold is_u16, MaxUint16; simpl; lia. }
  pose proof Hs as (_ & ? & ?). destruct (bit_answer_ok (regions s) addr) as [_ Hl].
  eapply dispatch_read; [done | done|].
  eapply (read_one _ _ (bit_spec_of addr)); [done | | done | by apply readItem_bit | lia].
  unfold param, ParseReadVarRequest, s7anybit_in_range, MaxS7AnyDBNumber in *.
  rewrite MaxS7AnyByteOffset_value in Hr. apply parseVarSpecs_S7Any; unfold is_u16; lia.
Qed.

Lemma writeItem_bytes m addr value item :
  s7any_in_range addr -> 1 <= Size addr -> Size addr = len value -> WData item = value ->
  exists code m', writeItem m (spec_of addr) item = Ok (m', code) /\ write_outcome m addr value code m'.
Proof.
  intros Hr Hs Hv Hw. pose proof (resolve_bytes m addr Hr Hs) as H. unfold writeItem, write_outcome.
  destruct (read_outcome m addr) as [b|c] eqn:E.
  2: { rewrite H. apply read_outcome_code in E. rewrite (beq_ne _ _ E). simpl. by exists c, m. }
  destruct H as (k & r & Hk & Hm & Ht & Hsl & ->). simpl (_ ≠b _). cbv iota.
  cbn [size isBit reg tarea start regKey]. rewrite Hw. replace (len value =? Size addr) with true by lia.
  cbn [negb]. cbv iota. rewrite Ht, orb_false_r.
  destruct (readOnly r) eqn:Ero.
  { exists RetCodeAccessFault, m. split; [done|]. exists k, r. by rewrite Ero. }
  apply slice_Ok_inv in Hsl as (Hst & Hend & _).
  destruct (overwrite_ok m k r (Start addr) value) as (d & Hd & Ho); [done | lia | lia |].
  rewrite Hd. rewrite bind_Ok. eexists _, _. split; [rewrite <- Ero; done|]. exists k, r. by rewrite Ero in *.
Qed.

Lemma writeItem_bit m addr (value : bool) item :
  s7anybit_in_range addr -> WData item = [if value then x01 else x00] ->
  exists code m', writeItem m (bit_spec_of addr) item = Ok (m', code) /\ write_bit_outcome m addr value code m'.
Proof.
  intros Hr Hw. pose proof (resolve_bit m addr Hr) as H. unfold writeItem, write_bit_outcome.
  destruct (bit_outcome m addr) as [v|c] eqn:E.
  2: { rewrite H. apply bit_outcome_code in E. rewrite (beq_ne _ _ E). simpl. by exists c, m. }
  destruct H as (k & r & b & Hk & Hm & Ht & Hb & _ & ->). simpl (_ ≠b _). cbv iota.
  cbn [size isBit reg tarea start regKey bit]. rewrite Hw. simpl length. change (Z.of_nat 1 =? 1) with true.
  cbn [negb]. cbv iota. rewrite Ht, orb_false_r.
  destruct (readOnly r) eqn:Ero.
  { exists RetCodeAccessFault, m. split; [done|]. exists k, r. by rewrite Ero. }
  unfold s7anybit_in_range in Hr.
  assert (Hi : idx (data r) (ByteOffset addr) = Ok b) by (apply idx_lookup; split; [lia | done]).
  change (idx [if value then x01 else x00] 0) with (Ok (if value then x01 else x00)).
  rewrite bind_Ok, Hi, bind_Ok, land_1_testbit.
  eexists _, _. split; [done|]. exists k, r. rewrite Ero. split; [done|]. split; [done|]. split; [done|].
  replace (Z.testbit (b2z (if value then x01 else x00)) 0) with value by by destruct value.
  rewrite <- Ero. apply bit_written_insert; [done | done | lia].
Qed.

(** A one-item write job is answered with the item's code. *)
Lemma dispatch_write_one s ref param dat spec item m' code :
  session_ok s -> ParseWriteVarRequest param dat = Ok ([spec], [item]) ->
  writeItem (regions s) spec item = Ok (m', code) ->
  dispatch s ROSCTRJob ref param dat =
    Ok (mkSession (cfgMaxPDUSize s) m' (pduSize s), Some (ack_write ref code), true).
Proof.
  intros Hs Hp Hw. destruct (write_spec s ref param dat [spec] [item] Hs Hp) as (m2 & codes & Hl & _ & _ & Hwr).
  cbn [writeLoop] in Hl. change (idx [item] 0) with (Ok item) in Hl. rewrite bind_Ok, Hw in Hl. simpl in Hl.
  injection Hl as <- <-.
  pose proof (ParseWriteVarRequest_inv _ _ _ _ Hp) as [Hps _].
  destruct (parseVarSpecs_cons _ _ _ Hps) as (rest & Hparam).
  unfold dispatch. simpl (IsUserdata _). simpl (negb (IsJob _)). cbv iota.
  replace (len param =? 0) with false by (rewrite Hparam; simpl length; lia). cbv iota. simpl orb. cbv iota.
  replace (idx param 0) with (Ok FuncWriteVar) by by rewrite Hparam. rewrite bind_Ok.
  change (FuncWriteVar =b FuncSetupComm) with false. change (FuncWriteVar =b FuncReadVar) with false.
  change (FuncWriteVar =b FuncWriteVar) with true. cbv iota. by rewrite Hwr.
Qed.

Lemma handle_write_bytes s ref addr value req :
  session_ok s -> 1 <= ref <= MaxUint16 -> 1 <= len value -> Size addr = len value ->
  EncodeWriteVarRequest ref addr value = Ok req ->
  exists code m', write_outcome (regions s) addr value code m' /\
    handle s req = Ok (mkSession (cfgMaxPDUSize s) m' (pduSize s), Some (ack_write ref code), true).
Proof.
  unfold MaxUint16. intros Hs Href Hv Hsz E.
  assert (Hr : s7any_in_range addr /\ len value <= MaxWriteVarBytes).
  { unfold EncodeWriteVarRequest in E. case_if_in E; [done|]. apply bind_Ok_inv in E as (it & E & _).
    split; [by eapply EncodeS7Any_Ok_inv|]. change MaxWriteVarBytes with 8191. unfold MaxUint16 in *. b2p. lia. }
  destruct Hr as [Hr Hmax]. rewrite EncodeWriteVarRequest_ok in E by done. apply Ok_inj in E as <-.
  set (param := [FuncWriteVar; x01] ++ putS7Any TransportSizeByte (Size addr) (DBNumber addr) (Area addr) (Start addr * 8)).
  set (dat := [RetCodeSuccess; x04] ++ put16 (len value * 8) ++ value ++ (if len value mod 2 =? 0 then [] else [x00])).
  assert (Hld : len dat = 4 + len value + len value mod 2).
  { unfold dat. rewrite !length_app, length_put16.
    destruct (Z.eqb_spec (len value mod 2) 0); simpl length; Z.div_mod_to_equations; lia. }
  change MaxWriteVarBytes with 8191 in Hmax.
  rewrite (handle_framed s _ ROSCTRJob ref param dat).
  2: { rewrite <- Hld. apply (framed_job ref param dat);
       [unfold is_u16; lia | unfold MaxUint16; simpl; lia | unfold MaxUint16; rewrite Hld; Z.div_mod_to_equations; lia]. }
  pose proof (ParseWriteVarRequest_bytes addr value Hr Hmax) as Hp.
  destruct (writeItem_bytes (regions s) addr value (mkWriteVarData RetCodeSuccess x04 (len value * 8) value))
    as (code & m' & Hw & Ho); [done | lia | done | done |].
  exists code, m'. split; [done|]. by eapply dispatch_write_one.
Qed.

Lemma handle_write_bit s ref addr value req :
  session_ok s -> 1 <= ref <= MaxUint16 -> EncodeWriteVarBitRequest ref addr value = Ok req ->
  exists code m', write_bit_outcome (regions s) addr value code m' /\
    handle s req = Ok (mkSession (cfgMaxPDUSize s) m' (pduSize s), Some (ack_write ref code), true).
Proof.
  unfold MaxUint16. intros Hs Href E.
  assert (Hr : s7anybit_in_range addr).
  { destruct (decide (s7anybit_in_range addr)) as [|Hn]; [done|].
    destruct (EncodeS7AnyBit_err _ Hn) as (e & He & _). unfold EncodeWriteVarBitRequest in E. by rewrite He in E. }
  destruct (encode_bit_requests ref addr value Hr) as [_ E']. rewrite E in E'. apply Ok_inj in E' as ->.
  set (item := putS7Any _ _ _ _ _). set (dat := [x00; DataTransportSizeBit; _; _; _; _]).
  rewrite (handle_framed s _ ROSCTRJob ref ([FuncWriteVar; x01] ++ item) dat).
  2: { apply (framed_job ref ([FuncWriteVar; x01] ++ item) dat); unfold is_u16, MaxUint16; simpl; lia. }
  pose proof (ParseWriteVarRequest_bit addr value Hr) as Hp.
  destruct (writeItem_bit (regions s) addr value
    (mkWriteVarData x00 DataTransportSizeBit 1 [if value then x01 else x00])) as (code & m' & Hw & Ho); [done | done |].
  exists code, m'. split; [done|]. by eapply dispatch_write_one.
Qed.

(** ** A network whose far end is a session *)

(** A connection: the negotiated PDU size of its session and the answers
    not yet read. *)
Record LConn := mkLConn { lc_pdu : Z; lc_out : list bytes }.

Record Net := mkNet {
  n_maxPDU : Z;
  n_mem : memory;
  n_conns : gmap Z LConn;
  n_next : Z;
}.

Definition net_session (w : Net) (lc : LConn) : session := mkSession (n_maxPDU w) (n_mem w) (lc_pdu lc).

Definition net_set (w : Net) (conn : Conn) (s : session) (out : list bytes) : Net :=
  mkNet (n_maxPDU w) (regions s) (<[conn := mkLConn (pduSize s) out]> (n_conns w)) (n_next w).

Definition net_drop (w : Net) (conn : Conn) : Net :=
  mkNet (n_maxPDU w) (n_mem w) (delete conn (n_conns w)) (n_next w).

Definition net_write (conn : Conn) (req : bytes) (w : Net) : (error + unit) * Net :=
  match n_conns w !! conn with
  | None => (inl (Sentinel CotpErrClosed), w)
  | Some lc =>
      match handle (net_session w lc) req with
      | Ok (s, Some out, true) => (inr tt, net_set w conn s (lc_out lc ++ [out]))
      | Ok (s, None, true) => (inr tt, net_set w conn s (lc_out lc))
      | _ => (inr tt, net_drop w conn)
      end
  end.

Definition net_read (conn : Conn) (w : Net) : (error + bytes) * Net :=
  match n_conns w !! conn with
  | None => (inl (Sentinel CotpErrClosed), w)
  | Some lc =>
      match lc_out lc with
      | [] => (inl (External true "i/o timeout"), w)
      | a :: out => (inr a, net_set w conn (net_session w lc) out)
      end
  end.

#[export] Instance net_transport : Transport Net := {|
  t_dial _ _ _ w := (inr (n_next w), mkNet (n_maxPDU w) (n_mem w) (n_conns w) (n_next w + 1));
  t_cotpConnect _ raw _ _ _ w :=
    (inr raw, mkNet (n_maxPDU w) (n_mem w) (<[raw := mkLConn (n_maxPDU w) []]> (n_conns w)) (n_next w));
  t_WriteTSDU _ := net_write;
  t_ReadTSDU _ := net_read;
  t_Close conn w :=
    match n_conns w !! conn with
    | None => (Some (Sentinel CotpErrClosed), w)
    | Some _ => (None, net_drop w conn)
    end;
  t_ctxErr _ w := (None, w);
  t_wait _ _ w := (false, w);
  t_duration _ := ""
|}.

Definition net_live (ctx : Ctx) (conn : Conn) (w : Net) : Prop :=
  is_nil ctx = false /\
  exists pdu, n_conns w !! conn = Some (mkLConn pdu []) /\
    session_ok (mkSession (n_maxPDU w) (n_mem w) pdu).

Definition net_pdu (conn : Conn) (w : Net) : Z :=
  match n_conns w !! conn with Some lc => lc_pdu lc | None => 0 end.

(** Writing a request the session answers, and reading the answer. *)
Lemma net_exchange ctx conn w pdu req s a :
  n_conns w !! conn = Some (mkLConn pdu []) ->
  handle (mkSession (n_maxPDU w) (n_mem w) pdu) req = Ok (s, Some a, true) ->
  exists w', exchange ctx conn req w a w' /\ n_conns w' !! conn = Some (mkLConn (pduSize s) []) /\
    n_mem w' = regions s /\ n_maxPDU w' = n_maxPDU w /\ n_next w' = n_next w.
Proof.
  intros Hc Hh. eexists. split; [|split_and!].
  - exists (net_set w conn s [a]), (net_set w conn s [a]). split_and!.
    + simpl. unfold net_write, net_session. rewrite Hc. simpl lc_pdu. by rewrite Hh.
    + done.
    + simpl. unfold net_read. simpl n_conns. rewrite lookup_insert_eq. simpl lc_out. cbv iota. reflexivity.
  - simpl. by rewrite lookup_insert_eq.
  - done.
  - done.
  - done.
Qed.

Definition net_reader : S7Reader Net.
Proof.
  refine {| peer_memory := n_mem; peer_pdu := net_pdu; live := net_live |}.
  - by intros ctx conn w [? _].
  - intros ctx conn w H. by exists w.
  - intros ctx conn w d H. by exists w.
  - intros ctx conn w ref addr req (Hn & pdu & Hc & Hs) Href Hsz Hp E.
    unfold net_pdu in *. rewrite Hc in *. simpl in *.
    pose proof (handle_read_bytes _ ref addr req Hs Href Hsz Hp E) as Hh.
    destruct (net_exchange ctx conn w pdu req _ _ Hc Hh) as (w' & Hex & Hc' & Hm & Hx & _).
    exists w'. split; [done|]. rewrite Hc', Hm. simpl. split; [|done].
    split; [done|]. exists pdu. by rewrite Hm, Hx.
  - intros ctx conn w ref addr req (Hn & pdu & Hc & Hs) Href Hp E.
    unfold net_pdu in *. rewrite Hc in *. simpl in *.
    pose proof (handle_read_bit _ ref addr req Hs Href Hp E) as Hh.
    destruct (net_exchange ctx conn w pdu req _ _ Hc Hh) as (w' & Hex & Hc' & Hm & Hx & _).
    exists w'. split; [done|]. rewrite Hc', Hm. simpl. split; [|done].
    split; [done|]. exists pdu. by rewrite Hm, Hx.
Defined.

#[export] Instance net_peer : S7Peer Net.
Proof.
  refine {| peer_reader := net_reader |}; cbn [live peer_memory peer_pdu net_reader].
  - intros ctx conn w ref addr value req (Hn & pdu & Hc & Hs) Href Hv Hsz E.
    destruct (handle_write_bytes _ ref addr value req Hs Href Hv Hsz E) as (code & m' & Ho & Hh).
    destruct (net_exchange ctx conn w pdu req _ _ Hc Hh) as (w' & Hex & Hc' & Hm & Hx & _).
    exists w', code. split; [done|]. unfold net_pdu. rewrite Hc, Hc', Hm. simpl in *. split; [|done].
    split; [done|]. exists pdu. rewrite Hm, Hx. split; [done|].
    destruct Hs as (Hok & ? & ?). split; [|done]. simpl.
    eapply memory_ok_shape; [|exact Hok]. eapply write_outcome_shape, Ho.
  - intros ctx conn w ref addr value req (Hn & pdu & Hc & Hs) Href E.
    destruct (handle_write_bit _ ref addr value req Hs Href E) as (code & m' & Ho & Hh).
    destruct (net_exchange ctx conn w pdu req _ _ Hc Hh) as (w' & Hex & Hc' & Hm & Hx & _).
    exists w', code. split; [done|]. unfold net_pdu. rewrite Hc, Hc', Hm. simpl in *. split; [|done].
    split; [done|]. exists pdu. rewrite Hm, Hx. split; [done|].
    destruct Hs as (Hok & ? & ?). split; [|done]. simpl.
    eapply memory_ok_shape; [|exact Hok]. eapply write_bit_outcome_shape, Ho.
Defined.

(** ** Connecting *)

Lemma EncodeSetupCommRequest_ok ref calling called size :
  is_u16 calling -> is_u16 called -> is_u16 size ->
  EncodeSetupCommRequest ref calling called size =
    Ok (s7Header ROSCTRJob ref 8 0 ++ [FuncSetupComm; x00] ++ put16 calling ++ put16 called ++ put16 size).
Proof.
  intros. unfold EncodeSetupCommRequest. rewrite !checkedUint16_ok by done. rewrite !bind_Ok.
  rewrite encodeMessage_ok by (unfold MaxUint16; simpl; lia). by rewrite app_nil_r.
Qed.

(** The session grants the smaller PDU size and at most two parallel jobs. *)
Lemma handle_setup s ref calling called size req :
  session_ok s -> is_u16 ref -> is_u16 calling -> is_u16 called -> is_u16 size ->
  EncodeSetupCommRequest ref calling called size = Ok req ->
  exists s' param, session_ok s' /\ regions s' = regions s /\ cfgMaxPDUSize s' = cfgMaxPDUSize s /\
    pduSize s' = Z.min size (cfgMaxPDUSize s) /\
    handle s req = Ok (s', Some (s7Header ROSCTRAckData ref (len param) 0 ++ [x00; x00] ++ param), true) /\
    len param = 8 /\ idx param 0 = Ok FuncSetupComm /\
    ParseSetupCommResponse param =
      Ok (mkSetupCommResponse (Z.max 1 (Z.min calling maxAmQ)) (Z.max 1 (Z.min called maxAmQ)) (pduSize s')).
Proof.
  intros Hs Href H1 H2 H3 E. rewrite EncodeSetupCommRequest_ok in E by done. apply Ok_inj in E as <-.
  set (p := [FuncSetupComm; x00] ++ put16 calling ++ put16 called ++ put16 size).
  pose proof (ParseSetupCommRequest_ok calling called size H1 H2 H3) as Hp. fold p in Hp.
  destruct (setup_ok s ref p _ Hs Hp) as (s' & a & Hset & Hs' & Hm & Hc & Hsz & cg & cd & Hcg & Hcd & Ecg & Ecd & Ha);
    [done|]. simpl in *.
  pose (param := [FuncSetupComm; x00] ++ put16 cg ++ put16 cd ++ put16 (pduSize s')).
  exists s', param. split; [done|]. split; [done|]. split; [done|]. split; [done|].
  assert (Hpdu : is_u16 (pduSize s')).
  { destruct Hs as (_ & ? & ?). unfold is_u16 in *. lia. }
  split; [|split; [done|split; [done|]]].
  - rewrite (handle_framed s _ ROSCTRJob ref p []).
    2: { rewrite <- (app_nil_r p). apply (framed_job ref p []); [done | unfold MaxUint16; simpl; lia..]. }
    change (dispatch s ROSCTRJob ref p []) with
      (match setup s ref p with
       | (s, Ok out) => mret (s, Some out, true)
       | (s, Err _) => answered s (notImplemented ref p)
       | (_, Panic) => Panic
       end).
    rewrite Hset. rewrite EncodeAckData_ok in Ha by (unfold MaxUint16; simpl; lia).
    apply Ok_inj in Ha as <-. rewrite app_nil_r. done.
  - unfold param. rewrite <- (app_nil_r (put16 (pduSize s'))).
    rewrite ParseSetupCommResponse_ok by (done || (unfold is_u16; lia)). by rewrite <- Ecg, <- Ecd.
Qed.

(** ** Connecting over any network that answers the setup *)

(** Options [Connect] accepts, without automatic rack/slot detection. *)
Definition options_ok (o : options) : Prop :=
  0 <= o_port o <= 65535 /\ 0 <= o_timeout o /\ 1 <= o_maxPDU o <= MaxUint16 /\
  is_u16 (o_maxAmqCalling o) /\ is_u16 (o_maxAmqCalled o) /\
  o_autoRackSlot o = false /\ 0 <= o_rack o <= 7 /\ 0 <= o_slot o <= 31.

Section Connecting.
Context {W : Type} `{!Transport W}.

Lemma performS7Setup_run ctx conn c (w w1 w2 w3 : W) calling called size req param setup :
  is_nil ctx = false -> EncodeSetupCommRequest 1 calling called size = Ok req ->
  t_ctxErr ctx w = (None, w1) -> t_WriteTSDU ctx conn req w1 = (inr tt, w2) ->
  t_ReadTSDU ctx conn w2 = (inr (s7Header ROSCTRAckData 1 (len param) 0 ++ [x00; x00] ++ param), w3) ->
  len param = 8 -> idx param 0 = Ok FuncSetupComm -> ParseSetupCommResponse param = Ok setup ->
  performS7Setup ctx conn 1 calling called size (c, w) = (Ok setup, (c, w3)).
Proof.
  intros Hn E He Hw Hr Hl H0 Hp. unfold performS7Setup.
  rewrite (bind_run_Ok _ _ _ (c, w1) tt).
  2: { unfold check_ctx, ctx_Err. rewrite Hn. rewrite (bind_run_Ok _ _ _ (c, w1) None); [done|]. unfold observe. cbn [fst snd]. by rewrite He. }
  rewrite (bind_run_Ok _ _ _ (c, w1) (inr req)) by (unfold attempt, lift; by rewrite E). cbv iota.
  rewrite (bind_run_Ok _ _ _ (c, w2) tt) by (unfold WriteTSDU, call; cbn [fst snd]; by rewrite Hw).
  rewrite (bind_run_Ok _ _ _ (c, w3) _) by (unfold ReadTSDU, call; cbn [fst snd]; by rewrite Hr).
  rewrite (bind_run_Ok _ _ _ (c, w3) (inr (mkS7Header x32 ROSCTRAckData 0 1 (len param) 0 x00 x00, param))).
  2: { unfold attempt, lift. rewrite ParseS7Header_ack; [done | done | unfold is_u16; lia.. | lia]. }
  cbv iota beta. cbn [PDURef ErrorClass ErrorCode]. simpl (negb (1 =? 1)). simpl (_ || _). cbv iota.
  rewrite Hl. rewrite (bind_run_Ok _ _ _ (c, w3) (Some FuncSetupComm))
    by (unfold lift; simpl (8 >? 0); cbv iota; by rewrite H0).
  cbv iota. simpl (_ ≠b _). cbv iota. rewrite (bind_run_Ok _ _ _ (c, w3) tt) by done.
  by rewrite (bind_run_Ok _ _ _ (c, w3) (inr setup)) by (unfold attempt, lift; by rewrite Hp).
Qed.

(** A setup that is granted leaves the client connected, and the old
    connection to be closed. *)
Lemma connectOnce_run ctx c (w w1 w2 w3 : W) rack slot raw conn setup :
  is_nil ctx = false -> 0 <= rack <= 7 -> 0 <= slot <= 31 ->
  (forall timeout addr, t_dial ctx timeout addr w = (inr raw, w1)) ->
  (forall ctx' l r n, t_cotpConnect ctx' raw l r n w1 = (inr conn, w2)) ->
  (forall sctx, is_nil sctx = false ->
     performS7Setup sctx conn 1 (o_maxAmqCalling (c_opts c)) (o_maxAmqCalled (c_opts c)) (o_maxPDU (c_opts c)) (c, w2) = (Ok setup, (c, w3))) ->
  exists local remote, connectOnce ctx rack slot (c, w) =
    (attempt (closeCOTP (c_conn c)) ;; mret tt)
      (set_connection (Some conn) rack slot local remote (PDUSize setup) (MaxAmqCalling setup) (MaxAmqCalled setup) c, w3).
Proof.
  intros Hn Hr Hsl Hd Hc Hset. set (o := c_opts c) in *.
  unfold connectOnce. rewrite (bind_run_Ok _ _ _ (c, w) c) by done. fold o. cbv zeta.
  assert (Ht : exists local remote, attempt (lift (
      if o_useExplicit o then mret (o_localTSAP o, o_remoteTSAP o)
      else local ← BuildTSAP 1 0 0; remote ← BuildTSAP 3 rack slot; mret (local, remote)))
      (c, w) = (Ok (inr (local, remote)), (c, w))).
  { unfold attempt, lift. destruct (o_useExplicit o); [by eexists _, _|].
    rewrite !BuildTSAP_value by lia. by eexists _, _. }
  destruct Ht as (local & remote & Ht). rewrite (bind_run_Ok _ _ _ _ _ Ht). cbv iota. exists local, remote.
  rewrite (bind_run_Ok _ _ _ (c, w2) conn).
  2: { unfold dialCOTP, dialTCP, connectCOTP. rewrite Hn. rewrite (bind_run_Ok _ _ _ (c, w1) raw).
       - unfold call. cbn [fst snd]. by rewrite Hc.
       - rewrite (bind_run_Ok _ _ _ (c, w1) (inr raw)); [done|]. unfold attempt, call. cbn [fst snd]. by rewrite Hd. }
  assert (Hctx : exists sctx, withOptionalTimeout ctx (o_timeout o) = Ok sctx /\ is_nil sctx = false).
  { unfold withOptionalTimeout. rewrite Hn. case_if; by eexists. }
  destruct Hctx as (sctx & Hctx & Hn'). rewrite (bind_run_Ok _ _ _ (c, w2) sctx) by (unfold lift; by rewrite Hctx).
  rewrite (bind_run_Ok _ _ _ (c, w3) (inr setup)) by (unfold attempt; by rewrite (Hset sctx Hn')). cbv iota.
  by rewrite (bind_run_Ok _ _ _ (c, w3) (c_conn c)) by done.
Qed.

Lemma Connect_once ctx c (w : W) :
  options_ok (c_opts c) -> Connect ctx (c, w) = connectOnce ctx (o_rack (c_opts c)) (o_slot (c_opts c)) (c, w).
Proof.
  intros (H1 & H2 & H3 & _ & _ & H4 & H5 & H6).
  unfold Connect. rewrite (bind_run_Ok _ _ _ (c, w) (c_opts c)) by done. unfold MaxUint16 in *.
  do 3 if_arith. rewrite H4. simpl (negb false). cbv iota.
  rewrite (bind_run_Ok _ _ _ (c, w) tt); [done|]. if_arith.
  unfold attempt, lift, ValidateRackSlot, mbind, M_bind. by do 2 if_arith.
Qed.
End Connecting.

(** ** Connecting to the session *)

Lemma performS7Setup_net ctx conn c w pdu calling called size :
  net_live ctx conn w -> n_conns w !! conn = Some (mkLConn pdu []) ->
  is_u16 calling -> is_u16 called -> is_u16 size ->
  exists w', performS7Setup ctx conn 1 calling called size (c, w) =
      (Ok (mkSetupCommResponse (Z.max 1 (Z.min calling maxAmQ)) (Z.max 1 (Z.min called maxAmQ))
             (Z.min size (n_maxPDU w))), (c, w')) /\
    net_live ctx conn w' /\ net_pdu conn w' = Z.min size (n_maxPDU w) /\ n_mem w' = n_mem w /\
    n_maxPDU w' = n_maxPDU w /\ n_next w' = n_next w.
Proof.
  intros (Hn & pdu' & Hc & Hs) Hc' H1 H2 H3. rewrite Hc in Hc'. injection Hc' as ->.
  destruct (EncodeSetupCommRequest 1 calling called size) as [req| |] eqn:E;
    [|rewrite EncodeSetupCommRequest_ok in E by done; done..].
  destruct (handle_setup _ 1 calling called size req Hs) as (s' & param & Hs' & Hm & Hx & Hsz & Hh & Hl & H0 & Hp);
    [unfold is_u16; lia | done..|].
  destruct (net_exchange ctx conn w pdu req _ _ Hc Hh) as (w' & (w1 & w2 & Hw & He & Hr) & Hc2 & Hm2 & Hx2 & Hn2).
  simpl in He. injection He as <-. simpl in Hm, Hx, Hsz.
  exists w'. split.
  - by rewrite (performS7Setup_run ctx conn c w w w1 w' calling called size req param _ Hn E ltac:(done) Hw Hr Hl H0 Hp), Hsz.
  - unfold net_live, net_pdu. rewrite Hc2, Hm2, Hx2. simpl. split; [|done]. split; [done|].
    exists (pduSize s'). split; [done|]. destruct s'; simpl in *. by subst.
Qed.

Definition net_ok (w : Net) : Prop := memory_ok (n_mem w) /\ 240 <= n_maxPDU w <= 4096.

Lemma closeCOTP_net old c w :
  exists w', attempt (closeCOTP old) (c, w) = (Ok (inr tt), (c, w')) /\
    n_mem w' = n_mem w /\ n_maxPDU w' = n_maxPDU w /\ n_next w' = n_next w /\
    (forall conn, old <> Some conn -> n_conns w' !! conn = n_conns w !! conn).
Proof.
  destruct old as [o|]; [|by exists w].
  destruct (n_conns w !! o) as [lc|] eqn:E.
  - exists (net_drop w o). split; [|split_and!; [done | done | done |]].
    + unfold attempt, closeCOTP, mbind, M_bind, observe. simpl. by rewrite E.
    + intros conn Hne. simpl. rewrite lookup_delete_ne by congruence. done.
  - exists w. split; [|done]. unfold attempt, closeCOTP, mbind, M_bind, observe. simpl. by rewrite E.
Qed.

Lemma connectOnce_net ctx c w rack slot :
  is_nil ctx = false -> net_ok w -> options_ok (c_opts c) -> client_pduRef_ok c ->
  c_conn c <> Some (n_next w) -> 0 <= rack <= 7 -> 0 <= slot <= 31 ->
  exists c' w', connectOnce ctx rack slot (c, w) = (Ok tt, (c', w')) /\
    connected ctx (n_next w) c' w' /\
    c_pduSize c' = Z.min (o_maxPDU (c_opts c)) (n_maxPDU w) /\ n_mem w' = n_mem w /\
    c_rack c' = rack /\ c_slot c' = slot /\ n_next w < n_next w'.
Proof.
  intros Hn (Hm & Hx) Ho Href Hfresh Hr Hsl. set (conn := n_next w) in *.
  pose proof Ho as (_ & _ & Hmax & Hcalling & Hcalled & _). unfold MaxUint16 in Hmax.
  pose (w1 := mkNet (n_maxPDU w) (n_mem w) (<[conn := mkLConn (n_maxPDU w) []]> (n_conns w)) (n_next w + 1)).
  assert (Hc1 : n_conns w1 !! conn = Some (mkLConn (n_maxPDU w) [])) by (simpl; by rewrite lookup_insert_eq).
  assert (Hset : exists w2, (forall sctx, is_nil sctx = false ->
    performS7Setup sctx conn 1 (o_maxAmqCalling (c_opts c)) (o_maxAmqCalled (c_opts c)) (o_maxPDU (c_opts c)) (c, w1) =
      (Ok (mkSetupCommResponse (Z.max 1 (Z.min (o_maxAmqCalling (c_opts c)) maxAmQ)) (Z.max 1 (Z.min (o_maxAmqCalled (c_opts c)) maxAmQ))
             (Z.min (o_maxPDU (c_opts c)) (n_maxPDU w))), (c, w2))) /\
    net_live ctx conn w2 /\ net_pdu conn w2 = Z.min (o_maxPDU (c_opts c)) (n_maxPDU w) /\ n_mem w2 = n_mem w /\ n_maxPDU w2 = n_maxPDU w /\ n_next w2 = n_next w1).
  { assert (Hlive : forall sctx, is_nil sctx = false -> net_live sctx conn w1).
    { intros sctx Hs. split; [done|]. exists (n_maxPDU w). split; [done|]. split; [done|]. simpl. lia. }
    destruct (performS7Setup_net ctx conn c w1 _ (o_maxAmqCalling (c_opts c)) (o_maxAmqCalled (c_opts c)) (o_maxPDU (c_opts c)) (Hlive ctx Hn) Hc1 Hcalling Hcalled)
      as (w2 & Hset & Hl2 & Hp2 & Hm2 & Hx2 & Hn2); [unfold is_u16; lia|].
    exists w2. split; [|done]. intros sctx Hs. etrans; [|exact Hset]. unfold performS7Setup, check_ctx, ctx_Err. by rewrite Hs, Hn. }
  destruct Hset as (w2 & Hset & Hl2 & Hp2 & Hm2 & Hx2 & Hn2).
  destruct (connectOnce_run ctx c w (mkNet (n_maxPDU w) (n_mem w) (n_conns w) (n_next w + 1)) w1 w2 rack slot conn conn _ Hn Hr Hsl ltac:(done) ltac:(done) Hset) as (local & remote & ->).
  simpl PDUSize. simpl MaxAmqCalling. simpl MaxAmqCalled. set (c' := set_connection _ _ _ _ _ _ _ _ c).
  destruct (closeCOTP_net (c_conn c) c' w2) as (w3 & E3 & Hm3 & Hx3 & Hn3 & Hk3).
  rewrite (bind_run_Ok _ _ _ _ _ E3). exists c', w3. split; [done|].
  destruct Hl2 as (_ & pdu2 & Hcc & Hok).
  split; [|split_and!; [done | by rewrite Hm3, Hm2 | done | done | rewrite Hn3, Hn2; simpl; lia]].
  split; [done|]. split; [|split; [exact Href|split; [done|]]].
  - simpl. unfold net_pdu in *. rewrite (Hk3 conn) by done. by rewrite Hcc in *.
  - exists pdu2. rewrite (Hk3 conn) by done. by rewrite Hm3, Hx3.
Qed.

Lemma Connect_dials ctx c w :
  is_nil ctx = false -> net_ok w -> options_ok (c_opts c) -> client_pduRef_ok c ->
  c_conn c <> Some (n_next w) ->
  exists c' w', Connect ctx (c, w) = (Ok tt, (c', w')) /\
    connected ctx (n_next w) c' w' /\
    c_pduSize c' = Z.min (o_maxPDU (c_opts c)) (n_maxPDU w) /\ n_mem w' = n_mem w /\ n_next w < n_next w'.
Proof.
  intros Hn Hw Ho Href Hfresh.
  destruct (connectOnce_net ctx c w (o_rack (c_opts c)) (o_slot (c_opts c)) Hn Hw Ho Href Hfresh)
    as (c' & w' & Hrun & Hc & Hp & Hm & _ & _ & Hlt); [apply Ho | apply Ho |].
  exists c', w'. by rewrite Connect_once.
Qed.

Lemma Connect_net ctx c w :
  is_nil ctx = false -> net_ok w -> options_ok (c_opts c) -> client_pduRef_ok c ->
  c_conn c <> Some (n_next w) ->
  exists c' w', Connect ctx (c, w) = (Ok tt, (c', w')) /\
    connected ctx (n_next w) c' w' /\
    c_pduSize c' = Z.min (o_maxPDU (c_opts c)) (n_maxPDU w) /\ n_mem w' = n_mem w.
Proof.
  intros Hn Hw Ho Href Hf. destruct (Connect_dials ctx c w Hn Hw Ho Href Hf) as (c' & w' & H1 & H2 & H3 & H4 & _). by exists c', w'.
Qed.

(** ** The sections of the write requests *)

Lemma EncodeWriteVarRequest_parts ref addr value req :
  EncodeWriteVarRequest ref addr value = Ok req ->
  s7any_in_range addr /\ len value <= MaxWriteVarBytes /\
  exists param dat, req = s7Header ROSCTRJob ref (len param) (len dat) ++ param ++ dat /\
    len param = 14 /\ len dat <= 8196 /\
    ParseWriteVarRequest param dat =
      Ok ([spec_of addr], [mkWriteVarData RetCodeSuccess x04 (len value * 8) value]).
Proof.
  intros E.
  assert (Hr : s7any_in_range addr /\ len value <= MaxWriteVarBytes).
  { unfold EncodeWriteVarRequest in E. case_if_in E; [done|]. apply bind_Ok_inv in E as (it & E & _).
    split; [by eapply EncodeS7Any_Ok_inv|]. change MaxWriteVarBytes with 8191. unfold MaxUint16 in *. b2p. lia. }
  destruct Hr as [Hr Hmax]. split; [done|]. split; [done|].
  rewrite EncodeWriteVarRequest_ok in E by done. apply Ok_inj in E as <-.
  exists ([FuncWriteVar; x01] ++ putS7Any TransportSizeByte (Size addr) (DBNumber addr) (Area addr) (Start addr * 8)),
    ([RetCodeSuccess; x04] ++ put16 (len value * 8) ++ value ++ (if len value mod 2 =? 0 then [] else [x00])).
  set (dat := [RetCodeSuccess; x04] ++ _).
  assert (Hld : len dat = 4 + len value + len value mod 2).
  { unfold dat. rewrite !length_app, length_put16.
    destruct (Z.eqb_spec (len value mod 2) 0); simpl length; Z.div_mod_to_equations; lia. }
  pose proof (ParseWriteVarRequest_bytes addr value Hr Hmax) as Hp. fold dat in Hp.
  change MaxWriteVarBytes with 8191 in Hmax.
  split_and!; [by rewrite Hld | done | rewrite Hld; Z.div_mod_to_equations; lia | done].
Qed.

Lemma EncodeWriteVarBitRequest_parts ref addr v req :
  EncodeWriteVarBitRequest ref addr v = Ok req ->
  s7anybit_in_range addr /\
  exists param dat, req = s7Header ROSCTRJob ref (len param) (len dat) ++ param ++ dat /\
    len param = 14 /\ len dat = 6 /\
    ParseWriteVarRequest param dat =
      Ok ([bit_spec_of addr], [mkWriteVarData x00 DataTransportSizeBit 1 [if v then x01 else x00]]).
Proof.
  intros E.
  assert (Hr : s7anybit_in_range addr).
  { destruct (decide (s7anybit_in_range addr)) as [|Hn]; [done|].
    destruct (EncodeS7AnyBit_err _ Hn) as (e & He & _). unfold EncodeWriteVarBitRequest in E. by rewrite He in E. }
  destruct (encode_bit_requests ref addr v Hr) as [_ E']. rewrite E in E'. apply Ok_inj in E' as ->.
  split; [done|].
  exists ([FuncWriteVar; x01] ++ putS7Any TransportSizeBit 1 (BitDBNumber addr) (BitArea addr)
                (ByteOffset addr * 8 + BitOffset addr)),
    [x00; DataTransportSizeBit; x00; x01; if v then x01 else x00; x00].
  split_and!; [done | done | done | by apply ParseWriteVarRequest_bit].
Qed.
