(* ===== verification/EndToEnd.v ===== *)
(** * Client and server together

    The theorems a user of the library relies on, for a client connected to a
    session of the server over [Net]: what is read is what the memory holds,
    what is written is what is read back, refusals reach the caller with their
    item code and change nothing, and the negotiated PDU size is the smaller
    of the two wishes. *)

From S2P Require Import Prelude Go WireErrors Header ReadWrite ServerCodec Memory Session Server Client ClientRW Peer Loopback.

(** ** Shared facts *)

Lemma connected_net ctx conn c w :
  connected ctx conn c w -> c_pduSize c = net_pdu conn w /\ 0 <= net_pdu conn w <= 4096 /\ memory_ok (n_mem w).
Proof.
  intros (_ & Hp & _ & _ & pdu & Hc & Hm & Hb & Hx). simpl in *. split; [done|].
  unfold net_pdu. rewrite Hc. simpl. split; [lia | done].
Qed.

(** A span of a registered area lies in the S7ANY address space. *)
Lemma bytes_at_end m k s n b :
  memory_ok m -> bytes_at m k s n = Some b -> s + n <= MaxS7AnyByteOffset + 1.
Proof.
  intros Hm H. apply bytes_at_Some in H as (r & Hr & H). apply slice_Ok_inv in H as (_ & ? & _).
  destruct (Hm k r Hr) as [_ [_ ?]]. unfold MaxAreaSize in *. lia.
Qed.

(** An address of process data: any held area but timers and counters. *)
Definition data_address (addr : Address) (k : areaKey) : Prop :=
  keyOf (a_Area addr) (a_DBNumber addr) = Ok k /\ timerOrCounter (a_Area addr) = false /\
  0 <= a_DBNumber addr <= MaxS7AnyDBNumber.

(** ** A concrete network for the witnesses *)

Definition demo_bytes : bytes := [x10; x21; x32; x43; x54; x65; x76; x87].
Definition demo_memory : memory :=
  <[mkAreaKey AreaDB 1 := mkRegion demo_bytes false]> {[mkAreaKey AreaMerkers 0 := mkRegion [xaa; xbb] true]}.

(** A connection that negotiated 32 bytes, so that reads take several chunks. *)
Definition demo_net : Net := mkNet 480 demo_memory {[7 := mkLConn 32 []]} 8.
Definition demo_client : Client := set_connection (Some 7) 0 1 256 769 32 1 1 (New "plc" []).

Lemma demo_memory_ok : memory_ok demo_memory.
Proof.
  apply map_Forall_insert_2; [|apply map_Forall_singleton];
    split; [split; [done | simpl; unfold MaxS7AnyDBNumber; lia] | unfold region_ok; simpl; change MaxAreaSize with 2097152; lia
           | split; done | unfold region_ok; simpl; change MaxAreaSize with 2097152; lia].
Qed.

Lemma demo_connected : connected (Caller 0) 7 demo_client demo_net.
Proof.
  split; [done|]. split; [done|]. split; [split; simpl; lia|]. split; [done|].
  exists 32. split; [done|]. split; [apply demo_memory_ok|]. simpl. lia.
Qed.

(** ** Theorems *)

(** C6: a chunked read of bytes the server holds succeeds and returns exactly
    those bytes, whatever the negotiated PDU size, the rate limit and the
    position of the chunks; it changes nothing at the server and leaves the
    client connected. *)
Theorem ReadArea_returns_memory ctx conn c w addr k b :
  connected ctx conn c w -> ReadVarRequestOverhead < c_pduSize c ->
  data_address addr k -> 1 <= a_Size addr ->
  bytes_at (n_mem w) k (a_Start addr) (a_Size addr) = Some b ->
  exists c' w',
    ReadArea ctx addr (c, w) =
      (Ok (mkReadResult ReadStatusSuccess (a_Size addr) (a_Size addr) b [] "" None "" x00), (c', w')) /\
    connected ctx conn c' w' /\ n_mem w' = n_mem w.
Proof.
  intros Hc Hp (Hk & Ht & Hdb) Hsz Hb. destruct (connected_net _ _ _ _ Hc) as (Hpe & Hpb & Hm).
  pose proof (bytes_at_end _ _ _ _ _ Hm Hb) as Hend. pose proof (bytes_at_len _ _ _ _ _ Hb) as [_ Hs0].
  destruct (ReadArea_peer ctx conn c w addr Hc) as (c' & w' & r & _ & C & S & Hrun & Hr);
    [rewrite Hpe in Hp; simpl; lia | done..|].
  erewrite read_outcome_bytes in Hr; [|exact Hk|exact Ht|exact Hb]. subst r.
  exists c', w'. split; [done|]. split; [done|]. apply S.
Qed.

(** Witness of C6: five bytes of DB1 from offset 2 over 8-byte chunks. *)
Lemma ReadArea_returns_memory_witness :
  exists c' w', ReadArea (Caller 0) (mkAddress AreaDB 1 2 5) (demo_client, demo_net) =
    (Ok (mkReadResult ReadStatusSuccess 5 5 [x32; x43; x54; x65; x76] [] "" None "" x00), (c', w')) /\
    connected (Caller 0) 7 c' w' /\ n_mem w' = n_mem demo_net.
Proof.
  apply (ReadArea_returns_memory (Caller 0) 7 demo_client demo_net (mkAddress AreaDB 1 2 5) (mkAreaKey AreaDB 1)).
  - exact demo_connected.
  - vm_compute. reflexivity.
  - split; [reflexivity|]. split; [reflexivity|]. split; vm_compute; discriminate.
  - vm_compute. discriminate.
  - reflexivity.
Defined.

(** C7: a chunked write into an area clients may write stores exactly the
    data at its address, changes no other byte of any area, and a read of the
    span by the same client then returns the data; the PDU size is even, as
    the chunks of an odd one may exceed it ([WriteArea_odd_pdu]). *)
Theorem WriteArea_then_ReadArea ctx conn c w addr k r dat :
  connected ctx conn c w -> WriteVarRequestOverhead < c_pduSize c -> Z.even (c_pduSize c) = true ->
  data_address addr k -> n_mem w !! k = Some r -> readOnly r = false ->
  0 <= a_Start addr -> a_Size addr = len dat -> dat <> [] ->
  a_Start addr + len dat <= len (data r) ->
  exists c1 w1 c2 w2,
    WriteArea ctx addr dat (c, w) = (Ok tt, (c1, w1)) /\
    overwritten (n_mem w) (n_mem w1) k (a_Start addr) dat /\
    ReadArea ctx addr (c1, w1) =
      (Ok (mkReadResult ReadStatusSuccess (len dat) (len dat) dat [] "" None "" x00), (c2, w2)) /\
    n_mem w2 = n_mem w1 /\ connected ctx conn c2 w2.
Proof.
  intros Hc Hp He (Hk & Ht & Hdb) Hr Hro Hst Hsz Hne Hend.
  destruct (connected_net _ _ _ _ Hc) as (Hpe & Hpb & Hm). rewrite Hpe in *.
  assert (Hld : 1 <= len dat) by (destruct dat; [done | simpl length; lia]).
  destruct (Hm k r Hr) as [_ [_ Hmax]]. unfold MaxAreaSize in Hmax.
  change WriteVarRequestOverhead with 28 in *.
  destruct (WriteArea_peer ctx conn c w addr dat k r Hc) as (c1 & w1 & Hrun & _ & C1 & P1 & Ho);
    [change WriteVarRequestOverhead with 28; simpl; lia | done | done | done | lia..|].
  pose proof Ho as (_ & Hb & _).
  destruct (connected_net _ _ _ _ C1) as (Hpe1 & Hpb1 & Hm1).
  destruct (ReadArea_peer ctx conn c1 w1 addr C1) as (c2 & w2 & res & _ & C2 & S2 & Hrun2 & Hres);
    [change ReadVarRequestOverhead with 24; simpl in *; lia | done | done | lia | lia |].
  erewrite read_outcome_bytes in Hres; [|exact Hk|exact Ht|rewrite Hsz; exact Hb]. subst res.
  exists c1, w1, c2, w2. rewrite <- Hsz at 1 2. split; [done|]. split; [done|]. split; [done|].
  split; [apply S2 | done].
Qed.

(** Witness of C7: a five-byte write, over 4-byte chunks, into DB1. *)
Lemma WriteArea_then_ReadArea_witness :
  exists c1 w1 c2 w2,
    WriteArea (Caller 0) (mkAddress AreaDB 1 1 5) [x01; x02; x03; x04; x05] (demo_client, demo_net) = (Ok tt, (c1, w1)) /\
    overwritten (n_mem demo_net) (n_mem w1) (mkAreaKey AreaDB 1) 1 [x01; x02; x03; x04; x05] /\
    ReadArea (Caller 0) (mkAddress AreaDB 1 1 5) (c1, w1) =
      (Ok (mkReadResult ReadStatusSuccess 5 5 [x01; x02; x03; x04; x05] [] "" None "" x00), (c2, w2)) /\
    n_mem w2 = n_mem w1 /\ connected (Caller 0) 7 c2 w2.
Proof.
  apply (WriteArea_then_ReadArea (Caller 0) 7 demo_client demo_net (mkAddress AreaDB 1 1 5)
           (mkAreaKey AreaDB 1) (mkRegion demo_bytes false) [x01; x02; x03; x04; x05]).
  - exact demo_connected.
  - vm_compute. reflexivity.
  - reflexivity.
  - split; [reflexivity|]. split; [reflexivity|]. split; vm_compute; discriminate.
  - reflexivity.
  - reflexivity.
  - vm_compute. discriminate.
  - reflexivity.
  - discriminate.
  - vm_compute. discriminate.
Defined.

(** C8: a read the server cannot serve (area not held, timers or counters by
    byte, a span past the end) is reported as rejected with the item code of
    the refusal; the data is what the chunks before the refused one read. *)
Theorem ReadArea_reports_refusal ctx conn c w addr code :
  connected ctx conn c w -> ReadVarRequestOverhead < c_pduSize c ->
  0 <= a_DBNumber addr <= MaxS7AnyDBNumber -> 0 <= a_Start addr -> 1 <= a_Size addr ->
  a_Start addr + a_Size addr <= MaxS7AnyByteOffset + 1 ->
  read_outcome (n_mem w) (with_span addr (a_Start addr) (a_Size addr)) = inr code ->
  exists r c' w', ReadArea ctx addr (c, w) = (Ok r, (c', w')) /\
    Status r = ReadStatusRejected /\ ResultReturnCode r = code /\ code <> RetCodeSuccess /\
    OK (Some r) = false /\ n_mem w' = n_mem w /\ connected ctx conn c' w' /\
    (ResultData r = [] \/
     read_outcome (n_mem w) (with_span addr (a_Start addr) (len (ResultData r))) = inl (ResultData r)).
Proof.
  intros Hc Hp Hdb Hst Hsz Hend Ho. destruct (connected_net _ _ _ _ Hc) as (Hpe & Hpb & Hm).
  destruct (ReadArea_peer ctx conn c w addr Hc) as (c' & w' & r & _ & C & S & Hrun & Hr);
    [rewrite Hpe in Hp; simpl; lia | done..|].
  pose proof (read_outcome_code _ _ _ Ho) as Hcode. simpl in Hr. rewrite Ho in Hr. destruct Hr as (p & -> & Hpre).
  eexists _, c', w'. split; [done|]. split; [done|]. split; [done|]. split; [done|]. split; [done|].
  split; [apply S|]. split; [done|]. exact Hpre.
Qed.

(** Witness of C8: ten bytes from an eight-byte DB; the first chunk of eight
    is delivered, the second is refused with 0x05. *)
Lemma ReadArea_reports_refusal_witness :
  exists r c' w', ReadArea (Caller 0) (mkAddress AreaDB 1 0 10) (demo_client, demo_net) = (Ok r, (c', w')) /\
    Status r = ReadStatusRejected /\ ResultReturnCode r = RetCodeAddressFault /\ RetCodeAddressFault <> RetCodeSuccess /\
    OK (Some r) = false /\ n_mem w' = n_mem demo_net /\ connected (Caller 0) 7 c' w' /\
    (ResultData r = [] \/
     read_outcome (n_mem demo_net) (with_span (mkAddress AreaDB 1 0 10) 0 (len (ResultData r))) = inl (ResultData r)).
Proof.
  apply (ReadArea_reports_refusal (Caller 0) 7 demo_client demo_net (mkAddress AreaDB 1 0 10) RetCodeAddressFault).
  - exact demo_connected.
  - vm_compute. reflexivity.
  - split; vm_compute; discriminate.
  - vm_compute. discriminate.
  - vm_compute. discriminate.
  - vm_compute. discriminate.
  - reflexivity.
Defined.

(** A write to an area the server does not hold, or to a read-only one,
    fails with the S7 error of the item code (0x0A, 0x03) and changes no byte. *)
Theorem WriteArea_refused ctx conn c w addr dat :
  connected ctx conn c w -> WriteVarRequestOverhead < c_pduSize c -> Z.even (c_pduSize c) = true ->
  0 <= a_DBNumber addr <= MaxS7AnyDBNumber -> 0 <= a_Start addr <= MaxS7AnyByteOffset -> 0 <= a_Size addr ->
  dat <> [] -> a_Start addr + len dat <= MaxS7AnyByteOffset + 1 ->
  let fails code :=
    exists c' w', WriteArea ctx addr dat (c, w) = (Err (S7Error x00 code (ItemReturnCodeString code)), (c', w')) /\
      connected ctx conn c' w' /\ n_mem w' = n_mem w in
  ((forall k, keyOf (a_Area addr) (a_DBNumber addr) = Ok k -> n_mem w !! k = None) -> fails RetCodeNotAvailable) /\
  (forall k r, data_address addr k -> n_mem w !! k = Some r -> readOnly r = true ->
     a_Start addr + len dat <= len (data r) -> fails RetCodeAccessFault).
Proof.
  intros Hc Hp He Hdb Hst Hsz Hne Hend fails. destruct (connected_net _ _ _ _ Hc) as (Hpe & Hpb & Hm).
  rewrite Hpe in *. change WriteVarRequestOverhead with 28 in *.
  assert (Hp' : WriteVarRequestOverhead < net_pdu conn w <= 8218)
    by (change WriteVarRequestOverhead with 28; lia).
  split.
  - intros Hnone. destruct (WriteArea_refused_peer ctx conn c w addr dat RetCodeNotAvailable) as (c' & w' & H); try done.
      { intros n v code' m' _. by apply write_outcome_unknown. }
    by exists c', w'.
  - intros k r (Hk & Ht & _) Hr Hro Hreg.
    destruct (WriteArea_refused_peer ctx conn c w addr dat RetCodeAccessFault) as (c' & w' & H); try done.
      { intros n v code' m' Hn. eapply write_outcome_readonly; try done; lia. }
    by exists c', w'.
Qed.

(** An instance: the merkers of the demo server are read-only. *)
Lemma WriteArea_refused_witness :
  exists c' w', WriteArea (Caller 0) (mkAddress AreaMerkers 0 0 2) [x01; x02] (demo_client, demo_net) =
      (Err (S7Error x00 RetCodeAccessFault (ItemReturnCodeString RetCodeAccessFault)), (c', w')) /\
    connected (Caller 0) 7 c' w' /\ n_mem w' = n_mem demo_net.
Proof.
  apply (WriteArea_refused (Caller 0) 7 demo_client demo_net (mkAddress AreaMerkers 0 0 2) [x01; x02])
    with (k := mkAreaKey AreaMerkers 0) (r := mkRegion [xaa; xbb] true).
  - exact demo_connected.
  - vm_compute. reflexivity.
  - reflexivity.
  - split; vm_compute; discriminate.
  - split; vm_compute; discriminate.
  - vm_compute. discriminate.
  - discriminate.
  - vm_compute. discriminate.
  - split; [reflexivity|]. split; [reflexivity|]. split; vm_compute; discriminate.
  - reflexivity.
  - reflexivity.
  - vm_compute. discriminate.
Defined.

(** Writing a bit of a writable area changes exactly that bit, and
    reading it back returns the value written. *)
Theorem WriteBit_then_ReadBit ctx conn c w addr k r old v :
  connected ctx conn c w -> 30 <= c_pduSize c -> validateBitAddress addr = nil_error ->
  keyOf (b_Area addr) (b_DBNumber addr) = Ok k -> timerOrCounter (b_Area addr) = false ->
  n_mem w !! k = Some r -> readOnly r = false ->
  data r !! Z.to_nat (b_ByteOffset addr) = Some old ->
  exists c1 w1 c2 w2,
    WriteBit ctx addr v (c, w) = (Ok tt, (c1, w1)) /\
    bit_written (n_mem w) (n_mem w1) k (Z.to_nat (b_ByteOffset addr)) (b_BitOffset addr) v /\
    ReadBit ctx addr (c1, w1) = (Ok v, (c2, w2)) /\ n_mem w2 = n_mem w1.
Proof.
  intros Hc Hp Hv Hk Ht Hr Hro Hold. destruct (connected_net _ _ _ _ Hc) as (Hpe & Hpb & Hm). rewrite Hpe in *.
  destruct (WriteBit_peer ctx conn c w addr v Hc Hp Hv) as (c1 & w1 & code & _ & C1 & P1 & Ho & Hrun).
  assert (Hwr : code = RetCodeSuccess /\
    bit_written (n_mem w) (n_mem w1) k (Z.to_nat (b_ByteOffset addr)) (b_BitOffset addr) v).
  { unfold write_bit_outcome, bit_outcome in Ho. simpl in Ho. rewrite Hk, Hr, Ht in Ho.
    unfold byte_at in Ho. rewrite Hr in Ho. simpl in Ho. rewrite Hold in Ho.
    destruct Ho as (k' & r' & [= <-] & Hr' & Ho). rewrite Hr in Hr'. injection Hr' as <-. by rewrite Hro in Ho. }
  destruct Hwr as [-> Hbw]. destruct (ReadBit_peer ctx conn c1 w1 addr C1) as (c2 & w2 & _ & _ & S2 & Hrun2);
    [simpl in *; lia | done |].
  exists c1, w1, c2, w2. split; [done|]. split; [done|]. split; [|apply S2]. rewrite Hrun2. f_equal.
  destruct Hbw as (Hsh & _ & _ & new & _ & Hnew & Hbit & _).
  destruct (shape_lookup _ _ _ _ Hsh Hr) as (r1 & Hr1 & _).
  unfold bit_outcome. simpl. rewrite Hk, Hr1, Ht, Hnew, Hbit. done.
Qed.

(** An instance: DB1.DBX3.2. *)
Lemma WriteBit_then_ReadBit_witness :
  exists c1 w1 c2 w2,
    WriteBit (Caller 0) (mkBitAddress AreaDB 1 3 2) true (demo_client, demo_net) = (Ok tt, (c1, w1)) /\
    bit_written (n_mem demo_net) (n_mem w1) (mkAreaKey AreaDB 1) 3 2 true /\
    ReadBit (Caller 0) (mkBitAddress AreaDB 1 3 2) (c1, w1) = (Ok true, (c2, w2)) /\ n_mem w2 = n_mem w1.
Proof.
  apply (WriteBit_then_ReadBit (Caller 0) 7 demo_client demo_net (mkBitAddress AreaDB 1 3 2)
           (mkAreaKey AreaDB 1) (mkRegion demo_bytes false) x43 true).
  - exact demo_connected.
  - vm_compute. discriminate.
  - reflexivity.
  - reflexivity.
  - reflexivity.
  - reflexivity.
  - reflexivity.
  - reflexivity.
Defined.

(** With acceptable options [Connect] succeeds against a server, the client
    ends up connected with the smaller of its own and the server's PDU size,
    an older connection is replaced, and the memory is untouched. *)
Theorem Connect_negotiates ctx c w :
  is_nil ctx = false -> net_ok w -> options_ok (c_opts c) -> client_pduRef_ok c ->
  c_conn c <> Some (n_next w) ->
  exists c' w', Connect ctx (c, w) = (Ok tt, (c', w')) /\ connected ctx (n_next w) c' w' /\
    c_pduSize c' = Z.min (o_maxPDU (c_opts c)) (n_maxPDU w) /\ n_mem w' = n_mem w.
Proof. intros. by apply Connect_net. Qed.

(** An instance: default options (480) and a server limited to 240. *)
Lemma Connect_negotiates_witness :
  let w := mkNet 240 demo_memory ∅ 0 in
  exists c' w', Connect (Caller 0) (New "plc" [], w) = (Ok tt, (c', w')) /\ connected (Caller 0) 0 c' w' /\
    c_pduSize c' = Z.min 480 240 /\ n_mem w' = demo_memory.
Proof.
  apply (Connect_negotiates (Caller 0) (New "plc" []) (mkNet 240 demo_memory ∅ 0)).
  - reflexivity.
  - split; [exact demo_memory_ok | split; vm_compute; discriminate].
  - repeat split; vm_compute; discriminate || reflexivity.
  - split; vm_compute; [discriminate | reflexivity].
  - discriminate.
Defined.
