(* ===== verification/Refine.v ===== *)
(** * A connected client refines a memory service

    The abstract service is one memory with four operations: read or write a
    span, read or write a bit.  An operation is answered from the memory or
    refused with an item code; a write that runs into a refused part may have
    stored the bytes before it, since a long write is several requests.  Any
    sequence of [ReadArea], [WriteArea], [ReadBit] and [WriteBit] calls of a
    client connected to a peer is a run of the service: chunking, PDU
    references, framing and the answers' encodings are invisible.

    The simulation is proved over the interface [S7Peer], so it holds for
    every server that keeps it; [Net], the session of this library's own
    server, is one. *)

From S2P Require Import Prelude Go WireErrors Header ReadWrite ServerCodec Memory Session Server Client ClientRW Peer Loopback EndToEnd.

(** ** The abstract service *)

Inductive request :=
  | GetBytes (addr : Address)
  | PutBytes (addr : Address) (dat : bytes)
  | GetBit (addr : BitAddress)
  | PutBit (addr : BitAddress) (v : bool).

Inductive reply :=
  | Bytes (b : bytes)
  | Bit (v : bool)
  | Stored
  | Refused (code : byte)
  | Invalid            (* the address is refused before anything is sent *)
  | Failed.            (* anything else *)

(** Addresses of the S7ANY space. *)
Definition in_space (addr : Address) (n : Z) : Prop :=
  0 <= a_Start addr <= MaxS7AnyByteOffset /\ 0 <= a_Size addr /\
  0 <= a_DBNumber addr <= MaxS7AnyDBNumber /\ a_Start addr + n <= MaxS7AnyByteOffset + 1.

Definition bit_in_space (addr : BitAddress) : Prop := validateBitAddress addr = nil_error.

(** [dat] is stored at [s] of a writable area, or is empty. *)
Definition stored (m : memory) (addr : Address) (s : Z) (dat : bytes) (m' : memory) : Prop :=
  (dat = [] /\ m' = m) \/
  exists k r, writable m (a_Area addr) (a_DBNumber addr) k r /\ overwritten m m' k s dat.

(** The span is not held, or it is read-only. *)
Definition refuses (m : memory) (addr : Address) (s n : Z) (code : byte) : Prop :=
  match read_outcome m (with_span addr s n) with
  | inr c => code = c
  | inl _ => code = RetCodeAccessFault /\
      exists k r, keyOf (a_Area addr) (a_DBNumber addr) = Ok k /\ m !! k = Some r /\ readOnly r = true
  end.

(** What a write ends with: all stored, or refused at some part of it with
    what comes before stored. *)
Definition write_result (m : memory) (addr : Address) (s : Z) (dat : bytes) (code : byte) (m' : memory) : Prop :=
  (code = RetCodeSuccess /\ stored m addr s dat m') \/
  (code <> RetCodeSuccess /\ exists p q rest, dat = p ++ q ++ rest /\ q <> [] /\
     stored m addr s p m' /\ refuses m' addr (s + len p) (len q) code).

Definition reply_of (code : byte) : reply := if code =b RetCodeSuccess then Stored else Refused code.

Inductive serves (m : memory) : request -> reply -> memory -> Prop :=
  | serves_bytes addr b :
      in_space addr (a_Size addr) -> read_outcome m (with_span addr (a_Start addr) (a_Size addr)) = inl b ->
      serves m (GetBytes addr) (Bytes b) m
  | serves_no_bytes addr code :
      in_space addr (a_Size addr) -> read_outcome m (with_span addr (a_Start addr) (a_Size addr)) = inr code ->
      serves m (GetBytes addr) (Refused code) m
  | serves_put addr dat code m' :
      in_space addr (len dat) -> write_result m addr (a_Start addr) dat code m' ->
      serves m (PutBytes addr dat) (reply_of code) m'
  | serves_bit addr v :
      bit_in_space addr -> bit_outcome m (wireBitAddress addr) = inl v -> serves m (GetBit addr) (Bit v) m
  | serves_no_bit addr code :
      bit_in_space addr -> bit_outcome m (wireBitAddress addr) = inr code -> serves m (GetBit addr) (Refused code) m
  | serves_put_bit addr v code m' :
      bit_in_space addr -> write_bit_outcome m (wireBitAddress addr) v code m' ->
      serves m (PutBit addr v) (reply_of code) m'
  | serves_invalid_get addr : ~ in_space addr (a_Size addr) -> serves m (GetBytes addr) Invalid m
  | serves_invalid_put addr dat : ~ in_space addr (len dat) -> serves m (PutBytes addr dat) Invalid m
  | serves_invalid_get_bit addr : ~ bit_in_space addr -> serves m (GetBit addr) Invalid m
  | serves_invalid_put_bit addr v : ~ bit_in_space addr -> serves m (PutBit addr v) Invalid m.

(** A run of the service. *)
Inductive serves_all : memory -> list request -> list reply -> memory -> Prop :=
  | serves_nil m : serves_all m [] [] m
  | serves_cons m q a m1 qs l m2 :
      serves m q a m1 -> serves_all m1 qs l m2 -> serves_all m (q :: qs) (a :: l) m2.

(** ** The client's calls *)

Section Calls.
Context {W : Type} `{!Transport W}.

Definition error_reply (e : error) : reply :=
  match e with
  | ValidationError _ => Invalid
  | S7Error _ code _ => Refused code
  | _ => Failed
  end.

Definition read_reply (r : ReadResult) : reply :=
  if OK (Some r) then Bytes (ResultData r)
  else match Status r with ReadStatusRejected => Refused (ResultReturnCode r) | _ => Failed end.

Definition replying {A} (m : M W A) (f : A -> reply) : M W reply :=
  r ← attempt m; mret (match r with inl e => error_reply e | inr a => f a end).

Definition call_request (ctx : Ctx) (q : request) : M W reply :=
  match q with
  | GetBytes addr => replying (ReadArea ctx addr) read_reply
  | PutBytes addr dat => replying (WriteArea ctx addr dat) (fun _ => Stored)
  | GetBit addr => replying (ReadBit ctx addr) Bit
  | PutBit addr v => replying (WriteBit ctx addr v) (fun _ => Stored)
  end.

Fixpoint call_all (ctx : Ctx) (qs : list request) : M W (list reply) :=
  match qs with
  | [] => mret []
  | q :: qs => a ← call_request ctx q; l ← call_all ctx qs; mret (a :: l)
  end.

Lemma replying_run {A} (m : M W A) f st r st' :
  m st = (r, st') -> r <> Panic ->
  replying m f st = (Ok (match r with Ok a => f a | Err e => error_reply e | Panic => Failed end), st').
Proof.
  intros Hm Hr. unfold replying. rewrite bind_run. unfold attempt. rewrite Hm. by destruct r.
Qed.
End Calls.

(** ** Simulation *)

Lemma writable_of_outcome m addr s n b k r :
  read_outcome m (with_span addr s n) = inl b -> keyOf (a_Area addr) (a_DBNumber addr) = Ok k -> m !! k = Some r ->
  readOnly r = false -> writable m (a_Area addr) (a_DBNumber addr) k r.
Proof.
  intros H Hk Hr Hro. unfold read_outcome, with_span in H. simpl in H. rewrite Hk, Hr in H.
  split; [done|]. split; [done|]. split; [done|]. by case_if_in H.
Qed.

(** Storing in two steps. *)
Lemma stored_app m m1 m2 addr s d1 d2 k r :
  writable m (a_Area addr) (a_DBNumber addr) k r -> overwritten m m1 k s d1 ->
  stored m1 addr (s + len d1) d2 m2 -> stored m addr s (d1 ++ d2) m2.
Proof.
  intros Hw Ho [[-> ->]|(k' & r' & (Hk' & _) & Ho')]; right; exists k, r; (split; [done|]); [by rewrite app_nil_r|].
  destruct Hw as (Hk & _). rewrite Hk in Hk'. apply Ok_inj in Hk' as <-. by eapply overwritten_trans.
Qed.

Section Simulation.
Context {W : Type} `{!Transport W} `{!S7Peer W}.

Lemma writeChunks_result ctx conn c w addr rate chunks pre rest first bound :
  connected ctx conn c w -> Forall (fun n => 1 <= n <= bound) chunks -> bound <= MaxWriteVarBytes ->
  (forall n, 1 <= n <= bound -> WriteVarRequestOverhead + n + n mod 2 <= peer_pdu conn w) ->
  0 <= a_DBNumber addr <= MaxS7AnyDBNumber -> 0 <= a_Start addr ->
  sumZ chunks = len rest -> a_Start addr + len (pre ++ rest) <= MaxS7AnyByteOffset + 1 ->
  exists code c' w',
    writeChunks ctx addr (pre ++ rest) rate chunks (len pre) first (c, w) = (ReturnCodeError code, (c', w')) /\
    connected ctx conn c' w' /\ peer_pdu conn w' = peer_pdu conn w /\
    write_result (peer_memory w) addr (a_Start addr + len pre) rest code (peer_memory w').
Proof.
  intros Hc HF Hb Hfit Hdb Hst. revert c w pre rest first Hc Hfit.
  induction chunks as [|n chunks IH]; intros c w pre rest first Hc Hfit Hsum Hmax.
  { destruct rest; [|simpl in Hsum; lia]. exists RetCodeSuccess, c, w. split; [done|]. split; [done|]. split; [done|].
    left. split; [done|]. by left. }
  apply Forall_cons in HF as [Hn HF]. simpl in Hsum. fold (sumZ chunks) in Hsum.
  assert (Hs0 : 0 <= sumZ chunks) by (apply sumZ_nonneg; eapply Forall_impl; [exact HF|]; simpl; lia).
  rewrite length_app, MaxS7AnyByteOffset_value in Hmax. change MaxWriteVarBytes with 8191 in Hb.
  set (chunk := take (Z.to_nat n) rest). set (rest' := drop (Z.to_nat n) rest).
  assert (Hrest : rest = chunk ++ rest') by (unfold chunk, rest'; by rewrite take_drop).
  assert (Hlc : len chunk = n) by (unfold chunk; rewrite length_take; lia).
  assert (Hlr : len rest' = len rest - n) by (unfold rest'; rewrite length_drop; lia).
  destruct (writeChunks_step ctx conn c w addr (pre ++ rest) rate n chunks (len pre) first chunk)
    as (c1 & w1 & code & A1 & C1 & P1 & Ho & ->);
    [done | lia | change MaxWriteVarBytes with 8191; lia | by apply Hfit | | |].
  { rewrite Hrest. apply slice_app_mid; lia. }
  { unfold s7any_in_range, MaxS7AnyCount. rewrite MaxS7AnyByteOffset_value. simpl. lia. }
  (* a refused chunk *)
  assert (Hfail : code <> RetCodeSuccess -> peer_memory w1 = peer_memory w ->
    refuses (peer_memory w) addr (a_Start addr + len pre) n code ->
    write_result (peer_memory w) addr (a_Start addr + len pre) rest code (peer_memory w1)).
  { intros Hcode Hm Href. right. split; [done|]. exists [], chunk, rest'. split; [done|].
    split; [intros E; rewrite E in Hlc; simpl in Hlc; lia|]. rewrite Hm. split; [by left|].
    simpl len at 2. by rewrite Z.add_0_r, Hlc. }
  unfold write_outcome in Ho. destruct (read_outcome _ _) as [b|cd] eqn:E.
  2: { destruct Ho as [-> Hm]. pose proof (read_outcome_code _ _ _ E) as Hcode. rewrite (beq_ne _ _ Hcode).
       exists cd, c1, w1. rewrite ReturnCodeError_err by done. split; [done|]. split; [done|]. split; [done|].
       apply Hfail; [done..|]. unfold refuses. by rewrite E. }
  destruct Ho as (k & r & Hk & Hr & Ho). simpl in Hk. destruct (readOnly r) eqn:Ero.
  { destruct Ho as [-> Hm]. exists RetCodeAccessFault, c1, w1. split; [done|]. split; [done|]. split; [done|].
    apply Hfail; [done..|]. unfold refuses. rewrite E. split; [done|]. by exists k, r. }
  destruct Ho as [-> Ho]. simpl (_ =b _). cbv iota. pose proof (writable_of_outcome _ _ _ _ _ _ _ E Hk Hr Ero) as Hwr.
  destruct (IH HF c1 w1 (pre ++ chunk) rest' false) as (code & c2 & w2 & Hrun & C2 & P2 & Hres).
  - done.
  - intros n' Hn'. rewrite P1. by apply Hfit.
  - lia.
  - rewrite <- app_assoc, <- Hrest, length_app, MaxS7AnyByteOffset_value. lia.
  - rewrite <- app_assoc, <- Hrest in Hrun. rewrite length_app in Hrun, Hres.
    replace (Z.of_nat (length pre + length chunk)) with (len pre + n) in Hrun, Hres by lia.
    exists code, c2, w2. split; [done|]. split; [done|]. split; [congruence|]. simpl in Ho.
    rewrite Z.add_assoc, <- Hlc in Hres. rewrite Hrest. destruct Hres as [[-> Hs]|(Hcode & p & q & tl & -> & Hq & Hs & Href)].
    + left. split; [done|]. by eapply stored_app.
    + right. split; [done|]. exists (chunk ++ p), q, tl. split; [by rewrite <- app_assoc|]. split; [done|].
      split; [by eapply stored_app|]. rewrite length_app. by replace (a_Start addr + len pre + Z.of_nat (length chunk + length p))
        with (a_Start addr + len pre + len chunk + len p) by lia.
Qed.

Lemma WriteArea_result ctx conn c w addr dat :
  connected ctx conn c w -> WriteVarRequestOverhead < peer_pdu conn w <= 8218 -> Z.even (peer_pdu conn w) = true ->
  in_space addr (len dat) ->
  exists code c' w', WriteArea ctx addr dat (c, w) = (ReturnCodeError code, (c', w')) /\
    connected ctx conn c' w' /\ peer_pdu conn w' = peer_pdu conn w /\
    write_result (peer_memory w) addr (a_Start addr) dat code (peer_memory w').
Proof.
  intros Hc Hp He (Hst & Hsz & Hdb & Hend).
  destruct (WriteArea_prefix ctx conn c w addr dat) as (w1 & S1 & ->); [done | lia | done..|].
  pose proof S1 as (_ & Hm & Hpe). rewrite <- Hm, <- Hpe in *.
  destruct (planReadChunks_spec (len dat) (peer_pdu conn w1 - WriteVarRequestOverhead)) as (HF & Hs & _).
  replace (peer_pdu conn w1 - WriteVarRequestOverhead <=? 0) with false in HF by lia. rewrite Z.max_r in Hs by lia.
  destruct (writeChunks_result ctx conn c w1 addr (o_rateLimit (c_opts c))
    (planReadChunks (len dat) (peer_pdu conn w1 - WriteVarRequestOverhead)) [] dat true
    (peer_pdu conn w1 - WriteVarRequestOverhead)) as (code & c' & w' & Hrun & C & P & Hres); try done.
  - by eapply connected_stays.
  - change MaxWriteVarBytes with 8191. change WriteVarRequestOverhead with 28 in *. apply Z.even_spec in He as [q Hq]. lia.
  - intros n Hn. by apply even_pdu_fits.
  - lia.
  - exists code, c', w'. rewrite Z.add_0_r in Hres. done.
Qed.

(** The reply to a code. *)
Lemma replying_code (m : M W unit) st code st' :
  m st = (ReturnCodeError code, st') -> replying m (fun _ => Stored) st = (Ok (reply_of code), st').
Proof.
  intros Hm. destruct (decide (code = RetCodeSuccess)) as [->|Hc]; [by rewrite (replying_run _ _ _ _ _ Hm)|].
  unfold reply_of. rewrite (beq_ne _ _ Hc). rewrite ReturnCodeError_err in Hm by done.
  by rewrite (replying_run _ _ _ _ _ Hm).
Qed.

(** Reads of at least one byte. *)
Definition request_ok (q : request) : Prop := match q with GetBytes addr => a_Size addr <> 0 | _ => True end.

(** The PDU sizes for which every call is a run of the service. *)
Definition pdu_ok (pdu : Z) : Prop := 30 <= pdu <= 8215 /\ Z.even pdu = true.

(** What is outside the address space. *)
Definition outside (q : request) : Prop :=
  match q with
  | GetBytes addr => ~ in_space addr (a_Size addr)
  | PutBytes addr dat => ~ in_space addr (len dat)
  | GetBit addr | PutBit addr _ => ~ bit_in_space addr
  end.

Lemma call_outside ctx q st : outside q -> call_request ctx q st = (Ok Invalid, st).
Proof.
  assert (Hrun : forall A (m : M W A) f msg, m st = (Err (ValidationError msg), st) -> replying m f st = (Ok Invalid, st)).
  { intros A m f msg Hm. by rewrite (replying_run _ _ _ _ _ Hm). }
  destruct q as [addr|addr dat|addr|addr v]; simpl; intros H.
  1,2: destruct (validate_invalid _ _ H) as (msg & [E|[E E2]]); apply (Hrun _ _ _ msg);
    unfold ReadArea, WriteArea; rewrite bind_run; unfold lift; rewrite E; [done|]; rewrite bind_run; by rewrite E2.
  all: destruct (validateBitAddress_err addr) as [E|[msg E]]; [done|]; apply (Hrun _ _ _ msg);
    unfold ReadBit, WriteBit; rewrite bind_run; unfold lift; by rewrite E.
Qed.

Lemma outside_serves m q : outside q -> serves m q Invalid m.
Proof. destruct q; simpl; intros H; by constructor. Qed.

#[export] Instance in_space_dec addr n : Decision (in_space addr n).
Proof. unfold in_space. apply _. Defined.

Lemma bit_in_space_dec addr : bit_in_space addr \/ ~ bit_in_space addr.
Proof. unfold bit_in_space. destruct (validateBitAddress_err addr) as [->|[msg ->]]; [by left | by right]. Qed.

(** One call is one step of the service. *)
Lemma call_request_serves ctx conn c w q :
  connected ctx conn c w -> pdu_ok (peer_pdu conn w) -> request_ok q ->
  exists a c' w', call_request ctx q (c, w) = (Ok a, (c', w')) /\ connected ctx conn c' w' /\
    peer_pdu conn w' = peer_pdu conn w /\ serves (peer_memory w) q a (peer_memory w').
Proof.
  intros Hc [Hp He] Hq.
  assert (Hout : outside q \/ ~ outside q).
  { destruct q as [addr|addr dat|addr|addr v]; simpl.
    - destruct (decide (in_space addr (a_Size addr))); tauto.
    - destruct (decide (in_space addr (len dat))); tauto.
    - destruct (bit_in_space_dec addr); tauto.
    - destruct (bit_in_space_dec addr); tauto. }
  destruct Hout as [Hout|Hin].
  { exists Invalid, c, w. split; [by apply call_outside|]. split; [done|]. split; [done|]. by apply outside_serves. }
  destruct q as [addr|addr dat|addr|addr v]; simpl in Hin, Hq; cbn [call_request].
  - apply dec_stable in Hin. pose proof Hin as (Hst & Hsz & Hdb & Hend).
    destruct (ReadArea_peer ctx conn c w addr Hc) as (c' & w' & r & _ & C & S & Hrun & Hr);
      [change ReadVarRequestOverhead with 24; lia | lia..|].
    pose proof S as (_ & Hm & Hpe). eexists _, c', w'. split; [by apply (replying_run _ _ _ _ _ Hrun)|].
    split; [done|]. split; [done|]. rewrite Hm.
    destruct (read_outcome _ _) as [b|code] eqn:E; [subst r|destruct Hr as (p & -> & _)]; by constructor.
  - apply dec_stable in Hin. destruct (WriteArea_result ctx conn c w addr dat Hc) as (code & c' & w' & Hrun & C & P & Hres);
      [change WriteVarRequestOverhead with 28; lia | done | done |].
    exists (reply_of code), c', w'. split; [by apply replying_code|]. split; [done|]. split; [done|]. by constructor.
  - assert (Hv : bit_in_space addr) by (destruct (bit_in_space_dec addr); tauto).
    destruct (ReadBit_peer ctx conn c w addr Hc) as (c' & w' & _ & C & (_ & Hm & Hpe) & Hrun); [lia | done |].
    eexists _, c', w'. split; [apply (replying_run _ _ _ _ _ Hrun); by destruct (bit_outcome _ _)|].
    split; [done|]. split; [done|]. rewrite Hm. destruct (bit_outcome _ _) eqn:E; by constructor.
  - assert (Hv : bit_in_space addr) by (destruct (bit_in_space_dec addr); tauto).
    destruct (WriteBit_peer ctx conn c w addr v Hc) as (c' & w' & code & _ & C & P & Ho & Hrun); [lia | done |].
    exists (reply_of code), c', w'. split; [by apply replying_code|]. split; [done|]. split; [done|]. by constructor.
Qed.

(** A sequence of calls is a run of the service. *)
Lemma call_all_serves ctx conn c w qs :
  connected ctx conn c w -> pdu_ok (peer_pdu conn w) -> Forall request_ok qs ->
  exists l c' w', call_all ctx qs (c, w) = (Ok l, (c', w')) /\ connected ctx conn c' w' /\
    serves_all (peer_memory w) qs l (peer_memory w').
Proof.
  intros Hc Hp HF. revert c w Hc Hp. induction HF as [|q qs Hq _ IH]; intros c w Hc Hp; cbn [call_all].
  { exists [], c, w. split; [done|]. split; [done|]. constructor. }
  destruct (call_request_serves ctx conn c w q Hc Hp Hq) as (a & c1 & w1 & H1 & C1 & P1 & S1).
  destruct (IH c1 w1 C1) as (l & c2 & w2 & H2 & C2 & S2); [by rewrite P1|].
  exists (a :: l), c2, w2. rewrite bind_run, H1, bind_run, H2. split; [done|]. split; [done|]. by econstructor.
Qed.
End Simulation.

(** The service stores what a writable area can hold: a refusal means that
    some part is not held or read-only. *)
Lemma write_result_whole m addr s dat code m' k r :
  writable m (a_Area addr) (a_DBNumber addr) k r -> 0 <= s -> s + len dat <= len (data r) ->
  write_result m addr s dat code m' -> code = RetCodeSuccess /\ stored m addr s dat m'.
Proof.
  intros Hw Hs Hend [H|(_ & p & q & rest & -> & Hq & Hst & Href)]; [done|]. exfalso. rewrite !length_app in Hend.
  assert (Hw' : exists r', writable m' (a_Area addr) (a_DBNumber addr) k r' /\ length (data r') = length (data r)).
  { destruct Hst as [[-> ->]|(k' & r' & (Hk' & _) & Ho)]; [by exists r|]. destruct Hw as (Hk & Hw).
    rewrite Hk in Hk'. apply Ok_inj in Hk' as <-. by eapply writable_overwritten. }
  destruct Hw' as (r' & (Hk & Hr & Hro & Ht) & Hl). unfold refuses in Href.
  erewrite read_outcome_bytes in Href; [|exact Hk|exact Ht|].
  2: { apply bytes_at_Some. exists r'. split; [done|]. simpl. apply slice_ok; lia. }
  destruct Href as (_ & k' & r'' & Hk' & Hr' & Hro'). rewrite Hk in Hk'. apply Ok_inj in Hk' as <-. congruence.
Qed.

(** C1: a client that connects to the server refines the abstract memory
    service: with acceptable options and an even negotiated PDU size, every
    sequence of reads, writes and bit operations, at any addresses (those
    outside the address space included), returns, its replies are a run of
    the service from the server's memory, and the server's memory ends as the
    service's does.  No reply is [Failed]. *)
Theorem client_refines_service ctx c w qs :
  is_nil ctx = false -> net_ok w -> options_ok (c_opts c) -> client_pduRef_ok c -> c_conn c <> Some (n_next w) ->
  pdu_ok (Z.min (o_maxPDU (c_opts c)) (n_maxPDU w)) -> Forall request_ok qs ->
  exists l c' w', (Connect ctx ;; call_all ctx qs) (c, w) = (Ok l, (c', w')) /\
    connected ctx (n_next w) c' w' /\ serves_all (n_mem w) qs l (n_mem w') /\ Failed ∉ l.
Proof.
  intros Hctx Hw Ho Hr Hn Hp HF. destruct (Connect_net ctx c w) as (c1 & w1 & H1 & C1 & P1 & M1); [done..|].
  destruct (connected_net _ _ _ _ C1) as (Hpe & _).
  destruct (call_all_serves ctx (n_next w) c1 w1 qs C1) as (l & c2 & w2 & H2 & C2 & S2); [simpl; by rewrite <- Hpe, P1 | done |].
  exists l, c2, w2. rewrite bind_run, H1. split; [done|]. split; [done|]. simpl in S2. rewrite M1 in S2. split; [done|].
  clear - S2. induction S2 as [|m q a m1 qs l m2 Hs _ IH]; [by apply not_elem_of_nil|].
  apply not_elem_of_cons. split; [|done]. destruct Hs; try done; unfold reply_of; by case_if.
Qed.

(** Witness of C1: a write over two chunks read back, a bit, and refusals. *)
Lemma client_refines_service_witness :
  let qs := [PutBytes (mkAddress AreaDB 1 1 5) [x01; x02; x03; x04; x05]; GetBytes (mkAddress AreaDB 1 0 7);
             PutBit (mkBitAddress AreaDB 1 0 3) true; GetBit (mkBitAddress AreaDB 1 0 3);
             PutBytes (mkAddress AreaMerkers 0 0 1) [x01]; GetBytes (mkAddress AreaDB 1 0 9);
             GetBytes (mkAddress AreaDB 2 0 1); GetBytes (mkAddress AreaDB 1 (-1) 1)] in
  exists c' w', (Connect (Caller 0) ;; call_all (Caller 0) qs) (New "plc" [], mkNet 240 demo_memory ∅ 0) =
      (Ok [Stored; Bytes [x10; x01; x02; x03; x04; x05; x76]; Stored; Bit true; Refused x03; Refused x05; Refused x0a; Invalid],
       (c', w')) /\
    serves_all demo_memory qs
      [Stored; Bytes [x10; x01; x02; x03; x04; x05; x76]; Stored; Bit true; Refused x03; Refused x05; Refused x0a; Invalid] (n_mem w').
Proof.
  intros qs.
  destruct (client_refines_service (Caller 0) (New "plc" []) (mkNet 240 demo_memory ∅ 0) qs) as (l & c' & w' & Hrun & _ & Hs & _).
  - reflexivity.
  - split; [exact demo_memory_ok | simpl; lia].
  - vm_compute. repeat split; discriminate.
  - vm_compute. repeat split; discriminate.
  - discriminate.
  - vm_compute. repeat split; discriminate.
  - repeat constructor; discriminate.
  - assert (Hl : fst ((Connect (Caller 0) ;; call_all (Caller 0) qs) (New "plc" [], mkNet 240 demo_memory ∅ 0)) =
      Ok [Stored; Bytes [x10; x01; x02; x03; x04; x05; x76]; Stored; Bit true; Refused x03; Refused x05; Refused x0a; Invalid])
      by (vm_compute; reflexivity).
    rewrite Hrun in Hl. injection Hl as ->. exists c', w'. split; [exact Hrun | exact Hs].
Defined.
