(* ===== verification/ConcurrentProps.v ===== *)
(** * Concurrent use of a client and of a server

    Goroutines that call operations of one client: their calls are
    linearizable, only a network call that blocks holds them up, and over a
    connection to the server they refine the memory service.  Snapshots of the connection are never torn.
    The connections of a server and its host share the memory as if every
    request were handled at one moment. *)

From S2P Require Import Prelude Go WireErrors Header ReadWrite ServerCodec Memory Session Server Client ClientRW Userdata ClientSZL ClientBlocks Peer Loopback EndToEnd Refine Locking RWLock Concurrent Snapshot ServerShared.

(** ** Any transport *)

(** A call run alone, as the effect of an atomic object. *)
Definition alone_effect {W} `{!Transport W} (st : Client * W) (q : locked_call) (a : answer) (st' : Client * W) : Prop :=
  performs q st = (a, st').

Section Serialized.
Context {W : Type} `{!Transport W}.
Variable body : locked_call -> prog (Client * W) answer.
Hypothesis Hbody : forall q st, run (body q) st = performs q st.
Variable ready : Client * W -> prog (Client * W) answer -> bool.

Lemma client_calls_linearizable c w h s' :
  history (call_step (checks (W := W) (c_opts c)) body ready) (at_rest (c, w)) h s' ->
  exists o', history (object_step alone_effect) (mkObject (c, w) ∅ []) h o' /\
    simulates (checks (W := W) (c_opts c)) body (fun _ => True) (fun st m => st = m /\ c_opts st.1 = c_opts c) s' o' /\
    sequential alone_effect (c, w) (ob_log o') (ob_state o').
Proof.
  intros Hh. eapply calls_linearizable; [..|exact Hh].
  - intros [c1 w1] m q a [<- Hc] _ Hq. simpl in Hc. apply checks_performs. by rewrite Hc.
  - intros [c1 w1] m q a [c2 w2] [<- Hc] _ _ Hr. rewrite Hbody in Hr. exists (c2, w2). split; [done|]. split; [done|].
    apply performs_config in Hr as [_ Ho]. simpl in *. congruence.
  - by split.
  - apply Forall_forall. by intros [] _.
Qed.
End Serialized.

(** ** The memory service *)

(** The operation of a request, and what its answer says. *)
Definition request_call (ctx : Ctx) (q : request) : locked_call :=
  match q with
  | GetBytes addr => CallReadArea ctx addr
  | PutBytes addr dat => CallWriteArea ctx addr dat
  | GetBit addr => CallReadBit ctx addr
  | PutBit addr v => CallWriteBit ctx addr v
  end.

Definition reply_to (a : answer) : reply :=
  match a with
  | ARead (Ok r) => read_reply r
  | ABit (Ok v) => Bit v
  | AUnit (Ok _) => Stored
  | ARead (Err e) | ABit (Err e) | AUnit (Err e) => error_reply e
  | _ => Failed
  end.

Section Service.
Context {W : Type} `{!Transport W} `{!S7Peer W}.

Lemma replying_inv {A} (m : M W A) f st a st' :
  replying m f st = (Ok a, st') ->
  exists r, m st = (r, st') /\ r <> Panic /\ a = match r with Ok x => f x | Err e => error_reply e | Panic => Failed end.
Proof.
  unfold replying. rewrite bind_run. unfold attempt. destruct (m st) as [[x|e|] st1]; [..|done]; simpl;
    intros [= <- <-]; by eexists.
Qed.

(** A request performed on its own. *)
Lemma performs_request ctx q st a st' :
  call_request ctx q st = (Ok a, st') -> exists r, performs (request_call ctx q) st = (r, st') /\ reply_to r = a.
Proof.
  destruct q as [addr|addr dat|addr|addr v]; cbn [call_request]; intros (r & Hm & Hp & ->)%replying_inv;
    cbn [request_call performs]; unfold giving; rewrite Hm; destruct r; try done; by eexists.
Qed.

(** The effect of a request on the service. *)
Definition service_effect (ctx : Ctx) (m : memory) (q : locked_call) (a : answer) (m' : memory) : Prop :=
  exists r, q = request_call ctx r /\ serves m r (reply_to a) m'.

Definition is_request (ctx : Ctx) (q : locked_call) : Prop := exists r, q = request_call ctx r /\ request_ok r.

(** A client connected to a peer that holds a memory. *)
Definition holds (ctx : Ctx) (conn : Conn) (opts : options) (st : Client * W) (m : memory) : Prop :=
  connected ctx conn st.1 st.2 /\ pdu_ok (peer_pdu conn st.2) /\ peer_memory st.2 = m /\ c_opts st.1 = opts.

Variable body : locked_call -> prog (Client * W) answer.
Hypothesis Hbody : forall q st, run (body q) st = performs q st.
Variable ready : Client * W -> prog (Client * W) answer -> bool.

Lemma request_effect ctx conn opts st m q a st' :
  holds ctx conn opts st m -> is_request ctx q -> performs q st = (a, st') ->
  exists m', service_effect ctx m q a m' /\ holds ctx conn opts st' m'.
Proof.
  destruct st as [c w], st' as [c' w']. intros (Hc & Hp & Hm & Ho) (r & -> & Hr) Hrun. simpl in *.
  destruct (call_request_serves ctx conn c w r Hc Hp Hr) as (rep & c1 & w1 & H1 & C1 & P1 & S1).
  destruct (performs_request ctx r (c, w) rep (c1, w1) H1) as (a' & H2 & <-). rewrite Hrun in H2. injection H2 as <- <- <-.
  exists (peer_memory w'). split; [exists r; by rewrite <- Hm|].
  apply performs_config in Hrun as [_ Ho']. split; [done|]. split; [simpl; by rewrite P1|]. split; [done|]. simpl. congruence.
Qed.

Lemma requests_linearizable ctx conn c w h s' :
  connected ctx conn c w -> pdu_ok (peer_pdu conn w) ->
  Forall (invoked_ok (A := answer) (is_request ctx)) h ->
  history (call_step (checks (W := W) (c_opts c)) body ready) (at_rest (c, w)) h s' ->
  exists o', history (object_step (service_effect ctx)) (mkObject (peer_memory w) ∅ []) h o' /\
    sequential (service_effect ctx) (peer_memory w) (ob_log o') (ob_state o').
Proof.
  intros Hc Hp Hok Hh.
  edestruct (calls_linearizable (checks (W := W) (c_opts c)) body ready (is_request ctx) (holds ctx conn (c_opts c)) (service_effect ctx)) with (s0 := (c, w)) (s' := s') (h := h)
    as (o' & H1 & _ & H2); [..|by exists o'].
  - intros [c1 w1] m q a Hh1 Hq He. pose proof Hh1 as (_ & _ & Hm & Ho). simpl in Hm, Ho.
    destruct (request_effect ctx conn (c_opts c) (c1, w1) m q a (c1, w1) Hh1 Hq) as (m' & Heff & (_ & _ & Hm' & _)).
    { apply checks_performs. by rewrite Ho. }
    simpl in Hm'. by rewrite <- Hm, Hm' in *.
  - intros st m q a st' Hh1 Hq _ Hr. rewrite Hbody in Hr. by eapply request_effect.
  - by split.
  - done.
  - exact Hh.
Qed.
End Service.

(** ** Theorems *)

(** C4: concurrent use of a client is safe, and only the network can hold its
    calls up.  Any number of goroutines call operations of one client
    (connecting and closing included) over any network, in any interleaving of
    the steps of the operations: accesses to fields of the client, and single
    calls of the connection and the context, any of which may take its time or
    block for good.  What the goroutines see is a history of an atomic object:
    every call takes effect at one moment between its invocation and its
    return, as if it had run alone, and the log of these effects is a
    sequential run of the model.  While no call holds [reqMu], the client and
    the network are in the state of that run.  The calls in flight take finitely
    many steps.  As long as there are such calls, some goroutine can take a
    step, unless the holder of [reqMu] is in a network call that blocks; then
    the goroutines that can still move (the calls that their checks refuse, and
    those that are through with their body, which always can) leave the client
    and the wire alone, and no other call gets past [reqMu]. *)
Theorem client_serialized {W} `{!Transport W} body ready c (w : W) h s' :
  (forall q, fine (body q)) -> (forall q st, run (body q) st = performs q st) ->
  (forall st f k, on_client f -> ready st (Act f k) = true) ->
  history (call_step (checks (W := W) (c_opts c)) body ready) (at_rest (c, w)) h s' ->
  (exists o', history (object_step alone_effect) (mkObject (c, w) ∅ []) h o' /\
    sequential alone_effect (c, w) (ob_log o') (ob_state o') /\
    (sy_reqMu s' = None -> sy_state s' = ob_state o')) /\
  sn (quiet (checks (W := W) (c_opts c)) body ready) s' /\
  (sy_calls s' <> ∅ ->
    (exists s2, quiet (checks (W := W) (c_opts c)) body ready s' s2) \/ exists f k, on_network f /\ blocked_in ready s' (Act f k)) /\
  (forall p s2, blocked_in ready s' p -> quiet (checks (W := W) (c_opts c)) body ready s' s2 ->
    sy_state s2 = sy_state s' /\ blocked_in ready s2 p) /\
  (forall t pc, sy_calls s' !! t = Some pc -> match pc with Called _ | Returning _ _ => True | _ => False end ->
    exists s2, quiet (checks (W := W) (c_opts c)) body ready s' s2 /\ sy_calls s2 !! t <> Some pc).
Proof.
  intros Hfine Hb Hrd Hh. assert (Hs : mutex_ok s') by (eapply history_mutex_ok; [apply at_rest_ok | exact Hh]).
  assert (Hr : running_in fine s').
  { eapply (history_running_in _ _ _ fine); [done | by intros f k st H; apply fine_step in H as [_ H] | | exact Hh].
    intros t q p. simpl. by rewrite lookup_empty. }
  split; [|split; [by apply quiet_terminates|split; [|split; [by intros p s2 H; apply quiet_blocked | by apply quiet_free]]]].
  - destruct (client_calls_linearizable body Hb ready c w h s' Hh) as (o' & H1 & (_ & _ & Hp) & H2).
    exists o'. split; [done|]. split; [done|]. intros E. unfold protects in Hp. rewrite E in Hp. by destruct Hp.
  - intros Hne. destruct (quiet_progress (checks (W := W) (c_opts c)) body ready s' Hs Hne) as [H|[p Hp]]; [by left|]. right.
    pose proof Hp as (t & q & _ & Ht & Hblk). destruct p as [|f k]; [done|]. exists f, k. split; [|done].
    destruct (fine_step f k (Hr t q _ Ht)) as [[Hc|Hn] _]; [|done]. rewrite (Hrd _ f k Hc) in Hblk. done.
Qed.

(** The finest cut of the operations. *)
Definition finest {W} `{!Transport W} (q : locked_call) : prog (Client * W) answer := cut_prog _ (cut_performs q).

(** A network on which dialling blocks: the step would take the next number of
    a connection. *)
Definition dial_blocks (st : Client * Net) (p : prog (Client * Net) answer) : bool :=
  match p with Ret _ => true | Act f _ => n_next (f st).2 =? n_next st.2 end.

Lemma dial_blocks_client st f k : on_client f -> dial_blocks st (Act f k) = true.
Proof. destruct st as [c w]. intros Hf. simpl. rewrite (proj1 (Hf c w)). apply Z.eqb_refl. Qed.

(** Goroutine 1 calls with a bad address while goroutine 2 connects: the first
    returns while the second is in its body. *)
Definition demo_calls : list (event locked_call answer) :=
  let bad := CallReadArea (Caller 0) (mkAddress AreaDB 1 (-1) 4) in
  [Invoke 1 bad; Invoke 2 (CallConnect (Caller 0)); Return 1 (default (AUnit (Ok tt)) (checks (W := Net) defaultOptions bad))].

Lemma demo_calls_history :
  exists s', history (call_step (checks (W := Net) defaultOptions) finest dial_blocks) (at_rest (New "plc" [], mkNet 240 demo_memory ∅ 0)) demo_calls s'.
Proof.
  unfold demo_calls. cbv zeta. eexists.
  eapply history_event; [eapply call_invoke; reflexivity|].
  eapply history_event; [eapply call_invoke; reflexivity|].
  eapply history_silent; [eapply (call_checked _ _ _ _ 2); reflexivity|].
  eapply history_silent; [eapply (call_refused _ _ _ _ 1); reflexivity|].
  eapply history_silent; [eapply (call_lock _ _ _ _ 2); reflexivity|].
  eapply history_event; [eapply (call_return _ _ _ _ 1); reflexivity|].
  apply history_nil.
Qed.

(** Witness of C4. *)
Lemma client_serialized_witness :
  exists s' o', history (call_step (checks (W := Net) defaultOptions) finest dial_blocks) (at_rest (New "plc" [], mkNet 240 demo_memory ∅ 0)) demo_calls s' /\
    history (object_step alone_effect) (mkObject (New "plc" [], mkNet 240 demo_memory ∅ 0) ∅ []) demo_calls o' /\
    sn (quiet (checks (W := Net) defaultOptions) finest dial_blocks) s'.
Proof.
  destruct demo_calls_history as [s' Hh]. exists s'.
  destruct (client_serialized finest dial_blocks (New "plc" []) (mkNet 240 demo_memory ∅ 0) demo_calls s') as ((o' & Ho & _) & Hsn & _).
  - intros q. apply cut_fine.
  - intros q st. apply cut_run.
  - exact dial_blocks_client.
  - exact Hh.
  - exists o'. split; [exact Hh|]. split; [exact Ho | exact Hsn].
Defined.

(** C2: goroutines that share a client connected to the server refine the
    abstract memory service: the client connects, and for every history of
    concurrent reads, writes and bit operations, however their steps
    interleave and block, the replies are those of an atomic memory service, each call
    taking effect at one moment between its invocation and its return; the
    effects in their order are a run of the service from the server's
    memory. *)
Theorem shared_client_linearizable ctx c w :
  is_nil ctx = false -> net_ok w -> options_ok (c_opts c) -> client_pduRef_ok c -> c_conn c <> Some (n_next w) ->
  pdu_ok (Z.min (o_maxPDU (c_opts c)) (n_maxPDU w)) ->
  exists c1 w1, Connect ctx (c, w) = (Ok tt, (c1, w1)) /\
    forall body ready h s', (forall q st, run (body q) st = performs q st) ->
      Forall (invoked_ok (A := answer) (is_request ctx)) h ->
      history (call_step (checks (W := Net) (c_opts c1)) body ready) (at_rest (c1, w1)) h s' ->
      exists o', history (object_step (service_effect ctx)) (mkObject (n_mem w) ∅ []) h o' /\
        sequential (service_effect ctx) (n_mem w) (ob_log o') (ob_state o').
Proof.
  intros Hctx Hw Ho Hr Hn Hp. destruct (Connect_net ctx c w) as (c1 & w1 & H1 & C1 & P1 & M1); [done..|].
  destruct (connected_net _ _ _ _ C1) as (Hpe & _). exists c1, w1. split; [done|]. intros body ready h s' Hb Hok Hh.
  rewrite <- M1. eapply (requests_linearizable body Hb ready ctx (n_next w) c1 w1 h s' C1); [|done..].
  simpl. by rewrite <- Hpe, P1.
Qed.

(** Two goroutines: 1 writes two bytes, 2 reads them; both have called before
    either takes the mutex, and 2 returns first. *)
Definition write_call : locked_call := CallWriteArea (Caller 0) (mkAddress AreaDB 1 1 2) [x01; x02].
Definition read_call : locked_call := CallReadArea (Caller 0) (mkAddress AreaDB 1 0 4).

Definition shared_history (st : Client * Net) : list (event locked_call answer) :=
  let '(a1, st1) := performs write_call st in
  let '(a2, _) := performs read_call st1 in
  [Invoke 1 write_call; Invoke 2 read_call; Return 2 a2; Return 1 a1].

Definition always_ready {S A} (s : S) (p : prog S A) : bool := true.
Definition at_once (q : locked_call) : prog (Client * Net) answer := atomically (performs q).

Lemma shared_history_ok o st :
  exists s', history (call_step (checks (W := Net) o) at_once always_ready) (at_rest st) (shared_history st) s'.
Proof.
  unfold shared_history. destruct (performs write_call st) as [a1 st1] eqn:E1. destruct (performs read_call st1) as [a2 st2] eqn:E2.
  eexists.
  eapply history_event; [eapply call_invoke; reflexivity|].
  eapply history_event; [eapply call_invoke; reflexivity|].
  eapply history_silent; [eapply (call_checked _ _ _ _ 1); reflexivity|].
  eapply history_silent; [eapply (call_checked _ _ _ _ 2); reflexivity|].
  eapply history_silent; [eapply (call_lock _ _ _ _ 1); reflexivity|].
  eapply history_silent; [eapply (call_act _ _ _ _ 1); reflexivity|]. cbn [sy_state at_rest at_pc]. rewrite E1. cbn [fst snd].
  eapply history_silent; [eapply (call_unlock _ _ _ _ 1); reflexivity|].
  eapply history_silent; [eapply (call_lock _ _ _ _ 2); reflexivity|].
  eapply history_silent; [eapply (call_act _ _ _ _ 2); reflexivity|]. cbn [sy_state]. rewrite E2. cbn [fst snd].
  eapply history_silent; [eapply (call_unlock _ _ _ _ 2); reflexivity|].
  eapply history_event; [eapply (call_return _ _ _ _ 2); reflexivity|].
  eapply history_event; [eapply (call_return _ _ _ _ 1); reflexivity|].
  apply history_nil.
Qed.

Lemma shared_history_requests st : Forall (invoked_ok (A := answer) (is_request (Caller 0))) (shared_history st).
Proof.
  unfold shared_history. destruct (performs write_call st) as [a1 st1]. destruct (performs read_call st1) as [a2 st2].
  repeat constructor; [by exists (PutBytes (mkAddress AreaDB 1 1 2) [x01; x02]) | by exists (GetBytes (mkAddress AreaDB 1 0 4))].
Qed.

(** Witness of C2. *)
Lemma shared_client_linearizable_witness :
  exists c1 w1, Connect (Caller 0) (New "plc" [], mkNet 240 demo_memory ∅ 0) = (Ok tt, (c1, w1)) /\
    exists o', history (object_step (service_effect (Caller 0))) (mkObject demo_memory ∅ []) (shared_history (c1, w1)) o' /\
      sequential (service_effect (Caller 0)) demo_memory (ob_log o') (ob_state o').
Proof.
  destruct (shared_client_linearizable (Caller 0) (New "plc" []) (mkNet 240 demo_memory ∅ 0)) as (c1 & w1 & H1 & Hall).
  - reflexivity.
  - split; [exact demo_memory_ok | simpl; lia].
  - vm_compute. repeat split; discriminate.
  - vm_compute. repeat split; discriminate.
  - discriminate.
  - vm_compute. repeat split; discriminate.
  - exists c1, w1. split; [exact H1|]. destruct (shared_history_ok (c_opts c1) (c1, w1)) as [s' Hh].
    apply (Hall at_once always_ready (shared_history (c1, w1)) s'); [intros q st; apply run_atomically | apply shared_history_requests | exact Hh].
Defined.

(** C5: the readers of a connection never see a mixture.  Goroutines set the
    fields of the connection under [mu] ([Connect], [Close]) and copy some of
    them ([ConnectionInfo], [PDUSize], [sendReceive]), in any interleaving of
    the single assignments and copies.  What they see is a history of a client
    whose fields change at once, and every copy that takes effect holds the
    fields of the client as it was at first, as one of the [Connect] calls set
    them together, or as [Close] reset them.  Every call returns. *)
Theorem ConnectionInfo_consistent c0 h s' :
  history (rw_step mu_caller mu_job tt) (rw_idle c0) h s' ->
  (exists o', history (object_step fields_effect) (mkObject c0 ∅ []) h o' /\
     sequential fields_effect c0 (ob_log o') (ob_state o') /\
     forall t t' r a, (t, CopyFields t' r, a) ∈ ob_log o' ->
       exists c, consistent (connects_of (ob_log o')) c0 c /\ a = snapshot r c) /\
  sn (rw_quiet mu_caller mu_job tt) s' /\
  (rw_calls s' <> ∅ -> exists s2, rw_quiet mu_caller mu_job tt s' s2).
Proof.
  intros Hh. split; [|split; [apply rw_quiet_terminates | apply rw_quiet_progress]].
  destruct (rw_linearizable mu_caller mu_job tt mu_job_reads c0 h s' Hh) as (o' & Ho & _ & _).
  apply (object_history_map fst _ fields_effect (fun _ => True)) in Ho as [Ho _]; [|by intros; split; [apply mu_effect|] | done].
  unfold object_map in Ho. simpl in Ho.
  assert (Hseq : sequential fields_effect c0 (ob_log o') (ob_state o').1) by (eapply (history_sequential _ c0 (mkObject c0 ∅ [])) in Ho; [done | constructor]).
  exists (mkObject (ob_state o').1 (ob_calls o') (ob_log o')). split; [done|]. split; [done|].
  exact (proj2 (sequential_consistent _ _ _ Hseq)).
Qed.

(** A [Connect] sets its fields while a [ConnectionInfo] waits. *)
Definition demo_setup : setup := mkSetup 7 0 2 0x0100 0x0302 240 1 1.
Definition demo_fields : list (event mu_call (list (option Z))) :=
  [Invoke 1 (SetFields 1 demo_setup); Invoke 2 (CopyFields 2 ByConnectionInfo); Return 1 [];
   Return 2 (Some <$> [102; 0x0100; 0x0302; 0; 2; 240; 1; 1])].

Lemma demo_fields_history :
  exists s', history (rw_step mu_caller mu_job tt) (rw_idle (New "plc" [])) demo_fields s'.
Proof.
  unfold demo_fields. eexists.
  eapply history_event; [eapply (rw_invoke _ _ _ _ 1); reflexivity|].
  eapply history_silent; [eapply (rw_announce _ _ _ _ 1); [reflexivity.. | by_decision]|].
  eapply history_event; [eapply (rw_invoke _ _ _ _ 2); reflexivity|].
  eapply history_silent; [eapply (rw_lock _ _ _ _ 1); [reflexivity | by_decision]|].
  eapply (rw_hold_through _ _ _ _ 1); [reflexivity|].
  eapply history_event; [eapply (rw_return _ _ _ _ 1); reflexivity|].
  eapply history_silent; [eapply (rw_rlock _ _ _ _ 2); [reflexivity.. | by_decision]|].
  eapply (rw_peek_through _ _ _ _ 2); [reflexivity|].
  eapply history_event; [eapply (rw_return _ _ _ _ 2); reflexivity|].
  apply history_nil.
Qed.

(** Witness of C5. *)
Lemma ConnectionInfo_consistent_witness :
  exists o', history (object_step fields_effect) (mkObject (New "plc" []) ∅ []) demo_fields o' /\
    forall t t' r a, (t, CopyFields t' r, a) ∈ ob_log o' ->
      exists c, consistent (connects_of (ob_log o')) (New "plc" []) c /\ a = snapshot r c.
Proof.
  destruct demo_fields_history as [s' Hh].
  destruct (ConnectionInfo_consistent (New "plc" []) demo_fields s' Hh) as ((o' & Ho & _ & Hc) & _).
  exists o'. split; [exact Ho | exact Hc].
Defined.

(** C3: the connections of a server see one memory.  Goroutines handle the
    requests of any number of connections, and host goroutines read, write and
    register areas, under the [RWMutex] of the memory, in any interleaving of
    the steps into which their critical sections are cut.  What clients and
    host see is a history of an atomic server: every request takes effect at
    one moment between its arrival and its answer, with the whole effect of
    [handle] for the PDU size of its own connection, and no request makes the
    handler panic; the log of the effects is a sequential run from the initial
    memory.  Every session stays sound, and every call returns. *)
Theorem server_linearizable max job_of m0 h s' :
  (forall q pdu, cuts (criticalOf (todoOf max q pdu)) (job_of q pdu)) ->
  memory_ok m0 -> MinPDUSize <= max <= MaxPDUSize ->
  history (rw_step server_caller job_of max) (rw_idle m0) h s' ->
  (exists o', history (object_step (server_effect max)) (mkObject (m0, ∅) ∅ []) h o' /\
     sequential (server_effect max) (m0, ∅) (ob_log o') (ob_state o') /\ shared_ok max (ob_state o') /\
     (nobody is_holding (rw_calls s') -> rw_state s' = (ob_state o').1)) /\
  sn (rw_quiet server_caller job_of max) s' /\
  (rw_calls s' <> ∅ -> exists s2, rw_quiet server_caller job_of max s' s2).
Proof.
  intros Hcut Hm Hx Hh. split; [by eapply server_calls_linearizable|].
  split; [apply rw_quiet_terminates | apply rw_quiet_progress].
Qed.

(** Connection 1 writes two bytes of DB1 while connection 2 reads four; both
    requests have arrived before either takes the lock. *)
Definition write_job : bytes :=
  [x32; x01; x00; x00; x00; x01; x00; x0e; x00; x06; x05; x01; x12; x0a; x10; x02; x00; x02; x00; x01; x84; x00; x00; x08;
   x00; x04; x00; x10; x01; x02].
Definition read_job : bytes :=
  [x32; x01; x00; x00; x00; x02; x00; x0e; x00; x00; x04; x01; x12; x0a; x10; x02; x00; x04; x00; x01; x84; x00; x00; x00].

Definition shared_requests : list (event server_call server_answer) :=
  let write_ack := [x32; x03; x00; x00; x00; x01; x00; x02; x00; x01; x00; x00; x05; x01; xff] in
  let read_ack := [x32; x03; x00; x00; x00; x02; x00; x02; x00; x08; x00; x00; x04; x01; xff; x04; x00; x20; x10; x01; x02; x43] in
  [Invoke 1 (OnRequest 1 write_job); Invoke 2 (OnRequest 2 read_job);
   Return 1 (Handled (Ok (Some write_ack, true))); Return 2 (Handled (Ok (Some read_ack, true)))].

Lemma shared_requests_history :
  exists s', history (rw_step server_caller (itemwise 480) 480) (rw_idle demo_memory) shared_requests s'.
Proof.
  unfold shared_requests. cbv zeta. eexists.
  eapply history_event; [eapply (rw_invoke _ _ _ _ 1); reflexivity|].
  eapply history_event; [eapply (rw_invoke _ _ _ _ 2); reflexivity|].
  eapply history_silent; [eapply (rw_announce _ _ _ _ 1); [reflexivity.. | by_decision]|].
  eapply history_silent; [eapply (rw_lock _ _ _ _ 1); [reflexivity | by_decision]|].
  eapply (rw_hold_through _ _ _ _ 1); [reflexivity|].
  eapply history_event; [eapply (rw_return _ _ _ _ 1); vm_compute; reflexivity|].
  eapply history_silent; [eapply (rw_rlock _ _ _ _ 2); [reflexivity.. | by_decision]|].
  eapply (rw_peek_through _ _ _ _ 2); [reflexivity|].
  eapply history_event; [eapply (rw_return _ _ _ _ 2); vm_compute; reflexivity|].
  apply history_nil.
Qed.

(** Witness of C3: the item-by-item cut of the source. *)
Lemma server_linearizable_witness :
  exists o', history (object_step (server_effect 480)) (mkObject (demo_memory, ∅) ∅ []) shared_requests o' /\
    sequential (server_effect 480) (demo_memory, ∅) (ob_log o') (ob_state o').
Proof.
  destruct shared_requests_history as [s' Hh].
  destruct (server_linearizable 480 (itemwise 480) demo_memory shared_requests s') as ((o' & Ho & Hs & _) & _).
  - exact (itemwise_cuts 480).
  - exact demo_memory_ok.
  - unfold MinPDUSize, MaxPDUSize. lia.
  - exact Hh.
  - exists o'. split; [exact Ho | exact Hs].
Defined.
