(* ===== verification/Trees.v ===== *)
(** * Client operations as trees of network calls

    An operation of a client works on the client and calls the connection and
    the context.  Goroutines with clients of their own share only the
    network, so what matters of an operation is its calls, in which order, and
    how it goes on from their answers: a tree with a call at every node.  A
    tree is played over any environment; an operation has a tree when playing
    it is running the operation, whatever the environment.  A group of
    goroutines is a list of trees over one environment, and a schedule says
    whose call is next. *)

From S2P Require Import Prelude Go WireErrors Header ReadWrite Client ClientRW.

(** ** Trees *)

(** The calls, by the type of their answers. *)
Inductive transport_op : Type -> Type :=
  | ODial (ctx : Ctx) (timeout : Z) (addr : string) : transport_op (error + Z)
  | OConnect (ctx : Ctx) (raw : Z) (l r : bytes) (size : Z) : transport_op (error + Conn)
  | OWrite (ctx : Ctx) (conn : Conn) (req : bytes) : transport_op (error + unit)
  | ORead (ctx : Ctx) (conn : Conn) : transport_op (error + bytes)
  | OClose (conn : Conn) : transport_op (option error)
  | OCtxErr (ctx : Ctx) : transport_op (option error)
  | OWait (ctx : Ctx) (d : Z) : transport_op bool
  | ODuration (d : Z) : transport_op string.

Definition perform {W} `{!Transport W} {R} (o : transport_op R) : W -> R * W :=
  match o with
  | ODial ctx timeout addr => t_dial ctx timeout addr
  | OConnect ctx raw l r size => t_cotpConnect ctx raw l r size
  | OWrite ctx conn req => t_WriteTSDU ctx conn req
  | ORead ctx conn => t_ReadTSDU ctx conn
  | OClose conn => t_Close conn
  | OCtxErr ctx => t_ctxErr ctx
  | OWait ctx d => t_wait ctx d
  | ODuration d => fun w => (t_duration d, w)
  end.

Inductive calls (A : Type) : Type :=
  | Done (a : A)
  | Calls {R : Type} (o : transport_op R) (k : R -> calls A).
Arguments Done {A} a.
Arguments Calls {A R} o k.

Fixpoint play {W} `{!Transport W} {A} (p : calls A) (w : W) : A * W :=
  match p with
  | Done a => (a, w)
  | Calls o k => let '(r, w') := perform o w in play (k r) w'
  end.

Fixpoint calls_then {A B} (p : calls A) (f : A -> calls B) : calls B :=
  match p with
  | Done a => f a
  | Calls o k => Calls o (fun r => calls_then (k r) f)
  end.

Lemma play_then {W} `{!Transport W} {A B} (p : calls A) (f : A -> calls B) (w : W) :
  play (calls_then p f) w = let '(a, w') := play p w in play (f a) w'.
Proof. revert w. induction p as [a|R o k IH]; intros w; simpl; [done|]. destruct (perform o w) as [r w']. apply IH. Qed.

(** ** Goroutines over one environment *)

Section Group.
Context {W : Type} `{!Transport W} {A : Type}.

(** The next call of goroutine [i], if it has one left. *)
Definition turn (i : nat) (s : list (calls A) * W) : list (calls A) * W :=
  match s.1 !! i with
  | Some (Calls o k) => let '(r, w) := perform o s.2 in (<[i := k r]> s.1, w)
  | _ => s
  end.

(** The rest of goroutine [i]. *)
Definition play_out (i : nat) (s : list (calls A) * W) : list (calls A) * W :=
  match s.1 !! i with
  | Some p => let '(a, w) := play p s.2 in (<[i := Done a]> s.1, w)
  | None => s
  end.

Definition result_of (p : calls A) : option A := match p with Done a => Some a | Calls _ _ => None end.

(** The goroutines take turns as the schedule says, and finish one after the
    other when it says no more; their results, in order. *)
Definition group (schedule : list nat) (ps : list (calls A)) (w : W) : list A * W :=
  let s := foldl (fun s i => turn i s) (ps, w) schedule in
  let s := foldl (fun s i => play_out i s) s (List.seq 0 (length ps)) in
  (omap result_of s.1, s.2).
End Group.

(** ** Operations that have a tree *)

Record tree {A} (m : forall W, Transport W -> M W A) : Type := mkTree {
  tree_calls : Client -> calls (res A * Client);
  tree_run : forall W (T : Transport W) c (w : W),
    m W T (c, w) = let '((r, c'), w') := play (tree_calls c) w in (r, (c', w'));
}.
Arguments tree_calls {A m} _ _.
Arguments tree_run {A m} _ _ _ _ _.

Lemma tree_lift {A} (r : res A) : tree (fun W T => lift r).
Proof. exists (fun c => Done (r, c)). done. Defined.
Lemma tree_get {A} (f : Client -> A) : tree (fun W T => get f).
Proof. exists (fun c => Done (Ok (f c), c)). done. Defined.
Lemma tree_modify (f : Client -> Client) : tree (fun W T => modify f).
Proof. exists (fun c => Done (Ok tt, f c)). done. Defined.
Lemma tree_call {A} (o : transport_op (error + A)) : tree (fun W T => call (perform o)).
Proof.
  exists (fun c => Calls o (fun r => Done (match r with inl e => Err e | inr a => Ok a end, c))).
  intros W T c w. unfold call. simpl. by destruct (perform o w) as [[] w'].
Defined.
Lemma tree_observe {A} (o : transport_op A) : tree (fun W T => observe (perform o)).
Proof.
  exists (fun c => Calls o (fun r => Done (Ok r, c))).
  intros W T c w. unfold observe. simpl. by destruct (perform o w).
Defined.
Lemma tree_nextPDURef : tree (fun W T => nextPDURef).
Proof.
  exists (fun c => Done (match pduRefLoop 2 (c_pduRef c) with Some (ref, p) => (Ok ref, set_pduRef p c) | None => (Panic, c) end)).
  intros W T c w. unfold nextPDURef. cbn [fst snd play]. by destruct (pduRefLoop 2 (c_pduRef c)) as [[]|].
Defined.
Lemma tree_bind {A B} (m : forall W, Transport W -> M W A) (k : forall W, Transport W -> A -> M W B) :
  tree m -> (forall a, tree (fun W T => k W T a)) -> tree (fun W T => m W T ≫= k W T).
Proof.
  intros tm tk.
  exists (fun c => calls_then (tree_calls tm c) (fun x =>
    match x.1 with Ok a => tree_calls (tk a) x.2 | Err e => Done (Err e, x.2) | Panic => Done (Panic, x.2) end)).
  intros W T c w. rewrite bind_run, (tree_run tm), play_then.
  destruct (play (tree_calls tm c) w) as [[[a|e|] c'] w']; [apply (tree_run (tk a)) | done..].
Defined.
Lemma tree_attempt {A} (m : forall W, Transport W -> M W A) : tree m -> tree (fun W T => attempt (m W T)).
Proof.
  intros tm.
  exists (fun c => calls_then (tree_calls tm c) (fun x =>
    Done (match x.1 with Ok a => Ok (inr a) | Err e => Ok (inl e) | Panic => Panic end, x.2))).
  intros W T c w. unfold attempt. rewrite (tree_run tm), play_then.
  by destruct (play (tree_calls tm c) w) as [[[a|e|] c'] w'].
Defined.
(** The text of a duration is a call too. *)
Lemma tree_text {A} (f : string -> forall W, Transport W -> M W A) d :
  (forall s, tree (f s)) -> tree (fun W T => f (t_duration d) W T).
Proof.
  intros tf. exists (fun c => Calls (ODuration d) (fun s => tree_calls (tf s) c)).
  intros W T c w. simpl. apply (tree_run (tf _)).
Defined.

Ltac tree_step :=
  cbv beta;
  lazymatch goal with
  | |- tree (fun W T => mbind _ _) => apply tree_bind; [|intros ?]
  | |- tree (fun W T => attempt _) => apply tree_attempt
  | |- tree (fun W T => mret _) => apply tree_lift
  | |- tree (fun W T => fail _) => apply tree_lift
  | |- tree (fun W T => lift _) => apply tree_lift
  | |- tree (fun W T => get _) => apply tree_get
  | |- tree (fun W T => modify _) => apply tree_modify
  | |- tree (fun W T => call (t_dial ?a ?b ?c)) => apply (tree_call (ODial a b c))
  | |- tree (fun W T => call (t_cotpConnect ?a ?b ?c ?d ?e)) => apply (tree_call (OConnect a b c d e))
  | |- tree (fun W T => call (t_WriteTSDU ?a ?b ?c)) => apply (tree_call (OWrite a b c))
  | |- tree (fun W T => call (t_ReadTSDU ?a ?b)) => apply (tree_call (ORead a b))
  | |- tree (fun W T => observe (t_Close ?a)) => apply (tree_observe (OClose a))
  | |- tree (fun W T => observe (t_ctxErr ?a)) => apply (tree_observe (OCtxErr a))
  | |- tree (fun W T => observe (t_wait ?a ?b)) => apply (tree_observe (OWait a b))
  | |- tree (fun W T => nextPDURef) => apply tree_nextPDURef
  | |- tree (fun W T => if ?b then _ else _) => destruct b
  | |- tree (fun W T => match ?x with _ => _ end) => destruct x
  end.
Ltac go_tree := repeat first [ tree_step | progress cbv beta iota zeta | solve [auto with trees] ].
Create HintDb trees.

Lemma tree_ctx_Err ctx : tree (fun W T => ctx_Err ctx).
Proof. unfold ctx_Err. go_tree. Defined.
#[export] Hint Resolve tree_ctx_Err : trees.
Lemma tree_check_ctx ctx : tree (fun W T => check_ctx ctx).
Proof. unfold check_ctx. go_tree. Defined.
#[export] Hint Resolve tree_check_ctx : trees.
Lemma tree_sendReceive ctx req ref : tree (fun W T => sendReceive ctx req ref).
Proof. unfold sendReceive, WriteTSDU, ReadTSDU. go_tree. Defined.
#[export] Hint Resolve tree_sendReceive : trees.

Lemma tree_closeCOTP conn : tree (fun W T => closeCOTP conn).
Proof. unfold closeCOTP. go_tree. Defined.
Lemma tree_performS7Setup ctx conn ref a b size : tree (fun W T => performS7Setup ctx conn ref a b size).
Proof. unfold performS7Setup, WriteTSDU, ReadTSDU. go_tree. Defined.
Lemma tree_dialCOTP ctx address timeout l r : tree (fun W T => dialCOTP ctx address timeout l r).
Proof. unfold dialCOTP, dialTCP, connectCOTP. go_tree. Defined.
#[export] Hint Resolve tree_closeCOTP tree_performS7Setup tree_dialCOTP : trees.
Lemma tree_connectOnce ctx rack slot : tree (fun W T => connectOnce ctx rack slot).
Proof. unfold connectOnce. go_tree. Defined.
#[export] Hint Resolve tree_connectOnce : trees.
Lemma tree_tryPairs ctx pairs failed : tree (fun W T => tryPairs ctx pairs failed).
Proof. induction pairs as [|[rack slot] pairs IH]; cbn [tryPairs]; go_tree. Defined.
#[export] Hint Resolve tree_tryPairs : trees.
Lemma tree_Connect ctx : tree (fun W T => Connect ctx).
Proof.
  unfold Connect, autoConnect. go_tree.
  apply (tree_text (fun s W T => fail (ValidationError ("invalid timeout: " +:+ s)))). intros s. apply tree_lift.
Defined.
Lemma tree_Close : tree (fun W T => Close).
Proof. unfold Close, closeConnLocked. go_tree. Defined.
Lemma tree_pace ctx rate first : tree (fun W T => pace ctx rate first).
Proof. unfold pace. go_tree. Defined.
#[export] Hint Resolve tree_Connect tree_Close tree_pace : trees.
Lemma tree_readChunks ctx addr reqLen rate chunks offset result first :
  tree (fun W T => readChunks ctx addr reqLen rate chunks offset result first).
Proof. revert offset result first. induction chunks as [|n chunks IH]; intros offset result first; cbn [readChunks]; go_tree. Defined.
#[export] Hint Resolve tree_readChunks : trees.
Lemma tree_ReadArea ctx addr : tree (fun W T => ReadArea ctx addr).
Proof. unfold ReadArea. go_tree. Defined.
Lemma tree_ReadBit ctx addr : tree (fun W T => ReadBit ctx addr).
Proof. unfold ReadBit, require_conn. go_tree. Defined.
#[export] Hint Resolve tree_ReadArea tree_ReadBit : trees.
Lemma tree_writeChunks ctx addr dat rate chunks offset first :
  tree (fun W T => writeChunks ctx addr dat rate chunks offset first).
Proof. revert offset first. induction chunks as [|n chunks IH]; intros offset first; cbn [writeChunks]; go_tree. Defined.
#[export] Hint Resolve tree_writeChunks : trees.
Lemma tree_WriteArea ctx addr dat : tree (fun W T => WriteArea ctx addr dat).
Proof. unfold WriteArea. go_tree. Defined.
Lemma tree_WriteBit ctx addr v : tree (fun W T => WriteBit ctx addr v).
Proof. unfold WriteBit, require_conn. go_tree. Defined.
#[export] Hint Resolve tree_WriteArea tree_WriteBit : trees.
