(* ===== verification/Interop.v ===== *)
(** * The interoperability runner (interop/fixture.go, interop/runner.go)

    A fixture is a list of steps: reads, writes, rejected ones, reconnects and
    concurrent reads, each with the outcome and the bytes a server must give.
    The parser takes the decoded JSON document (reading the directory and
    [json.Unmarshal] are left out), the runner drives a client.

    Texts that only appear in messages are the class [Texts]: [fmt.Sprint] of a
    value that is not a string, the rune that [encoding/hex] puts in its
    error, a quoted string; and so is what the machine makes of a [float64]
    beyond the range of [int].  Which errors of the network are a [net.Error]
    is the parameter [isNetError].  A [float64] is a mantissa and a binary
    exponent.

    The goroutines of a concurrent read have clients of their own and share the
    network: they are trees of network calls ([Trees]) that take turns as the
    parameter [schedule] says. *)

From S2P Require Import Prelude Go WireErrors Header ReadWrite Memory Client ClientRW ClientSZL Discover Trees.

Local Open Scope string_scope.
Local Open Scope list_scope.
Local Open Scope Z_scope.

(** ** Data *)

Definition Outcome := string.
Definition OutcomeSuccess : Outcome := "success".
Definition OutcomeAddressOutOfRange : Outcome := "address-out-of-range".
Definition OutcomeWriteProtected : Outcome := "write-protected".
Definition OutcomeUnsupported : Outcome := "unsupported".
Definition OutcomeTransportFailure : Outcome := "transport-failure".
Definition OutcomeProtocolFailure : Outcome := "protocol-failure".

Record Expectation := mkExpectation {
  ex_Operation : string;
  ex_AreaType : string;
  ex_AreaNum : Z;
  ex_Offset : Z;
  ex_Length : Z;
  ex_Bit : Z;
  ex_HasBit : bool;
  ex_Clients : Z;
  ex_Data : bytes;
  ex_WantOutcome : Outcome;
  ex_WantBytes : bytes;
  ex_HasBytes : bool;
}.

Record CompiledFixture := mkFixture {
  fx_ID : string;
  fx_Revision : Z;
  fx_Rack : Z;
  fx_Slot : Z;
  fx_Filename : string;
  fx_Expectations : list Expectation;
}.

(** ** Decoded JSON *)

(** A Go [any] as the parser meets it; a [map[string]any] is the list of its
    entries, each key once. *)
Inductive value :=
  | VNil
  | VBool (b : bool)
  | VFloat (mantissa exponent : Z)
  | VInt (n : Z)
  | VNumber (text : string)
  | VString (s : string)
  | VArray (l : list value)
  | VObject (m : list (string * value)).

(** [m[key]]: nil for a key that is not there. *)
Fixpoint get_key (m : list (string * value)) (k : string) : option value :=
  match m with
  | [] => None
  | (k', v) :: m => if String.eqb k' k then Some v else get_key m k
  end.
Definition key_of (m : list (string * value)) (k : string) : value := default VNil (get_key m k).

(** [v, _ := x.(map[string]any)]: a nil map when [x] is something else. *)
Definition as_object (v : value) : list (string * value) := match v with VObject m => m | _ => [] end.

Class Texts := {
  sprint : value -> string;
  hex_rune : Ascii.ascii -> string;
  quoted : string -> string;
  (** [int(f)] for a float that [int] does not hold *)
  float_overflow : Z -> Z -> Z;
}.

(** The fraction of a float is cut off. *)
Definition float_int `{!Texts} (m e : Z) : Z :=
  let n := if 0 <=? e then m * 2 ^ e else Z.quot m (2 ^ (- e)) in
  if (MinInt64 <=? n) && (n <=? MaxInt64) then n else float_overflow m e.

(** [json.Number.Int64]: an optional sign and digits, within 64 bits. *)
Definition number_int (text : string) : option Z :=
  n ← match String.list_ascii_of_string text with
      | a :: l =>
          if char_code a =? 45 then n ← digits l; Some (- n)
          else if char_code a =? 43 then digits l
          else digits (a :: l)
      | [] => None
      end;
  if (- 2 ^ 63 <=? n) && (n <? 2 ^ 63) then Some n else None.

Definition asInt `{!Texts} (v : value) (def : Z) : Z :=
  match v with
  | VFloat m e => float_int m e
  | VInt n => n
  | VNumber text => default def (number_int text)
  | _ => def
  end.

(** [%T] *)
Definition type_text (v : value) : string :=
  match v with
  | VNil => "<nil>" | VBool _ => "bool" | VFloat _ _ => "float64" | VInt _ => "int" | VNumber _ => "json.Number"
  | VString _ => "string" | VArray _ => "[]interface {}" | VObject _ => "map[string]interface {}"
  end.

Definition normalizeResultString (s : string) : Outcome :=
  if String.eqb s "accepted" || String.eqb s "success" then OutcomeSuccess
  else if String.eqb s "address-out-of-range" then OutcomeAddressOutOfRange
  else if String.eqb s "write-protected" then OutcomeWriteProtected
  else if String.eqb s "unsupported" then OutcomeUnsupported
  else if String.eqb s "transport-failure" then OutcomeTransportFailure
  else if String.eqb s "protocol-failure" then OutcomeProtocolFailure
  else s.

Section Fixture.
Context `{!Texts}.

Definition asString (v : value) : string :=
  match v with VNil => "" | VString s => s | v => sprint v end.

(** The value of a hexadecimal digit. *)
Definition from_hex (a : Ascii.ascii) : option Z :=
  let c := char_code a in
  if (48 <=? c) && (c <=? 57) then Some (c - 48)
  else if (97 <=? c) && (c <=? 102) then Some (c - 87)
  else if (65 <=? c) && (c <=? 70) then Some (c - 55)
  else None.

(** [hex.DecodeString]. *)
Definition bad_hex (a : Ascii.ascii) : error := Plain ("encoding/hex: invalid byte: " +:+ hex_rune a).
Fixpoint hex_decode (l : list Ascii.ascii) : res bytes :=
  match l with
  | [] => Ok []
  | [a] =>
      match from_hex a with
      | None => Err (bad_hex a)
      | Some _ => Err (Plain "encoding/hex: odd length hex string")
      end
  | a :: b :: l =>
      match from_hex a, from_hex b with
      | None, _ => Err (bad_hex a)
      | _, None => Err (bad_hex b)
      | Some x, Some y => rest ← hex_decode l; Ok (z2b (x * 16 + y) :: rest)
      end
  end.

(** [strings.ReplaceAll(h, " ", "")] *)
Definition without_spaces (l : list Ascii.ascii) : list Ascii.ascii := List.filter (fun a => negb (char_code a =? 32)) l.

Definition decodePayload (m : list (string * value)) : res bytes :=
  match key_of m "hex" with
  | VString h => hex_decode (without_spaces (String.list_ascii_of_string h))
  | _ => Err (Plain "payload requires hex")
  end.

Definition parseExpectation (m : list (string * value)) : res Expectation :=
  let area := as_object (key_of m "area") in
  let hasBit := bool_decide (is_Some (get_key m "bit")) in
  let bit := if hasBit then asInt (key_of m "bit") 0 else 0 in
  let length0 := asInt (key_of m "length") 0 in
  data ← match key_of m "data" with VObject d => decodePayload d | _ => Ok [] end;
  let exp length outcome wantBytes hasBytes :=
    mkExpectation (asString (key_of m "operation")) (asString (key_of area "type")) (asInt (key_of area "number") 0)
      (asInt (key_of m "offset") 0) length bit hasBit (asInt (key_of m "clients") 0) data outcome wantBytes hasBytes in
  match key_of m "result" with
  | VString result => Ok (exp length0 (normalizeResultString result) [] false)
  | VObject result =>
      b ← decodePayload result;
      Ok (exp (if length0 =? 0 then len b else length0) OutcomeSuccess b true)
  | v => Err (Plain ("unsupported result type " +:+ type_text v))
  end.

(** The loop over the expectations of a document. *)
Fixpoint expectationsLoop (i : Z) (items : list value) (out : list Expectation) : res (list Expectation) :=
  match items with
  | [] => Ok out
  | VObject m :: items =>
      match parseExpectation m with
      | Ok e => expectationsLoop (i + 1) items (out ++ [e])
      | Err err => Err (errorf1 ("expectations[" +:+ dec i +:+ "]: ") err "")
      | Panic => Panic
      end
  | _ :: _ => Err (Plain ("expectations[" +:+ dec i +:+ "]: not an object"))
  end.

(** The part of [loadCompiledFixture] after [json.Unmarshal]. *)
Definition compileFixture (doc : list (string * value)) : res CompiledFixture :=
  let meta := as_object (key_of doc "fixture") in
  let server := as_object (key_of doc "server") in
  exps ← expectationsLoop 0 (match key_of doc "expectations" with VArray l => l | _ => [] end) [];
  Ok (mkFixture (asString (key_of meta "id")) (asInt (key_of meta "revision") 1) (asInt (key_of server "rack") 0)
        (asInt (key_of server "slot") 2) "" exps).

Section Files.
(** [os.ReadDir] (name of an entry, and whether it is a directory),
    [os.ReadFile], [filepath.Join] and [json.Unmarshal]. *)
Variable ReadDir : string -> error + list (string * bool).
Variable ReadFile : string -> error + bytes.
Variable Join : string -> string -> string.
Variable Unmarshal : bytes -> error + list (string * value).

Definition loadCompiledFixture (path : string) : res CompiledFixture :=
  match ReadFile path with
  | inl err => Err err
  | inr raw => match Unmarshal raw with inl err => Err err | inr doc => compileFixture doc end
  end.

Definition set_Filename (name : string) (fx : CompiledFixture) : CompiledFixture :=
  mkFixture (fx_ID fx) (fx_Revision fx) (fx_Rack fx) (fx_Slot fx) name (fx_Expectations fx).

(** [strings.HasSuffix]. *)
Definition HasSuffix (s suffix : string) : bool :=
  bool_decide (String.list_ascii_of_string suffix `suffix_of` String.list_ascii_of_string s).

(** The condition under which the loop of [loadAllFixtures] takes an entry. *)
Definition isFixture (e : string * bool) : bool := negb (e.2 || negb (HasSuffix e.1 ".compiled.json")).

Fixpoint fixturesLoop (dir : string) (entries : list (string * bool)) (out : list CompiledFixture) : res (list CompiledFixture) :=
  match entries with
  | [] => Ok out
  | e :: entries =>
      if negb (isFixture e) then fixturesLoop dir entries out
      else
      match loadCompiledFixture (Join dir e.1) with
      | Ok fx => fixturesLoop dir entries (out ++ [set_Filename e.1 fx])
      | Err err => Err (errorf1 (e.1 +:+ ": ") err "")
      | Panic => Panic
      end
  end.

Definition loadAllFixtures (dir : string) : res (list CompiledFixture) :=
  match ReadDir dir with
  | inl err => Err err
  | inr entries =>
      out ← fixturesLoop dir entries [];
      if len out =? 0 then Err (Plain ("no compiled fixtures in " +:+ dir)) else Ok out
  end.
End Files.

(** ** Addresses and classification *)

Definition opTimeout : Z := 10 * Second.

Definition modelAddress (areaType : string) (number offset size : Z) : res Address :=
  if String.eqb areaType "db" then Ok (mkAddress AreaDB number offset size)
  else if String.eqb areaType "markers" then Ok (mkAddress AreaMerkers 0 offset size)
  else if String.eqb areaType "inputs" then Ok (mkAddress AreaInputs 0 offset size)
  else if String.eqb areaType "outputs" then Ok (mkAddress AreaOutputs 0 offset size)
  else Err (Plain ("unsupported area type " +:+ quoted areaType)).

Definition modelBitAddress (areaType : string) (number byteOffset bitOffset : Z) : res BitAddress :=
  addr ← modelAddress areaType number byteOffset 1;
  Ok (mkBitAddress (a_Area addr) (a_DBNumber addr) byteOffset bitOffset).
End Fixture.

Definition mapItemReturnCode (code : byte) : Outcome :=
  if (code =b RetCodeAddressFault) || (code =b RetCodeNotAvailable) then OutcomeAddressOutOfRange
  else if code =b RetCodeAccessFault then OutcomeWriteProtected
  else OutcomeProtocolFailure.

(** ** The runner *)

Section Operations.
Context `{!Texts} {W : Type} `{!Transport W}.
(** [errors.As] with a [net.Error]: whether an error comes from the network. *)
Variable isNetError : error -> bool.

Definition classifyTransportOrProtocol (err : error) : Outcome :=
  if errors_Is err ContextDeadlineExceeded || errors_Is err ContextCanceled then OutcomeTransportFailure
  else if isNetError err then OutcomeTransportFailure
  else OutcomeProtocolFailure.

Definition classifyWriteError (err : error) : Outcome :=
  match errors_As_S7Error err with
  | Some (_, code, _) => mapItemReturnCode code
  | None => classifyTransportOrProtocol err
  end.

Definition classifyReadResult (res : option ReadResult) : Outcome :=
  match res with
  | None => OutcomeProtocolFailure
  | Some r =>
      match Status r with
      | ReadStatusRejected => mapItemReturnCode (ResultReturnCode r)
      | ReadStatusTransportErr | ReadStatusTimeout => OutcomeTransportFailure
      | ReadStatusProtocolErr => OutcomeProtocolFailure
      | _ => if OK res then OutcomeSuccess else OutcomeProtocolFailure
      end
  end.

Definition newClient (host : string) (port rack slot : Z) : Client :=
  New host [WithPort port; WithRackSlot rack slot; WithTimeout opTimeout; WithMaxPDU 480].

Definition readArea (ctx : Ctx) (areaType : string) (number offset length : Z) : M W ReadResult :=
  addr ← lift (modelAddress areaType number offset length); ReadArea ctx addr.

Definition writeArea (ctx : Ctx) (areaType : string) (number offset : Z) (data : bytes) : M W unit :=
  addr ← lift (modelAddress areaType number offset (len data)); WriteArea ctx addr data.

Definition err_of (r : res unit) : option error := match r with Err e => Some e | _ => None end.

(** Data, outcome and error. *)
Definition doRead (ctx : Ctx) (exp : Expectation) : M W (bytes * Outcome * option error) :=
  if ex_HasBit exp then
    a ← attempt (lift (modelBitAddress (ex_AreaType exp) (ex_AreaNum exp) (ex_Offset exp) (ex_Bit exp)));
    match a with
    | inl err => mret ([], OutcomeProtocolFailure, Some err)
    | inr addr =>
        r ← attempt (ReadBit ctx addr);
        match r with
        | inl err => mret ([], classifyWriteError err, Some err)
        | inr v => mret ([if (v : bool) then x01 else x00], OutcomeSuccess, None)
        end
    end
  else
  let length := if (ex_Length exp =? 0) && ex_HasBytes exp then len (ex_WantBytes exp) else ex_Length exp in
  r ← attempt (readArea ctx (ex_AreaType exp) (ex_AreaNum exp) (ex_Offset exp) length);
  match r with
  | inl err => mret ([], classifyTransportOrProtocol err, Some err)
  | inr res =>
      if negb (OK (Some res)) then mret (ResultData res, classifyReadResult (Some res), err_of (ReadResult_Err (Some res)))
      else mret (ResultData res, OutcomeSuccess, None)
  end.

Definition doWrite (ctx : Ctx) (exp : Expectation) : M W (Outcome * option error) :=
  if ex_HasBit exp then
    a ← attempt (lift (modelBitAddress (ex_AreaType exp) (ex_AreaNum exp) (ex_Offset exp) (ex_Bit exp)));
    match a with
    | inl err => mret (OutcomeProtocolFailure, Some err)
    | inr addr =>
        let v := match ex_Data exp with b :: _ => negb (b2z b =? 0) | [] => false end in
        r ← attempt (WriteBit ctx addr v);
        match r with
        | inl err => mret (classifyWriteError err, Some err)
        | inr _ => mret (OutcomeSuccess, None)
        end
    end
  else
  r ← attempt (writeArea ctx (ex_AreaType exp) (ex_AreaNum exp) (ex_Offset exp) (ex_Data exp));
  match r with
  | inl err => mret (classifyWriteError err, Some err)
  | inr _ => mret (OutcomeSuccess, None)
  end.

(** [%v] of an error. *)
Definition err_text (e : option error) : string := match e with Some e => Error e | None => "<nil>" end.

Definition outcome_error (outcome : Outcome) (err : option error) (want : string) : error :=
  Plain ("outcome " +:+ outcome +:+ " (err=" +:+ err_text err +:+ "), want " +:+ want).

(** The client is replaced by a new one; the old one stays when that cannot
    connect. *)
Definition replaceClient (ctx : Ctx) (host : string) (port rack slot : Z) (exp : Expectation) : M W unit := fun st =>
  let '(r, (next, w)) := Connect ctx (newClient host port rack slot, st.2) in
  match r with
  | Ok _ =>
      (if negb (String.eqb (ex_WantOutcome exp) OutcomeSuccess)
       then Err (Plain ("reconnect succeeded, want " +:+ ex_WantOutcome exp)) else Ok tt, (next, w))
  | Err err => (Err (errorf1 "reconnect: " err (" (want " +:+ ex_WantOutcome exp +:+ ")")), (st.1, w))
  | Panic => (Panic, (st.1, w))
  end.

Definition reconnect (ctx : Ctx) (host : string) (port rack slot : Z) (exp : Expectation) : M W unit :=
  _ ← attempt Close; replaceClient ctx host port rack slot exp.

(** The client of one goroutine of a concurrent read: it connects, reads and
    closes. *)
Definition concurrentClient (ctx : Ctx) (exp : Expectation) : M W (bytes * Outcome * option error) :=
  let length := if (ex_Length exp =? 0) && ex_HasBytes exp then len (ex_WantBytes exp) else ex_Length exp in
  r ← attempt (Connect ctx);
  match r with
  | inl err => mret ([], OutcomeTransportFailure, Some err)
  | inr _ =>
      res ← doRead ctx (mkExpectation "read" (ex_AreaType exp) (ex_AreaNum exp) (ex_Offset exp) length 0 false 0 [] "" [] false);
      _ ← attempt Close; mret res
  end.

End Operations.

(** The same as a tree of network calls. *)
Lemma tree_readArea `{!Texts} ctx areaType number offset length :
  tree (fun W T => readArea ctx areaType number offset length).
Proof. unfold readArea. go_tree. Defined.
#[export] Hint Resolve tree_readArea : trees.

Lemma tree_doRead `{!Texts} isNetError ctx exp : tree (fun W T => doRead isNetError ctx exp).
Proof. unfold doRead. go_tree. Defined.
#[export] Hint Resolve tree_doRead : trees.

Lemma tree_doWrite `{!Texts} isNetError ctx exp : tree (fun W T => doWrite isNetError ctx exp).
Proof. unfold doWrite, writeArea. go_tree. Defined.

Lemma tree_concurrentClient `{!Texts} isNetError ctx exp : tree (fun W T => concurrentClient isNetError ctx exp).
Proof. unfold concurrentClient. go_tree. Defined.

Section Runner.
Context `{!Texts} {W : Type} `{!Transport W}.
Variable isNetError : error -> bool.
(** Which of a number of goroutines started together makes the next call of
    the network, time and again. *)
Variable schedule : Z -> W -> list nat.

Definition concurrentClients (exp : Expectation) : Z := Z.max (ex_Clients exp) 2.

(** The loop over the results of the goroutines. *)
Fixpoint concurrentVerdict (exp : Expectation) (first : string) (i : Z) (results : list (bytes * Outcome * option error))
  : res unit :=
  match results with
  | [] => Ok tt
  | (data, outcome, err) :: results =>
      let got := fmt_x data in
      if negb (String.eqb outcome (ex_WantOutcome exp)) then
        Err (Plain ("client " +:+ dec i +:+ " outcome " +:+ outcome +:+ " (err=" +:+ err_text err +:+ "), want " +:+ ex_WantOutcome exp))
      else if ex_HasBytes exp && negb (String.eqb got (fmt_x (ex_WantBytes exp))) then
        Err (Plain ("client " +:+ dec i +:+ " bytes " +:+ got +:+ ", want " +:+ fmt_x (ex_WantBytes exp)))
      else if (i >? 0) && negb (String.eqb got first) then Err (Plain "concurrent clients returned differing bytes")
      else concurrentVerdict exp first (i + 1) results
  end.

(** The goroutines, each with a client of its own, leave their results in
    order; the client of the run takes no part.  A goroutine that panics ends
    the program. *)
Definition executeConcurrentRead (ctx : Ctx) (host : string) (port rack slot : Z) (exp : Expectation) : M W unit := fun st =>
  let n := concurrentClients exp in
  let goroutine := tree_calls (tree_concurrentClient isNetError ctx exp) (newClient host port rack slot) in
  let '(results, w') := group (schedule n st.2) (replicate (Z.to_nat n) goroutine) st.2 in
  (results ← mapM fst results;
   concurrentVerdict exp (match results with (d, _, _) :: _ => fmt_x d | [] => "" end) 0 results,
   (st.1, w')).

Definition executeExpectation (ctx : Ctx) (host : string) (port rack slot : Z) (exp : Expectation) : M W unit :=
  let op := ex_Operation exp in
  let want := ex_WantOutcome exp in
  if String.eqb op "reconnect" then reconnect ctx host port rack slot exp
  else if String.eqb op "concurrent-read" then executeConcurrentRead ctx host port rack slot exp
  else if String.eqb op "read" || String.eqb op "final-state" then
    '(data, outcome, err) ← doRead isNetError ctx exp;
    if negb (String.eqb outcome want) then fail (outcome_error outcome err want)
    else if ex_HasBytes exp && String.eqb outcome OutcomeSuccess && negb (bool_decide (data = ex_WantBytes exp))
    then fail (Plain ("bytes " +:+ fmt_x data +:+ ", want " +:+ fmt_x (ex_WantBytes exp)))
    else mret tt
  else if String.eqb op "write" then
    '(outcome, err) ← doWrite isNetError ctx exp;
    if negb (String.eqb outcome want) then fail (outcome_error outcome err want) else mret tt
  else if String.eqb op "rejected-read" then
    '(_, outcome, err) ← doRead isNetError ctx exp;
    if negb (String.eqb outcome want) || String.eqb outcome OutcomeSuccess
    then fail (outcome_error outcome err ("rejected " +:+ want)) else mret tt
  else if String.eqb op "rejected-write" then
    '(outcome, err) ← doWrite isNetError ctx exp;
    if negb (String.eqb outcome want) || String.eqb outcome OutcomeSuccess
    then fail (outcome_error outcome err ("rejected " +:+ want)) else mret tt
  else fail (Plain ("unsupported operation " +:+ quoted op)).

(** Steps where a server answers differently on purpose. *)
Definition knownDifferences : list (string * Outcome) := [("otfabric/read-only-reject/1", OutcomeWriteProtected)].

Fixpoint known (l : list (string * Outcome)) (k : string) : option Outcome :=
  match l with [] => None | (k', o) :: l => if String.eqb k' k then Some o else known l k end.

Definition with_want (exp : Expectation) (want : Outcome) : Expectation :=
  mkExpectation (ex_Operation exp) (ex_AreaType exp) (ex_AreaNum exp) (ex_Offset exp) (ex_Length exp) (ex_Bit exp)
    (ex_HasBit exp) (ex_Clients exp) (ex_Data exp) want (ex_WantBytes exp) (ex_HasBytes exp).

Definition expected (server id : string) (i : Z) (exp : Expectation) : Expectation :=
  match known knownDifferences (server +:+ "/" +:+ id +:+ "/" +:+ dec i) with
  | Some want => with_want exp want
  | None => exp
  end.

(** The loop of [runFixtureAgainst]: the first step that fails, with its
    error.  The context of a step is derived from that of the run. *)
Fixpoint runSteps (stepCtx : Ctx) (server host : string) (port rack slot : Z) (id : string) (i : Z) (exps : list Expectation)
  : M W (option (Z * error)) :=
  match exps with
  | [] => mret None
  | exp :: exps =>
      r ← attempt (executeExpectation stepCtx host port rack slot (expected server id i exp));
      match r with
      | inl err => mret (Some (i, err))
      | inr _ => runSteps stepCtx server host port rack slot id (i + 1) exps
      end
  end.

Definition runFixtureAgainst (ctx stepCtx : Ctx) (server host : string) (port rack slot : Z) (fx : CompiledFixture)
  : M W (option (Z * error)) :=
  with_client (newClient host port rack slot)
    (r ← attempt (Connect ctx);
     match r with
     | inl err => fail (errorf1 "connect: " err "")
     | inr _ =>
         out ← runSteps stepCtx server host port rack slot (fx_ID fx) 0 (fx_Expectations fx);
         _ ← attempt Close; mret out
     end).
End Runner.
