(* ===== verification/Sharing.v ===== *)
(** * Goroutines that share a server and read

    The goroutines of a group have connections of their own to one server and
    make their network calls in any order.  [Noisy] is the network as one of
    them sees it: before each of its calls the others may have changed whatever
    is not this goroutine's, as long as the memory of the server stays.  It
    keeps account of the connections the goroutine opened, and of whether it
    has kept to them and left the memory alone.  [Noisy] is a server to read
    from ([S7Reader]), so the theorems on reading hold over it; and a goroutine
    that behaves well over every noise does so in every group of such
    goroutines ([group_robust]). *)

From S2P Require Import Prelude Go WireErrors Header ReadWrite ServerCodec Memory Session Server Client ClientRW Peer Loopback Trees.

(** ** What the others may do *)

#[export] Instance region_eq_dec : EqDecision region.
Proof. solve_decision. Defined.
#[export] Instance LConn_eq_dec : EqDecision LConn.
Proof. solve_decision. Defined.

(** The server and the connections [own] stay, numbers of connections are not
    used again. *)
Definition rely (own : gset Z) (w w' : Net) : Prop :=
  n_mem w' = n_mem w /\ n_maxPDU w' = n_maxPDU w /\ n_next w <= n_next w' /\
  set_Forall (fun k => n_conns w' !! k = n_conns w !! k) own.

#[export] Instance rely_dec own w w' : Decision (rely own w w').
Proof. unfold rely. apply _. Defined.

Lemma rely_refl own w : rely own w w.
Proof. by split_and!. Qed.

Lemma rely_trans own w1 w2 w3 : rely own w1 w2 -> rely own w2 w3 -> rely own w1 w3.
Proof.
  intros (A1 & A2 & A3 & A4) (B1 & B2 & B3 & B4). split_and!; [congruence | congruence | lia |].
  intros k Hk. rewrite (B4 k Hk). by apply A4.
Qed.

(** ** The network of one goroutine *)

Record Noisy := mkNoisy {
  z_net : Net;
  z_own : gset Z;         (* the connections of the goroutine *)
  z_clean : bool;         (* whether it kept to them and to reading *)
  z_noise : list Net;     (* how it will find the network, call by call *)
}.

(** How the goroutine finds the network at its next call: as the others left
    it, if they kept to the rules. *)
Definition found (z : Noisy) : Net * list Net :=
  match z_noise z with
  | [] => (z_net z, [])
  | w :: noise => (if bool_decide (rely (z_own z) (z_net z) w) then w else z_net z, noise)
  end.

(** The connection a call works on, and whether the call is one of the
    network. *)
Definition touches {R} (o : transport_op R) : option Z :=
  match o with
  | OConnect _ raw _ _ _ => Some raw
  | OWrite _ conn _ | ORead _ conn | OClose conn => Some conn
  | _ => None
  end.
Definition on_net {R} (o : transport_op R) : bool := match o with ODuration _ => false | _ => true end.

Definition allowed {R} (o : transport_op R) (own : gset Z) : bool :=
  match touches o with Some k => bool_decide (k ∈ own) | None => true end.

(** A dialled connection belongs to the goroutine. *)
Definition own_after {R} (o : transport_op R) : R -> gset Z -> gset Z :=
  match o in transport_op R return R -> gset Z -> gset Z with
  | ODial _ _ _ => fun r own => match r with inr k => {[k]} ∪ own | inl _ => own end
  | _ => fun _ own => own
  end.

Definition noisy {R} (o : transport_op R) (z : Noisy) : R * Noisy :=
  let '(w, noise) := if on_net o then found z else (z_net z, z_noise z) in
  let '(r, w') := perform o w in
  (r, mkNoisy w' (own_after o r (z_own z))
        (z_clean z && (allowed o (z_own z) && bool_decide (n_mem w' = n_mem w))) noise).

#[export] Instance noisy_transport : Transport Noisy := {|
  t_dial ctx timeout addr := noisy (ODial ctx timeout addr);
  t_cotpConnect ctx raw l r size := noisy (OConnect ctx raw l r size);
  t_WriteTSDU ctx conn req := noisy (OWrite ctx conn req);
  t_ReadTSDU ctx conn := noisy (ORead ctx conn);
  t_Close conn := noisy (OClose conn);
  t_ctxErr ctx := noisy (OCtxErr ctx);
  t_wait ctx d := noisy (OWait ctx d);
  t_duration := t_duration (W := Net);
|}.

Lemma perform_noisy {R} (o : transport_op R) (z : Noisy) : perform o z = noisy o z.
Proof.
  destruct o; try reflexivity. unfold noisy. simpl. rewrite bool_decide_eq_true_2, andb_true_r by done. by destruct z.
Qed.

(** ** Goroutines that are not disturbed *)

Section Robust.
Context {A : Type} (Q : A -> Prop).

(** Whatever the others do, the goroutine keeps to its connections, leaves the
    memory, and ends with a result that satisfies [Q]. *)
Definition robust (p : calls A) (own : gset Z) (w : Net) : Prop :=
  forall noise, let '(a, z) := play p (mkNoisy w own true noise) in Q a /\ z_clean z = true.

Lemma clean_before (p : calls A) z : z_clean z = false -> z_clean (play p z).2 = false.
Proof.
  revert z. induction p as [a|R o k IH]; intros z Hz; simpl; [done|]. rewrite perform_noisy. unfold noisy.
  destruct (if on_net o then found z else _) as [w noise]. destruct (perform o w) as [r w']. apply IH. simpl. by rewrite Hz.
Qed.

(** What the others have done already is part of the noise. *)
Lemma found_rely own w w' b noise' :
  rely own w w' -> exists noise, found (mkNoisy w own b noise) = found (mkNoisy w' own b noise').
Proof.
  intros Hr. unfold found. simpl. destruct noise' as [|n noise']; [exists [w']; simpl; by rewrite bool_decide_eq_true_2|].
  destruct (decide (rely own w' n)) as [Hn|Hn].
  - exists (n :: noise'). simpl. by rewrite !bool_decide_eq_true_2 by (done || by eapply rely_trans).
  - exists (w' :: noise'). simpl. by rewrite bool_decide_eq_true_2, bool_decide_eq_false_2.
Qed.

Lemma robust_rely p own w w' : robust p own w -> rely own w w' -> robust p own w'.
Proof.
  induction p as [a|R o k IH]; intros Hp Hr noise'; simpl.
  { specialize (Hp []). simpl in Hp. by split; [apply Hp|]. }
  rewrite perform_noisy. unfold noisy. destruct (on_net o) eqn:Eo.
  - destruct (found_rely own w w' true noise' Hr) as [noise E]. specialize (Hp noise). simpl in Hp. rewrite perform_noisy in Hp.
    unfold noisy in Hp. rewrite Eo, E in Hp. exact Hp.
  - destruct o; try done. simpl in *. rewrite bool_decide_eq_true_2 by done. simpl. apply IH; [|done].
    intros noise. specialize (Hp noise). simpl in Hp. exact Hp.
Qed.

(** Its next call is on its own connections and leaves the memory. *)
Lemma robust_call {R} (o : transport_op R) k own w r w' :
  robust (Calls o k) own w -> perform o w = (r, w') ->
  allowed o own = true /\ n_mem w' = n_mem w /\ robust (k r) (own_after o r own) w'.
Proof.
  intros Hp Hw.
  assert (Hplay : forall noise, exists noise0,
    play (Calls o k) (mkNoisy w own true noise0) =
    play (k r) (mkNoisy w' (own_after o r own) (allowed o own && bool_decide (n_mem w' = n_mem w)) noise)).
  { intros noise. destruct (on_net o) eqn:Eo; [exists (w :: noise) | exists noise]; simpl; rewrite perform_noisy; unfold noisy; rewrite Eo.
    - unfold found. simpl. rewrite bool_decide_eq_true_2 by apply rely_refl. by rewrite Hw.
    - simpl. by rewrite Hw. }
  assert (Hb : allowed o own && bool_decide (n_mem w' = n_mem w) = true).
  { destruct (Hplay []) as [noise0 E]. pose proof (Hp noise0) as H. rewrite E in H. apply not_false_iff_true. intros Hf.
    rewrite Hf in H. clear E. pose proof (clean_before (k r) (mkNoisy w' (own_after o r own) false []) eq_refl) as Hc.
    destruct (play (k r) _) as [a z]. simpl in *. destruct H. congruence. }
  apply andb_prop in Hb as [H1 H2]. apply bool_decide_eq_true in H2. split; [done|]. split; [done|].
  intros noise. destruct (Hplay noise) as [noise0 E]. specialize (Hp noise0). rewrite E, H1, bool_decide_eq_true_2 in Hp by done. exact Hp.
Qed.
End Robust.

(** What a call changes: its connection, or the next number. *)
Lemma perform_frame {R} (o : transport_op R) w r w' :
  perform o w = (r, w') ->
  n_maxPDU w' = n_maxPDU w /\ n_next w <= n_next w' /\
  (forall k, touches o <> Some k -> n_conns w' !! k = n_conns w !! k) /\
  (forall own k, k ∈ own_after o r own -> k ∈ own \/ k = n_next w /\ n_next w < n_next w').
Proof.
  destruct o as [ctx t addr|ctx raw l rr size|ctx conn req|ctx conn|conn|ctx|ctx d|d]; simpl.
  - intros [= <- <-]. simpl. split_and!; [done | lia | done |]. intros own k. rewrite elem_of_union, elem_of_singleton. intros [->|?]; [right; lia | by left].
  - intros [= <- <-]. simpl. split_and!; [done | lia | | by left]. intros k Hk. rewrite lookup_insert_ne; [done | congruence].
  - unfold net_write. destruct (n_conns w !! conn) as [lc|]; [|intros [= <- <-]; split_and!; [done | lia | done | by left]].
    destruct (handle _ req) as [[[s [out|]] []]| |]; intros [= <- <-]; simpl; (split_and!; [done | lia | | by left]);
      intros k Hk; first [rewrite lookup_insert_ne by (by intros ->) | rewrite lookup_delete_ne by (by intros ->)]; done.
  - unfold net_read. destruct (n_conns w !! conn) as [lc|]; [|intros [= <- <-]; split_and!; [done | lia | done | by left]].
    destruct (lc_out lc); intros [= <- <-]; simpl; (split_and!; [done | lia | | by left]); [done|].
    intros k Hk. rewrite lookup_insert_ne; [done | by intros ->].
  - destruct (n_conns w !! conn) as [lc|]; intros [= <- <-]; simpl; (split_and!; [done | lia | | by left]); [|done].
    intros k Hk. rewrite lookup_delete_ne; [done | by intros ->].
  - intros [= <- <-]. split_and!; [done | lia | done | by left].
  - intros [= <- <-]. split_and!; [done | lia | done | by left].
  - intros [= <- <-]. split_and!; [done | lia | done | by left].
Qed.

(** ** Groups of such goroutines *)

Section Groups.
Context {A : Type} (Q : A -> Prop).
(** The network when they start. *)
Variable w0 : Net.

(** Each is robust where it stands; their connections are theirs alone and
    newer than those that were there; the server and these are as they were. *)
Record group_ok (gs : list (calls A)) (owns : list (gset Z)) (w : Net) : Prop := {
  group_length : length owns = length gs;
  group_each : forall i p own, gs !! i = Some p -> owns !! i = Some own -> robust Q p own w;
  group_range : forall i own k, owns !! i = Some own -> k ∈ own -> n_next w0 <= k < n_next w;
  group_apart : forall i j own own' k, owns !! i = Some own -> owns !! j = Some own' -> k ∈ own -> k ∈ own' -> i = j;
  group_service : n_mem w = n_mem w0 /\ n_maxPDU w = n_maxPDU w0 /\ n_next w0 <= n_next w;
  group_others : forall k, k < n_next w0 -> n_conns w !! k = n_conns w0 !! k;
}.

(** A call of goroutine [i] keeps to what the others rely on. *)
Lemma call_rely {R} (o : transport_op R) gs owns w i j own own' r w' :
  group_ok gs owns w -> owns !! i = Some own -> owns !! j = Some own' -> i <> j ->
  allowed o own = true -> n_mem w' = n_mem w -> perform o w = (r, w') -> rely own' w w'.
Proof.
  intros Hg Hi Hj Hij Ha Hm Hw. destruct (perform_frame o w r w' Hw) as (H1 & H2 & H3 & _). split_and!; [done | done | done |].
  intros k Hk. apply H3. intros Ht. unfold allowed in Ha. rewrite Ht in Ha. apply bool_decide_eq_true in Ha.
  destruct Hij. by eapply (group_apart _ _ _ Hg).
Qed.

Lemma call_ok {R} (o : transport_op R) k gs owns w i r w' :
  group_ok gs owns w -> gs !! i = Some (Calls o k) -> perform o w = (r, w') ->
  exists owns', group_ok (<[i := k r]> gs) owns' w'.
Proof.
  intros Hg Hi Hw. destruct (lookup_lt_is_Some_2 owns i) as [own Hown].
  { rewrite (group_length _ _ _ Hg). by eapply lookup_lt_Some. }
  destruct (robust_call Q o k own w r w' (group_each _ _ _ Hg _ _ _ Hi Hown) Hw) as (Ha & Hm & Hr).
  destruct (perform_frame o w r w' Hw) as (F1 & F2 & F3 & F4).
  destruct (group_service _ _ _ Hg) as (S1 & S2 & S3).
  assert (Hlt : (i < length gs)%nat) by (by eapply lookup_lt_Some). pose proof (group_length _ _ _ Hg) as Hl.
  exists (<[i := own_after o r own]> owns). split.
  - by rewrite !length_insert.
  - intros j p own'. destruct (decide (j = i)) as [->|Hne].
    + rewrite !list_lookup_insert_eq by (rewrite ?Hl; done). by intros [= <-] [= <-].
    + rewrite !list_lookup_insert_ne by done. intros Hp Ho. eapply robust_rely; [by eapply (group_each _ _ _ Hg)|].
      by eapply (call_rely o gs owns w i j).
  - intros j own' x. destruct (decide (j = i)) as [->|Hne].
    + rewrite list_lookup_insert_eq by (rewrite Hl; done). intros [= <-] [H|[-> ?]]%F4; [|lia].
      pose proof (group_range _ _ _ Hg _ _ _ Hown H). lia.
    + rewrite list_lookup_insert_ne by done. intros Ho Hx. pose proof (group_range _ _ _ Hg _ _ _ Ho Hx). lia.
  - assert (Hnew : forall j own' x, j <> i -> owns !! j = Some own' -> x ∈ own' -> x ∈ own_after o r own -> j = i).
    { intros j own' x Hne Ho Hx [H|[-> ?]]%F4; [by eapply (group_apart _ _ _ Hg)|].
      pose proof (group_range _ _ _ Hg _ _ _ Ho Hx). lia. }
    intros j1 j2 own1 own2 x. destruct (decide (j1 = i)) as [->|H1], (decide (j2 = i)) as [->|H2];
      rewrite ?list_lookup_insert_eq, ?list_lookup_insert_ne by (done || rewrite Hl; done); [done|..].
    + intros [= <-] Ho Hx Hx'. symmetry. by eapply Hnew.
    + intros Ho [= <-] Hx Hx'. by eapply Hnew.
    + by apply (group_apart _ _ _ Hg).
  - split_and!; [congruence | congruence | lia].
  - intros x Hx. rewrite F3; [by apply (group_others _ _ _ Hg)|]. intros Ht. unfold allowed in Ha. rewrite Ht in Ha.
    apply bool_decide_eq_true in Ha. pose proof (group_range _ _ _ Hg _ _ _ Hown Ha). lia.
Qed.

Lemma turn_ok i gs owns w :
  group_ok gs owns w -> exists owns', group_ok (turn i (gs, w)).1 owns' (turn i (gs, w)).2 /\
    length (turn i (gs, w)).1 = length gs.
Proof.
  intros Hg. unfold turn. simpl. destruct (gs !! i) as [[a|R o k]|] eqn:Hi; [by exists owns| |by exists owns].
  destruct (perform o w) as [r w'] eqn:Hw. destruct (call_ok o k gs owns w i r w' Hg Hi Hw) as [owns' H].
  exists owns'. split; [done | simpl; by rewrite length_insert].
Qed.

Lemma turns_ok schedule gs owns w :
  group_ok gs owns w -> let s := foldl (fun s i => turn i s) (gs, w) schedule in
  exists owns', group_ok s.1 owns' s.2 /\ length s.1 = length gs.
Proof.
  revert gs owns w. induction schedule as [|i schedule IH]; intros gs owns w Hg; simpl; [by exists owns|].
  destruct (turn_ok i gs owns w Hg) as (owns1 & H1 & L1). destruct (turn i (gs, w)) as [gs1 w1]. simpl in *.
  destruct (IH gs1 owns1 w1 H1) as (owns2 & H2 & L2). exists owns2. split; [done | by rewrite L2].
Qed.

Lemma play_out_ok i p gs owns w :
  group_ok gs owns w -> gs !! i = Some p ->
  exists owns' a, (play_out i (gs, w)).1 = <[i := Done a]> gs /\ group_ok (<[i := Done a]> gs) owns' (play_out i (gs, w)).2.
Proof.
  revert gs owns w. induction p as [a|R o k IH]; intros gs owns w Hg Hi; unfold play_out; simpl; rewrite Hi.
  { exists owns, a. simpl. by rewrite (list_insert_id gs i (Done a)) by done. }
  simpl. destruct (perform o w) as [r w'] eqn:Hw. destruct (call_ok o k gs owns w i r w' Hg Hi Hw) as [owns1 H1].
  assert (Hlt : (i < length gs)%nat) by (by eapply lookup_lt_Some).
  destruct (IH r _ owns1 w' H1) as (owns2 & a & H2 & H3); [by apply list_lookup_insert_eq|].
  unfold play_out in H2, H3. simpl in H2, H3. rewrite list_lookup_insert_eq in H2, H3 by done.
  destruct (play (k r) w') as [a' w2]. simpl in *. rewrite !list_insert_insert_eq in *.
  exists owns2, a. done.
Qed.

Definition finished (gs : list (calls A)) (i : nat) : Prop := exists a, gs !! i = Some (Done a).

Lemma plays_out_ok l gs owns w :
  group_ok gs owns w -> Forall (fun i => (i < length gs)%nat) l -> let s := foldl (fun s i => play_out i s) (gs, w) l in
  exists owns', group_ok s.1 owns' s.2 /\ length s.1 = length gs /\
    (forall i, i ∈ l \/ finished gs i -> finished s.1 i).
Proof.
  revert gs owns w. induction l as [|i l IH]; intros gs owns w Hg Hl; simpl.
  { exists owns. split; [done|]. split; [done|]. by intros i [H|H]; [apply not_elem_of_nil in H|]. }
  apply Forall_cons in Hl as [Hi Hl]. destruct (lookup_lt_is_Some_2 gs i Hi) as [p Hp].
  destruct (play_out_ok i p gs owns w Hg Hp) as (owns1 & a & E1 & H1). destruct (play_out i (gs, w)) as [gs1 w1]. simpl in E1, H1. subst gs1.
  destruct (IH _ owns1 w1 H1) as (owns2 & H2 & L2 & D2); [by rewrite length_insert|].
  exists owns2. split; [done|]. split; [by rewrite L2, length_insert|]. intros j Hj. apply D2.
  destruct (decide (j = i)) as [->|Hne]; [right; exists a; by apply list_lookup_insert_eq|].
  destruct Hj as [[->|Hj]%elem_of_cons|[b Hb]]; [done | by left | right; exists b; by rewrite list_lookup_insert_ne].
Qed.

Lemma finished_results (gs : list (calls A)) :
  (forall i, (i < length gs)%nat -> exists a, gs !! i = Some (Done a) /\ Q a) ->
  length (omap result_of gs) = length gs /\ Forall Q (omap result_of gs).
Proof.
  induction gs as [|p gs IH]; intros H; [done|].
  destruct (H O) as (a & [= ->] & Ha); [simpl; lia|]. destruct IH as [L F]; [intros i Hi; apply (H (S i)); simpl; lia|].
  change (omap result_of (Done a :: gs)) with (a :: omap result_of gs). split; [simpl; by rewrite L | by constructor].
Qed.

(** The goroutines end with results that satisfy [Q], whatever the schedule;
    the server and the connections of others are as they were. *)
Lemma group_robust schedule ps :
  Forall (fun p => robust Q p ∅ w0) ps ->
  let '(results, w') := group schedule ps w0 in
  length results = length ps /\ Forall Q results /\
  n_mem w' = n_mem w0 /\ n_maxPDU w' = n_maxPDU w0 /\ n_next w0 <= n_next w' /\
  forall k, k < n_next w0 -> n_conns w' !! k = n_conns w0 !! k.
Proof.
  intros HF.
  assert (H0 : group_ok ps (replicate (length ps) ∅) w0).
  { assert (Hempty : forall i own, replicate (length ps) (∅ : gset Z) !! i = Some own -> own = ∅)
      by (intros i own H; by apply lookup_replicate in H as [-> _]).
    split; [apply length_replicate | | | | by split_and! | done].
    - intros i p own Hp ->%Hempty. rewrite Forall_lookup in HF. by eapply HF.
    - intros i own k ->%Hempty. set_solver +.
    - intros i j own own' k ->%Hempty _. set_solver +. }
  unfold group. destruct (turns_ok schedule ps _ w0 H0) as (owns1 & H1 & L1).
  destruct (foldl (fun s i => turn i s) (ps, w0) schedule) as [gs1 w1]. simpl in H1, L1.
  destruct (plays_out_ok (List.seq 0 (length ps)) gs1 owns1 w1 H1) as (owns2 & H2 & L2 & D2).
  { apply Forall_forall. intros i Hi%elem_of_seq. lia. }
  destruct (foldl (fun s i => play_out i s) (gs1, w1) (List.seq 0 (length ps))) as [gs2 w2]. simpl in H2, L2, D2. simpl.
  destruct (finished_results gs2) as [L F].
  { intros i Hi. destruct (D2 i) as [a Ha]; [left; apply elem_of_seq; lia|]. exists a. split; [done|].
    destruct (lookup_lt_is_Some_2 owns2 i) as [own Ho]; [by rewrite (group_length _ _ _ H2)|].
    pose proof (group_each _ _ _ H2 i _ _ Ha Ho []) as H. simpl in H. apply H. }
  split; [by rewrite L, L2, L1|]. split; [done|]. destruct (group_service _ _ _ H2) as (? & ? & ?).
  split_and!; [done..|]. apply (group_others _ _ _ H2).
Qed.
End Groups.

(** ** Reading among others *)

(** The goroutine kept to the rules and has a connection of this state; the
    server has this memory and this limit. *)
Definition holds (conn : Conn) (lc : LConn) (m : memory) (limit : Z) (z : Noisy) : Prop :=
  z_clean z = true /\ conn ∈ z_own z /\ n_conns (z_net z) !! conn = Some lc /\ n_mem (z_net z) = m /\ n_maxPDU (z_net z) = limit.

Lemma found_keeps z : rely (z_own z) (z_net z) (found z).1.
Proof.
  unfold found. destruct (z_noise z) as [|w noise]; [apply rely_refl|]. simpl. case_bool_decide; [done | apply rely_refl].
Qed.

(** A call of the network on the goroutine's own connections that leaves the
    memory. *)
Lemma noisy_call {R} (o : transport_op R) z r w' :
  z_clean z = true -> on_net o = true -> allowed o (z_own z) = true -> perform o (found z).1 = (r, w') -> n_mem w' = n_mem (found z).1 ->
  noisy o z = (r, mkNoisy w' (own_after o r (z_own z)) true (found z).2).
Proof.
  intros Hc Ho Ha Hp Hm. unfold noisy. rewrite Ho, Hc, Ha. destruct (found z) as [w noise]. simpl in *. rewrite Hp.
  by rewrite bool_decide_eq_true_2.
Qed.

Section Held.
Context (conn : Conn) (m : memory) (limit : Z).

Lemma found_holds lc z :
  holds conn lc m limit z -> n_conns (found z).1 !! conn = Some lc /\ n_mem (found z).1 = m /\ n_maxPDU (found z).1 = limit.
Proof.
  intros (_ & Ho & Hl & <- & <-). destruct (found_keeps z) as (H1 & H2 & _ & H3). split; [|done]. etrans; [exact (H3 conn Ho) | exact Hl].
Qed.

(** Calls that are not about a connection change nothing. *)
Lemma holds_idle {R} (o : transport_op R) (r : R) lc z :
  holds conn lc m limit z -> on_net o = true -> touches o = None -> (forall own, own_after o r own = own) ->
  (forall w : Net, perform o w = (r, w)) ->
  exists z', noisy o z = (r, z') /\ holds conn lc m limit z'.
Proof.
  intros H Ho Ht Hown Hp. destruct (found_holds lc z H) as (H1 & H2 & H3). destruct H as (Hc & Hin & _). eexists.
  split; [apply noisy_call; [done | done | unfold allowed; by rewrite Ht | apply Hp | done]|].
  rewrite Hown. by split_and!.
Qed.

(** A request that the session answers without a change of the memory. *)
Lemma holds_write ctx pdu z req s a :
  holds conn (mkLConn pdu []) m limit z -> handle (mkSession limit m pdu) req = Ok (s, Some a, true) -> regions s = m ->
  exists z', t_WriteTSDU ctx conn req z = (inr tt, z') /\ holds conn (mkLConn (pduSize s) [a]) m limit z'.
Proof.
  intros H Hh Hs. destruct (found_holds _ z H) as (H1 & H2 & H3). destruct H as (Hc & Hin & _). eexists.
  split; [apply (noisy_call (OWrite ctx conn req)); [done | done | by apply bool_decide_eq_true_2 | |]|].
  - simpl. unfold net_write, net_session. rewrite H1, H2, H3. simpl. rewrite Hh. reflexivity.
  - simpl. congruence.
  - split_and!; [done | done | simpl; by rewrite lookup_insert_eq | done | done].
Qed.

Lemma holds_read ctx pdu z a :
  holds conn (mkLConn pdu [a]) m limit z ->
  exists z', t_ReadTSDU ctx conn z = (inr a, z') /\ holds conn (mkLConn pdu []) m limit z'.
Proof.
  intros H. destruct (found_holds _ z H) as (H1 & H2 & H3). destruct H as (Hc & Hin & _). eexists.
  split; [apply (noisy_call (ORead ctx conn)); [done | done | by apply bool_decide_eq_true_2 | |]|].
  - simpl. unfold net_read, net_session. rewrite H1. simpl. reflexivity.
  - done.
  - split_and!; [done | done | simpl; by rewrite lookup_insert_eq | done | done].
Qed.

Lemma holds_exchange ctx pdu z req s a :
  holds conn (mkLConn pdu []) m limit z -> handle (mkSession limit m pdu) req = Ok (s, Some a, true) -> regions s = m ->
  exists z', exchange ctx conn req z a z' /\ holds conn (mkLConn (pduSize s) []) m limit z'.
Proof.
  intros H Hh Hs. destruct (holds_write ctx pdu z req s a H Hh Hs) as (z1 & E1 & H1).
  destruct (holds_idle (OCtxErr ctx) None _ z1 H1) as (z2 & E2 & H2); [done..|].
  destruct (holds_read ctx _ z2 a H2) as (z3 & E3 & H3). exists z3. split; [by exists z1, z2 | done].
Qed.
End Held.

Definition noisy_pdu (conn : Conn) (z : Noisy) : Z := net_pdu conn (z_net z).
Definition noisy_live (ctx : Ctx) (conn : Conn) (z : Noisy) : Prop :=
  z_clean z = true /\ conn ∈ z_own z /\ net_live ctx conn (z_net z).

Lemma noisy_live_holds ctx conn z :
  noisy_live ctx conn z <->
  is_nil ctx = false /\ session_ok (mkSession (n_maxPDU (z_net z)) (n_mem (z_net z)) (noisy_pdu conn z)) /\
  holds conn (mkLConn (noisy_pdu conn z) []) (n_mem (z_net z)) (n_maxPDU (z_net z)) z.
Proof.
  unfold noisy_live, net_live, holds, noisy_pdu, net_pdu. split.
  - intros (H1 & H2 & H3 & pdu & H4 & H5). rewrite H4. by split_and!.
  - intros (H1 & H2 & H3 & H4 & H5 & _). rewrite H5 in H2. split_and!; [done..|]. eexists. by split.
Qed.

(** What the goroutine keeps between its calls. *)
Lemma holds_stays ctx conn m limit pdu z :
  is_nil ctx = false -> session_ok (mkSession limit m pdu) -> holds conn (mkLConn pdu []) m limit z ->
  noisy_live ctx conn z /\ n_mem (z_net z) = m /\ noisy_pdu conn z = pdu.
Proof.
  intros Hn Hs (H1 & H2 & H3 & H4 & H5). unfold noisy_live, net_live, noisy_pdu, net_pdu. rewrite H3, H4, H5. split_and!; try done. by eexists.
Qed.

#[export] Instance noisy_reader : S7Reader Noisy.
Proof.
  refine {| peer_memory := n_mem ∘ z_net; peer_pdu := noisy_pdu; live := noisy_live |}; unfold compose.
  - by intros ctx conn z (_ & _ & ? & _).
  - intros ctx conn z (Hn & Hs & H)%noisy_live_holds.
    destruct (holds_idle conn _ _ (OCtxErr ctx) None _ z H) as (z' & E & H'); [done..|]. exists z'. split; [done|]. by eapply holds_stays.
  - intros ctx conn z d (Hn & Hs & H)%noisy_live_holds.
    destruct (holds_idle conn _ _ (OWait ctx d) false _ z H) as (z' & E & H'); [done..|]. exists z'. split; [done|]. by eapply holds_stays.
  - intros ctx conn z ref addr req (Hn & Hs & H)%noisy_live_holds Href Hsz Hp E.
    pose proof (handle_read_bytes _ ref addr req Hs Href Hsz Hp E) as Hh.
    destruct (holds_exchange conn _ _ ctx _ z req _ _ H Hh) as (z' & Hex & H'); [done|]. exists z'. split; [done|]. by eapply holds_stays.
  - intros ctx conn z ref addr req (Hn & Hs & H)%noisy_live_holds Href Hp E.
    pose proof (handle_read_bit _ ref addr req Hs Href Hp E) as Hh.
    destruct (holds_exchange conn _ _ ctx _ z req _ _ H Hh) as (z' & Hex & H'); [done|]. exists z'. split; [done|]. by eapply holds_stays.
Defined.

(** ** Connecting and closing among others *)

Lemma performS7Setup_noisy ctx conn c z m limit pdu calling called size :
  is_nil ctx = false -> session_ok (mkSession limit m pdu) -> holds conn (mkLConn pdu []) m limit z ->
  is_u16 calling -> is_u16 called -> is_u16 size ->
  exists z', performS7Setup ctx conn 1 calling called size (c, z) =
      (Ok (mkSetupCommResponse (Z.max 1 (Z.min calling maxAmQ)) (Z.max 1 (Z.min called maxAmQ)) (Z.min size limit)), (c, z')) /\
    session_ok (mkSession limit m (Z.min size limit)) /\ holds conn (mkLConn (Z.min size limit) []) m limit z'.
Proof.
  intros Hn Hs H H1 H2 H3.
  destruct (EncodeSetupCommRequest 1 calling called size) as [req| |] eqn:E;
    [|rewrite EncodeSetupCommRequest_ok in E by done; done..].
  destruct (handle_setup _ 1 calling called size req Hs) as (s' & param & Hs' & Hm & Hx & Hsz & Hh & Hl & H0 & Hp);
    [unfold is_u16; lia | done..|].
  destruct (holds_idle conn _ _ (OCtxErr ctx) None _ z H) as (z1 & E1 & G1); [done..|]. change (t_ctxErr ctx z = (None, z1)) in E1.
  destruct (holds_write conn _ _ ctx _ z1 req _ _ G1 Hh) as (z2 & E2 & G2); [done|].
  destruct (holds_read conn _ _ ctx _ z2 _ G2) as (z3 & E3 & G3). simpl in Hm, Hx, Hsz. exists z3. split.
  - by rewrite (performS7Setup_run ctx conn c z z1 z2 z3 calling called size req param _ Hn E E1 E2 E3 Hl H0 Hp), Hsz.
  - rewrite <- Hsz. split; [|done]. destruct s'; simpl in *. by subst.
Qed.

(** A goroutine that dials has a connection of its own. *)
Lemma dial_noisy z :
  z_clean z = true -> exists conn z1 z2, (forall ctx timeout addr, t_dial ctx timeout addr z = (inr conn, z1)) /\
    (forall ctx l r n, t_cotpConnect ctx conn l r n z1 = (inr conn, z2)) /\
    holds conn (mkLConn (n_maxPDU (z_net z)) []) (n_mem (z_net z)) (n_maxPDU (z_net z)) z2.
Proof.
  intros Hc. destruct (found_keeps z) as (F1 & F2 & _ & _).
  set (w := (found z).1) in *. set (conn := n_next w).
  pose (z1 := mkNoisy (mkNet (n_maxPDU w) (n_mem w) (n_conns w) (n_next w + 1)) ({[conn]} ∪ z_own z) true (found z).2).
  destruct (found_keeps z1) as (G1 & G2 & _ & _). set (w1 := (found z1).1) in *. simpl in G1, G2.
  pose (z2 := mkNoisy (mkNet (n_maxPDU w1) (n_mem w1) (<[conn := mkLConn (n_maxPDU w1) []]> (n_conns w1)) (n_next w1)) (z_own z1) true (found z1).2).
  assert (Hin : conn ∈ z_own z1) by (simpl; set_solver +).
  exists conn, z1, z2. split; [|split].
  - intros ctx timeout addr. by apply (noisy_call (ODial ctx timeout addr)).
  - intros ctx l r n. apply (noisy_call (OConnect ctx conn l r n)); [done | done | by apply bool_decide_eq_true_2 | done | done].
  - split_and!; simpl; [done | done | rewrite lookup_insert_eq; congruence | congruence | congruence].
Qed.

Lemma Connect_noisy ctx c z :
  is_nil ctx = false -> net_ok (z_net z) -> options_ok (c_opts c) -> client_pduRef_ok c -> c_conn c = None -> z_clean z = true ->
  exists conn c' z', Connect ctx (c, z) = (Ok tt, (c', z')) /\ connected ctx conn c' z' /\
    noisy_pdu conn z' = Z.min (o_maxPDU (c_opts c)) (n_maxPDU (z_net z)) /\ n_mem (z_net z') = n_mem (z_net z).
Proof.
  intros Hn (Hm & Hx) Ho Href Hnone Hclean. rewrite Connect_once by done.
  pose proof Ho as (_ & _ & Hmax & Hcalling & Hcalled & _ & Hr & Hsl). unfold MaxUint16 in Hmax.
  destruct (dial_noisy z Hclean) as (conn & z1 & z2 & E1 & E2 & H2).
  assert (Hok : session_ok (mkSession (n_maxPDU (z_net z)) (n_mem (z_net z)) (n_maxPDU (z_net z)))) by (split; [done | simpl; lia]).
  destruct (performS7Setup_noisy ctx conn c z2 _ _ _ (o_maxAmqCalling (c_opts c)) (o_maxAmqCalled (c_opts c)) (o_maxPDU (c_opts c)) Hn Hok H2 Hcalling Hcalled) as (z3 & E3 & Hs & H3); [unfold is_u16; lia|].
  assert (Hset : forall sctx, is_nil sctx = false ->
    performS7Setup sctx conn 1 (o_maxAmqCalling (c_opts c)) (o_maxAmqCalled (c_opts c)) (o_maxPDU (c_opts c)) (c, z2) =
    performS7Setup ctx conn 1 (o_maxAmqCalling (c_opts c)) (o_maxAmqCalled (c_opts c)) (o_maxPDU (c_opts c)) (c, z2))
    by (intros sctx Hsn; unfold performS7Setup, check_ctx, ctx_Err; by rewrite Hsn, Hn).
  rewrite E3 in Hset.
  destruct (connectOnce_run ctx c z z1 z2 z3 (o_rack (c_opts c)) (o_slot (c_opts c)) conn conn _ Hn Hr Hsl (E1 ctx) E2 Hset) as (local & remote & E).
  destruct (holds_stays ctx conn _ _ _ z3 Hn Hs H3) as (Hl & Hm3 & Hp).
  rewrite Hnone in E. eexists conn, _, z3. split; [exact E|]. split; [|done]. split_and!; [done | by symmetry | done | done].
Qed.

Lemma Close_noisy ctx conn c z :
  connected ctx conn c z -> exists r c' z', attempt Close (c, z) = (Ok r, (c', z')) /\ z_clean z' = true.
Proof.
  intros (Hc & _ & _ & (Hn & Hs & H)%noisy_live_holds).
  destruct (found_holds _ _ _ _ z H) as (H1 & H2 & H3). destruct H as (Hcl & Hin & _).
  assert (E : t_Close conn z = (None, mkNoisy (net_drop (found z).1 conn) (z_own z) true (found z).2)).
  { apply (noisy_call (OClose conn)); [done | done | by apply bool_decide_eq_true_2 | | done]. simpl. by rewrite H1. }
  eexists _, _, _. unfold attempt, Close, closeConnLocked, closeCOTP. rewrite (bind_run_Ok _ _ _ (c, z) (c_conn c)) by done. rewrite Hc.
  split; [|shelve]. rewrite bind_run. unfold attempt. rewrite bind_run. unfold observe. cbn [fst snd]. rewrite E. reflexivity.
  Unshelve. done.
Qed.

(** Numbers of connections only grow. *)
Lemma tree_next {A} {m : forall W, Transport W -> M W A} (tm : tree m) c (w : Net) r c' w' :
  m Net _ (c, w) = (r, (c', w')) -> n_next w <= n_next w'.
Proof.
  rewrite (tree_run tm). destruct (play (tree_calls tm c) w) as [[r0 c0] w0] eqn:E. intros [= <- <- <-].
  revert w E. induction (tree_calls tm c) as [a|R o k IH]; intros w E; simpl in E; [injection E as _ <-; lia|].
  destruct (perform o w) as [x w1] eqn:Ew. destruct (perform_frame o w x w1 Ew) as (_ & ? & _). apply IH in E. lia.
Qed.
