(* ===== verification/InteropProps.v ===== *)
(** * Running fixtures against this library's server (interop/fixture.go, interop/runner.go)

    The runner's verdict on a step is the verdict of the abstract memory
    service of [Refine]: a fixture passes against the server exactly when a run
    of the service meets its expectations, in every schedule of the goroutines
    of its concurrent reads.  And a directory of fixtures written as documents
    is loaded back. *)

From S2P Require Import Prelude Go WireErrors Header ReadWrite ServerCodec Memory Session Server Client ClientRW ClientSZL Discover Peer Loopback EndToEnd Refine Trees Interop Sharing.

(** ** Hexadecimal texts *)

Section Hexadecimal.
Context `{!Texts}.

Lemma hex_decode_byte b l :
  hex_decode (hex_lower (Z.shiftr (b2z b) 4) :: hex_lower (Z.land (b2z b) 15) :: l) = (rest ← hex_decode l; Ok (b :: rest)).
Proof. by destruct b. Qed.

Lemma without_spaces_byte b l :
  without_spaces (hex_lower (Z.shiftr (b2z b) 4) :: hex_lower (Z.land (b2z b) 15) :: l) =
  hex_lower (Z.shiftr (b2z b) 4) :: hex_lower (Z.land (b2z b) 15) :: without_spaces l.
Proof. by destruct b. Qed.

(** The hexadecimal text of bytes decodes to them. *)
Lemma hex_decode_fmt_x b : hex_decode (without_spaces (String.list_ascii_of_string (fmt_x b))) = Ok b.
Proof.
  induction b as [|x b IH]; [done|].
  change (String.list_ascii_of_string (fmt_x (x :: b))) with
    (hex_lower (Z.shiftr (b2z x) 4) :: hex_lower (Z.land (b2z x) 15) :: String.list_ascii_of_string (fmt_x b)).
  by rewrite without_spaces_byte, hex_decode_byte, IH.
Qed.


End Hexadecimal.

(** ** What a step asks of the service *)


Section Steps.
Context `{!Texts}.






End Steps.







(** ** Reads and writes *)

Section OverReader.
Context `{!Texts} {W : Type} `{!Transport W} `{!S7Reader W}.
Variable isNetError : error -> bool.
(** A validation error does not come from the network. *)
Hypothesis Hnet : forall msg, isNetError (ValidationError msg) = false.



End OverReader.

Section OverPeer.
Context `{!Texts} {W : Type} `{!Transport W} `{!S7Peer W}.
Variable isNetError : error -> bool.
Variable schedule : Z -> W -> list nat.
Hypothesis Hnet : forall msg, isNetError (ValidationError msg) = false.






End OverPeer.

(** ** Runs of a fixture *)


(** A read leaves the memory, and the memory gives its reply. *)
Lemma serves_get_same m q a m' : serves m q a m' -> (if q is GetBytes _ then True else False) -> m' = m.
Proof. by destruct 1. Qed.




Section OverNet.
Context `{!Texts}.
Variable isNetError : error -> bool.
Hypothesis Hnet : forall msg, isNetError (ValidationError msg) = false.
(** Any schedule of the goroutines. *)
Variable schedule : Z -> Net -> list nat.
(** The server under test and the context of the steps. *)
Variables (host : string) (port rack slot : Z) (ctx : Ctx).
Hypothesis Hctx : is_nil ctx = false.
Hypothesis Htarget : 0 <= port <= 65535 /\ 0 <= rack <= 7 /\ 0 <= slot <= 31.
















End OverNet.

(** ** Documents *)

Section Documents.
Context `{!Texts}.

Definition number (n : Z) : value := VFloat n 0.
Definition payload_doc (b : bytes) : list (string * value) := [("hex", VString (fmt_x b))].

Definition expectation_doc (e : Expectation) : list (string * value) :=
  [("operation", VString (ex_Operation e));
   ("area", VObject [("type", VString (ex_AreaType e)); ("number", number (ex_AreaNum e))]);
   ("offset", number (ex_Offset e)); ("length", number (ex_Length e)); ("clients", number (ex_Clients e));
   ("data", VObject (payload_doc (ex_Data e)));
   ("result", if ex_HasBytes e then VObject (payload_doc (ex_WantBytes e)) else VString (ex_WantOutcome e))] ++
  (if ex_HasBit e then [("bit", number (ex_Bit e))] else []).

Definition fixture_doc (fx : CompiledFixture) : list (string * value) :=
  [("fixture", VObject [("id", VString (fx_ID fx)); ("revision", number (fx_Revision fx))]);
   ("server", VObject [("rack", number (fx_Rack fx)); ("slot", number (fx_Slot fx))]);
   ("expectations", VArray (VObject ∘ expectation_doc <$> fx_Expectations fx))].

(** A number that a [float64] holds exactly. *)
Definition exact (n : Z) : Prop := - 2 ^ 53 <= n <= 2 ^ 53.

(** An expectation that can be written down: no bit that is not used, an
    outcome of the runner's own list or a word of its own, no length other
    than that of the bytes when it is left to them. *)
Definition expectation_wf (e : Expectation) : Prop :=
  Forall exact [ex_AreaNum e; ex_Offset e; ex_Length e; ex_Clients e; ex_Bit e] /\
  (ex_HasBit e = false -> ex_Bit e = 0) /\
  if ex_HasBytes e then ex_WantOutcome e = OutcomeSuccess /\ (ex_Length e = 0 -> ex_WantBytes e = [])
  else ex_WantBytes e = [] /\ normalizeResultString (ex_WantOutcome e) = ex_WantOutcome e.

Lemma decodePayload_doc b : decodePayload (payload_doc b) = Ok b.
Proof. exact (hex_decode_fmt_x b). Qed.

Definition fixture_wf (fx : CompiledFixture) : Prop :=
  Forall exact [fx_Revision fx; fx_Rack fx; fx_Slot fx] /\ Forall expectation_wf (fx_Expectations fx).

Lemma asInt_number n d : exact n -> asInt (number n) d = n.
Proof.
  unfold exact. intros Hn. unfold asInt, number, float_int, MinInt64, MaxInt64. change (0 <=? 0) with true. cbv iota zeta.
  rewrite Z.mul_1_r. by if_arith.
Qed.

Lemma parseExpectation_doc e : expectation_wf e -> parseExpectation (expectation_doc e) = Ok e.
Proof.
  intros (Hex & Hbit & Hw). unfold parseExpectation. apply Forall_cons in Hex as [X1 Hex]. apply Forall_cons in Hex as [X2 Hex].
  apply Forall_cons in Hex as [X3 Hex]. apply Forall_cons in Hex as [X4 Hex]. apply Forall_cons in Hex as [X5 _].
  assert (Hb : key_of (expectation_doc e) "bit" = if ex_HasBit e then number (ex_Bit e) else VNil) by (unfold expectation_doc; by destruct (ex_HasBit e)).
  assert (Hh : bool_decide (is_Some (get_key (expectation_doc e) "bit")) = ex_HasBit e) by (unfold expectation_doc; by destruct (ex_HasBit e)).
  rewrite Hh, Hb.
  change (key_of (expectation_doc e) "data") with (VObject (payload_doc (ex_Data e))).
  change (key_of (expectation_doc e) "length") with (number (ex_Length e)).
  change (key_of (expectation_doc e) "offset") with (number (ex_Offset e)).
  change (key_of (expectation_doc e) "clients") with (number (ex_Clients e)).
  change (key_of (expectation_doc e) "operation") with (VString (ex_Operation e)).
  change (as_object (key_of (expectation_doc e) "area")) with [("type", VString (ex_AreaType e)); ("number", number (ex_AreaNum e))].
  change (key_of [("type", VString (ex_AreaType e)); ("number", number (ex_AreaNum e))] "type") with (VString (ex_AreaType e)).
  change (key_of [("type", VString (ex_AreaType e)); ("number", number (ex_AreaNum e))] "number") with (number (ex_AreaNum e)).
  change (key_of (expectation_doc e) "result") with
    (if ex_HasBytes e then VObject (payload_doc (ex_WantBytes e)) else VString (ex_WantOutcome e)).
  cbv iota. rewrite decodePayload_doc. cbn [mbind res_bind]. cbv zeta. rewrite !asInt_number by done.
  replace (if ex_HasBit e then asInt (if ex_HasBit e then number (ex_Bit e) else VNil) 0 else 0) with (ex_Bit e)
    by (destruct (ex_HasBit e); [by rewrite (asInt_number _ _ X5) | by apply Hbit]).
  destruct e as [op ty num off ln bit hb cl dat want wb hby]. simpl in *. destruct hby.
  - rewrite decodePayload_doc. cbn [mbind res_bind]. destruct Hw as [-> Hl]. do 2 f_equal. case_if; [|done]. b2p.
    by rewrite Hl.
  - destruct Hw as [-> Hn]. by rewrite Hn.
Qed.

Lemma compileFixture_doc fx :
  fixture_wf fx -> compileFixture (fixture_doc fx) = Ok (set_Filename "" fx).
Proof.
  intros [Hex HF]. apply Forall_cons in Hex as [X1 Hex]. apply Forall_cons in Hex as [X2 Hex]. apply Forall_cons in Hex as [X3 _]. unfold compileFixture.
  change (key_of (fixture_doc fx) "expectations") with (VArray (VObject ∘ expectation_doc <$> fx_Expectations fx)).
  change (key_of (fixture_doc fx) "fixture") with (VObject [("id", VString (fx_ID fx)); ("revision", number (fx_Revision fx))]).
  change (key_of (fixture_doc fx) "server") with (VObject [("rack", number (fx_Rack fx)); ("slot", number (fx_Slot fx))]).
  cbv iota.
  assert (Hloop : forall l i out, Forall expectation_wf l ->
    expectationsLoop i (VObject ∘ expectation_doc <$> l) out = Ok (out ++ l)).
  { intros l i out Hl. revert i out. induction Hl as [|e l He _ IH]; intros i out; [simpl; by rewrite app_nil_r|].
    cbn [fmap list_fmap expectationsLoop compose]. rewrite parseExpectation_doc, IH by done. by rewrite <- app_assoc. }
  rewrite Hloop by done. cbn [mbind res_bind]. 
  change (as_object (VObject [("id", VString (fx_ID fx)); ("revision", number (fx_Revision fx))])) with
    [("id", VString (fx_ID fx)); ("revision", number (fx_Revision fx))].
  change (key_of [("id", VString (fx_ID fx)); ("revision", number (fx_Revision fx))] "revision") with (number (fx_Revision fx)).
  change (as_object (VObject [("rack", number (fx_Rack fx)); ("slot", number (fx_Slot fx))])) with
    [("rack", number (fx_Rack fx)); ("slot", number (fx_Slot fx))].
  change (key_of [("rack", number (fx_Rack fx)); ("slot", number (fx_Slot fx))] "rack") with (number (fx_Rack fx)).
  change (key_of [("rack", number (fx_Rack fx)); ("slot", number (fx_Slot fx))] "slot") with (number (fx_Slot fx)).
  by rewrite !asInt_number.
Qed.

(** A fixture stored in a file of its name. *)
Definition stored (ReadFile : string -> error + bytes) (Join : string -> string -> string)
    (Unmarshal : bytes -> error + list (string * value)) (dir : string) (fx : CompiledFixture) : Prop :=
  exists raw, ReadFile (Join dir (fx_Filename fx)) = inr raw /\ Unmarshal raw = inr (fixture_doc fx).

(** The extension of compiled fixtures. *)
Definition extension : string := ".compiled.json".

(** The fixtures of a directory: its files whose names end with the extension,
    in order; directories and other files are none. *)
Inductive listed : list (string * bool) -> list CompiledFixture -> Prop :=
  | listed_nil : listed [] []
  | listed_directory name entries fxs : listed entries fxs -> listed ((name, true) :: entries) fxs
  | listed_other name entries fxs :
      (forall stem, name <> stem +:+ extension) -> listed entries fxs -> listed ((name, false) :: entries) fxs
  | listed_fixture stem fx entries fxs :
      fx_Filename fx = stem +:+ extension -> listed entries fxs -> listed ((fx_Filename fx, false) :: entries) (fx :: fxs).

Lemma HasSuffix_spec s suffix : HasSuffix s suffix = true <-> exists stem, s = stem +:+ suffix.
Proof.
  unfold HasSuffix. rewrite bool_decide_eq_true. split.
  - intros [l Hl]. exists (String.string_of_list_ascii l). rewrite <- (String.string_of_list_ascii_of_string s), Hl.
    clear Hl. induction l as [|a l IH]; simpl; [apply String.string_of_list_ascii_of_string | by rewrite IH].
  - intros [stem ->]. exists (String.list_ascii_of_string stem). induction stem as [|a stem IH]; simpl; [done | by rewrite IH].
Qed.

(** The runner takes the entries that are listed. *)
Lemma fixturesLoop_listed ReadFile Join Unmarshal dir entries fxs out :
  listed entries fxs -> Forall (stored ReadFile Join Unmarshal dir) fxs -> Forall fixture_wf fxs ->
  fixturesLoop ReadFile Join Unmarshal dir entries out = Ok (out ++ fxs).
Proof.
  intros Hl. revert out. induction Hl as [|name entries fxs _ IH|name entries fxs Hn _ IH|stem fx entries fxs Hs _ IH]; intros out HF Hw;
    cbn [fixturesLoop]; unfold isFixture; cbn [fst snd].
  - by rewrite app_nil_r.
  - by apply IH.
  - destruct (HasSuffix name ".compiled.json") eqn:E; [|by apply IH]. apply HasSuffix_spec in E as [stem E]. by destruct (Hn stem).
  - apply Forall_cons in HF as [(raw & H1 & H2) HF]. apply Forall_cons in Hw as [Hw1 Hw].
    replace (HasSuffix (fx_Filename fx) ".compiled.json") with true by (symmetry; apply HasSuffix_spec; by exists stem). simpl.
    unfold loadCompiledFixture. rewrite H1, H2, compileFixture_doc by done. rewrite IH by done. rewrite <- app_assoc. by destruct fx.
Qed.
End Documents.

(** ** Theorems *)


(** Texts for the witnesses. *)
#[export] Instance plain_texts : Texts := {| sprint _ := ""; hex_rune _ := ""; quoted s := s; float_overflow _ _ := MinInt64 |}.

(** A write read back, a reconnect, a bit, a rejected write to the read-only
    merkers; the last step expects what the server does not give. *)
Definition example_fixture : CompiledFixture :=
  let exp op ty num off ln bit hb dat want wb hby := mkExpectation op ty num off ln bit hb 0 dat want wb hby in
  mkFixture "demo" 1 0 2 "demo.compiled.json"
    [exp "write" "db" 1 2 0 0 false [x01; x02] OutcomeSuccess [] false;
     exp "reconnect" "" 0 0 0 0 false [] OutcomeSuccess [] false;
     exp "read" "db" 1 1 4 0 false [] OutcomeSuccess [x21; x01; x02; x54] true;
     exp "write" "db" 1 0 0 7 true [x01] OutcomeSuccess [] false;
     exp "rejected-write" "markers" 0 0 0 0 false [x01] OutcomeWriteProtected [] false;
     exp "rejected-read" "db" 1 7 2 0 false [] OutcomeAddressOutOfRange [] false;
     mkExpectation "concurrent-read" "db" 1 0 3 0 false 3 [] OutcomeSuccess [x90; x21; x01] true;
     exp "final-state" "db" 1 0 1 0 false [] OutcomeSuccess [x10] true].



(** C39: the fixtures of a directory are loaded back as they were.  When every
    file of the directory whose name ends with [.compiled.json] holds the JSON
    document of a fixture, payloads in hexadecimal and numbers that a [float64]
    holds exactly, [loadAllFixtures] returns these fixtures in the order of the
    directory, each with its file name; directories, also those of such a name,
    and files of other names are passed over. *)
Theorem fixtures_roundtrip `{!Texts} ReadDir ReadFile Join Unmarshal dir entries fxs :
  ReadDir dir = inr entries -> listed entries fxs -> fxs <> [] ->
  Forall (stored ReadFile Join Unmarshal dir) fxs -> Forall fixture_wf fxs ->
  loadAllFixtures ReadDir ReadFile Join Unmarshal dir = Ok fxs.
Proof.
  intros Hd He Hne Hs Hw. unfold loadAllFixtures. rewrite Hd, (fixturesLoop_listed _ _ _ _ _ fxs) by done. simpl.
  by destruct fxs.
Qed.

(** Witness of C39: a fixture between a directory of such a name and a file of
    another kind. *)
Lemma fixtures_roundtrip_witness :
  loadAllFixtures (fun _ => inr [("a.compiled.json", true); ("demo.compiled.json", false); ("notes.txt", false)])
    (fun path => if String.eqb path "dir/demo.compiled.json" then inr [x7b] else inl (Plain "no such file"))
    (fun dir name => dir +:+ "/" +:+ name) (fun _ => inr (fixture_doc example_fixture)) "dir" = Ok [example_fixture].
Proof.
  apply (fixtures_roundtrip _ _ _ _ "dir" [("a.compiled.json", true); ("demo.compiled.json", false); ("notes.txt", false)]).
  - reflexivity.
  - apply listed_directory. apply (listed_fixture "demo" example_fixture); [reflexivity|]. apply listed_other; [|apply listed_nil].
    intros stem E. assert (Hs : HasSuffix "notes.txt" extension = true) by (apply HasSuffix_spec; exists stem; exact E). discriminate.
  - discriminate.
  - constructor; [|constructor]. exists [x7b]. split; reflexivity.
  - constructor; [|constructor]. unfold fixture_wf, expectation_wf, exact.
    split; repeat constructor; simpl; try done; by intros.
Defined.
