(* ===== verification/Harness.v ===== *)
(** * The interoperability harness (interop/harness.go)

    The harness starts one container per server under test, waits until each
    answers, and removes what it started.  The environment of the process, the
    docker command line, the clock and the readiness of a server are
    parameters; [t.Fatalf] and [t.Skip] are verdicts, after which the cleanup
    still runs on the harness as it was left.  Texts are ASCII. *)

From S2P Require Import Prelude Go WireErrors Header ReadWrite Memory Client ClientRW Userdata ClientSZL Discover Interop.

Local Open Scope string_scope.
Local Open Scope list_scope.
Local Open Scope Z_scope.

(** ** Texts *)

Definition is_space (a : Ascii.ascii) : bool := (char_code a =? 32) || ((9 <=? char_code a) && (char_code a <=? 13)).

Fixpoint trim_left (l : list Ascii.ascii) : list Ascii.ascii :=
  match l with [] => [] | a :: l' => if is_space a then trim_left l' else l end.

(** [strings.TrimSpace]. *)
Definition TrimSpace (s : string) : string :=
  String.string_of_list_ascii (rev (trim_left (rev (trim_left (String.list_ascii_of_string s))))).

(** [strings.Split(s, ",")]: at least one field. *)
Fixpoint split_commas (l : list Ascii.ascii) (field : list Ascii.ascii) : list string :=
  match l with
  | [] => [String.string_of_list_ascii (rev field)]
  | a :: l =>
      if char_code a =? 44 then String.string_of_list_ascii (rev field) :: split_commas l [] else split_commas l (a :: field)
  end.
Definition SplitCommas (s : string) : list string := split_commas (String.list_ascii_of_string s) [].

(** [strings.ToUpper]. *)
Definition upper_char (a : Ascii.ascii) : Ascii.ascii :=
  if (97 <=? char_code a) && (char_code a <=? 122) then Ascii.ascii_of_nat (Z.to_nat (char_code a - 32)) else a.
Definition ToUpper (s : string) : string := String.string_of_list_ascii (upper_char <$> String.list_ascii_of_string s).

(** [net.SplitHostPort]: the position of the last colon, and that of the first
    closing bracket. *)
Definition index_of (code : Z) (l : list Ascii.ascii) : option nat := fst <$> list_find (fun a => char_code a = code) l.
Definition last_index_of (code : Z) (l : list Ascii.ascii) : option nat := (fun i => length l - 1 - i)%nat <$> index_of code (rev l).
Definition has_code (code : Z) (l : list Ascii.ascii) : bool := existsb (fun a => char_code a =? code) l.

Definition addr_error (why addr : string) : error :=
  Plain (if String.eqb addr "" then why else "address " +:+ addr +:+ ": " +:+ why).

Definition SplitHostPort (hostport : string) : res (string * string) :=
  let l := String.list_ascii_of_string hostport in
  let missing := Err (addr_error "missing port in address" hostport) in
  let colons := Err (addr_error "too many colons in address" hostport) in
  match last_index_of 58 l with
  | None => missing
  | Some i =>
      let finish host (j k : nat) :=
        if has_code 91 (drop j l) then Err (addr_error "unexpected '[' in address" hostport)
        else if has_code 93 (drop k l) then Err (addr_error "unexpected ']' in address" hostport)
        else Ok (String.string_of_list_ascii host, String.string_of_list_ascii (drop (S i) l)) in
      if has_code 91 (take 1 l) then
        match index_of 93 l with
        | None => Err (addr_error "missing ']' in address" hostport)
        | Some e =>
            if (S e =? length l)%nat then missing
            else if (S e =? i)%nat then finish (take (e - 1) (drop 1 l)) 1%nat (S e)
            else if has_code 58 (take 1 (drop (S e) l)) then colons else missing
        end
      else if has_code 58 (take i l) then colons else finish (take i l) O O
  end.

(** ** Servers *)

Record serverEndpoint := mkEndpoint {
  se_Name : string;
  se_HostPort : Z;
  se_ImageEnv : string;
  se_DefaultImage : string;
  se_container : string;
}.

Definition defaultNativeImage : string :=
  "ghcr.io/otfabric/snap7-interop-native@sha256:b2ac7b3d0d8cb1dc1ac5d7e465a118eb484a2506ea67b10be6ff7579ac5d5a97".
Definition defaultPythonImage : string :=
  "ghcr.io/otfabric/snap7-interop-python@sha256:7b2d7691e6f4ea95af6699025ad31946c542f237af543ccae686f6fe79b5cd5e".
Definition otfabric : string := "otfabric".

Definition defaultServers : list serverEndpoint :=
  [mkEndpoint "native" 1102 "SNAP_INTEROP_NATIVE_IMAGE" defaultNativeImage "";
   mkEndpoint "python" 2102 "SNAP_INTEROP_PYTHON_IMAGE" defaultPythonImage ""].

Definition set_container (id : string) (s : serverEndpoint) : serverEndpoint :=
  mkEndpoint (se_Name s) (se_HostPort s) (se_ImageEnv s) (se_DefaultImage s) id.
Definition set_port (p : Z) (s : serverEndpoint) : serverEndpoint :=
  mkEndpoint (se_Name s) p (se_ImageEnv s) (se_DefaultImage s) (se_container s).

Record harness := mkHarness {
  h_managed : bool;
  h_fixturesDir : string;
  h_servers : list serverEndpoint;
}.

(** How a test function goes on: it returns, fails or skips. *)
Inductive verdict (A : Type) :=
  | Done (a : A)
  | Fatal (msg : string)
  | Skip (msg : string).
Arguments Done {A} a.
Arguments Fatal {A} msg.
Arguments Skip {A} msg.

(** ** Configuration *)

Section Environment.
Context `{!Texts}.
(** [os.Getenv] and the error of [strconv.Atoi]. *)
Variable Getenv : string -> string.
Variable atoi_error : string -> error.

Definition getenv (key def : string) : string := let v := Getenv key in if negb (String.eqb v "") then v else def.

Definition mustHostPort (addr : string) : verdict Z :=
  match SplitHostPort addr with
  | Err err => Fatal ("invalid addr " +:+ quoted addr +:+ ": " +:+ Error err)
  | Panic => Fatal ""
  | Ok (_, portStr) =>
      match Atoi (String.list_byte_of_string portStr) with
      | None => Fatal ("invalid port in " +:+ quoted addr +:+ ": " +:+ Error (atoi_error portStr))
      | Some port => Done port
      end
  end.

(** The loop of [selectedServers] over the names asked for. *)
Fixpoint pickServers (all : list serverEndpoint) (names : list string) (out : list serverEndpoint) : verdict (list serverEndpoint) :=
  match names with
  | [] => Done out
  | name :: names =>
      match filter (fun s => se_Name s = TrimSpace name) all with
      | [] => Fatal ("SNAP_INTEROP_SERVERS: no server " +:+ quoted name +:+ " (otfabric needs SNAP_INTEROP_OTFABRIC_IMAGE)")
      | found => pickServers all names (out ++ found)
      end
  end.

Definition allServers : list serverEndpoint :=
  let image := Getenv "SNAP_INTEROP_OTFABRIC_IMAGE" in
  if negb (String.eqb image "")
  then defaultServers ++ [mkEndpoint otfabric 3102 "SNAP_INTEROP_OTFABRIC_IMAGE" image ""] else defaultServers.

Definition selectedServers : verdict (list serverEndpoint) :=
  let only := Getenv "SNAP_INTEROP_SERVERS" in
  if String.eqb only "" then Done allServers else pickServers allServers (SplitCommas only) [].

(** The loop of [newHarness] that replaces the ports. *)
Fixpoint portOverrides (servers : list serverEndpoint) : verdict (list serverEndpoint) :=
  match servers with
  | [] => Done []
  | s :: servers =>
      let addr := Getenv ("SNAP_INTEROP_" +:+ ToUpper (se_Name s) +:+ "_ADDR") in
      match (if negb (String.eqb addr "") then mustHostPort addr else Done (se_HostPort s)) with
      | Fatal msg => Fatal msg
      | Skip msg => Skip msg
      | Done port =>
          match portOverrides servers with Done rest => Done (set_port port s :: rest) | other => other end
      end
  end.

(** ** Containers *)

Context {W : Type} `{!Transport W}.

(** The docker command line: output and error; and the clock. *)
Class Docker := mkDocker {
  d_exec : list string -> W -> (string * option error) * W;
  d_now : W -> Z * W;
  d_sleep : Z -> W -> W;
}.
Context `{!Docker}.

Definition dockerPull (image : string) (w : W) : option error * W :=
  let '((_, err), w) := d_exec ["pull"; image] w in
  match err with
  | None => (None, w)
  | Some e =>
      let '((_, missing), w) := d_exec ["image"; "inspect"; image] w in
      (match missing with None => None | Some _ => Some e end, w)
  end.

(** The loop of [stopAll], and of [newHarness] that pulls the images. *)
Fixpoint stopServers (servers : list serverEndpoint) (w : W) : list serverEndpoint * W :=
  match servers with
  | [] => ([], w)
  | s :: servers =>
      if String.eqb (se_container s) "" then let '(rest, w) := stopServers servers w in (s :: rest, w)
      else
      let '(_, w) := d_exec ["rm"; "-f"; se_container s] w in
      let '(rest, w) := stopServers servers w in (set_container "" s :: rest, w)
  end.

Definition stopAll (h : harness) (w : W) : harness * W :=
  let '(servers, w) := stopServers (h_servers h) w in (mkHarness (h_managed h) (h_fixturesDir h) servers, w).

Fixpoint pullImages (servers : list serverEndpoint) (w : W) : verdict unit * W :=
  match servers with
  | [] => (Done tt, w)
  | s :: servers =>
      let img := getenv (se_ImageEnv s) (se_DefaultImage s) in
      let '(err, w) := dockerPull img w in
      match err with
      | Some e => (Fatal ("docker pull " +:+ img +:+ ": " +:+ Error e), w)
      | None => pullImages servers w
      end
  end.

(** [absDir] is [filepath.Abs] of the fixtures, [noDocker] the error of
    [exec.LookPath]. *)
Definition newHarness (absDir : error + string) (noDocker : option error) (w : W) : verdict harness * W :=
  let managed := negb (String.eqb (Getenv "SNAP_INTEROP_MANAGED") "0") in
  match absDir with
  | inl err => (Fatal ("fixtures dir: " +:+ Error err), w)
  | inr dir =>
      match selectedServers with
      | Fatal msg => (Fatal msg, w)
      | Skip msg => (Skip msg, w)
      | Done servers =>
          match portOverrides servers with
          | Fatal msg => (Fatal msg, w)
          | Skip msg => (Skip msg, w)
          | Done servers =>
              let h := mkHarness managed dir servers in
              if negb managed then (Done h, w) else
              match noDocker with
              | Some _ => (Skip "docker not available; set SNAP_INTEROP_MANAGED=0 to use external servers", w)
              | None =>
                  let '(v, w) := pullImages servers w in
                  match v with Done _ => (Done h, w) | Fatal msg => (Fatal msg, w) | Skip msg => (Skip msg, w) end
              end
          end
      end
  end.

(** The arguments of [docker run]. *)
Definition runArgs (dir fixtureFile name img : string) (port : Z) : list string :=
  ["run"; "-d"; "--rm"; "--name"; name; "-p"; dec port +:+ ":102"; "-v"; dir +:+ ":/fixtures:ro";
   "-e"; "SNAP_INTEROP_FIXTURE=/fixtures/" +:+ fixtureFile; "-e"; "SNAP_INTEROP_LISTEN_ADDRESS=0.0.0.0";
   "-e"; "SNAP_INTEROP_PORT=102"; "-e"; "SNAP_INTEROP_LOG_FORMAT=json";
   "-e"; "SNAP_INTEROP_STATE_PATH=/run/snap-interop/state.json"; "--read-only"; "--tmpfs"; "/tmp";
   "--tmpfs"; "/run/snap-interop:uid=10001,gid=10001,mode=0755"; "--cap-drop"; "ALL"; "--cap-add"; "NET_BIND_SERVICE";
   "--security-opt"; "no-new-privileges:true"; img].

(** The loop of [restartWithFixture] that starts the servers: the servers as
    they are when it ends. *)
Fixpoint startServers (dir fixtureFile : string) (servers : list serverEndpoint) (w : W)
  : verdict unit * list serverEndpoint * W :=
  match servers with
  | [] => (Done tt, [], w)
  | s :: servers =>
      let img := getenv (se_ImageEnv s) (se_DefaultImage s) in
      let '(now, w) := d_now w in
      let name := "go-s7comm-interop-" +:+ se_Name s +:+ "-" +:+ dec now in
      let '((out, err), w) := d_exec (runArgs dir fixtureFile name img (se_HostPort s)) w in
      match err with
      | Some e => (Fatal ("docker run " +:+ se_Name s +:+ ": " +:+ Error e +:+ newline +:+ out), s :: servers, w)
      | None =>
          let '(v, rest, w) := startServers dir fixtureFile servers w in (v, set_container (TrimSpace out) s :: rest, w)
      end
  end.

Definition containerLogs (s : serverEndpoint) (w : W) : string * W :=
  if String.eqb (se_container s) "" then ("", w)
  else
  let '((out, err), w) := d_exec ["logs"; "--tail"; "80"; se_container s] w in
  (match err with Some e => "docker logs: " +:+ Error e | None => out end, w).

(** One attempt of [waitS7Ready]: a client of its own connects and closes. *)
Definition tryReady (host : string) (port : Z) (w : W) : res unit * W :=
  let '(r, (c, w)) := Connect (TimeoutCtx Background (2 * Second)) (newClient host port 0 2, w) in
  let '(_, (_, w)) := attempt Close (c, w) in (r, w).

(** The pause between two attempts, and the loop of [waitS7Ready]; [None] when
    the passes run out before the deadline, or when an attempt panics. *)
Definition readyPause : Z := 300000000.

Fixpoint readyLoop (fuel : nat) (host : string) (port deadline : Z) (last : option error) (w : W) : option (option error * W) :=
  match fuel with
  | O => None
  | S fuel =>
      let '(now, w) := d_now w in
      if now <? deadline then
        let '(r, w) := tryReady host port w in
        match r with
        | Ok _ => Some (None, w)
        | Err e => readyLoop fuel host port deadline (Some e) (d_sleep readyPause w)
        | Panic => None
        end
      else Some (Some (Plain ("timeout waiting for S7 on " +:+ host +:+ ":" +:+ dec port +:+ ": " +:+ err_text last)), w)
  end.

Definition waitS7Ready (host : string) (port timeout : Z) (w : W) : option (option error * W) :=
  let '(now, w) := d_now w in
  readyLoop (Z.to_nat (timeout / readyPause + 2)) host port (now + timeout) None w.

(** The loop of [restartWithFixture] that waits for the servers. *)
Fixpoint awaitServers (servers : list serverEndpoint) (w : W) : option (verdict unit * W) :=
  match servers with
  | [] => Some (Done tt, w)
  | s :: servers =>
      match waitS7Ready "127.0.0.1" (se_HostPort s) (30 * Second) w with
      | None => None
      | Some (None, w) => awaitServers servers w
      | Some (Some e, w) =>
          let '(logs, w) := containerLogs s w in
          Some (Fatal (se_Name s +:+ " not ready on port " +:+ dec (se_HostPort s) +:+ ": " +:+ Error e +:+ newline +:+ logs), w)
      end
  end.

Definition restartWithFixture (h : harness) (fixtureFile : string) (w : W) : option (verdict unit * harness * W) :=
  if negb (h_managed h) then Some (Done tt, h, w) else
  let '(h, w) := stopAll h w in
  let '(v, servers, w) := startServers (h_fixturesDir h) fixtureFile (h_servers h) w in
  let h := mkHarness (h_managed h) (h_fixturesDir h) servers in
  match v with
  | Done _ => '(v, w) ← awaitServers servers w; Some (v, h, w)
  | v => Some (v, h, w)
  end.
End Environment.
