(* ===== verification/HarnessProps.v ===== *)
(** * What the interoperability harness starts and removes (interop/harness.go)

    Over any docker command line: a docker that records its commands and their
    results runs beside it, and the record is judged.  Nothing is assumed of
    what a command does, prints or returns; only the clock is assumed to go
    on. *)

From S2P Require Import Prelude Go WireErrors Header ReadWrite Memory Client ClientRW Userdata ClientSZL ClientBlocks Discover Triple Safety Locking Concurrent Interop Harness.

(** ** Docker with a record *)

(** A command, its output and its error. *)
Definition command : Type := list string * (string * option error).

Record Logged (W : Type) := mkLogged { l_world : W; l_log : list command }.
Arguments mkLogged {W} _ _.
Arguments l_world {W} _.
Arguments l_log {W} _.

Section Record.
Context {W : Type} `{!Transport W} `{!Docker (W := W)}.

Definition beside {A} (f : W -> A * W) (w : Logged W) : A * Logged W :=
  let '(a, w') := f (l_world w) in (a, mkLogged w' (l_log w)).

#[export] Instance logged_transport : Transport (Logged W) := {|
  t_dial ctx timeout addr := beside (t_dial ctx timeout addr);
  t_cotpConnect ctx raw l r size := beside (t_cotpConnect ctx raw l r size);
  t_WriteTSDU ctx conn req := beside (t_WriteTSDU ctx conn req);
  t_ReadTSDU ctx conn := beside (t_ReadTSDU ctx conn);
  t_Close conn := beside (t_Close conn);
  t_ctxErr ctx := beside (t_ctxErr ctx);
  t_wait ctx d := beside (t_wait ctx d);
  t_duration := t_duration (W := W);
|}.

#[export] Instance logged_docker : Docker (W := Logged W) := {|
  d_exec args w := let '(r, w') := d_exec args (l_world w) in (r, mkLogged w' (l_log w ++ [(args, r)]));
  d_now := beside d_now;
  d_sleep d w := mkLogged (d_sleep d (l_world w)) (l_log w);
|}.

Lemma logged_step w w' : transport_step w w' -> transport_step (l_world w) (l_world w') /\ l_log w' = l_log w.
Proof.
  assert (Hb : forall A (f : W -> A * W) (v : Logged W),
    l_world (beside f v).2 = (f (l_world v)).2 /\ l_log (beside f v).2 = l_log v) by (intros A f v; unfold beside; by destruct (f (l_world v))).
  destruct 1; simpl;
    match goal with |- context [beside ?f ?v] => destruct (Hb _ f v) as [-> ->] end; (split; [constructor | done]).
Qed.
End Record.

(** ** The rules of the record *)

(** The identifier docker run told, if it told one. *)
Definition told (out : string) : list string := if String.eqb (TrimSpace out) "" then [] else [TrimSpace out].

(** The containers the servers of a harness record. *)
Definition recorded (servers : list serverEndpoint) : list string :=
  concat ((fun s => if String.eqb (se_container s) "" then [] else [se_container s]) <$> servers).

(** A run of commands keeps account of the containers that were told of and
    not yet asked to be removed, the oldest first and never more than [limit]:
    the oldest is removed, a new one is told of when there is room, logs are
    asked of one of them. *)
Inductive tracks (limit : nat) : list string -> list command -> list string -> Prop :=
  | tracks_nil open : tracks limit open [] open
  | tracks_remove id r open cmds open' :
      tracks limit open cmds open' -> tracks limit (id :: open) ((["rm"; "-f"; id], r) :: cmds) open'
  | tracks_start args out open cmds open' :
      (length open < limit)%nat -> tracks limit (open ++ told out) cmds open' ->
      tracks limit open (("run" :: args, (out, None)) :: cmds) open'
  | tracks_failed args out e open cmds open' :
      (length open < limit)%nat -> tracks limit open cmds open' -> tracks limit open (("run" :: args, (out, Some e)) :: cmds) open'
  | tracks_logs n id r open cmds open' :
      id ∈ open -> tracks limit open cmds open' -> tracks limit open ((["logs"; "--tail"; n; id], r) :: cmds) open'.

Lemma tracks_app limit open cmds open1 cmds1 open2 :
  tracks limit open cmds open1 -> tracks limit open1 cmds1 open2 -> tracks limit open (cmds ++ cmds1) open2.
Proof. induction 1; intros; simpl; [done|..]; by constructor; auto. Qed.

(** The commands that start a container. *)
Definition is_run (cmd : command) : Prop := head cmd.1 = Some "run".
#[export] Instance is_run_dec cmd : Decision (is_run cmd) := _.

(** The command starts this server with this fixture. *)
Definition run_of (Getenv : string -> string) (dir file : string) (s : serverEndpoint) (cmd : command) : Prop :=
  exists now, cmd.1 = runArgs dir file ("go-s7comm-interop-" +:+ se_Name s +:+ "-" +:+ dec now)
    (getenv Getenv (se_ImageEnv s) (se_DefaultImage s)) (se_HostPort s).

(** The commands start the servers in order, as far as they go; all of them,
    and without an error, when the restart returns normally. *)
Definition starts (Getenv : string -> string) (dir : string) (servers : list serverEndpoint) (file : string) (v : verdict unit)
    (cmds : list command) : Prop :=
  Forall2 (run_of Getenv dir file) (take (length cmds) servers) cmds /\
  (v = Done tt -> length cmds = length servers /\ Forall (fun cmd : command => cmd.2.2 = None) cmds).

(** The clock goes forward, a pause takes at least as long as asked for. *)
Class ClockLaws {W} `{!Transport W} `{!Docker (W := W)} (clock : W -> Z) := {
  clock_now : forall w, clock w <= (d_now w).1 <= clock (d_now w).2;
  clock_sleep : forall d w, clock w + d <= clock (d_sleep d w);
  clock_network : forall w w', transport_step w w' -> clock w <= clock w';
}.

(** ** What each part of a restart adds to the record *)

Section Laws.
Context {W : Type} `{!Transport W} `{!Docker (W := W)} {clock : W -> Z} `{!ClockLaws clock}.
Variable Getenv : string -> string.
Implicit Types w : Logged W.

Lemma logged_exec args w r w' : d_exec args w = (r, w') -> l_log w' = l_log w ++ [(args, r)].
Proof. simpl. destruct (d_exec args (l_world w)) as [r0 w0]. by intros [= <- <-]. Qed.

Lemma logged_now w t w' : d_now w = (t, w') -> clock (l_world w) <= t <= clock (l_world w') /\ l_log w' = l_log w.
Proof.
  simpl. unfold beside. pose proof (clock_now (l_world w)). destruct (d_now (l_world w)) as [t0 w0]. by intros [= <- <-].
Qed.

Lemma logged_network w w' : rtc transport_step w w' -> clock (l_world w) <= clock (l_world w') /\ l_log w' = l_log w.
Proof.
  induction 1 as [w|w1 w2 w3 Hs _ [IH1 IH2]]; [done|]. apply logged_step in Hs as [H1 H2]. apply clock_network in H1.
  split; [lia | congruence].
Qed.

Lemma tryReady_logged host port w r w' :
  tryReady host port w = (r, w') -> r <> Panic /\ clock (l_world w) <= clock (l_world w') /\ l_log w' = l_log w.
Proof.
  unfold tryReady. set (ctx := TimeoutCtx _ _). set (c := newClient host port 0 2). intros E.
  pose proof (ok_Connect ctx eq_refl (c, w)) as Hok.
  pose proof (cut_environment _ (c, w) (cut_Connect ctx)) as H1. destruct (Connect ctx (c, w)) as [r1 [c1 w1]].
  pose proof (cut_environment _ (c1, w1) (cut_attempt _ cut_Close)) as H2. destruct (attempt Close (c1, w1)) as [r2 [c2 w2]].
  injection E as <- <-. split; [|apply logged_network; by etrans].
  intros ->. by apply Hok.
Qed.

(** The passes are enough: the clock reaches the deadline before. *)
Lemma readyLoop_logged fuel host port deadline last w :
  deadline - clock (l_world w) <= Z.of_nat fuel * readyPause - readyPause -> 0 < Z.of_nat fuel ->
  exists r w', readyLoop fuel host port deadline last w = Some (r, w') /\ l_log w' = l_log w.
Proof.
  revert last w. induction fuel as [|fuel IH]; intros last w Hd Hf; [lia|]. cbn [readyLoop].
  destruct (d_now w) as [now w1] eqn:E1. apply logged_now in E1 as [T1 L1]. destruct (now <? deadline) eqn:El; [|by eexists _, _].
  destruct (tryReady host port w1) as [r2 w2] eqn:E2. apply tryReady_logged in E2 as (Hp & T2 & L2).
  destruct r2 as [u|e|]; [by eexists _, _; split; [done | congruence]| |done].
  pose proof (clock_sleep readyPause (l_world w2)) as T3.
  destruct (IH (Some e) (d_sleep readyPause w2)) as (r & w' & E & L); [simpl; unfold readyPause in *; lia..|].
  exists r, w'. split; [done|]. rewrite L. simpl. congruence.
Qed.

Lemma waitS7Ready_logged host port timeout w :
  0 <= timeout -> exists r w', waitS7Ready host port timeout w = Some (r, w') /\ l_log w' = l_log w.
Proof.
  intros Ht. unfold waitS7Ready. destruct (d_now w) as [now w1] eqn:E1. apply logged_now in E1 as [T1 L1].
  destruct (readyLoop_logged (Z.to_nat (timeout / readyPause + 2)) host port (now + timeout) None w1) as (r & w' & Hr & L).
  - unfold readyPause in *. pose proof (Z.div_mod timeout 300000000 ltac:(lia)). pose proof (Z.mod_pos_bound timeout 300000000 ltac:(lia)). lia.
  - pose proof (Z.div_pos timeout readyPause Ht ltac:(unfold readyPause; lia)). lia.
  - exists r, w'. split; [done | congruence].
Qed.

Lemma recorded_cons s servers :
  recorded (s :: servers) = (if String.eqb (se_container s) "" then [] else [se_container s]) ++ recorded servers.
Proof. done. Qed.

Lemma recorded_none servers : Forall (fun s => se_container s = "") servers -> recorded servers = [].
Proof. induction 1 as [|s servers E _ IH]; [done|]. by rewrite recorded_cons, E, IH. Qed.

Lemma recorded_length servers : (length (recorded servers) <= length servers)%nat.
Proof. induction servers as [|s servers IH]; [done|]. rewrite recorded_cons, length_app. case_if; simpl; lia. Qed.

(** Stopping asks for every recorded container, in order. *)
Lemma stopServers_logged limit servers w servers' w' :
  stopServers servers w = (servers', w') ->
  exists cmds, l_log w' = l_log w ++ cmds /\ tracks limit (recorded servers) cmds [] /\ filter is_run cmds = [] /\
    servers' = set_container "" <$> servers.
Proof.
  revert w servers' w'. induction servers as [|s servers IH]; intros w servers' w'; cbn [stopServers].
  { intros [= <- <-]. exists []. split; [by rewrite app_nil_r|]. split; [constructor | done]. }
  rewrite recorded_cons. destruct (String.eqb_spec (se_container s) "") as [E|E].
  - destruct (stopServers servers w) as [rest w1] eqn:E1. intros [= <- <-]. destruct (IH _ _ _ E1) as (cmds & H1 & H2 & H3 & ->).
    exists cmds. split_and!; [done..|]. simpl. f_equal. destruct s. simpl in *. by subst.
  - destruct (d_exec _ w) as [r w1] eqn:E0. apply logged_exec in E0. destruct (stopServers servers w1) as [rest w2] eqn:E1.
    intros [= <- <-]. destruct (IH _ _ _ E1) as (cmds & H1 & H2 & H3 & ->).
    exists ((["rm"; "-f"; se_container s], r) :: cmds). split; [rewrite H1, E0; by rewrite <- app_assoc|].
    split; [by constructor | done].
Qed.

(** Starting records what each run that succeeded told. *)
Lemma startServers_logged limit dir file servers open w v servers' w' :
  Forall (fun s => se_container s = "") servers -> (length open + length servers <= limit)%nat ->
  startServers Getenv dir file servers w = (v, servers', w') ->
  exists cmds, l_log w' = l_log w ++ cmds /\ tracks limit open cmds (open ++ recorded servers') /\
    filter is_run cmds = cmds /\ starts Getenv dir servers file v cmds /\
    set_container "" <$> servers' = set_container "" <$> servers.
Proof.
  intros HF. revert open w v servers' w'. induction HF as [|s servers Hs HF IH]; intros open w v servers' w' Hlen; cbn [startServers].
  { intros [= <- <- <-]. exists []. rewrite !app_nil_r. by split_and!; [done | constructor | done..]. }
  simpl in Hlen. destruct (d_now w) as [now w1] eqn:E1. apply logged_now in E1 as [_ L1].
  set (args := runArgs _ _ _ _ _). destruct (d_exec args w1) as [[out err] w2] eqn:E2. apply logged_exec in E2.
  assert (Hrun : run_of Getenv dir file s (args, (out, err))) by (by exists now). destruct err as [e|].
  - intros [= <- <- <-]. exists [(args, (out, Some e))]. rewrite E2, L1, recorded_none by (by constructor). rewrite app_nil_r.
    split; [done|]. split; [constructor; [lia | constructor]|]. split; [done|]. split; [|done]. split; [by repeat constructor | done].
  - destruct (startServers Getenv dir file servers w2) as [[v3 rest] w3] eqn:E3.
    intros [= <- <- <-]. destruct (IH (open ++ told out) _ _ _ _ ltac:(unfold told; case_if; rewrite length_app; simpl; lia) E3)
      as (cmds & H1 & H2 & H3 & [H4 H5] & H6).
    exists ((args, (out, None)) :: cmds). split; [rewrite H1, E2, L1; by rewrite <- app_assoc|].
    rewrite recorded_cons. simpl se_container. split; [|split; [|split; [|by simpl; f_equal]]].
    + constructor; [lia|]. rewrite <- app_assoc in H2. exact H2.
    + rewrite filter_cons, decide_True by done. by rewrite H3.
    + split; [by constructor|]. intros [? ?]%H5. split; [simpl; lia | by constructor].
Qed.

(** Waiting asks at most for the logs of a recorded container. *)
Lemma awaitServers_logged limit all servers w :
  (forall s, s ∈ servers -> s ∈ all) ->
  exists v w' cmds, awaitServers servers w = Some (v, w') /\
    l_log w' = l_log w ++ cmds /\ tracks limit (recorded all) cmds (recorded all) /\ filter is_run cmds = [].
Proof.
  revert w. induction servers as [|s servers IH]; intros w Hin; cbn [awaitServers].
  { eexists _, _, []. split; [reflexivity|]. rewrite app_nil_r. by split_and!; [|constructor|]. }
  destruct (waitS7Ready_logged "127.0.0.1" (se_HostPort s) (30 * Second) w) as (r & w1 & -> & L1); [by unfold Second|].
  destruct r as [e|].
  - destruct (containerLogs s w1) as [logs w2] eqn:E. unfold containerLogs in E. destruct (String.eqb_spec (se_container s) "") as [Ec|Ec].
    + injection E as _ <-. eexists _, _, []. split; [reflexivity|]. rewrite app_nil_r. by split_and!; [|constructor|].
    + destruct (d_exec _ w1) as [[out err] w3] eqn:E3. apply logged_exec in E3. injection E as _ <-.
      eexists _, _, [_]. split; [reflexivity|]. split; [rewrite E3, L1; reflexivity|]. split; [|done].
      constructor; [|constructor]. unfold recorded. apply list_elem_of_In, in_concat. exists [se_container s]. split; [|by left].
      apply list_elem_of_In, list_elem_of_fmap. exists s. split; [|apply Hin; left].
      by destruct (String.eqb_spec (se_container s) "").
  - destruct (IH w1) as (v & w2 & cmds & -> & L2 & H); [intros; apply Hin; by right|].
    eexists _, _, cmds. split; [reflexivity|]. by rewrite L2, L1.
Qed.

(** A restart. *)
Lemma restart_logged h file w :
  h_managed h = true ->
  exists v h' w' cmds, restartWithFixture Getenv h file w = Some (v, h', w') /\ h_managed h' = true /\
    h_fixturesDir h' = h_fixturesDir h /\ set_container "" <$> h_servers h' = set_container "" <$> h_servers h /\
    l_log w' = l_log w ++ cmds /\ tracks (length (h_servers h)) (recorded (h_servers h)) cmds (recorded (h_servers h')) /\
    starts Getenv (h_fixturesDir h) (set_container "" <$> h_servers h) file v (filter is_run cmds).
Proof.
  intros Hm. unfold restartWithFixture, stopAll. rewrite Hm. simpl negb. cbv iota. set (n := length (h_servers h)).
  destruct (stopServers (h_servers h) w) as [servers1 w1] eqn:E1. apply (stopServers_logged n) in E1 as (c1 & L1 & T1 & R1 & ->).
  cbn [h_fixturesDir h_servers h_managed].
  destruct (startServers Getenv (h_fixturesDir h) file (set_container "" <$> h_servers h) w1) as [[v servers2] w2] eqn:E2.
  apply (startServers_logged n _ _ _ []) in E2 as (c2 & L2 & T2 & R2 & S2 & C2);
    [|by apply Forall_fmap, Forall_true | by rewrite length_fmap]. simpl in T2.
  rewrite <- list_fmap_compose in C2. change (set_container "" ∘ set_container "") with (set_container "") in C2.
  assert (Hdone : forall v' : verdict unit, v <> Done tt -> v' = v ->
    exists v0 h' w' cmds, Some (v', mkHarness true (h_fixturesDir h) servers2, w2) = Some (v0, h', w') /\ h_managed h' = true /\
    h_fixturesDir h' = h_fixturesDir h /\ set_container "" <$> h_servers h' = set_container "" <$> h_servers h /\
    l_log w' = l_log w ++ cmds /\ tracks n (recorded (h_servers h)) cmds (recorded (h_servers h')) /\
    starts Getenv (h_fixturesDir h) (set_container "" <$> h_servers h) file v0 (filter is_run cmds)).
  { intros v' Hv ->. eexists _, _, _, (c1 ++ c2). split; [reflexivity|]. simpl. rewrite filter_app, R1, R2. simpl.
    split_and!; [done | done | done | rewrite L2, L1; by rewrite app_assoc | by eapply tracks_app | done]. }
  destruct v as [[]|msg|msg]; [|by apply Hdone..]. clear Hdone.
  destruct (awaitServers_logged n servers2 servers2 w2) as (v3 & w3 & c3 & -> & L3 & T3 & R3); [done|].
  eexists _, _, _, (c1 ++ c2 ++ c3). split; [reflexivity|]. simpl. rewrite !filter_app, R1, R2, R3, app_nil_r. simpl.
  split_and!; [done | done | done | rewrite L3, L2, L1; by rewrite <- !app_assoc | |].
  - eapply tracks_app; [done|]. by eapply tracks_app.
  - destruct S2 as [S2 S3]. split; [done|]. intros _. by apply S3.
Qed.
End Laws.

(** ** The harness leaves nothing behind *)

Section Session.
Context {W : Type} `{!Transport W} `{!Docker (W := W)}.
Variable Getenv : string -> string.
(** What becomes of the world while a fixture runs. *)
Variable between : string -> W -> W.

(** A restart for each fixture, whether or not the one before was successful. *)
Fixpoint restarts (h : harness) (files : list string) (w : Logged W) : option (list (verdict unit) * harness * Logged W) :=
  match files with
  | [] => Some ([], h, w)
  | file :: files =>
      '(v, h, w) ← restartWithFixture Getenv h file w;
      '(vs, h, w) ← restarts h files (mkLogged (between file (l_world w)) (l_log w));
      Some (v :: vs, h, w)
  end.

Lemma restarts_logged {clock : W -> Z} `{!ClockLaws clock} h files w :
  h_managed h = true ->
  exists vs h' w' cmds, restarts h files w = Some (vs, h', w') /\ length (h_servers h') = length (h_servers h) /\
    l_log w' = l_log w ++ cmds /\ tracks (length (h_servers h)) (recorded (h_servers h)) cmds (recorded (h_servers h')) /\
    exists rounds, filter is_run cmds = concat rounds /\
      Forall3 (starts Getenv (h_fixturesDir h) (set_container "" <$> h_servers h)) files vs rounds.
Proof.
  revert h w. induction files as [|file files IH]; intros h w Hm; cbn [restarts].
  { eexists _, _, _, []. split; [reflexivity|]. rewrite app_nil_r. split_and!; [done | done | constructor|]. exists []. by split; [|constructor]. }
  destruct (restart_logged Getenv h file w Hm) as (v & h1 & w1 & c1 & -> & M1 & D1 & S1 & L1 & T1 & R1). simpl mbind.
  assert (Hl : length (h_servers h1) = length (h_servers h)).
  { rewrite <- (length_fmap (set_container "") (h_servers h1)), S1. apply length_fmap. }
  destruct (IH h1 (mkLogged (between file (l_world w1)) (l_log w1)) M1) as (vs & h2 & w2 & c2 & -> & N2 & L2 & T2 & rounds & R2 & F2).
  simpl in *. eexists _, _, _, (c1 ++ c2). split; [reflexivity|]. rewrite Hl, S1, D1 in *.
  split_and!; [done | rewrite L2, L1; by rewrite app_assoc | by eapply tracks_app|].
  exists (filter is_run c1 :: rounds). rewrite filter_app, R2. split; [done|]. by constructor.
Qed.
End Session.

(** C40: the harness asks docker to remove every container it started.  For any
    sequence of fixtures, over any docker, whatever its commands do, print or
    return, and any servers, as long as the clock goes on: every restart
    returns, also when a server does not start or does not answer in time, and
    has started the servers in their order, each with its image, port and the
    fixture, all of them when it returns normally.  In the record of the
    commands, cleanup included, every identifier that a successful docker run
    told, and those the harness had before, is passed to docker rm -f exactly
    once, the oldest first and no other; at no time are there more of them than
    servers, and none is left at the end. *)
Theorem harness_cleans_up {W} `{!Transport W, !Docker (W := W)} (clock : W -> Z) `{!ClockLaws clock}
    (Getenv : string -> string) (between : string -> W -> W) (h : harness) (files : list string) (w : Logged W) :
  h_managed h = true ->
  exists vs h' w', restarts Getenv between h files w = Some (vs, h', w') /\
    let '(h'', w'') := stopAll h' w' in
    recorded (h_servers h'') = [] /\
    exists cmds, l_log w'' = l_log w ++ cmds /\
      tracks (length (h_servers h)) (recorded (h_servers h)) cmds [] /\
      exists rounds, filter is_run cmds = concat rounds /\
        Forall3 (starts Getenv (h_fixturesDir h) (set_container "" <$> h_servers h)) files vs rounds.
Proof.
  intros Hm. destruct (restarts_logged Getenv between h files w Hm) as (vs & h' & w' & c1 & Er & N & L1 & T1 & rounds & R1 & F).
  exists vs, h', w'. split; [done|]. unfold stopAll.
  destruct (stopServers (h_servers h') w') as [servers w''] eqn:Es.
  apply (stopServers_logged (length (h_servers h))) in Es as (c2 & L2 & T2 & R2 & ->). simpl.
  split; [apply recorded_none; by apply Forall_fmap, Forall_true|]. exists (c1 ++ c2).
  split; [rewrite L2, L1; by rewrite app_assoc|]. split; [by eapply tracks_app|]. exists rounds. by rewrite filter_app, R2, app_nil_r.
Qed.

(** A docker that numbers its containers and refuses the third run, over a
    network that answers the setup; the clock goes on with every pause. *)
Record Yard := mkYard { y_next : Z; y_clock : Z }.

#[local] Instance yard_transport : Transport Yard := {|
  t_dial _ _ _ w := (inr 0, w);
  t_cotpConnect _ _ _ _ _ w := (inr 7, w);
  t_WriteTSDU _ _ _ w := (inr tt, w);
  t_ReadTSDU _ _ w :=
    (inr ([x32; x03; x00; x00; x00; x01; x00; x08; x00; x00; x00; x00; xf0; x00; x00; x01; x00; x01; x00; xf0]), w);
  t_Close _ w := (None, w);
  t_ctxErr _ w := (None, w);
  t_wait _ _ w := (false, w);
  t_duration _ := "";
|}.

Definition yard_exec (args : list string) (w : Yard) : (string * option error) * Yard :=
  if decide (head args = Some "run") then
    (if y_next w =? 3 then ("", Some (Plain "exit status 125")) else ("c" +:+ dec (y_next w) +:+ newline, None),
     mkYard (y_next w + 1) (y_clock w))
  else (("", None), w).

#[local] Instance yard_docker : Docker (W := Yard) := {|
  d_exec := yard_exec;
  d_now w := (y_clock w, w);
  d_sleep d w := mkYard (y_next w) (y_clock w + d);
|}.

#[local] Instance yard_clock : ClockLaws y_clock.
Proof.
  split.
  - intros w. simpl. lia.
  - intros d w. simpl. lia.
  - intros w w' Hs. destruct Hs; simpl; lia.
Qed.

(** The default servers, one of them left over from a run before. *)
Definition yard_harness : harness :=
  mkHarness true "/fixtures"
    [mkEndpoint "native" 1102 "SNAP_INTEROP_NATIVE_IMAGE" defaultNativeImage "c0";
     mkEndpoint "python" 2102 "SNAP_INTEROP_PYTHON_IMAGE" defaultPythonImage ""].
Definition yard : Logged Yard := mkLogged (mkYard 1 0) [].

(** Witness of C40: two restarts, of which the second fails at its first
    server; the containers of the first are removed. *)
Lemma harness_cleans_up_witness :
  exists vs h' w', restarts (fun _ => "") (fun _ w => w) yard_harness ["a.json"; "b.json"] yard = Some (vs, h', w') /\
    (match vs with [Done _; Fatal _] => true | _ => false end) = true /\
    (fun cmd : command => take 1 cmd.1 ++ drop 2 (take 3 cmd.1)) <$> l_log (stopAll h' w').2 =
      [["rm"; "c0"]; ["run"; "--rm"]; ["run"; "--rm"]; ["rm"; "c1"]; ["rm"; "c2"]; ["run"; "--rm"]] /\
    tracks 2 ["c0"] (l_log (stopAll h' w').2) [].
Proof.
  destruct (harness_cleans_up y_clock (fun _ => "") (fun _ w => w) yard_harness ["a.json"; "b.json"] yard eq_refl)
    as (vs & h' & w' & E & H).
  exists vs, h', w'. split; [exact E|].
  assert (Ev : (fun r => (match r.1.1 with [Done _; Fatal _] => true | _ => false end,
      (fun cmd : command => take 1 cmd.1 ++ drop 2 (take 3 cmd.1)) <$> l_log (stopAll r.1.2 r.2).2)) <$>
      restarts (fun _ => "") (fun _ w => w) yard_harness ["a.json"; "b.json"] yard =
    Some (true, [["rm"; "c0"]; ["run"; "--rm"]; ["run"; "--rm"]; ["rm"; "c1"]; ["rm"; "c2"]; ["run"; "--rm"]]))
    by (vm_compute; reflexivity).
  rewrite E in Ev. simpl in Ev. injection Ev as Ev1 Ev2. split; [exact Ev1|]. split; [exact Ev2|].
  destruct (stopAll h' w') as [h'' w'']. destruct H as (_ & cmds & L & T & _). simpl in L. simpl. rewrite L. exact T.
Defined.
