(* ===== verification/ServerProps.v ===== *)
(** * Properties of the server (server/memory.go, server/session.go, server/server.go)

    Safety and totality of the request handler, the exact effect of reads and
    writes, the protection of read-only areas, the PDU-size contract, the
    host-side memory, and the connections of a server up to its shutdown. *)

From S2P Require Import Prelude Go WireErrors Header ReadWrite ServerCodec Memory Session Server Lifecycle Serve EndToEnd Loopback.

(** ** Concrete states for the witnesses *)

Definition demo_session : session := mkSession 480 demo_memory 240.

Lemma demo_session_ok : session_ok demo_session.
Proof. split; [apply demo_memory_ok|]. simpl. lia. Qed.

(** Two DBREAD ranges of DB1 and one S7ANY byte item. *)
Definition demo_dbread : bytes := [x12; x0c; xb0; x02; x02; x00; x01; x00; x00; x01; x00; x01; x00; x05].
Definition demo_read_param : bytes :=
  [FuncReadVar; x02] ++ demo_dbread ++ putS7Any TransportSizeByte 3 1 AreaDB 8.

(** A Setup job with reference 1. *)
Definition demo_setup_req : bytes :=
  [x32; x01; x00; x00; x00; x01; x00; x08; x00; x00; xf0; x00; x00; x01; x00; x01; x01; xe0].

(** ** The handler *)

(** C9: whatever bytes arrive, [handle] returns (no index or slice expression
    is out of range): it either drops a PDU without a readable header and
    keeps the session as it was, or answers with the PDU reference of the
    request; sizes, access rights and protected areas survive, and so does the
    invariant. *)
Theorem handle_safe s req :
  session_ok s ->
  exists s' out keep, handle s req = Ok (s', out, keep) /\
    session_ok s' /\ cfgMaxPDUSize s' = cfgMaxPDUSize s /\ client_step (regions s) (regions s') /\
    (if keep then exists rosctr ref param dat a,
       well_framed req rosctr ref param dat /\ out = Some a /\ answers ref a
     else out = None /\ s' = s).
Proof.
  intros Hs. destruct (handle_step s req Hs) as [-> | (ro & ref & p & d & s' & a & Hf & -> & (Hok & Hc & Hst) & Ha)].
  - exists s, None, false. by split_and!.
  - exists s', (Some a), true. split; [done|]. split; [done|]. split; [done|]. split; [done|].
    by exists ro, ref, p, d, a.
Qed.

(** Witness of C9: a PDU of the demo session. *)
Lemma handle_safe_witness :
  exists s' out keep, handle demo_session [x32; x01; x00; x00; x00; x09; x00; x01; x00; x00; x05] = Ok (s', out, keep) /\
    session_ok s' /\ cfgMaxPDUSize s' = 480 /\ client_step demo_memory (regions s') /\
    (if keep then exists rosctr ref param dat a,
       well_framed [x32; x01; x00; x00; x00; x09; x00; x01; x00; x00; x05] rosctr ref param dat /\ out = Some a /\ answers ref a
     else out = None /\ s' = demo_session).
Proof. apply (handle_safe demo_session). exact demo_session_ok. Defined.

(** C10: a server with any configuration that [New] accepts and any memory it
    may have come to serves a connection, whether the COTP handshake succeeds
    and whatever the peer, the network and the host then do (requests, lost
    answers, failed reads, host-side writes and registrations, in any order),
    without panicking.  The memory it leaves is sound, and a failed handshake
    changes nothing.  The answers it writes are those of the requests, in
    order: every well-framed request gets exactly one, which carries the
    reference of that request, until a TSDU that is not framed, a failed read
    or an answer that cannot be written ends the connection. *)
Theorem serveConn_safe c s accepted events :
  withDefaults c = Ok (cfg s) -> memory_ok (mem s) ->
  exists m' outs, serveConnection s accepted events = Ok (m', outs) /\ memory_ok m' /\
    (if accepted then attributed events outs else m' = mem s /\ outs = []).
Proof.
  intros Hc Hm. unfold serveConnection. destruct accepted; [|by exists (mem s), []].
  destruct (serveConn_ok (new_session s) events) as (s' & outs & -> & (Hm' & _) & _ & Ho); [by eapply new_session_ok|].
  by exists (regions s'), outs.
Qed.

(** Witness of C10: the zero configuration; the host registers a data block, a
    setup is answered, and a malformed request ends the connection. *)
Lemma serveConn_safe_witness :
  exists m' outs, serveConnection (mkServer (mkConfig 480 32 5000000000 0) newMemory) true
      [HostRegister AreaDB 1 [x01; x02] (mkAreaOptions false); Request demo_setup_req; Request [x32]; RequestLost []] = Ok (m', outs) /\
    memory_ok m' /\
    attributed [HostRegister AreaDB 1 [x01; x02] (mkAreaOptions false); Request demo_setup_req; Request [x32]; RequestLost []] outs.
Proof.
  apply (serveConn_safe (mkConfig 0 0 0 0) (mkServer (mkConfig 480 32 5000000000 0) newMemory) true).
  - reflexivity.
  - apply newMemory_ok.
Defined.

(** ** Reads *)

(** C11: [read] is its reference: it answers every item as [readItem] does when
    the complete answer fits the negotiated PDU, and refuses the whole job with
    header error 0x8500 otherwise. The running byte count with its early
    exits, the BIT special case and the fill bytes decide exactly that. *)
Theorem read_reference s ref param specs :
  session_ok s -> ParseReadVarRequest param = Ok specs ->
  exists rss results, ParseReadVarDBRead param = Ok rss /\
    readItems (regions s) specs rss = Ok results /\ length results = length specs /\
    read s ref param =
      (if AckDataHeaderSize + 2 + len (readVarData results) <=? pduSize s
       then EncodeReadVarResponse ref results else frameError ref param).
Proof.
  intros Hs Hp. destruct (read_spec s ref param specs Hs Hp) as (rss & results & H1 & _ & H2 & H3 & H4 & _).
  by exists rss, results.
Qed.

(** Witness of C11: a DBREAD item and a byte item. *)
Lemma read_reference_witness :
  exists rss results, ParseReadVarDBRead demo_read_param = Ok rss /\
    readItems demo_memory [mkVarSpec xb0 x00 0 0 x00 0; mkVarSpec x10 x02 3 1 x84 8] rss = Ok results /\
    length results = 2%nat /\
    read demo_session 9 demo_read_param =
      (if AckDataHeaderSize + 2 + len (readVarData results) <=? 240
       then EncodeReadVarResponse 9 results else frameError 9 demo_read_param).
Proof.
  apply (read_reference demo_session 9 demo_read_param [mkVarSpec xb0 x00 0 0 x00 0; mkVarSpec x10 x02 3 1 x84 8]).
  - exact demo_session_ok.
  - vm_compute. reflexivity.
Defined.

(** C12: an answer to a Read Var job that carries items is never longer than
    the negotiated PDU, parses on the client side to as many items as were
    asked for, and each carries the data its length field announces; the only
    other answer is the 13-byte header error 0x8500. *)
Theorem read_answer_contract s ref param specs a :
  session_ok s -> is_u16 ref -> ParseReadVarRequest param = Ok specs -> read s ref param = Ok a ->
  (len a <= pduSize s /\
   exists h p d items, ParseS7Header a = Ok (h, p ++ d) /\ ParamLength h = len p /\ DataLength h = len d /\
     PDURef h = ref /\ ErrorClass h = x00 /\ ErrorCode h = x00 /\
     ParseReadVarResponse p d = Ok items /\ length items = length specs) \/
  (len a = 13 /\
   exists h rest, ParseS7Header a = Ok (h, rest) /\ PDURef h = ref /\
     ErrorClass h = errClassSupplies /\ ErrorCode h = errCodeFrames).
Proof.
  intros Hs Hr Hp Hread.
  destruct (read_spec s ref param specs Hs Hp) as (rss & results & _ & _ & _ & Hlen & Hrd & Hall).
  pose proof (parseVarSpecs_count _ _ _ Hp) as Hn. destruct Hs as (_ & Hpdu & Hc).
  rewrite Hread in Hrd. change (AckDataHeaderSize + 2) with 14 in *.
  case_if_in Hrd; b2p; [left | right].
  - pose proof Hrd as Hrd'. unfold EncodeReadVarResponse in Hrd'. case_if_in Hrd'; [done|].
    symmetry in Hrd'. pose proof (length_EncodeAckData _ _ _ _ _ _ Hrd') as Hla.
    apply ParseS7Header_EncodeAckData in Hrd' as [Hh _]; [|done].
    split; [rewrite Hla; change AckDataHeaderSize with 12; simpl length; lia|].
    eexists _, _, _, (item_of <$> results). split; [exact Hh|]. split_and!; try done.
    + apply ParseReadVarResponse_data; [by apply Hall | lia].
    + by rewrite length_fmap.
  - destruct (parseVarSpecs_cons _ _ _ Hp) as (rest & Hparam). rewrite (frameError_ok _ _ _ _ Hparam) in Hrd.
    apply Ok_inj in Hrd as ->. split; [done|]. eexists _, _. split; [|split_and!].
    + apply (ParseS7Header_ack ROSCTRAckData ref 1 0 errClassSupplies errCodeFrames [FuncReadVar]);
        [done | done | unfold is_u16; lia.. | simpl; lia].
    + done.
    + done.
    + done.
Qed.

(** Witness of C12: the demo read. *)
Lemma read_answer_contract_witness :
  exists a, read demo_session 9 demo_read_param = Ok a /\
  ((len a <= 240 /\
   exists h p d items, ParseS7Header a = Ok (h, p ++ d) /\ ParamLength h = len p /\ DataLength h = len d /\
     PDURef h = 9 /\ ErrorClass h = x00 /\ ErrorCode h = x00 /\
     ParseReadVarResponse p d = Ok items /\ length items = 2%nat) \/
  (len a = 13 /\
   exists h rest, ParseS7Header a = Ok (h, rest) /\ PDURef h = 9 /\
     ErrorClass h = errClassSupplies /\ ErrorCode h = errCodeFrames)).
Proof.
  eexists. split; [vm_compute; reflexivity|].
  apply (read_answer_contract demo_session 9 demo_read_param [mkVarSpec xb0 x00 0 0 x00 0; mkVarSpec x10 x02 3 1 x84 8]).
  - exact demo_session_ok.
  - split; vm_compute; [discriminate | reflexivity].
  - vm_compute. reflexivity.
  - vm_compute. reflexivity.
Defined.

(** The ranges of the DBREAD items of an accepted job decode without the
    error the source ignores, one list per item, between one and fifty ranges;
    the answer to such an item is, per range, the success code and the bytes
    of the data block, or the whole item is refused with 0x0A or 0x05. *)
Theorem dbRead_answers m param specs :
  ParseReadVarRequest param = Ok specs ->
  exists rss, ParseReadVarDBRead param = Ok rss /\
    Forall2 (fun spec rs =>
      if Syntax spec =b SyntaxIDDBRead then
        1 <= len rs <= 50 /\
        match ranges_data m rs with
        | Some d => dbRead m rs = Ok (mkReadVarResult RetCodeSuccess DataTransportSizeOctet (len d) d)
        | None => dbRead m rs = Ok (refused RetCodeNotAvailable) \/ dbRead m rs = Ok (refused RetCodeAddressFault)
        end
      else rs = []) specs rss.
Proof.
  intros H. destruct (ParseReadVarDBRead_ok _ _ H) as (rss & Hr & HF). exists rss. split; [done|].
  eapply Forall2_impl; [exact HF|]. intros spec rs Hm. unfold ranges_match in Hm.
  case_if; [|done]. destruct Hm as (Hne & Hle & Hok). destruct rs as [|r rs]; [done|].
  split; [simpl length in *; lia|]. pose proof (dbReadLoop_spec m (r :: rs) [] Hok) as Hd. unfold dbRead.
  destruct (ranges_data m (r :: rs)) as [d|] eqn:E.
  - apply ranges_data_len in E. rewrite Hd. simpl app. rewrite lengthField_ok by lia. done.
  - destruct Hd as (code & -> & [-> | ->]); auto.
Qed.

(** An instance: the demo read. *)
Lemma dbRead_answers_witness :
  exists rss, ParseReadVarDBRead demo_read_param = Ok rss /\
    Forall2 (fun spec rs =>
      if Syntax spec =b SyntaxIDDBRead then
        1 <= len rs <= 50 /\
        match ranges_data demo_memory rs with
        | Some d => dbRead demo_memory rs = Ok (mkReadVarResult RetCodeSuccess DataTransportSizeOctet (len d) d)
        | None => dbRead demo_memory rs = Ok (refused RetCodeNotAvailable) \/ dbRead demo_memory rs = Ok (refused RetCodeAddressFault)
        end
      else rs = []) [mkVarSpec xb0 x00 0 0 x00 0; mkVarSpec x10 x02 3 1 x84 8] rss.
Proof. apply (dbRead_answers demo_memory demo_read_param). vm_compute. reflexivity. Defined.

(** ** Writes *)

(** C13: a Write Var item is either refused, with a code that is not success
    and without any effect, or written: then it resolved to an area that is
    neither read-only nor timers or counters, its data had the addressed size,
    and exactly the addressed bytes (or the one addressed bit) changed. *)
Theorem writeItem_exact m spec item :
  spec_ok spec ->
  exists m' code, writeItem m spec item = Ok (m', code) /\
    if code =b RetCodeSuccess
    then exists t, resolve m spec = (Some t, RetCodeSuccess) /\ item_written m m' t item
    else m' = m.
Proof.
  intros Hs. destruct (writeItem_spec m spec item Hs) as (m' & code & Hw & [[Hc ->] | (-> & Ht)]).
  - exists m, code. by rewrite (beq_ne _ _ Hc).
  - by exists m', RetCodeSuccess.
Qed.

(** Witness of C13: setting bit 5 of DB1.DBB2. *)
Lemma writeItem_exact_witness :
  exists m' code,
    writeItem demo_memory (mkVarSpec x10 x01 1 1 AreaDB 21) (mkWriteVarData x00 x03 1 [x01]) = Ok (m', code) /\
    if code =b RetCodeSuccess
    then exists t, resolve demo_memory (mkVarSpec x10 x01 1 1 AreaDB 21) = (Some t, RetCodeSuccess) /\
      item_written demo_memory m' t (mkWriteVarData x00 x03 1 [x01])
    else m' = demo_memory.
Proof.
  apply (writeItem_exact demo_memory (mkVarSpec x10 x01 1 1 AreaDB 21) (mkWriteVarData x00 x03 1 [x01])).
  repeat split; vm_compute; discriminate || reflexivity.
Defined.

(** What comes from the client: everything but the host's own changes. *)
Definition from_client (e : event) : Prop := match e with HostWrite _ _ _ _ | HostRegister _ _ _ _ => False | _ => True end.

Lemma serveConn_client s events s' outs :
  session_ok s -> Forall from_client events -> serveConn s events = Ok (s', outs) -> client_step (regions s) (regions s').
Proof.
  intros Hs HF. revert s outs Hs. induction HF as [|e events He _ IH]; intros s outs Hs H; cbn [serveConn] in H.
  { by injection H as <- <-. }
  destruct e as [req|req| | |]; [..|done|done]; [| |by injection H as <- <-].
  all: destruct (handle_step s req Hs) as [E | (ro & ref & p & d & s1 & a & _ & E & (Hs1 & _ & Hst) & _)];
    rewrite E, bind_Ok in H; cbn [negb] in H; cbv iota in H; try (by injection H as <- <-).
  apply bind_Ok_inv in H as ([s2 o2] & H & [= <- <-]). transitivity (regions s1); [done | by eapply IH].
Qed.

(** C14: whatever a client sends, and whenever its connection fails, no
    read-only area, no timer and no counter changes, nor the size or access
    right of any area, and none is added or removed. *)
Theorem protected_areas_survive s events s' outs :
  session_ok s -> Forall from_client events -> serveConn s events = Ok (s', outs) ->
  shape (regions s') = shape (regions s) /\
  forall k r, regions s !! k = Some r -> (readOnly r = true \/ timerOrCounter (area k) = true) ->
    regions s' !! k = Some r.
Proof. intros Hs HF H. by apply (serveConn_client s events s' outs). Qed.

(** A Write Var job on the read-only merkers of the demo session. *)
Definition demo_write_req : bytes :=
  s7Header ROSCTRJob 5 14 6 ++ [FuncWriteVar; x01] ++ putS7Any TransportSizeByte 2 0 AreaMerkers 0 ++
  [xff; x04; x00; x10; x01; x02].

(** Witness of C14: the refused write, answered with item code 0x03, and once
    more on a connection that breaks. *)
Lemma protected_areas_survive_witness :
  serveConn demo_session [Request demo_write_req; RequestLost demo_write_req] =
    Ok (demo_session, [[x32; x03; x00; x00; x00; x05; x00; x02; x00; x01; x00; x00; x05; x01; x03]]) /\
  shape (regions demo_session) = shape demo_memory /\
  forall k r, demo_memory !! k = Some r -> (readOnly r = true \/ timerOrCounter (area k) = true) ->
    regions demo_session !! k = Some r.
Proof.
  split; [reflexivity|].
  apply (protected_areas_survive demo_session [Request demo_write_req; RequestLost demo_write_req] demo_session
           [[x32; x03; x00; x00; x00; x05; x00; x02; x00; x01; x00; x00; x05; x01; x03]]).
  - exact demo_session_ok.
  - repeat constructor.
  - reflexivity.
Defined.

(** ** Setup Communication *)

(** Setup Communication can only lower: the granted PDU size is the
    smaller of the requested and the configured one and becomes the session's,
    and between one and two parallel jobs are granted, never more than asked
    for when that is at least one. *)
Theorem setup_only_lowers s ref calling called size req :
  session_ok s -> is_u16 ref -> is_u16 calling -> is_u16 called -> is_u16 size ->
  EncodeSetupCommRequest ref calling called size = Ok req ->
  exists s' a h param r, handle s req = Ok (s', Some a, true) /\
    ParseS7Header a = Ok (h, param) /\ PDURef h = ref /\ ErrorClass h = x00 /\ ErrorCode h = x00 /\
    ParseSetupCommResponse param = Ok r /\
    PDUSize r = Z.min size (cfgMaxPDUSize s) /\ pduSize s' = PDUSize r /\ regions s' = regions s /\
    1 <= MaxAmqCalling r <= 2 /\ 1 <= MaxAmqCalled r <= 2 /\
    (1 <= calling -> MaxAmqCalling r <= calling) /\ (1 <= called -> MaxAmqCalled r <= called).
Proof.
  intros Hs Href H1 H2 H3 E.
  destruct (handle_setup s ref calling called size req Hs Href H1 H2 H3 E)
    as (s' & param & _ & Hm & _ & Hsz & Hh & Hl & _ & Hp).
  eexists s', _, _, param, _. split; [exact Hh|]. split.
  { apply ParseS7Header_ack; [done | done | unfold is_u16; lia.. | lia]. }
  split; [done|]. split; [done|]. split; [done|]. split; [exact Hp|]. simpl. unfold maxAmQ.
  split_and!; try done; lia.
Qed.

(** An instance: a client asking for 960 bytes and eight jobs. *)
Lemma setup_only_lowers_witness :
  exists req, EncodeSetupCommRequest 1 8 8 960 = Ok req /\
  exists s' a h param r, handle demo_session req = Ok (s', Some a, true) /\
    ParseS7Header a = Ok (h, param) /\ PDURef h = 1 /\ ErrorClass h = x00 /\ ErrorCode h = x00 /\
    ParseSetupCommResponse param = Ok r /\
    PDUSize r = Z.min 960 480 /\ pduSize s' = PDUSize r /\ regions s' = demo_memory /\
    1 <= MaxAmqCalling r <= 2 /\ 1 <= MaxAmqCalled r <= 2 /\
    (1 <= 8 -> MaxAmqCalling r <= 8) /\ (1 <= 8 -> MaxAmqCalled r <= 8).
Proof.
  eexists. split; [reflexivity|]. apply (setup_only_lowers demo_session 1 8 8 960).
  - exact demo_session_ok.
  - split; vm_compute; discriminate || reflexivity.
  - split; vm_compute; discriminate || reflexivity.
  - split; vm_compute; discriminate || reflexivity.
  - split; vm_compute; discriminate || reflexivity.
  - reflexivity.
Defined.

(** ** Host-side memory *)

(** Registering an area keeps every area there was, makes the initial
    bytes readable under its key and only once; a host-side write changes
    exactly its span (read-only areas included) and is read back; both keep
    the memory invariant. *)
Theorem host_memory m a n init opts m1 start src m2 :
  memory_ok m -> register m a n init opts = Ok m1 -> mem_write m1 a n start src = Ok m2 ->
  memory_ok m1 /\ memory_ok m2 /\ m ⊆ m1 /\ mem_read m1 a n 0 (len init) = Ok init /\
  (forall init' opts', exists e, register m1 a n init' opts' = Err e) /\
  mem_read m2 a n start (len src) = Ok src /\
  exists k, keyOf a n = Ok k /\ overwritten m1 m2 k start src.
Proof.
  intros Hm Hr Hw. destruct (register_spec _ _ _ _ _ _ Hm Hr) as (Hm1 & Hsub & Hrd & Hagain).
  destruct (mem_write_spec _ _ _ _ _ _ Hm1 Hw) as (k & Hk & Ho & Hm2).
  do 5 (split; [done|]). split; [exact (mem_write_read _ _ _ _ _ _ Hm1 Hw) | by exists k].
Qed.

(** An instance: registering DB2 as read-only and writing two bytes of it. *)
Lemma host_memory_witness :
  let k := mkAreaKey AreaDB 2 in
  let m1 := <[k := mkRegion [x00; x00; x00] true]> newMemory in
  let m2 := <[k := mkRegion [x00; x07; x08] true]> m1 in
  register newMemory AreaDB 2 [x00; x00; x00] (mkAreaOptions true) = Ok m1 /\
  mem_write m1 AreaDB 2 1 [x07; x08] = Ok m2 /\ mem_read m2 AreaDB 2 1 2 = Ok [x07; x08] /\ memory_ok m2.
Proof.
  intros k m1 m2.
  destruct (host_memory newMemory AreaDB 2 [x00; x00; x00] (mkAreaOptions true) m1 1 [x07; x08] m2)
    as (_ & Hm2 & _ & _ & _ & Hrd & _).
  - apply map_Forall_empty.
  - reflexivity.
  - reflexivity.
  - split; [reflexivity|]. split; [reflexivity|]. split; [exact Hrd | exact Hm2].
Defined.

(** A host-side read fails exactly for the two documented reasons and
    says which: the area is not held ([ErrUnknownArea]) or the span is not
    inside it ([ErrOutOfRange]). *)
Theorem mem_read_failures m a n start size e :
  mem_read m a n start size = Err e ->
  (errors_Is e ErrUnknownArea = true /\ forall k, keyOf a n = Ok k -> m !! k = None) \/
  (errors_Is e ErrSpanOutOfRange = true /\
     exists k r, keyOf a n = Ok k /\ m !! k = Some r /\
       (start < 0 \/ size < 0 \/ len (data r) < start + size)).
Proof. apply mem_read_errors. Qed.

(** An instance: nine bytes of an eight-byte data block. *)
Lemma mem_read_failures_witness :
  exists e, mem_read demo_memory AreaDB 1 0 9 = Err e /\
  ((errors_Is e ErrUnknownArea = true /\ forall k, keyOf AreaDB 1 = Ok k -> demo_memory !! k = None) \/
  (errors_Is e ErrSpanOutOfRange = true /\
     exists k r, keyOf AreaDB 1 = Ok k /\ demo_memory !! k = Some r /\
       (0 < 0 \/ 9 < 0 \/ len (data r) < 0 + 9))).
Proof.
  eexists. split; [vm_compute; reflexivity|]. apply (mem_read_failures demo_memory AreaDB 1 0 9).
  vm_compute. reflexivity.
Defined.

(** ** Connections and shutdown *)

(** C15: in every reachable state of a server, with any number of calls of
    [Serve] and [Close] and of connections interleaved, the connections being
    served are at most the taken slots, which are at most [MaxConnections];
    the wait group counts the goroutines; [conns] holds every connection that
    is served; and once the server is closed, the sockets of all connections
    in [conns] are closed, so are all tracked listeners, and no step opens the
    server again or adds a connection. *)
Theorem server_lifecycle maxConns s :
  0 <= maxConns -> reachable maxConns s ->
  count is_serving (l_raws s) <= l_slots s <= maxConns /\
  l_wg s = count is_goroutine (l_raws s) /\
  (forall raw, l_raws s !! raw = Some Serving -> raw ∈ l_conns s) /\
  (l_closed s = true ->
     l_conns s ## l_open s /\ l_listeners s ## l_open_lns s /\
     forall s', rtc (step maxConns) s s' -> l_closed s' = true /\ l_conns s' ⊆ l_conns s).
Proof.
  intros Hm Hr. pose proof (reachable_ok _ _ Hm Hr) as Hs. split; [split|split; [|split]].
  - rewrite (ok_slots _ _ Hs). apply count_le. by intros [].
  - apply ok_limit, Hs.
  - apply (ok_wg maxConns), Hs.
  - intros raw Hraw. by eapply in_conns_elem.
  - intros Hc. split; [by eapply closed_conns|]. split; [by eapply ok_listeners|].
    intros s' Hrun. by eapply closed_run.
Qed.

(** Witness of C15: the state of a server with a slot, right after the
    connection 1 was added and [Close] was called. *)
Lemma server_lifecycle_witness :
  exists s, reachable 1 s /\ l_closed s = true /\ l_raws s !! 1 = Some Added /\
    count is_serving (l_raws s) <= l_slots s <= 1 /\ l_conns s ## l_open s.
Proof.
  destruct (close_after_added 1 0 1 0 ltac:(lia)) as (s & Hr & Hc & Hraw & _).
  exists s. destruct (server_lifecycle 1 s ltac:(lia) Hr) as (H1 & _ & _ & H2).
  split; [exact Hr|]. split; [exact Hc|]. split; [exact Hraw|]. split; [exact H1 | apply (H2 Hc)].
Defined.

(** C16: a closed server drains by itself.  From any reachable state in which
    [Close] has been called, however its threads interleave, they take at most
    [pending s] more steps.  As long as some call of [Serve] or [Close] has not
    returned or some connection is not over, one of them can go on, and without
    anybody's help: not by a read of a connection that is open, or an accept on
    a listener that is open, which fail only if the peer or the network make
    them, but because [Close] closed the sockets they wait for.  So they reach,
    by such steps, a state in which all calls have returned, and there all slots
    are free, the wait group is zero and every connection is closed. *)
Theorem server_drains maxConns s :
  0 <= maxConns -> reachable maxConns s -> l_closed s = true ->
  (forall n s', nsteps (internal maxConns) n s s' -> Z.of_nat n <= pending s) /\
  (forall s', rtc (internal maxConns) s s' -> drained s' \/ exists s'', unprompted maxConns s' s'') /\
  exists s', rtc (unprompted maxConns) s s' /\ drained s' /\
    l_slots s' = 0 /\ l_wg s' = 0 /\ l_conns s' = ∅ /\ l_open s' = ∅.
Proof.
  intros Hm Hr Hc. pose proof (reachable_ok _ _ Hm Hr) as Hs. pose proof (reachable_loops_ok _ _ Hr) as Hl.
  assert (Hrun : forall s', rtc (internal maxConns) s s' ->
    l_closed s' = true /\ lifecycle_ok maxConns s' /\ loops_ok s').
  { intros s' [n Hn]%rtc_nsteps. by destruct (closed_runs _ _ _ _ Hc Hs Hl Hn) as (_ & ?). }
  split; [|split].
  - intros n s' Hn. destruct (closed_runs _ _ _ _ Hc Hs Hl Hn) as (H & _). pose proof (pending_nonneg s'). lia.
  - intros s' (Hc' & Hs' & Hl')%Hrun. destruct (drained_or_progress maxConns s' Hc' Hs' Hl') as [?|[s'' Hi]]; [by left|].
    right. exists s''. split; [done | by eapply closed_not_prompted].
  - destruct (closed_drains _ _ Hc Hs Hl) as (s' & Hss & Hd). exists s'. split; [by apply closed_unprompted|]. split; [done|].
    destruct (Hrun s' Hss) as (_ & Hs' & _). by eapply drained_idle.
Qed.

(** Witness of C16: a server closed while a connection was being added. *)
Lemma server_drains_witness :
  exists s, l_raws s !! 1 = Some Added /\ l_closers s !! 0 = Some false /\
    exists s', rtc (unprompted 1) s s' /\ drained s' /\
      l_slots s' = 0 /\ l_wg s' = 0 /\ l_conns s' = ∅ /\ l_open s' = ∅.
Proof.
  destruct (close_after_added 1 0 1 0 ltac:(lia)) as (s & Hr & Hc & Hraw & Hk).
  exists s. split; [exact Hraw|]. split; [exact Hk|]. apply (server_drains 1 s); [lia | exact Hr | exact Hc].
Defined.

(** C17: what [Serve] returns.  In every reachable state, with any number of
    calls of [Serve] whose contexts may end at any time, of [Close] and of
    connections interleaved: a call has a result exactly when its loop has
    returned; [ctx.Err()] is returned only when the context of that call has
    ended; [ErrServerClosed] only when the server is closed, which is so only
    after a [Close] or the end of the context of some call; another error only
    when it is no timeout.  A context that ends while its call runs closes the
    server, or is about to; and the threads below are those of the
    lifecycle. *)
Theorem Serve_results maxConns isTimeout s :
  rtc (serve_step maxConns isTimeout) not_serving s ->
  (forall ln, loop_of s ln = Some Returned <-> is_Some (sv_results s !! ln)) /\
  (forall ln r, sv_results s !! ln = Some r ->
     match r with
     | CtxErr => ln ∈ sv_ended s
     | ErrServerClosed => l_closed (sv_life s) = true /\ (sv_byHost s = true \/ sv_ended s <> ∅)
     | AcceptErr e => isTimeout e = false
     end) /\
  (forall ln pc, ln ∈ sv_ended s -> loop_of s ln = Some pc -> pc <> Returned ->
     l_closed (sv_life s) = true \/
     forall k, l_closers (sv_life s) !! k = None ->
       exists s', serve_step maxConns isTimeout s s' /\ l_closed (sv_life s') = true) /\
  reachable maxConns (sv_life s).
Proof.
  intros Hr. apply serving_reachable in Hr as Hs. split; [apply (so_returned _ _ Hs)|]. split; [|split].
  - intros ln [| |e] H; [|by apply (so_ctx _ _ Hs) | by eapply (so_failed _ _ Hs)].
    apply (so_closed _ _ Hs) in H. split; [done | by apply (so_cause _ _ Hs)].
  - intros ln pc He Hl Hn. destruct (so_closing _ _ Hs ln pc He Hl Hn) as [Hf|?]; [right | by left].
    intros k Hk. eexists. split; [by apply (sv_after_func _ _ _ ln k)|]. apply closeAll_closed.
  - by eapply not_serving_life.
Qed.

(** Witness of C17: the context of the only call ends after a connection was
    accepted; the call returns [ErrServerClosed]. *)
Lemma Serve_results_witness :
  exists s, rtc (serve_step 1 (fun _ => false)) not_serving s /\ sv_results s !! 0 = Some ErrServerClosed /\
    sv_byHost s = false /\ l_closed (sv_life s) = true.
Proof.
  destruct (ctx_end_refused (fun _ => false)) as (s & Hr & Hh & _ & Hres). exists s. split; [exact Hr|]. split; [exact Hres|].
  split; [exact Hh|]. destruct (Serve_results 1 (fun _ => false) s Hr) as (_ & H & _). exact (proj1 (H 0 _ Hres)).
Defined.
