(* ===== verification/WireProps.v ===== *)
(** * Properties of the wire codecs and of the data conversion

    Round trips between the client's encoders and the server's decoders (and
    back), the parsers' safety on arbitrary bytes, the address ranges and the
    TSAPs, and the conversions of package codec. *)

From S2P Require Import Prelude Go WireErrors Header ReadWrite ServerCodec Userdata Session Loopback Codec.

(** C18: the Read Var request a client encodes for a list of byte addresses is
    a job with its reference, and the server decodes exactly those addresses
    from it, in order. *)
Theorem read_request_roundtrip ref addrs req :
  is_u16 ref -> addrs <> [] -> EncodeReadVarRequest ref addrs = Ok req ->
  exists h param, ParseS7Header req = Ok (h, param) /\ ROSCTR h = ROSCTRJob /\ PDURef h = ref /\
    ParamLength h = len param /\ DataLength h = 0 /\
    ParseReadVarRequest param = Ok (spec_of <$> addrs).
Proof.
  unfold EncodeReadVarRequest, MaxReadVarItems. intros Href Hne. case_if; [done|]. intros H.
  apply bind_Ok_inv in H as (items & Hi & H). apply encodeMessage_inv in H as (Hp & _ & ->).
  assert (Hn : 1 <= len addrs <= 255) by (b2p; destruct addrs; [done | simpl length in *; lia]).
  rewrite app_nil_r. eexists _, _. split.
  - apply ParseS7Header_plain; unfold is_u16, MaxUint16 in *; [done | done | lia | simpl; lia |].
    simpl length. lia.
  - split_and!; try done. by apply parseVarSpecs_EncodeReadVar.
Qed.

(** Witness of C18: two addresses. *)
Lemma read_request_roundtrip_witness :
  exists req, EncodeReadVarRequest 7 [mkS7AnyAddress AreaDB 1 2 3; mkS7AnyAddress AreaInputs 0 0 1] = Ok req /\
  exists h param, ParseS7Header req = Ok (h, param) /\ ROSCTR h = ROSCTRJob /\ PDURef h = 7 /\
    ParamLength h = len param /\ DataLength h = 0 /\
    ParseReadVarRequest param =
      Ok (spec_of <$> [mkS7AnyAddress AreaDB 1 2 3; mkS7AnyAddress AreaInputs 0 0 1]).
Proof.
  eexists. split; [vm_compute; reflexivity|].
  apply (read_request_roundtrip 7 [mkS7AnyAddress AreaDB 1 2 3; mkS7AnyAddress AreaInputs 0 0 1]).
  - split; vm_compute; discriminate || reflexivity.
  - discriminate.
  - vm_compute. reflexivity.
Defined.

(** The Write Var request a client encodes is decoded by the server to one
    item with the client's address and exactly the value, whatever the parity
    of its length, and likewise for a single bit. *)
Theorem write_request_roundtrip ref addr value baddr v req breq :
  is_u16 ref -> EncodeWriteVarRequest ref addr value = Ok req ->
  EncodeWriteVarBitRequest ref baddr v = Ok breq ->
  exists h param dat hb bparam bdat,
    ParseS7Header req = Ok (h, param ++ dat) /\ ROSCTR h = ROSCTRJob /\ PDURef h = ref /\
    ParamLength h = len param /\ DataLength h = len dat /\
    ParseWriteVarRequest param dat =
      Ok ([spec_of addr], [mkWriteVarData RetCodeSuccess x04 (len value * 8) value]) /\
    ParseS7Header breq = Ok (hb, bparam ++ bdat) /\ ROSCTR hb = ROSCTRJob /\ PDURef hb = ref /\
    ParamLength hb = len bparam /\ DataLength hb = len bdat /\
    ParseWriteVarRequest bparam bdat =
      Ok ([bit_spec_of baddr], [mkWriteVarData x00 DataTransportSizeBit 1 [if v then x01 else x00]]).
Proof.
  intros Href E Eb. apply EncodeWriteVarRequest_parts in E as (Hr & Hmax & param & dat & -> & Hlp & Hld & Hp).
  apply EncodeWriteVarBitRequest_parts in Eb as (Hrb & bparam & bdat & -> & Hlbp & Hlbd & Hpb).
  eexists _, param, dat, _, bparam, bdat.
  split; [apply ParseS7Header_plain; unfold is_u16, MaxUint16 in *; rewrite ?length_app; done || lia|].
  do 4 (split; [done|]). split; [done|].
  split; [apply ParseS7Header_plain; unfold is_u16, MaxUint16 in *; rewrite ?length_app; done || lia|].
  by do 4 (split; [done|]).
Qed.

(** An instance: an odd value and a bit. *)
Lemma write_request_roundtrip_witness :
  exists req breq, EncodeWriteVarRequest 7 (mkS7AnyAddress AreaDB 1 2 3) [x01; x02; x03] = Ok req /\
  EncodeWriteVarBitRequest 7 (mkS7AnyBitAddress AreaDB 1 2 3) true = Ok breq /\
  exists h param dat hb bparam bdat,
    ParseS7Header req = Ok (h, param ++ dat) /\ ROSCTR h = ROSCTRJob /\ PDURef h = 7 /\
    ParamLength h = len param /\ DataLength h = len dat /\
    ParseWriteVarRequest param dat =
      Ok ([spec_of (mkS7AnyAddress AreaDB 1 2 3)], [mkWriteVarData RetCodeSuccess x04 (3 * 8) [x01; x02; x03]]) /\
    ParseS7Header breq = Ok (hb, bparam ++ bdat) /\ ROSCTR hb = ROSCTRJob /\ PDURef hb = 7 /\
    ParamLength hb = len bparam /\ DataLength hb = len bdat /\
    ParseWriteVarRequest bparam bdat =
      Ok ([bit_spec_of (mkS7AnyBitAddress AreaDB 1 2 3)], [mkWriteVarData x00 DataTransportSizeBit 1 [x01]]).
Proof.
  eexists _, _. split; [vm_compute; reflexivity|]. split; [vm_compute; reflexivity|].
  apply (write_request_roundtrip 7 (mkS7AnyAddress AreaDB 1 2 3) [x01; x02; x03] (mkS7AnyBitAddress AreaDB 1 2 3) true).
  - split; vm_compute; discriminate || reflexivity.
  - vm_compute. reflexivity.
  - vm_compute. reflexivity.
Defined.

(** C19: the Read Var answer a server encodes for any list of up to 255 results
    (their length fields true to their data, refusals without data) is parsed
    by the client to exactly those items: the fill byte after odd data is
    skipped between items and not expected after the last. *)
Theorem read_response_roundtrip ref items a :
  is_u16 ref -> Forall result_ok items -> EncodeReadVarResponse ref items = Ok a ->
  exists h p d, ParseS7Header a = Ok (h, p ++ d) /\ ParamLength h = len p /\ DataLength h = len d /\
    PDURef h = ref /\ ParseReadVarResponse p d = Ok (item_of <$> items).
Proof.
  intros Href HF H. unfold EncodeReadVarResponse in H. case_if_in H; [done|].
  apply ParseS7Header_EncodeAckData in H as [H _]; [|done].
  eexists _, _, _. split; [exact H|]. split_and!; try done.
  apply ParseReadVarResponse_data; [done | b2p; lia].
Qed.

(** Three results: one odd byte item, a refusal and a bit. *)
Definition demo_results : list ReadVarResult :=
  [mkReadVarResult xff x04 24 [x01; x02; x03]; mkReadVarResult x0a x00 0 []; mkReadVarResult xff x03 1 [x01]].

(** Witness of C19: the three results. *)
Lemma read_response_roundtrip_witness :
  exists a, EncodeReadVarResponse 7 demo_results = Ok a /\
  exists h p d, ParseS7Header a = Ok (h, p ++ d) /\ ParamLength h = len p /\ DataLength h = len d /\
    PDURef h = 7 /\ ParseReadVarResponse p d = Ok (item_of <$> demo_results).
Proof.
  eexists. split; [vm_compute; reflexivity|]. apply (read_response_roundtrip 7 demo_results).
  - split; vm_compute; discriminate || reflexivity.
  - repeat constructor; vm_compute; try discriminate; done.
  - vm_compute. reflexivity.
Defined.

(** C20: no parser of package wire indexes or slices out of range, whatever
    bytes it is given. *)
Theorem parsers_never_panic data param :
  no_panic (ParseS7Header data) /\ no_panic (ParseSetupCommResponse data) /\
  no_panic (ParseSetupCommRequest data) /\ no_panic (ParseReadVarResponse param data) /\
  no_panic (ParseWriteVarResponse param data) /\ no_panic (ParseReadVarRequest param) /\
  no_panic (ParseReadVarDBRead param) /\ no_panic (ParseWriteVarRequest param data) /\
  no_panic (ParseUserdataParam param) /\ no_panic (ParseUserdataData data) /\ no_panic (ParseSZLResponse data) /\
  no_panic (ParseBlockCountResponse data) /\ no_panic (ParseBlockListResponse data) /\
  no_panic (ParseBlockInfoResponse data) /\ no_panic (ParseStartUploadResponse param) /\
  no_panic (ParseUploadResponse param data).
Proof.
  split_and!; unfold ParseReadVarRequest; auto with go.
Qed.

(** What [ParseS7Header] accepts is a buffer it can re-create: protocol
    ID, type, redundancy word, reference and lengths at their places, the two
    error bytes exactly for acknowledgements, and at least as many bytes after
    them as the lengths announce. *)
Theorem header_parse_sound data h rest :
  ParseS7Header data = Ok (h, rest) ->
  exists r0 r1,
    data = [x32; ROSCTR h; r0; r1] ++ put16 (PDURef h) ++ put16 (ParamLength h) ++ put16 (DataLength h)
             ++ (if IsAckData (ROSCTR h) || IsAck (ROSCTR h) then [ErrorClass h; ErrorCode h] else [])
             ++ rest /\
    RedundancyID h = be16 r0 r1 /\
    is_u16 (PDURef h) /\ is_u16 (ParamLength h) /\ is_u16 (DataLength h) /\
    ParamLength h + DataLength h <= len rest.
Proof.
  intros H. apply ParseS7Header_sound in H as (r0 & r1 & ? & ? & ? & ? & ? & ? & _). by exists r0, r1.
Qed.

(** An instance: an acknowledgement with one byte of parameter. *)
Lemma header_parse_sound_witness :
  exists h rest, ParseS7Header [x32; x03; x00; x00; x00; x07; x00; x01; x00; x00; x85; x00; x04] = Ok (h, rest) /\
  exists r0 r1,
    [x32; x03; x00; x00; x00; x07; x00; x01; x00; x00; x85; x00; x04] =
      [x32; ROSCTR h; r0; r1] ++ put16 (PDURef h) ++ put16 (ParamLength h) ++ put16 (DataLength h)
             ++ (if IsAckData (ROSCTR h) || IsAck (ROSCTR h) then [ErrorClass h; ErrorCode h] else [])
             ++ rest /\
    RedundancyID h = be16 r0 r1 /\
    is_u16 (PDURef h) /\ is_u16 (ParamLength h) /\ is_u16 (DataLength h) /\
    ParamLength h + DataLength h <= len rest.
Proof.
  eexists _, _. split; [vm_compute; reflexivity|]. apply header_parse_sound. vm_compute. reflexivity.
Defined.

(** An S7ANY item is encoded exactly when the DB number, the byte offset
    and the count fit their wire fields; the item then carries the bit address
    of the byte, and otherwise the error is [ErrOutOfRange] and never a
    truncated field. *)
Theorem EncodeS7Any_range addr :
  if decide (s7any_in_range addr)
  then EncodeS7Any addr =
         Ok (putS7Any TransportSizeByte (Size addr) (DBNumber addr) (Area addr) (Start addr * 8))
  else exists e, EncodeS7Any addr = Err e /\ errors_Is e ErrOutOfRange = true.
Proof. case_decide; [by apply EncodeS7Any_ok | by apply EncodeS7Any_err]. Qed.

(** [BuildTSAP] accepts exactly connection types 0..255, racks 0..7 and
    slots 0..31 and gives each triple its own TSAP. *)
Theorem BuildTSAP_injective ct r s ct' r' s' t :
  BuildTSAP ct r s = Ok t -> BuildTSAP ct' r' s' = Ok t ->
  ct = ct' /\ r = r' /\ s = s' /\ is_u16 t /\
  0 <= ct <= 255 /\ 0 <= r <= 7 /\ 0 <= s <= 31.
Proof.
  intros H H'. pose proof (BuildTSAP_inv _ _ _ _ H) as (? & ? & ?).
  pose proof (BuildTSAP_inv _ _ _ _ H') as (? & ? & ?).
  rewrite BuildTSAP_value in H by lia. rewrite BuildTSAP_value in H' by lia.
  injection H as <-. injection H' as H'. unfold is_u16. lia.
Qed.

(** An instance: rack 0, slot 2. *)
Lemma BuildTSAP_injective_witness :
  BuildTSAP 3 0 2 = Ok 770 /\ (3 = 3 /\ 0 = 0 /\ 2 = 2 /\ is_u16 770 /\ 0 <= 3 <= 255 /\ 0 <= 0 <= 7 /\ 0 <= 2 <= 31).
Proof.
  split; [vm_compute; reflexivity|]. apply (BuildTSAP_injective 3 0 2 3 0 2 770); vm_compute; reflexivity.
Defined.

(** The data conversions.  The big-endian ones are inverse to each other
    on the whole range of their types, signed ones included, and read only the
    bytes they need; a STRING is encoded to a buffer of exactly its declared
    size (2..256 bytes) and decodes to the text, cut at the declared number of
    characters; a bit of a buffer decodes to that bit, and to false outside
    the buffer. *)
Theorem codec_roundtrip w i d n rest val maxLen buffer bit :
  is_u16 w -> is_i16 i -> is_u32 d -> is_i32 n ->
  (DecodeWord (EncodeWord w ++ rest) = Ok w /\ DecodeInt (EncodeInt i ++ rest) = Ok i /\
   DecodeDWord (EncodeDWord d ++ rest) = Ok d /\ DecodeDInt (EncodeDInt n ++ rest) = Ok n /\
   DecodeReal (EncodeReal d ++ rest) = Ok d) /\
  (exists buf, EncodeString val maxLen = Ok buf /\ len buf = Z.min 256 (Z.max 2 maxLen) /\
     DecodeString buf = Ok (take (Z.to_nat (Z.min 256 (Z.max 2 maxLen) - 2)) val)) /\
  DecodeBool buffer bit =
    Ok (match (if bit <? 0 then None else buffer !! Z.to_nat (bit / 8)) with
        | Some b => Z.testbit (b2z b) (bit mod 8)
        | None => false
        end).
Proof.
  intros. split; [|split; [apply DecodeString_EncodeString | apply DecodeBool_value]].
  split; [by apply DecodeWord_EncodeWord|]. split; [by apply DecodeInt_EncodeInt|].
  split; [by apply DecodeDWord_EncodeDWord|]. split; [by apply DecodeDInt_EncodeDInt | by apply DecodeDWord_EncodeDWord].
Qed.

(** An instance: extreme values. *)
Lemma codec_roundtrip_witness :
  (DecodeWord (EncodeWord 65535 ++ [x01]) = Ok 65535 /\ DecodeInt (EncodeInt (-32768) ++ [x01]) = Ok (-32768) /\
   DecodeDWord (EncodeDWord 4294967295 ++ [x01]) = Ok 4294967295 /\
   DecodeDInt (EncodeDInt (-1) ++ [x01]) = Ok (-1) /\ DecodeReal (EncodeReal 4294967295 ++ [x01]) = Ok 4294967295) /\
  (exists buf, EncodeString [x41; x42; x43] 4 = Ok buf /\ len buf = 4 /\ DecodeString buf = Ok [x41; x42]) /\
  DecodeBool [x00; x04] 10 = Ok true.
Proof.
  apply (codec_roundtrip 65535 (-32768) 4294967295 (-1) [x01] [x41; x42; x43] 4 [x00; x04] 10);
    split; vm_compute; discriminate || reflexivity.
Defined.
