(* ===== verification/ClientProps.v ===== *)
(** * Properties of the client over an arbitrary environment

    What holds of the client whatever the network and the peer do: the shape
    of read outcomes, the state kept by failed connects, the references, the
    chunk plan, the validation; where [sendReceive] can panic, and where
    [WriteArea] refuses its own chunks. *)

From S2P Require Import Prelude Go WireErrors Header ReadWrite ServerCodec Memory Session Client ClientRW Peer Loopback EndToEnd.

(** ** Operations that leave the client's state alone *)

Section Keeps.
Context {W : Type} `{!Transport W}.

Definition keeps {A} (m : M W A) : Prop := forall st r st', m st = (r, st') -> st'.1 = st.1.

Lemma keeps_ret {A} (a : A) : keeps (mret a).
Proof. by intros st r st' [= _ <-]. Qed.

Lemma keeps_lift {A} (r : res A) : keeps (lift r).
Proof. by intros st r' st' [= _ <-]. Qed.

Lemma keeps_get {A} (f : Client -> A) : keeps (get f).
Proof. by intros st r st' [= _ <-]. Qed.

Lemma keeps_bind {A B} (m : M W A) (k : A -> M W B) :
  keeps m -> (forall a, keeps (k a)) -> keeps (m ≫= k).
Proof.
  intros Hm Hk st r st'. rewrite bind_run. destruct (m st) as [[a|e|] st1] eqn:E; intros H.
  - rewrite (Hk a _ _ _ H). by eapply Hm.
  - injection H as _ <-. by eapply Hm.
  - injection H as _ <-. by eapply Hm.
Qed.

Lemma keeps_attempt {A} (m : M W A) : keeps m -> keeps (attempt m).
Proof.
  intros Hm st r st'. unfold attempt. destruct (m st) as [[a|e|] st1] eqn:E; intros [= _ <-]; by eapply Hm.
Qed.

Lemma keeps_call {A} (f : W -> (error + A) * W) : keeps (call f).
Proof. intros st r st'. unfold call. destruct (f st.2) as [[e|a] w]; by intros [= _ <-]. Qed.

Lemma keeps_observe {A} (f : W -> A * W) : keeps (observe f).
Proof. intros st r st'. unfold observe. destruct (f st.2) as [a w]. by intros [= _ <-]. Qed.

Lemma keeps_check_ctx ctx : keeps (check_ctx ctx).
Proof.
  apply keeps_bind.
  - unfold ctx_Err. case_if; [apply keeps_lift | apply keeps_observe].
  - intros [e|]; [apply keeps_lift | apply keeps_ret].
Qed.

End Keeps.

#[export] Hint Resolve keeps_ret keeps_lift keeps_get keeps_attempt keeps_call keeps_observe keeps_check_ctx : go.

(** Split binds, matches and ifs of a [keeps] goal. *)
Ltac keeps_tac :=
  repeat first
    [ solve [auto with go]
    | apply keeps_bind; [|intros ?]
    | apply keeps_attempt
    | match goal with
      | |- keeps (match ?x with _ => _ end) => destruct x
      | |- keeps (fail _) => apply keeps_lift
      end ].

Section Failures.
Context {W : Type} `{!Transport W}.

Lemma keeps_closeCOTP conn : keeps (W := W) (closeCOTP conn).
Proof. unfold closeCOTP. keeps_tac. Qed.

Lemma keeps_performS7Setup ctx conn ref a b size : keeps (W := W) (performS7Setup ctx conn ref a b size).
Proof. unfold performS7Setup, WriteTSDU, ReadTSDU. keeps_tac. Qed.

Lemma keeps_dialCOTP ctx addr timeout l r : keeps (W := W) (dialCOTP ctx addr timeout l r).
Proof. unfold dialCOTP, dialTCP, connectCOTP. keeps_tac. Qed.

Lemma bind_run_Err {A B} (m : M W A) (k : A -> M W B) st st' e :
  (m ≫= k) st = (Err e, st') ->
  m st = (Err e, st') \/ exists a st1, m st = (Ok a, st1) /\ k a st1 = (Err e, st').
Proof.
  rewrite bind_run. destruct (m st) as [[a|e'|] st1]; intros H; [right; by exists a, st1 | left; congruence | done].
Qed.

Lemma attempt_no_Err {A} (m : M W A) st st' e : attempt m st <> (Err e, st').
Proof. unfold attempt. by destruct (m st) as [[]]. Qed.

Lemma connectOnce_Err ctx rack slot st e st' :
  connectOnce ctx rack slot st = (Err e, st') -> st'.1 = st.1.
Proof.
  unfold connectOnce. intros H. apply bind_run_Err in H as [H|(c & st1 & Hg & H)]; [by injection H|].
  injection Hg as <- <-. cbv zeta in H.
  apply bind_run_Err in H as [H|(t & st2 & Ht & H)]; [by apply attempt_no_Err in H|].
  apply (keeps_attempt _ (keeps_lift _)) in Ht as Ht'. rewrite <- Ht'. clear Ht Ht'.
  destruct t as [err|[local remote]]; [by injection H as _ <-|].
  apply bind_run_Err in H as [H|(conn & st3 & Hd & H)]; [by apply keeps_dialCOTP in H|].
  apply keeps_dialCOTP in Hd. rewrite <- Hd. clear Hd.
  apply bind_run_Err in H as [H|(sctx & st4 & Hl & H)]; [by injection H as _ <-|].
  injection Hl as _ <-.
  apply bind_run_Err in H as [H|(r & st5 & Hp & H)]; [by apply attempt_no_Err in H|].
  apply (keeps_attempt _ (keeps_performS7Setup _ _ _ _ _ _)) in Hp. rewrite <- Hp. clear Hp.
  destruct r as [err|setup].
  - apply bind_run_Err in H as [H|(r & st6 & Hc & H)]; [by apply attempt_no_Err in H|].
    apply (keeps_attempt _ (keeps_closeCOTP _)) in Hc. rewrite <- Hc. by injection H as _ <-.
  - apply bind_run_Err in H as [H|(old & st6 & Hg & H)]; [by injection H|].
    apply bind_run_Err in H as [H|(u & st7 & Hm & H)]; [by injection H|].
    apply bind_run_Err in H as [H|(r & st8 & Hc & H)]; [by apply attempt_no_Err in H | by injection H].
Qed.

Lemma tryPairs_Err ctx pairs failed st e st' :
  tryPairs ctx pairs failed st = (Err e, st') -> st'.1 = st.1.
Proof.
  revert st. induction pairs as [|[rack slot] pairs IH]; intros st H; cbn [tryPairs] in H.
  { by injection H as _ <-. }
  apply bind_run_Err in H as [H|(u & st1 & Hc & H)]; [by apply keeps_check_ctx in H|].
  apply keeps_check_ctx in Hc. rewrite <- Hc. clear Hc.
  apply bind_run_Err in H as [H|(r & st2 & Hc & H)]; [by apply attempt_no_Err in H|].
  destruct r as [err|[]]; [|by injection H].
  apply IH in H. rewrite H. unfold attempt in Hc.
  destruct (connectOnce ctx rack slot st1) as [[a|e'|] st3] eqn:E; [done| |done].
  injection Hc as _ <-. by apply connectOnce_Err in E.
Qed.

Lemma Connect_Err ctx st e st' : Connect ctx st = (Err e, st') -> st'.1 = st.1.
Proof.
  unfold Connect. intros H. apply bind_run_Err in H as [H|(o & st1 & Hg & H)]; [by injection H|].
  injection Hg as _ <-. do 3 (case_if_in H; [by injection H as _ <-|]).
  apply bind_run_Err in H as [H|(u & st2 & Hv & H)].
  - revert H. case_if; [|done]. case_if; [by intros [= _ <-]|]. intros H.
    apply bind_run_Err in H as [H|(r & st3 & Ha & H)]; [by apply attempt_no_Err in H|].
    apply (keeps_attempt _ (keeps_lift _)) in Ha. rewrite <- Ha. destruct r; by injection H as _ <-.
  - assert (Hk : st2.1 = st.1).
    { match type of Hv with ?m _ = _ => assert (K : keeps m) by keeps_tac end. by apply K in Hv. }
    rewrite <- Hk. case_if_in H.
    + unfold autoConnect in H. apply bind_run_Err in H as [H|(o' & st3 & Hg & H)]; [by injection H|].
      injection Hg as _ <-. case_if_in H; by apply tryPairs_Err in H.
    + by apply connectOnce_Err in H.
Qed.

End Failures.

(** ** A scripted environment for the witnesses *)

(** The answers still to come, the waits the context survives, and whether
    it has ended. *)
Record Script := mkScript { sc_answers : list bytes; sc_waits : nat; sc_ended : bool }.

#[export] Instance script_transport : Transport Script := {|
  t_dial _ _ _ w := (inl (External true "i/o timeout"), w);
  t_cotpConnect _ _ _ _ _ w := (inl (External false "refused"), w);
  t_WriteTSDU _ _ _ w := (inr tt, w);
  t_ReadTSDU _ _ w :=
    match sc_answers w with
    | [] => (inl (External true "i/o timeout"), w)
    | a :: rest => (inr a, mkScript rest (sc_waits w) (sc_ended w))
    end;
  t_Close _ w := (None, w);
  t_ctxErr _ w := (if sc_ended w then Some (Sentinel ContextCanceled) else None, w);
  t_wait _ _ w :=
    match sc_waits w with
    | O => (true, mkScript (sc_answers w) O true)
    | S n => (false, mkScript (sc_answers w) n (sc_ended w))
    end;
  t_duration _ := ""
|}.

Lemma script_ctx_done ctx : ctx_done_has_err (W := Script) ctx.
Proof.
  intros d w w' w'' o Hw He. simpl in *. destruct (sc_waits w); [|done]. injection Hw as <-.
  simpl in He. injection He as <- _. by eexists.
Qed.

(** A client of 8-byte read chunks with a rate limit. *)
Definition script_client : Client :=
  set_connection (Some 7) 0 1 256 769 32 1 1 (New "plc" [WithRateLimit 1000]).

Definition script_answer (ref : Z) (b : bytes) : bytes :=
  ack_read ref (mkReadVarResult xff x04 (len b * 8) b).

(** ** Theorems *)

(** An odd negotiated PDU size defeats [WriteArea]: its chunk size leaves
    no room for the fill byte of an odd chunk, so a write of at least one full
    chunk fails in the client with [ErrRequestExceedsPDU] and nothing is sent. *)
Theorem WriteArea_odd_pdu {W} `{!Transport W} `{!S7Peer W} ctx conn c (w : W) addr dat :
  connected ctx conn c w -> Z.odd (c_pduSize c) = true ->
  WriteVarRequestOverhead < c_pduSize c <= 8219 -> c_pduSize c - WriteVarRequestOverhead <= len dat ->
  0 <= a_DBNumber addr <= MaxS7AnyDBNumber -> 0 <= a_Start addr <= MaxS7AnyByteOffset -> 0 <= a_Size addr ->
  a_Start addr + len dat <= MaxS7AnyByteOffset + 1 ->
  exists e c' w', WriteArea ctx addr dat (c, w) = (Err e, (c', w')) /\
    errors_Is e ErrRequestExceedsPDU = true /\ peer_memory w' = peer_memory w.
Proof.
  intros Hc Hodd Hp Hlen Hdb Hst Hsz Hend. pose proof Hc as (Hconn & Hpe & _). rewrite Hpe in *.
  destruct (WriteArea_prefix ctx conn c w addr dat) as (w1 & S1 & ->); [done | lia | done..|].
  change WriteVarRequestOverhead with 28 in *. rewrite MaxS7AnyByteOffset_value in *.
  pose proof (connected_stays _ _ _ _ _ Hc S1) as Hc1. pose proof S1 as (_ & Hm & Hpe1).
  set (n := peer_pdu conn w - 28) in *.
  destruct (planReadChunks (len dat) n) as [|n' chunks] eqn:Ec;
    [by apply planReadChunks_nonempty in Ec; [|lia]|].
  destruct (planReadChunks_spec (len dat) n) as (HF & Hs & Hfull). rewrite Ec in *.
  replace (n <=? 0) with false in * by lia. apply Forall_cons in HF as [Hn HF].
  assert (n' = n) as ->.
  { destruct chunks as [|x chunks]; [simpl in Hs; lia|]. by apply (Hfull [] n' (x :: chunks)). }
  destruct (writeChunks_too_long ctx conn c w1 addr dat (o_rateLimit (c_opts c)) n chunks 0 true)
    as (e & c' & w' & Hrun & He & Hm'); [done | | lia | | | lia | | |].
  - rewrite Hpe. lia.
  - change MaxWriteVarBytes with 8191. lia.
  - destruct Hc1 as (_ & -> & _). change WriteVarRequestOverhead with 28.
    rewrite Hpe1. apply Z.odd_spec in Hodd as [q Hq]. unfold n. Z.div_mod_to_equations. lia.
  - lia.
  - unfold s7any_in_range, MaxS7AnyCount. rewrite MaxS7AnyByteOffset_value. simpl. lia.
  - exists e, c', w'. split; [done|]. split; [done|]. by rewrite Hm', Hm.
Qed.

(** C22: for every environment, every read that returns a result reports the
    requested length, as many returned bytes as it delivers and never more
    than requested; success means exactly the requested bytes, and a rejection
    without a cause carries a refusing item code. *)
Theorem ReadArea_outcome {W} `{!Transport W} ctx addr (st st' : Client * W) r :
  ctx_done_has_err (W := W) ctx -> ReadArea ctx addr st = (Ok r, st') ->
  RequestedLength r = a_Size addr /\ ReturnedLength r = len (ResultData r) /\
  len (ResultData r) <= a_Size addr /\
  (OK (Some r) = true -> len (ResultData r) = a_Size addr) /\
  (Status r = ReadStatusRejected -> Cause r = None -> ResultReturnCode r <> RetCodeSuccess).
Proof.
  intros Hctx H. apply ReadArea_wf in H as (H1 & H2 & H3 & H4 & H5); [|done].
  split_and!; try done. simpl. intros Hok. apply H4. by apply bool_decide_eq_true_1 in Hok.
Qed.

(** Witness of C22: a read whose context ends in the pause after the first
    chunk. *)
Lemma ReadArea_outcome_witness :
  exists r st', ReadArea (Caller 0) (mkAddress AreaDB 1 0 10)
      (script_client, mkScript [script_answer 1 (replicate 8 x01)] 0 false) = (Ok r, st') /\
    RequestedLength r = 10 /\ ReturnedLength r = len (ResultData r) /\ len (ResultData r) <= 10 /\
    (OK (Some r) = true -> len (ResultData r) = 10) /\
    (Status r = ReadStatusRejected -> Cause r = None -> ResultReturnCode r <> RetCodeSuccess).
Proof.
  eexists _, _. split; [vm_compute; reflexivity|].
  apply (ReadArea_outcome (Caller 0) (mkAddress AreaDB 1 0 10)
           (script_client, mkScript [script_answer 1 (replicate 8 x01)] 0 false)
           (set_pduRef 1 script_client, mkScript [] 0 true)).
  - apply script_ctx_done.
  - vm_compute. reflexivity.
Defined.

(** C23: [sendReceive] returns the sections of the answer, and the one way it
    panics is an error-free answer with the expected reference whose two
    lengths add up to 65536 or more: their 16-bit sum wraps below the first. *)
Theorem sendReceive_panics_iff {W} `{!Transport W} ctx req ref c (w w' : W) conn a :
  is_nil ctx = false -> c_conn c = Some conn -> (c_pduSize c <= 0 \/ len req <= c_pduSize c) ->
  exchange ctx conn req w a w' ->
  sendReceive ctx req ref (c, w) = (sections a ref, (c, w')) /\
  (sections a ref = Panic <->
   exists h rest, ParseS7Header a = Ok (h, rest) /\ (ref = 0 \/ PDURef h = ref) /\
     ErrorClass h = x00 /\ ErrorCode h = x00 /\ 65536 <= ParamLength h + DataLength h).
Proof.
  intros Hn Hc Hp Hex. split; [by eapply sendReceive_exchange|]. apply sections_panic.
Qed.

(** Witness of C23: an ordinary answer. *)
Lemma sendReceive_panics_iff_witness :
  let a := script_answer 1 [x05] in
  sendReceive (Caller 0) [x32] 1 (script_client, mkScript [a] 0 false) = (sections a 1, (script_client, mkScript [] 0 false)) /\
  (sections a 1 = Panic <->
   exists h rest, ParseS7Header a = Ok (h, rest) /\ (1 = 0 \/ PDURef h = 1) /\
     ErrorClass h = x00 /\ ErrorCode h = x00 /\ 65536 <= ParamLength h + DataLength h).
Proof.
  intros a. apply (sendReceive_panics_iff (Caller 0) [x32] 1 script_client (mkScript [a] 0 false) (mkScript [] 0 false) 7 a).
  - reflexivity.
  - reflexivity.
  - right. vm_compute. discriminate.
  - exists (mkScript [a] 0 false), (mkScript [a] 0 false). split; [reflexivity|]. split; reflexivity.
Defined.

(** A [Connect] that fails, with explicit or automatic rack and slot,
    leaves the client exactly as it was: an existing session is not dropped. *)
Theorem Connect_failure_keeps_session {W} `{!Transport W} ctx c (w w' : W) c' e :
  Connect ctx (c, w) = (Err e, (c', w')) -> c' = c.
Proof. apply (Connect_Err ctx (c, w) e (c', w')). Qed.

(** An instance: a connected client whose reconnect cannot dial. *)
Lemma Connect_failure_keeps_session_witness :
  exists e w', Connect (Caller 0) (script_client, mkScript [] 0 false) = (Err e, (script_client, w')) /\
    script_client = script_client.
Proof.
  eexists _, _. split; [vm_compute; reflexivity|].
  eapply (Connect_failure_keeps_session (Caller 0) script_client (mkScript [] 0 false)). vm_compute. reflexivity.
Defined.

(** An instance: a negotiated size of 33 and six bytes. *)
Lemma WriteArea_odd_pdu_witness :
  exists e c' w', WriteArea (Caller 0) (mkAddress AreaDB 1 0 6) (replicate 6 x01)
      (set_connection (Some 7) 0 1 256 769 33 1 1 (New "plc" []), mkNet 480 demo_memory {[7 := mkLConn 33 []]} 8) =
      (Err e, (c', w')) /\
    errors_Is e ErrRequestExceedsPDU = true /\
    peer_memory w' = peer_memory (mkNet 480 demo_memory {[7 := mkLConn 33 []]} 8).
Proof.
  apply (WriteArea_odd_pdu (W := Net) (Caller 0) 7
    (set_connection (Some 7) 0 1 256 769 33 1 1 (New "plc" [])) (mkNet 480 demo_memory {[7 := mkLConn 33 []]} 8)
    (mkAddress AreaDB 1 0 6) (replicate 6 x01)).
  - split; [reflexivity|]. split; [reflexivity|]. split; [split; vm_compute; discriminate || reflexivity|].
    split; [reflexivity|]. exists 33. split; [reflexivity|]. split; [exact demo_memory_ok|].
    repeat split; vm_compute; discriminate.
  - reflexivity.
  - split; vm_compute; discriminate || reflexivity.
  - vm_compute. discriminate.
  - split; vm_compute; discriminate.
  - split; vm_compute; discriminate.
  - vm_compute. discriminate.
  - vm_compute. discriminate.
Defined.

(** A read or write outside the S7ANY address space (negative start or
    size, DB number or last byte out of range) fails with a [ValidationError]
    before anything is sent: the environment and the client are untouched. *)
Theorem invalid_address_sends_nothing {W} `{!Transport W} ctx addr dat (st : Client * W) :
  let bad n := ~ (0 <= a_Start addr <= MaxS7AnyByteOffset /\ 0 <= a_Size addr /\
                  0 <= a_DBNumber addr <= MaxS7AnyDBNumber /\ a_Start addr + n <= MaxS7AnyByteOffset + 1) in
  (bad (a_Size addr) -> exists msg, ReadArea ctx addr st = (Err (ValidationError msg), st)) /\
  (bad (len dat) -> exists msg, WriteArea ctx addr dat st = (Err (ValidationError msg), st)).
Proof.
  intros bad.
  unfold ReadArea, WriteArea. split; intros Hb; destruct (validate_invalid _ _ Hb) as (msg & [E | [E E2]]); exists msg;
    rewrite bind_run; unfold lift; rewrite E; [done | | done |]; rewrite bind_run; by rewrite E2.
Qed.

(** An instance: a start past the last byte address. *)
Lemma invalid_address_sends_nothing_witness :
  exists msg, ReadArea (Caller 0) (mkAddress AreaDB 1 2097152 1) (script_client, mkScript [] 0 false) =
    (Err (ValidationError msg), (script_client, mkScript [] 0 false)).
Proof.
  apply (invalid_address_sends_nothing (Caller 0) (mkAddress AreaDB 1 2097152 1) [] (script_client, mkScript [] 0 false)).
  simpl. rewrite MaxS7AnyByteOffset_value. lia.
Defined.

(** ** A short chunk followed by another *)

(** A read of ten bytes in chunks of eight: the peer answers the first chunk
    with two bytes only and the second in full.  The client goes on after the
    short chunk, so the bytes of offsets 8 and 9 are delivered at positions 2
    and 3 of the data of a short read. *)
Lemma ReadArea_short_chunk_shifts :
  exists r st', ReadArea (Caller 0) (mkAddress AreaDB 1 0 10)
      (script_client, mkScript [script_answer 1 [x10; x11]; script_answer 2 [x18; x19]] 5 false) = (Ok r, st') /\
    Status r = ReadStatusShortRead /\ ResultData r = [x10; x11; x18; x19].
Proof. eexists _, _. split; [vm_compute; reflexivity|]. split; reflexivity. Qed.

(** An answer that makes [sendReceive] panic: 65535 bytes of parameter and one
    of data are announced and delivered, without error. *)
Definition wrapping_answer : bytes :=
  s7Header ROSCTRAckData 1 65535 1 ++ [x00; x00] ++ replicate (Z.to_nat 65536) x00.

Lemma sendReceive_wraps :
  sections wrapping_answer 1 = Panic.
Proof.
  apply sections_panic. eexists _, (replicate (Z.to_nat 65536) x00). split.
  - apply ParseS7Header_ack; [done | unfold is_u16; lia.. |]. rewrite length_replicate. lia.
  - split; [by right|]. split; [done|]. split; [done|]. simpl. lia.
Qed.
