(* ===== verification/BlockProps.v ===== *)
(** * Properties of the SZL and block operations

    Reassembly of responses and uploads that come in several messages, the
    bounds on what a hostile CPU can make the client do, the session an upload
    keeps, and the safety of every client operation. *)

From S2P Require Import Prelude Go WireErrors Header ReadWrite Client ClientRW Userdata ClientSZL ClientBlocks Triple Safety Trace Cpu.

(** ** Theorems *)

(** C21: no sequence of client operations panics, whatever the network does,
    as long as it delivers no TSDU of more than 65545 bytes and the contexts
    are not nil: every operation returns a value or an error, and the
    reference counter stays in its range. *)
Theorem client_never_panics {W} `{!Transport W} ops c (w : W) :
  answers_fit (W := W) -> Forall (fun p => is_nil p.1 = false) ops -> client_pduRef_ok c ->
  exists errs c' w', run_ops ops (c, w) = (Ok errs, (c', w')) /\ length errs = length ops /\ client_pduRef_ok c'.
Proof.
  intros Hf Hn Hc. pose proof (ok_run_ops ops Hf Hn (c, w) Hc) as H.
  destruct (run_ops ops (c, w)) as [[errs|e|] [c' w']] eqn:E; simpl in H.
  - exists errs, c', w'. split; [done|]. by destruct H.
  - by apply run_ops_no_Err in E.
  - done.
Qed.

(** Witness of C21: operations against a CPU that has no answer left. *)
Lemma client_never_panics_witness :
  let ops := [(Caller 0, OpIdentify); (Caller 0, OpUploadBlock BlockDB 1); (Caller 0, OpReadArea (mkAddress AreaDB 1 0 4));
              (Caller 0, OpConnect); (Caller 0, OpListAllBlocks)] in
  exists errs c' w', run_ops ops (cpu_client, mkCpu [] [] [(false, [x01])]) = (Ok errs, (c', w')) /\
    length errs = length ops /\ client_pduRef_ok c'.
Proof.
  intros ops. apply (client_never_panics ops cpu_client (mkCpu [] [] [(false, [x01])])).
  - apply cpu_answers_fit.
  - repeat constructor.
  - unfold client_pduRef_ok, is_u32. simpl. lia.
Defined.

(** C24: the user data exchange returns the payloads of all packets in order
    when the CPU serves the response in up to 257 packets, quoting the last
    sequence number in each follow-up; a response of more packets is given up
    with [ErrProtocolFailure]. *)
Theorem userdata_reassembles {W} `{!Transport W} ctx conn group subfunc req ref pk ps c (w w1 w2 : W) :
  is_nil ctx = false -> b2z group < 16 -> session_for conn (Z.max 26 (len req)) c -> valid_ref ref ->
  16 + len (pk_payload pk) <= MaxUint16 ->
  exchange ctx conn req w (userdata_answer ref group subfunc (pk_seq pk) (more_follows ps) (pk_payload pk)) w1 ->
  serves ctx conn group subfunc (pk_seq pk) ps w1 w2 ->
  exists r p w3, userdata ctx req ref group subfunc (c, w) = (r, (set_pduRef p c, w3)) /\
    if len ps <=? maxUserdataFollowUps
    then r = Ok (userdata_data (pk_payload pk), payloads (pk :: ps)) /\ w3 = w2
    else exists e, r = Err e /\ errors_Is e ErrProtocolFailure = true.
Proof. intros. eapply userdata_serves; eassumption. Qed.

(** Witness of C24: a response in three packets. *)
Lemma userdata_reassembles_witness :
  let p1 := mkPacket x05 [x01; x02] in
  let ps := [mkPacket x06 [x03]; mkPacket x07 [x04; x05]] in
  exists r p w3, userdata (Caller 0) (EncodeSZLRequest 9 SZLModuleID 0) 9 UserdataGroupCPU UserdataSZL
      (cpu_client, mkCpu [] (p1 :: ps) []) = (r, (set_pduRef p cpu_client, w3)) /\
    if len ps <=? maxUserdataFollowUps
    then r = Ok (userdata_data [x01; x02], payloads (p1 :: ps)) /\ w3 = mkCpu [] [] []
    else exists e, r = Err e /\ errors_Is e ErrProtocolFailure = true.
Proof.
  intros p1 ps.
  apply (userdata_reassembles (Caller 0) 7 UserdataGroupCPU UserdataSZL (EncodeSZLRequest 9 SZLModuleID 0) 9 p1 ps
    cpu_client (mkCpu [] (p1 :: ps) []) (mkCpu [] ps []) (mkCpu [] [] [])).
  - reflexivity.
  - reflexivity.
  - apply cpu_session. vm_compute. discriminate.
  - split; vm_compute; discriminate.
  - vm_compute. discriminate.
  - apply (cpu_first (Caller 0) UserdataGroupCPU UserdataSZL 9
      ([RetCodeSuccess; x09] ++ put16 4 ++ put16 SZLModuleID ++ put16 0) p1 ps []).
    + reflexivity.
    + vm_compute. discriminate.
    + split; vm_compute; discriminate.
    + vm_compute. discriminate.
  - apply cpu_serves; [reflexivity|]. repeat (constructor; [vm_compute; discriminate|]). constructor.
Defined.

(** A CPU that keeps answering "more data follows" cannot hold the
    client: over every network the user data exchange hands the transport the
    request and at most 256 follow-ups, each a follow-up of the same group and
    subfunction. *)
Theorem userdata_bounded {W} `{!Transport W} ctx req ref group subfunc c (w : Traced W) :
  exists sent, tr_log (userdata ctx req ref group subfunc (c, w)).2.2 = tr_log w ++ sent /\
    (sent = [] \/ exists fs, sent = req :: fs /\ len fs <= maxUserdataFollowUps /\ follow_ups group subfunc fs).
Proof.
  destruct (emits_run (c_conn c) (c_pduSize c) _ _ c w
    (emits_userdata (c_conn c) (c_pduSize c) ctx req ref group subfunc) eq_refl eq_refl) as (sent & Hl & Hs).
  exists sent. split; [done|]. destruct Hs as [->|(fs & -> & Hn & Hf)]; [by left|right].
  exists fs. split; [done|]. split; [unfold maxUserdataFollowUps; lia | done].
Qed.

(** C25: an upload that begins is ended: the requests [UploadBlock] hands the
    transport are none, or the start request alone when it was not accepted,
    or the start request, at most 12288 requests for segments of the upload
    the CPU named, and the end request of that upload, on every path; a
    successful upload has the last form. *)
Theorem upload_session_closed {W} `{!Transport W} ctx bt num c (w : Traced W) r c' w' :
  UploadBlock ctx bt num (c, w) = (r, (c', w')) -> r <> Panic ->
  exists sent, tr_log w' = tr_log w ++ sent /\ upload_trace bt num r sent.
Proof.
  intros H Hr.
  destruct (emits_run (c_conn c) (c_pduSize c) _ _ c w
    (emits_UploadBlock (c_conn c) (c_pduSize c) ctx bt num) eq_refl eq_refl) as (sent & Hl & Hs).
  rewrite H in Hl, Hs. simpl in *. exists sent. auto.
Qed.

(** Witness of C25: an upload of which the second segment never arrives. *)
Lemma upload_session_closed_witness :
  exists r c' w', UploadBlock (Caller 0) BlockDB 1 (cpu_client, mkTraced (mkCpu [] [] [(false, [x01])]) []) = (r, (c', w')) /\
    exists sent, tr_log w' = [] ++ sent /\ upload_trace BlockDB 1 r sent.
Proof.
  eexists _, _, _. split; [vm_compute; reflexivity|].
  eapply (upload_session_closed (Caller 0) BlockDB 1 cpu_client (mkTraced (mkCpu [] [] [(false, [x01])]) [])).
  - vm_compute. reflexivity.
  - discriminate.
Defined.

(** C26: [UploadBlock] returns the segments in order, for every block type
    and number it accepts, when the CPU delivers each within three requests
    and there are at most 4096 of them, with some data; the length the CPU
    announced is not part of it. *)
Theorem UploadBlock_reassembles {W} `{!Transport W} ctx conn bt num id announced segs c (w w1 w2 : W) :
  answers_fit (W := W) -> is_nil ctx = false -> session_for conn 28 c ->
  validBlockType bt = true -> 0 <= num <= 65535 -> is_u32 id -> len announced <= 255 ->
  (forall ref start, valid_ref ref -> EncodeStartUploadRequest ref bt num = Ok start ->
     exchange ctx conn start w (start_answer ref id announced) w1) ->
  uploads ctx conn id segs w1 w2 -> len segs <= maxUploadChunks -> mjoin segs <> [] ->
  exists st', UploadBlock ctx bt num (c, w) = (Ok (mkBlockData (listed_block bt num x00 x00) (mjoin segs)), st').
Proof. intros. eapply UploadBlock_uploads; eassumption. Qed.

(** Witness of C26: the answer to the second request is lost; the CPU repeats
    the segment. *)
Lemma UploadBlock_reassembles_witness :
  exists st', UploadBlock (Caller 0) BlockDB 1
      (cpu_client, mkCpu [] [] [(false, [x01; x02]); (true, [x03]); (false, [x03])]) =
    (Ok (mkBlockData (listed_block BlockDB 1 x00 x00) (mjoin [[x01; x02]; [x03]])), st').
Proof.
  apply (UploadBlock_reassembles (Caller 0) 7 BlockDB 1 7 [x30; x39] [[x01; x02]; [x03]] cpu_client
    (mkCpu [] [] [(false, [x01; x02]); (true, [x03]); (false, [x03])])
    (mkCpu [] [] [(false, [x01; x02]); (true, [x03]); (false, [x03])]) (mkCpu [] [] [])).
  - apply cpu_answers_fit.
  - reflexivity.
  - apply cpu_session. lia.
  - reflexivity.
  - lia.
  - unfold is_u32. lia.
  - vm_compute. discriminate.
  - intros. by apply cpu_start with (bt := BlockDB) (num := 1).
  - eapply uploads_more; [vm_compute; discriminate | |].
    + apply (cpu_delivers (Caller 0) 7 [] [x01; x02] [(true, [x03]); (false, [x03])] 0 3); [vm_compute; discriminate | lia].
    + eapply uploads_last; [vm_compute; discriminate|].
      apply (cpu_delivers (Caller 0) 7 [] [x03] [] 1 3); [vm_compute; discriminate | lia].
  - vm_compute. discriminate.
  - discriminate.
Defined.

(** A CPU that answers each request with the next segment, as
    [EncodeUploadRequest] documents: when the answer with the second segment
    is lost, the retry fetches the third, and the block is returned without
    error and without the second. *)
Lemma UploadBlock_skips_lost_segment :
  exists st', UploadBlock (Caller 0) BlockDB 1
      (cpu_client, mkCpu [] [] [(false, [x01]); (true, [x02]); (false, [x03])]) =
    (Ok (mkBlockData (listed_block BlockDB 1 x00 x00) [x01; x03]), st').
Proof. eexists _. vm_compute. reflexivity. Qed.

(** [szlRecords] gives exactly the whole records that arrived, in order
    and no more than the count says, for every list with a record length; a
    list without one is refused. *)
Theorem szlRecords_exact data size count :
  4 <= len data -> (slice data 0 2 ≫= Uint16) = Ok size -> (slice data 2 4 ≫= Uint16) = Ok count ->
  if size =? 0 then exists e, szlRecords data = Err e
  else exists recs, szlRecords data = Ok recs /\ Forall (fun r => len r = size) recs /\
    len recs = Z.min count ((len data - 4) / size) /\
    mjoin recs = take (Z.to_nat (len recs * size)) (drop 4 data).
Proof.
  intros Hl Hs Hc. case_if; b2p; [|by apply szlRecords_ok]. unfold szlRecords. if_arith.
  rewrite Hs, bind_Ok, Hc, bind_Ok. subst size. by eexists.
Qed.

(** An instance: three records announced, two and a half received. *)
Lemma szlRecords_exact_witness :
  let data := [x00; x02; x00; x03; x0a; x0b; x0c; x0d; x0e] in
  exists recs, szlRecords data = Ok recs /\ Forall (fun r => len r = 2) recs /\
    len recs = Z.min 3 ((len data - 4) / 2) /\ mjoin recs = take (Z.to_nat (len recs * 2)) (drop 4 data).
Proof.
  intros data. apply (szlRecords_exact data 2 3).
  - vm_compute. discriminate.
  - reflexivity.
  - reflexivity.
Defined.

(** The return contract of [Identify]: it returns no information exactly
    when neither SZL list could be obtained and split into full records, and
    no error exactly when both could. *)
Theorem Identify_contract {W} `{!Transport W} ctx (st : Client * W) r1 st1 r2 st2 :
  readModuleIDSZL ctx st = (r1, st1) -> readComponentIDSZL ctx st1 = (r2, st2) ->
  r1 <> Panic -> r2 <> Panic ->
  exists o e, Identify ctx st = (Ok (o, e), st2) /\
    (o = None <-> obtained moduleIDRecordSize r1 = false /\ obtained componentIDRecordSize r2 = false) /\
    (e = None <-> obtained moduleIDRecordSize r1 = true /\ obtained componentIDRecordSize r2 = true).
Proof. apply Identify_outcome. Qed.

(** Witness of C39: the module list arrives, the component list does not. *)
Definition module_list : bytes :=
  [x00; x11; x00; x00; x00; x1c; x00; x01; x00; x01] ++ replicate 26 x41.

Lemma Identify_contract_witness :
  exists r1 st1 r2 st2 o e,
    readModuleIDSZL (Caller 0) (cpu_client, mkCpu [] [mkPacket x01 module_list] []) = (r1, st1) /\
    readComponentIDSZL (Caller 0) st1 = (r2, st2) /\
    Identify (Caller 0) (cpu_client, mkCpu [] [mkPacket x01 module_list] []) = (Ok (o, e), st2) /\
    (o = None <-> obtained moduleIDRecordSize r1 = false /\ obtained componentIDRecordSize r2 = false) /\
    (e = None <-> obtained moduleIDRecordSize r1 = true /\ obtained componentIDRecordSize r2 = true).
Proof.
  destruct (readModuleIDSZL (Caller 0) (cpu_client, mkCpu [] [mkPacket x01 module_list] [])) as [r1 st1] eqn:E1.
  destruct (readComponentIDSZL (Caller 0) st1) as [r2 st2] eqn:E2.
  assert (H1 : r1 <> Panic) by (vm_compute in E1; injection E1 as <- _; discriminate).
  assert (H2 : r2 <> Panic).
  { vm_compute in E1. injection E1 as _ <-. vm_compute in E2. injection E2 as <- _. discriminate. }
  destruct (Identify_contract (Caller 0) _ r1 st1 r2 st2 E1 E2 H1 H2) as (o & e & H).
  exists r1, st1, r2, st2, o, e. split; [reflexivity|]. split; [exact E2 | exact H].
Defined.

(** [ListBlocks] returns the whole block list, however the CPU cuts it
    into packets: exactly one block per entry, in order, with its number,
    language and flags and the type that was asked for. *)
Theorem ListBlocks_complete {W} `{!Transport W} ctx conn bt entries pk ps c (w w1 w2 : W) :
  is_nil ctx = false -> session_for conn 26 c -> len ps <= maxUserdataFollowUps ->
  16 + len (pk_payload pk) <= MaxUint16 ->
  (forall ref, valid_ref ref ->
     exchange ctx conn (EncodeBlockListRequest ref bt) w
       (userdata_answer ref UserdataGroupBlock UserdataBlockList (pk_seq pk) (more_follows ps) (pk_payload pk)) w1) ->
  serves ctx conn UserdataGroupBlock UserdataBlockList (pk_seq pk) ps w1 w2 ->
  payloads (pk :: ps) = mjoin (block_entry <$> entries) ->
  Forall (fun e => is_u16 (be_BlockNumber e) /\ be_BlockType e = x00) entries ->
  exists p, ListBlocks ctx bt (c, w) =
    (Ok ((fun e => listed_block bt (be_BlockNumber e) (be_Language e) (be_Flags e)) <$> entries), (set_pduRef p c, w2)).
Proof.
  intros Hn Hc Hps Hl Hx Hs Hpay He. unfold ListBlocks.
  destruct (session_nextPDURef conn 26 c w Hc) as (ref & p & Hr & Href & Hc1). rewrite (bind_run_Ok _ _ _ _ _ Hr).
  destruct (userdata_serves ctx conn Hn UserdataGroupBlock UserdataBlockList (EncodeBlockListRequest ref bt) ref pk ps
    w w1 w2 (set_pduRef p c)) as (r & q & w3 & Hrun & Hres); [done | done | done | done | by apply Hx | done|].
  replace (len ps <=? maxUserdataFollowUps) with true in Hres by lia. destruct Hres as [-> ->].
  rewrite (bind_run_Ok _ _ _ _ _ Hrun). rewrite Hpay.
  rewrite (bind_run_Ok _ _ _ (set_pduRef q (set_pduRef p c), w2) (inr entries))
    by by apply attempt_lift_Ok, ParseBlockListResponse_encode.
  by exists q.
Qed.

(** An instance: two blocks, the packets cut inside the first entry. *)
Lemma ListBlocks_complete_witness :
  let e1 := mkBlockListEntry x00 1 x05 x22 in
  let e2 := mkBlockListEntry x00 300 x01 x23 in
  let pk := mkPacket x01 [x00; x01; x22] in
  let ps := [mkPacket x02 [x05; x01; x2c; x23; x01]] in
  exists p, ListBlocks (Caller 0) BlockDB (cpu_client, mkCpu [] (pk :: ps) []) =
    (Ok [listed_block BlockDB 1 x05 x22; listed_block BlockDB 300 x01 x23], (set_pduRef p cpu_client, mkCpu [] [] [])).
Proof.
  intros e1 e2 pk ps.
  apply (ListBlocks_complete (Caller 0) 7 BlockDB [e1; e2] pk ps cpu_client (mkCpu [] (pk :: ps) [])
    (mkCpu [] ps []) (mkCpu [] [] [])).
  - reflexivity.
  - apply cpu_session. lia.
  - vm_compute. discriminate.
  - vm_compute. discriminate.
  - intros ref Hr. apply (cpu_first (Caller 0) UserdataGroupBlock UserdataBlockList ref
      [RetCodeSuccess; x09; x00; x02; x30; BlockDB] pk ps []).
    + reflexivity.
    + vm_compute. discriminate.
    + exact Hr.
    + vm_compute. discriminate.
  - apply cpu_serves; [reflexivity|]. repeat (constructor; [vm_compute; discriminate|]). constructor.
  - reflexivity.
  - repeat constructor; vm_compute; (discriminate || reflexivity).
Defined.
